(* ===================================================================== *)
(*  Akile Monitor (Cloudflare Worker port): the MonitorDO durable object  *)
(*                                                                       *)
(*  A shallow embedding of                                               *)
(*    utils.ts      compareStrings, naturalCompare, decompressGzip       *)
(*    telegram.ts   checkOfflineStatus, sendTGMessage                    *)
(*    monitor-do.ts tryDecompressStringMessage and the MonitorDO class   *)
(*  followed by the properties of the monitor store, the frame decoder,  *)
(*  the agent authentication state machine, the liveness sweep, the      *)
(*  snapshot persistence and the viewer payload cache.                   *)
(*                                                                       *)
(*  Conventions.                                                         *)
(*  - A JavaScript string is the list of its UTF-16 code units (Z).      *)
(*  - A JavaScript number that the code only uses as an integer (a       *)
(*    parsed digit run, a Unix time stamp, a close code) is a Z; doubles *)
(*    are exact on integers below 2^53, which covers every time stamp    *)
(*    and every realistic host number.                                   *)
(*  - A JavaScript Map is an association list in insertion order: the    *)
(*    store is iterated, and Array.prototype.sort is stable, so the      *)
(*    order is observable.  Maps that are never iterated (the offline    *)
(*    flags) and the durable key-value table are gmaps.                  *)
(*  - The runtime (JSON, gzip stream, text codecs) is an interface, see  *)
(*    the class Runtime.                                                 *)
(* ===================================================================== *)

From Stdlib Require Import ZArith Lia String Ascii.
From Stdlib.Strings Require Import Byte.
From stdpp Require Import gmap list sorting.

Local Open Scope Z_scope.

(* ===================================================================== *)
(** * JavaScript strings *)
(* ===================================================================== *)

Abbreviation jsstring := (list Z).

(** String literals: every character of a Rocq string is one code unit. *)
Fixpoint js (s : string) : jsstring :=
  match s with
  | EmptyString => []
  | String c rest => Z.of_N (N_of_ascii c) :: js rest
  end.
Arguments js : simpl never.

(** [sa < sb] on strings: code units are compared left to right, a proper
    prefix is smaller. *)
Fixpoint str_lt (a b : jsstring) : bool :=
  match a, b with
  | _, [] => false
  | [], _ :: _ => true
  | x :: a', y :: b' =>
      if x <? y then true else if y <? x then false else str_lt a' b'
  end.

(** The character classes of the regular expressions of utils.ts
    (no [u] flag, no [i] flag). *)

(** [\s]: WhiteSpace and LineTerminator of ECMAScript. *)
Definition is_space (c : Z) : bool :=
  (9 <=? c) && (c <=? 13) || (c =? 32) || (c =? 160) || (c =? 5760)
  || (8192 <=? c) && (c <=? 8202) || (c =? 8232) || (c =? 8233)
  || (c =? 8239) || (c =? 8287) || (c =? 12288) || (c =? 65279).

(** [\d] *)
Definition is_digit (c : Z) : bool := (48 <=? c) && (c <=? 57).

(** [[a-zA-Z]] *)
Definition is_letter (c : Z) : bool :=
  (97 <=? c) && (c <=? 122) || (65 <=? c) && (c <=? 90).

(** The longest prefix whose code units satisfy [p], and the rest. *)
Fixpoint span (p : Z -> bool) (s : jsstring) : jsstring * jsstring :=
  match s with
  | [] => ([], [])
  | c :: rest =>
      if p c then let '(run, tl) := span p rest in (c :: run, tl)
      else ([], s)
  end.

(** The integer that a run of decimal digits spells. *)
Definition decimal (ds : jsstring) : Z :=
  fold_left (fun acc c => 10 * acc + (c - 48)) ds 0.

(** The Number value of a non-negative integer: the nearest double, the
    one with the even mantissa on a tie.  Below 2^53 that is the integer
    itself.  From 2^1024 - 2^970 on it is Infinity, which 2^1024 stands
    for here: all that the code does with such a number is compare it and
    hand it on. *)
Definition to_double (n : Z) : Z :=
  if n <? 2 ^ 53 then n
  else
    let e := Z.log2 n - 52 in
    let q := n / 2 ^ e in
    let r := n mod 2 ^ e in
    let q' :=
      if (2 ^ e <? 2 * r) || ((2 * r =? 2 ^ e) && Z.odd q) then q + 1
      else q in
    Z.min (q' * 2 ^ e) (2 ^ 1024).

(** [parseInt(ds, 10)] on a run of decimal digits: the Number value of the
    integer it spells (the engine reads every digit). *)
Definition parseInt10 (ds : jsstring) : Z := to_double (decimal ds).

(* ===================================================================== *)
(** * utils.ts: compareStrings and naturalCompare *)
(* ===================================================================== *)

Module Utils.

(** [str.replace(/\s+/g, "")] *)
Definition strip_ws (s : jsstring) : jsstring :=
  List.filter (fun c => negb (is_space c)) s.

(** [s.match(re)] for the anchored pattern of compareStrings, one or more
    letters [a-zA-Z] then any number of digits up to the end of the string:
    the two groups, or [None] for null.  Both groups are greedy and their classes are disjoint, so the only
    possible split is the longest run of letters followed by digits up to
    the end of the string. *)
Definition match_name (s : jsstring) : option (jsstring * jsstring) :=
  let '(letters, rest) := span is_letter s in
  match letters with
  | [] => None
  | _ :: _ => if forallb is_digit rest then Some (letters, rest) else None
  end.

(** The tokens of naturalCompare: [string | number]. *)
Inductive token :=
| TNum (n : Z)
| TStr (s : jsstring).

(** The successive matches of [/(\d+)|(\D+)/g]: the maximal runs of digits
    and of non-digits, each with its class ([true] for a digit run). *)
Fixpoint runs (s : jsstring) : list (bool * jsstring) :=
  match s with
  | [] => []
  | c :: rest =>
      match runs rest with
      | (d, run) :: more =>
          if Bool.eqb d (is_digit c) then (d, c :: run) :: more
          else (is_digit c, [c]) :: (d, run) :: more
      | [] => [(is_digit c, [c])]
      end
  end.

Definition token_of_run (r : bool * jsstring) : token :=
  if r.1 then TNum (parseInt10 r.2) else TStr r.2.

Definition tokenize (s : jsstring) : list token := token_of_run <$> runs s.

(** The loop of naturalCompare over the common prefix of the two token
    arrays: [Some r] when the loop returns [r], [None] when it runs to its
    end. *)
Fixpoint compare_tokens (ta tb : list token) : option Z :=
  match ta, tb with
  | a :: ra, b :: rb =>
      match a, b with
      | TNum x, TNum y =>
          if x <? y then Some (-1)
          else if x >? y then Some 1
          else compare_tokens ra rb
      | TNum _, TStr _ => Some (-1)
      | TStr _, TNum _ => Some 1
      | TStr x, TStr y =>
          if str_lt x y then Some (-1)
          else if str_lt y x then Some 1
          else compare_tokens ra rb
      end
  | _, _ => None
  end.

Definition naturalCompare (a b : jsstring) : Z :=
  let tokensA := tokenize a in
  let tokensB := tokenize b in
  match compare_tokens tokensA tokensB with
  | Some r => r
  | None => Z.of_nat (length tokensA) - Z.of_nat (length tokensB)
  end.

(** The loop of compareStrings over the letter groups, up to the shorter
    length. *)
Fixpoint compare_letters (letter1 letter2 : jsstring) : option Z :=
  match letter1, letter2 with
  | c1 :: r1, c2 :: r2 =>
      if c1 <? c2 then Some (-1)
      else if c1 >? c2 then Some 1
      else compare_letters r1 r2
  | _, _ => None
  end.

(** [matches[2] ? parseInt(matches[2], 10) : 0] *)
Definition suffix_number (digits : jsstring) : Z :=
  match digits with
  | [] => 0
  | _ :: _ => parseInt10 digits
  end.

Definition compareStrings (str1 str2 : jsstring) : Z :=
  let s1 := strip_ws str1 in
  let s2 := strip_ws str2 in
  match match_name s1, match_name s2 with
  | Some (letter1, digits1), Some (letter2, digits2) =>
      match compare_letters letter1 letter2 with
      | Some r => r
      | None =>
          if (length letter1 <? length letter2)%nat then -1
          else if (length letter2 <? length letter1)%nat then 1
          else
            let num1 := suffix_number digits1 in
            let num2 := suffix_number digits2 in
            if num1 <? num2 then -1
            else if num1 >? num2 then 1
            else 0
      end
  | _, _ => naturalCompare s1 s2
  end.

(** [Array.prototype.sort(cmp)].  ECMAScript requires the sort to be stable
    and, for a consistent comparator, to return the sorted order; the
    stable insertion sort below is that list.  [cmp a b <= 0] keeps [a]
    before [b]. *)
Fixpoint sort_insert {A} (cmp : A -> A -> Z) (x : A) (l : list A) : list A :=
  match l with
  | [] => [x]
  | y :: rest =>
      if cmp x y <=? 0 then x :: l else y :: sort_insert cmp x rest
  end.

Definition Array_sort {A} (cmp : A -> A -> Z) (l : list A) : list A :=
  foldr (sort_insert cmp) [] l.

End Utils.

(* ===================================================================== *)
(** * The runtime interface and the data of types.ts *)
(* ===================================================================== *)

Abbreviation bytes := (list byte).

Definition byte_to_Z (b : byte) : Z := Z.of_N (Byte.to_N b).

(** Storing a number into a [Uint8Array] keeps its low eight bits. *)
Definition byte_of_Z (z : Z) : byte :=
  match Byte.of_N (Z.to_N (z mod 256)) with
  | Some b => b
  | None => x00
  end.

(** A WebSocket message: [string | ArrayBuffer]. *)
Inductive Message :=
| Text (s : jsstring)
| Binary (b : bytes).

(** [interface Host], as far as the object reads it, with its member typed
    as types.ts declares it: [Name] is a string, or [None] when the member
    is absent.  The object itself only tests the member for truthiness; a
    value whose [Host.Name] is truthy and not a string is told apart by
    [JSON_name_other] below and has no view here. *)
Record Host := mkHost {
  Name : option jsstring;
}.

(** [interface MonitorData]: the view of a parsed JSON value through the
    members the object reads.  [MHost] is [None] when [Host] is absent or
    null; [TimeStamp] is [None] when it is absent or not a number, and then
    every comparison with it is false.  [Rest] stands for the members that
    are never read here (Platform, CPU, State, ...).  The JSON text [null],
    on which reading [Host] throws, is viewed as a value without [Host]:
    every reader sits in a try block that drops the value in both cases. *)
Record MonitorData := mkMonitorData {
  MHost : option Host;
  TimeStamp : option Z;
  Rest : jsstring;
}.

(** [interface HostInfo] *)
Record HostInfo := mkHostInfo {
  name : jsstring;
  due_time : Z;
  buy_url : jsstring;
  seller : jsstring;
  price : jsstring;
}.

(** What the Workers runtime provides.  [None] stands for a thrown
    exception.  Two facts about the formats are part of the interface: a
    gzip stream begins with the magic bytes 1f 8b (RFC 1952), and no JSON
    text begins with the control character U+001F (RFC 8259). *)
Class Runtime := {
  JSON_parse : jsstring -> option MonitorData;
(** Whether the text parses to a value whose [Host.Name] is truthy and not
    a string.  types.ts declares the member a string and the specification
    calls the identity a string name; the view has no place for another
    kind of name, and what the object does with one is outside this
    model.  The properties that need the names to be strings say so. *)
JSON_name_other : jsstring -> bool;
  JSON_stringify : list MonitorData -> jsstring;
  JSON_stringify_HostInfo : HostInfo -> jsstring;
(** [new DecompressionStream("gzip")], written once and read to its end *)
gunzip : bytes -> option bytes;
(** [new TextDecoder().decode] *)
TextDecoder_decode : bytes -> jsstring;
(** [new TextEncoder().encode] *)
TextEncoder_encode : jsstring -> bytes;
gunzip_magic : forall b out,
  gunzip b = Some out -> exists rest, b = x1f :: x8b :: rest;
JSON_parse_control : forall s, JSON_parse (31 :: s) = None;
}.

(** [interface Env], the configuration members the object reads. *)
Record Env := mkEnv {
  AUTH_SECRET : jsstring;
  ENABLE_TG : jsstring;
  TG_TOKEN : jsstring;
  TG_CHAT_ID : jsstring;
}.

(** Truthiness of a string, and of an optional string member. *)
Definition truthy (s : jsstring) : bool :=
  match s with [] => false | _ :: _ => true end.

(** [m.Host?.Name] when it is truthy. *)
Definition host_name (m : MonitorData) : option jsstring :=
  match MHost m with
  | Some h =>
      match Name h with
      | Some n => if truthy n then Some n else None
      | None => None
      end
  | None => None
  end.

(** [decompressGzip] of utils.ts: the chunks read from the stream are
    concatenated and decoded as text; a stream error rejects. *)
Definition decompressGzip `{Runtime} (compressed : bytes) : option jsstring :=
  TextDecoder_decode <$> gunzip compressed.

(* ===================================================================== *)
(** * monitor-do.ts: tryDecompressStringMessage *)
(* ===================================================================== *)

(** [bytes[i] = message.charCodeAt(i) & 0xff] *)
Definition latin1_bytes (message : jsstring) : bytes :=
  List.map (fun c => byte_of_Z (Z.land c 255)) message.

(** The text whose code units are the given bytes. *)
Definition latin1_string (b : bytes) : jsstring := List.map byte_to_Z b.

(** The body of one try block that decompresses and then validates. *)
Definition decompress_and_check `{Runtime} (b : bytes) : option jsstring :=
  match decompressGzip b with
  | Some jsonStr =>
      match JSON_parse jsonStr with
      | Some _ => Some jsonStr
      | None => None
      end
  | None => None
  end.

Definition tryDecompressStringMessage `{Runtime} (message : jsstring)
  : option jsstring :=
  match JSON_parse message with
  | Some _ => Some message
  | None =>
      match decompress_and_check (latin1_bytes message) with
      | Some jsonStr => Some jsonStr
      | None =>
          match decompress_and_check (TextEncoder_encode message) with
          | Some jsonStr => Some jsonStr
          | None => None
          end
      end
  end.

(* ===================================================================== *)
(** * JavaScript Map with string keys *)
(* ===================================================================== *)

Module JsMap.
Section ops.
Context {V : Type}.

Definition t := list (jsstring * V).

Fixpoint get (k : jsstring) (m : t) : option V :=
  match m with
  | [] => None
  | (k', v) :: rest => if bool_decide (k' = k) then Some v else get k rest
  end.

Definition has (k : jsstring) (m : t) : bool :=
  match get k m with Some _ => true | None => false end.

(** An existing key keeps its place, a new key goes to the end. *)
Fixpoint set (k : jsstring) (v : V) (m : t) : t :=
  match m with
  | [] => [(k, v)]
  | (k', v') :: rest =>
      if bool_decide (k' = k) then (k', v) :: rest
      else (k', v') :: set k v rest
  end.

Definition delete (k : jsstring) (m : t) : t :=
  List.filter (fun e => negb (bool_decide (e.1 = k))) m.

Definition size (m : t) : nat := length m.

Definition keys (m : t) : list jsstring := m.*1.
End ops.
Arguments t : clear implicits.
Arguments has : simpl never.
Arguments delete : simpl never.
Arguments size : simpl never.
Arguments keys : simpl never.
End JsMap.

(* ===================================================================== *)
(** * telegram.ts: the liveness sweep *)
(* ===================================================================== *)

(** What a [fetch] of the Bot API does: it rejects, or it resolves with a
    response whose [ok] is the boolean. *)
Inductive FetchOutcome :=
| Rejects
| Resolves (ok : bool).

(** The network, as seen by one sweep: the outcome of the request that
    carries a given text. *)
Definition Network := jsstring -> FetchOutcome.

(** One sendMessage request. *)
Record TGRequest := mkTGRequest {
  tg_token : jsstring;
  tg_chat : jsstring;
  tg_text : jsstring;
}.

Module Telegram.

(** The message texts: a cross mark or a check mark, the name, and the
    words for offline or online. *)
Definition offlineMessage (name : jsstring) : jsstring :=
  [10060; 32] ++ name ++ [32; 31163; 32447; 20102].

Definition onlineMessage (name : jsstring) : jsstring :=
  [9989; 32] ++ name ++ [32; 19978; 32447; 20102].

(** [!token || !chatId || chatId === "0"] *)
Definition not_configured (token chatId : jsstring) : bool :=
  negb (truthy token) || negb (truthy chatId) || bool_decide (chatId = js "0").

(** [sendTGMessage]: the requests it issues and whether the promise it
    returns is fulfilled ([true]) or rejected.  The fetch and the reading
    of an error body sit in one try block. *)
Definition sendTGMessage (net : Network) (token chatId text : jsstring)
  : list TGRequest * bool :=
  if not_configured token chatId then ([], true)
  else
    match net text with
    | Rejects => ([mkTGRequest token chatId text], true)
    | Resolves _ => ([mkTGRequest token chatId text], true)
    end.

(** The state of the loop of checkOfflineStatus: the shared offline map and
    the requests issued so far. *)
Definition sweep_state : Type := gmap jsstring bool * list TGRequest.

(** [offlineMap.get(name)] as a condition. *)
Definition flagged (offlineMap : gmap jsstring bool) (name : jsstring) : bool :=
  match offlineMap !! name with
  | Some b => b
  | None => false
  end.

(** One iteration of the loop. *)
Definition sweep_step (net : Network) (token chatId : jsstring)
    (now thresholdSec : Z) (acc : sweep_state) (m : MonitorData)
  : sweep_state :=
  let '(offlineMap, sent) := acc in
  match host_name m with
  | None => acc
  | Some name =>
      let isStale :=
        match TimeStamp m with
        | Some ts => ts <? now - thresholdSec
        | None => false
        end in
      if isStale then
        if negb (flagged offlineMap name) then
          (<[name := true]> offlineMap,
           sent ++ (sendTGMessage net token chatId (offlineMessage name)).1)
        else acc
      else
        if flagged offlineMap name then
          (base.delete name offlineMap,
           sent ++ (sendTGMessage net token chatId (onlineMessage name)).1)
        else acc
  end.

(** [checkOfflineStatus]: the offline map after the call and the requests
    issued, in order.  [now_ms] is [Date.now()].  The promises are awaited
    together with [Promise.allSettled], which never rejects. *)
Definition checkOfflineStatus (net : Network) (now_ms : Z)
    (monitors : list MonitorData) (offlineMap : gmap jsstring bool)
    (token chatId : jsstring) (thresholdSec : Z) : sweep_state :=
  if not_configured token chatId then (offlineMap, [])
  else
    let now := now_ms / 1000 in
    fold_left (sweep_step net token chatId now thresholdSec) monitors
      (offlineMap, []).

End Telegram.

(* ===================================================================== *)
(** * The state of the durable object *)
(* ===================================================================== *)

Definition MONITOR_DATA_MAX_ENTRIES : nat := 500.
Arguments MONITOR_DATA_MAX_ENTRIES : simpl never.
Definition SNAPSHOT_MAX_AGE_SEC : Z := 300.
Definition ALARM_INTERVAL_MS : Z := 20000.
Definition OFFLINE_THRESHOLD_SEC : Z := 60.

Inductive WebSocketTag := agent | viewer.

#[global] Instance WebSocketTag_eq_dec : EqDecision WebSocketTag.
Proof. solve_decision. Defined.

(** The state kept in the attachment of an agent socket. *)
Record AgentAttachment := mkAttachment {
  authed : bool;
}.

(** A server-side socket held by the runtime: its tags, its serialized
    attachment, what was sent on it, and the code and reason it was closed
    with.  All of it outlives the in-memory object. *)
Record WebSocket := mkWebSocket {
  ws_tags : list WebSocketTag;
  ws_attachment : option AgentAttachment;
  ws_sent : list jsstring;
  ws_closed : option (Z * jsstring);
}.

(** [state.storage]: the key-value table and the alarm. *)
Record Storage := mkStorage {
  kv : gmap jsstring jsstring;
  scheduled : option Z;
}.

(** Calls whose number matters: a serialization of the snapshot list, a
    batched storage call, a Telegram request. *)
Inductive Effect :=
| Stringified
| StoragePut (entries : list (jsstring * jsstring))
| StorageDelete (keys : list jsstring)
| StorageDeleteOne (key : jsstring)
| TelegramSend (req : TGRequest).

(** The members of the class, then what the runtime injects ([state]), and
    the calls made so far, oldest first. *)
Record MonitorDO := mkMonitorDO {
  monitorData : JsMap.t jsstring;
  offlineMap : gmap jsstring bool;
  initialized : bool;
  cachedViewerPayload : option jsstring;
  storage : Storage;
  sockets : gmap nat WebSocket;
  effects : list Effect;
}.

Definition set_monitorData (f : JsMap.t jsstring -> JsMap.t jsstring)
    (o : MonitorDO) : MonitorDO :=
  mkMonitorDO (f (monitorData o)) (offlineMap o) (initialized o)
    (cachedViewerPayload o) (storage o) (sockets o) (effects o).

Definition set_offlineMap (f : gmap jsstring bool -> gmap jsstring bool)
    (o : MonitorDO) : MonitorDO :=
  mkMonitorDO (monitorData o) (f (offlineMap o)) (initialized o)
    (cachedViewerPayload o) (storage o) (sockets o) (effects o).

Definition set_initialized (b : bool) (o : MonitorDO) : MonitorDO :=
  mkMonitorDO (monitorData o) (offlineMap o) b
    (cachedViewerPayload o) (storage o) (sockets o) (effects o).

Definition set_cachedViewerPayload (c : option jsstring) (o : MonitorDO)
  : MonitorDO :=
  mkMonitorDO (monitorData o) (offlineMap o) (initialized o)
    c (storage o) (sockets o) (effects o).

Definition set_storage (f : Storage -> Storage) (o : MonitorDO) : MonitorDO :=
  mkMonitorDO (monitorData o) (offlineMap o) (initialized o)
    (cachedViewerPayload o) (f (storage o)) (sockets o) (effects o).

Definition set_sockets (f : gmap nat WebSocket -> gmap nat WebSocket)
    (o : MonitorDO) : MonitorDO :=
  mkMonitorDO (monitorData o) (offlineMap o) (initialized o)
    (cachedViewerPayload o) (storage o) (f (sockets o)) (effects o).

Definition add_effects (es : list Effect) (o : MonitorDO) : MonitorDO :=
  mkMonitorDO (monitorData o) (offlineMap o) (initialized o)
    (cachedViewerPayload o) (storage o) (sockets o) (effects o ++ es).

(** ** Methods as state transformers that may throw *)

Inductive Error :=
| SyntaxError
| TypeError
| StreamError
| SocketError.

Inductive Completion (A : Type) :=
| Normal (a : A)
| Throw (e : Error).
Arguments Normal {A} a.
Arguments Throw {A} e.

(** A method: from the state before to how it completes and the state
    after.  What was written before a throw stays written. *)
Definition M (A : Type) : Type := MonitorDO -> Completion A * MonitorDO.

Definition ret {A} (a : A) : M A := fun o => (Normal a, o).

Definition throw {A} (e : Error) : M A := fun o => (Throw e, o).

Definition bind {A B} (m : M A) (k : A -> M B) : M B :=
  fun o =>
    match m o with
    | (Normal a, o') => k a o'
    | (Throw e, o') => (Throw e, o')
    end.

(** [try { body } catch { handler }] *)
Definition try_catch {A} (body : M A) (handler : Error -> M A) : M A :=
  fun o =>
    match body o with
    | (Normal a, o') => (Normal a, o')
    | (Throw e, o') => handler e o'
    end.

Definition read {A} (f : MonitorDO -> A) : M A := fun o => (Normal (f o), o).

Definition update (f : MonitorDO -> MonitorDO) : M unit :=
  fun o => (Normal tt, f o).

(** A runtime call that throws when it has no result. *)
Definition or_throw {A} (e : Error) (r : option A) : M A :=
  match r with
  | Some a => ret a
  | None => throw e
  end.

Declare Scope do_scope.
Delimit Scope do_scope with M.
Notation "x <- m ;; k" := (bind m (fun x => k))
  (at level 100, m at next level, right associativity) : do_scope.
Notation "m ;; k" := (bind m (fun _ => k))
  (at level 100, right associativity) : do_scope.

(** The state after a method, whatever its completion. *)
Definition exec {A} (m : M A) (o : MonitorDO) : MonitorDO := (m o).2.

Definition completes {A} (m : M A) (o : MonitorDO) : bool :=
  match (m o).1 with Normal _ => true | Throw _ => false end.

(** ** The storage and socket calls of the runtime *)

Definition monitor_key (name : jsstring) : jsstring := js "monitor:" ++ name.
Definition host_key (name : jsstring) : jsstring := js "host:" ++ name.

Fixpoint starts_with (prefix s : jsstring) : bool :=
  match prefix, s with
  | [], _ => true
  | p :: prefix', c :: s' => (p =? c) && starts_with prefix' s'
  | _ :: _, [] => false
  end.

(** The order of the keys in a listing. *)
Definition key_compare (a b : jsstring * jsstring) : Z :=
  if str_lt a.1 b.1 then -1 else if str_lt b.1 a.1 then 1 else 0.

(** [storage.list({ prefix })]: the entries under the prefix, by key. *)
Definition storage_list (prefix : jsstring) (s : Storage)
  : list (jsstring * jsstring) :=
  Utils.Array_sort key_compare
    (List.filter (fun e => starts_with prefix e.1) (map_to_list (kv s))).

Definition storage_put (key value : jsstring) (s : Storage) : Storage :=
  mkStorage (<[key := value]> (kv s)) (scheduled s).

(** [storage.put(entries)] *)
Definition storage_put_all (entries : list (jsstring * jsstring))
    (s : Storage) : Storage :=
  mkStorage (fold_left (fun t e => <[e.1 := e.2]> t) entries (kv s))
    (scheduled s).

Definition storage_delete (key : jsstring) (s : Storage) : Storage :=
  mkStorage (base.delete key (kv s)) (scheduled s).

(** [storage.delete(keys)] *)
Definition storage_delete_all (keys : list jsstring) (s : Storage) : Storage :=
  mkStorage (fold_left (fun t k => base.delete k t) keys (kv s))
    (scheduled s).

Definition storage_setAlarm (at_ms : Z) (s : Storage) : Storage :=
  mkStorage (kv s) (Some at_ms).

(** [ws.send(text)]: throws on a socket that is closed or unknown. *)
Definition ws_send (ws : nat) (text : jsstring) : M unit :=
  fun o =>
    match sockets o !! ws with
    | Some sock =>
        match ws_closed sock with
        | None =>
            (Normal tt,
             set_sockets
               <[ws := mkWebSocket (ws_tags sock) (ws_attachment sock)
                         (ws_sent sock ++ [text]) None]> o)
        | Some _ => (Throw SocketError, o)
        end
    | None => (Throw SocketError, o)
    end.

(** [ws.close(code, reason)]: throws on a socket that is already closed. *)
Definition ws_close (ws : nat) (code : Z) (reason : jsstring) : M unit :=
  fun o =>
    match sockets o !! ws with
    | Some sock =>
        match ws_closed sock with
        | None =>
            (Normal tt,
             set_sockets
               <[ws := mkWebSocket (ws_tags sock) (ws_attachment sock)
                         (ws_sent sock) (Some (code, reason))]> o)
        | Some _ => (Throw SocketError, o)
        end
    | None => (Throw SocketError, o)
    end.

(** [ws.serializeAttachment(value)] *)
Definition ws_serializeAttachment (ws : nat) (a : AgentAttachment) : M unit :=
  update (set_sockets (fun socks =>
    match socks !! ws with
    | Some sock =>
        <[ws := mkWebSocket (ws_tags sock) (Some a) (ws_sent sock)
                  (ws_closed sock)]> socks
    | None => socks
    end)).

(** [ws.deserializeAttachment()], null when nothing was attached. *)
Definition ws_deserializeAttachment (ws : nat) : M (option AgentAttachment) :=
  read (fun o =>
    match sockets o !! ws with
    | Some sock => ws_attachment sock
    | None => None
    end).

(** [state.getTags(ws)] *)
Definition getTags (ws : nat) : M (list WebSocketTag) :=
  read (fun o =>
    match sockets o !! ws with
    | Some sock => ws_tags sock
    | None => []
    end).

(** [state.getWebSockets(tag)]: the handles of the sockets with the tag. *)
Definition sockets_with (tag : option WebSocketTag) (o : MonitorDO)
  : list nat :=
  List.filter (fun ws =>
      match tag, sockets o !! ws with
      | Some t, Some sock => bool_decide (t ∈ ws_tags sock)
      | None, Some _ => true
      | _, None => false
      end)
    (map_to_list (sockets o)).*1.

Definition getWebSockets (tag : option WebSocketTag) : M (list nat) :=
  read (sockets_with tag).

(** [state.acceptWebSocket(server, tags)]: the runtime takes a new socket
    under a handle that is not in use. *)
Definition acceptWebSocket (tags : list WebSocketTag) : M nat :=
  fun o =>
    let ws := fresh (dom (sockets o)) in
    (Normal ws,
     set_sockets <[ws := mkWebSocket tags None [] None]> o).

(* ===================================================================== *)
(** * monitor-do.ts: class MonitorDO *)
(* ===================================================================== *)

(** The members of an RPC body that the handlers read. *)
Record RpcBody := mkRpcBody {
  action : jsstring;
  req : HostInfo;
}.

(** A request forwarded by the worker: the Upgrade header, the path, the
    method, and the JSON body ([None] when reading it rejects, or gives
    null, on which reading [action] throws). *)
Record Request := mkRequest {
  Upgrade : option jsstring;
  pathname : jsstring;
  method : jsstring;
  json : option RpcBody;
}.

Inductive ResponseBody :=
| NoBody
| PlainText (text : jsstring)
| Success_ok
| Success_monitors (data : list MonitorData)
| Success_hosts (data : list jsstring)
| Failure (error : jsstring).

Record Response := mkResponse {
  status : Z;
  body : ResponseBody;
  webSocket : option nat;
}.

(** [doJsonResponse(body, status)] *)
Definition doJsonResponse (b : ResponseBody) (st : Z) : Response :=
  mkResponse st b None.

Definition msg_not_found : jsstring := [26410; 25214; 21040].
Definition msg_unknown_action : jsstring := [26410; 30693; 30340; 25805; 20316].
Definition msg_unknown_ws_path : jsstring :=
  [26410; 30693; 30340; 32] ++ js "WebSocket" ++ [32; 36335; 24452].

(** A [for ... of] loop. *)
Fixpoint for_each {A} (l : list A) (body : A -> M unit) : M unit :=
  match l with
  | [] => ret tt
  | x :: rest => bind (body x) (fun _ => for_each rest body)
  end.

Section MonitorDO.
Context `{Runtime} (env : Env).
Local Open Scope do_scope.

(** The [entries] array of getAllMonitorData before it is sorted: the
    values that parse, with their keys, in the order of the Map. *)
Definition parsed_entries (md : JsMap.t jsstring)
  : list (jsstring * MonitorData) :=
  flat_map (fun e =>
      match JSON_parse e.2 with
      | Some m => [(e.1, m)]
      | None => []
      end) md.

(** [entries.sort((a, b) => compareStrings(a.Name, b.Name))], on keys that
    are strings as [Map<string, string>] declares them.  On a key of
    another kind compareStrings throws; the states in which the store
    could hold one are those that [string_names] excludes. *)
Definition sorted_entries (md : JsMap.t jsstring)
  : list (jsstring * MonitorData) :=
  Utils.Array_sort (fun a b => Utils.compareStrings a.1 b.1)
    (parsed_entries md).

Definition getAllMonitorData : M (list MonitorData) :=
  read (fun o => (sorted_entries (monitorData o)).*2).

Definition getViewerPayload : M jsstring :=
  cached <- read cachedViewerPayload;;
  match cached with
  | None =>
      monitors <- getAllMonitorData;;
      let payload := JSON_stringify monitors in
      update (fun o =>
        add_effects [Stringified]
          (set_cachedViewerPayload (Some payload) o));;
      ret payload
  | Some payload => ret payload
  end.

Definition broadcastToViewers : M unit :=
  viewers <- getWebSockets (Some viewer);;
  match viewers with
  | [] => ret tt
  | _ :: _ =>
      p <- getViewerPayload;;
      let payload := js "data: " ++ p in
      for_each viewers (fun ws =>
        try_catch (ws_send ws payload) (fun _ => ret tt))
  end.

(** The statements of handleAgentData once [jsonStr] is known. *)
Definition handleAgentData_store (jsonStr : jsstring) : M unit :=
  data <- or_throw SyntaxError (JSON_parse jsonStr);;
  match host_name data with
  | None => ret tt
  | Some name =>
      full <- read (fun o =>
        negb (JsMap.has name (monitorData o))
        && (MONITOR_DATA_MAX_ENTRIES <=? JsMap.size (monitorData o))%nat);;
      if (full : bool) then ret tt
      else
        update (set_monitorData (JsMap.set name jsonStr));;
        update (set_cachedViewerPayload None);;
        broadcastToViewers
  end.

Definition handleAgentData (ws : nat) (message : Message) : M unit :=
  try_catch
    match message with
    | Text text =>
        match tryDecompressStringMessage text with
        | None => ret tt
        | Some jsonStr => handleAgentData_store jsonStr
        end
    | Binary buffer =>
        jsonStr <- or_throw StreamError (decompressGzip buffer);;
        handleAgentData_store jsonStr
    end
    (fun _ => ret tt).

(** The [puts] object of persistMonitorSnapshot. *)
Definition snapshot_puts (md : JsMap.t jsstring) : JsMap.t jsstring :=
  fold_left (fun puts e => JsMap.set (monitor_key e.1) e.2 puts) md [].

Definition persistMonitorSnapshot : M unit :=
  puts <- read (fun o => snapshot_puts (monitorData o));;
  match puts with
  | [] => ret tt
  | _ :: _ =>
      update (fun o =>
        add_effects [StoragePut puts]
          (set_storage (storage_put_all puts) o))
  end.

(** [m.Host?.Name && m.TimeStamp > now - SNAPSHOT_MAX_AGE_SEC], with the
    name when it holds. *)
Definition restorable (now : Z) (m : MonitorData) : option jsstring :=
  match host_name m with
  | Some nm =>
      match TimeStamp m with
      | Some ts => if ts >? now - SNAPSHOT_MAX_AGE_SEC then Some nm else None
      | None => None
      end
  | None => None
  end.

(** The loop of restoreMonitorSnapshot; it returns [keysToDelete]. *)
Fixpoint restore_loop (now : Z) (entries : list (jsstring * jsstring))
    (keysToDelete : list jsstring) : M (list jsstring) :=
  match entries with
  | [] => ret keysToDelete
  | (key, value) :: rest =>
      keysToDelete' <-
        try_catch
          (m <- or_throw SyntaxError (JSON_parse value);;
           match restorable now m with
           | Some nm =>
               update (set_monitorData (JsMap.set nm value));;
               ret keysToDelete
           | None => ret (keysToDelete ++ [key])
           end)
          (fun _ => ret (keysToDelete ++ [key]));;
      restore_loop now rest keysToDelete'
  end.

(** restoreMonitorSnapshot after the listing has been read. *)
Definition restore_entries (now_ms : Z)
    (entries : list (jsstring * jsstring)) : M unit :=
  let now := now_ms / 1000 in
  keysToDelete <- restore_loop now entries [];;
  match keysToDelete with
  | [] => ret tt
  | _ :: _ =>
      update (fun o =>
        add_effects [StorageDelete keysToDelete]
          (set_storage (storage_delete_all keysToDelete) o))
  end.

Definition restoreMonitorSnapshot (now_ms : Z) : M unit :=
  entries <- read (fun o => storage_list (js "monitor:") (storage o));;
  restore_entries now_ms entries.

(** The constructor, with what the runtime hands to it: the storage, the
    sockets that outlived the previous instance, and the clock. *)
Definition constructor (st : Storage) (socks : gmap nat WebSocket)
    (log : list Effect) (now_ms : Z) : MonitorDO :=
  exec (restoreMonitorSnapshot now_ms;; update (set_initialized true))
    (mkMonitorDO [] ∅ false None st socks log).

Definition ensureAlarm (now_ms : Z) : M unit :=
  try_catch
    (currentAlarm <- read (fun o => scheduled (storage o));;
     match currentAlarm with
     | None =>
         update (set_storage (storage_setAlarm (now_ms + ALARM_INTERVAL_MS)))
     | Some _ => ret tt
     end)
    (fun _ => ret tt).

Definition alarm (now_ms : Z) (net : Network) : M unit :=
  (if bool_decide (ENABLE_TG env = js "true")
      && truthy (TG_CHAT_ID env)
      && negb (bool_decide (TG_CHAT_ID env = js "0"))
   then
     monitors <- getAllMonitorData;;
     update (fun o =>
       let '(flags, requests) :=
         Telegram.checkOfflineStatus net now_ms monitors (offlineMap o)
           (TG_TOKEN env) (TG_CHAT_ID env) OFFLINE_THRESHOLD_SEC in
       add_effects (TelegramSend <$> requests)
         (set_offlineMap (fun _ => flags) o))
   else ret tt);;
  persistMonitorSnapshot;;
  socks <- getWebSockets None;;
  size <- read (fun o => JsMap.size (monitorData o));;
  if (0 <? length socks)%nat || (0 <? size)%nat
  then update (set_storage (storage_setAlarm (now_ms + ALARM_INTERVAL_MS)))
  else ret tt.

Definition handleAgentWebSocket : M Response :=
  server <- acceptWebSocket [agent];;
  ws_serializeAttachment server (mkAttachment false);;
  ret (mkResponse 101 NoBody (Some server)).

Definition handleViewerWebSocket : M Response :=
  server <- acceptWebSocket [viewer];;
  ret (mkResponse 101 NoBody (Some server)).

Definition webSocketMessage (ws : nat) (message : Message) (now_ms : Z)
  : M unit :=
  tags <- getTags ws;;
  if bool_decide (agent ∈ tags) then
    stored <- ws_deserializeAttachment ws;;
    let attachment := default (mkAttachment false) stored in
    if authed attachment then handleAgentData ws message
    else
      let text :=
        match message with
        | Text s => s
        | Binary b => TextDecoder_decode b
        end in
      if negb (bool_decide (text = AUTH_SECRET env)) then
        ws_close ws 1008 (js "auth failed")
      else
        ws_serializeAttachment ws (mkAttachment true);;
        ws_send ws (js "auth success");;
        ensureAlarm now_ms
  else if bool_decide (viewer ∈ tags) then
    payload <- getViewerPayload;;
    try_catch (ws_send ws (js "data: " ++ payload)) (fun _ => ret tt)
  else ret tt.

Definition webSocketClose (ws : nat) : M unit := ret tt.

Definition webSocketError (ws : nat) : M unit :=
  try_catch (ws_close ws 1011 (js "internal error")) (fun _ => ret tt).

Definition rpcFetchData : M Response :=
  monitors <- getAllMonitorData;;
  ret (doJsonResponse (Success_monitors monitors) 200).

Definition rpcUpdateInfo (r : HostInfo) : M Response :=
  let hostInfo :=
    mkHostInfo (name r) (due_time r) (buy_url r) (seller r) (price r) in
  update (set_storage
    (storage_put (host_key (name r)) (JSON_stringify_HostInfo hostInfo)));;
  ret (doJsonResponse Success_ok 200).

Definition rpcDeleteHost (r : HostInfo) : M Response :=
  let name := name r in
  present <- read (fun o => JsMap.has name (monitorData o));;
  if negb present then ret (doJsonResponse (Failure msg_not_found) 404)
  else
    update (set_monitorData (JsMap.delete name));;
    update (set_offlineMap (base.delete name));;
    update (set_cachedViewerPayload None);;
    update (fun o =>
      add_effects [StorageDeleteOne (monitor_key name)]
        (set_storage (storage_delete (monitor_key name)) o));;
    ret (doJsonResponse Success_ok 200).

(** [loadAllHostInfo]: the values under "host:", in key order. *)
Definition rpcGetInfo : M Response :=
  hosts <- read (fun o => (storage_list (js "host:") (storage o)).*2);;
  ret (doJsonResponse (Success_hosts hosts) 200).

Definition handleRPC (request : Request) : M Response :=
  try_catch
    (b <- or_throw SyntaxError (json request);;
     if bool_decide (action b = js "fetchData") then rpcFetchData
     else if bool_decide (action b = js "getInfo") then rpcGetInfo
     else if bool_decide (action b = js "updateInfo") then
       rpcUpdateInfo (req b)
     else if bool_decide (action b = js "deleteHost") then
       rpcDeleteHost (req b)
     else ret (doJsonResponse (Failure msg_unknown_action) 400))
    (fun _ => ret (doJsonResponse (Failure (js "Error")) 500)).

Definition fetch (request : Request) : M Response :=
  if bool_decide (Upgrade request = Some (js "websocket")) then
    if bool_decide (pathname request = js "/ws/agent") then
      handleAgentWebSocket
    else if bool_decide (pathname request = js "/ws/viewer") then
      handleViewerWebSocket
    else ret (mkResponse 404 (PlainText msg_unknown_ws_path) None)
  else if bool_decide (method request = js "POST")
          && bool_decide (pathname request = js "/rpc") then
    handleRPC request
  else ret (mkResponse 404 (PlainText msg_not_found) None).

(** ** The events the runtime delivers *)

Inductive Event :=
| EvFetch (request : Request)
| EvMessage (ws : nat) (message : Message) (now_ms : Z)
| EvClose (ws : nat)
| EvError (ws : nat)
| EvAlarm (now_ms : Z) (net : Network)
| EvEvict (now_ms : Z).

(** One event: the handler runs to its end, whatever its completion.
    After a close event the runtime forgets the socket; an alarm is
    cleared before its handler runs; an eviction drops the members of the
    class, and the next instance is constructed from the storage and the
    sockets. *)
Definition deliver (ev : Event) (o : MonitorDO) : MonitorDO :=
  match ev with
  | EvFetch request => exec (fetch request) o
  | EvMessage ws message now_ms => exec (webSocketMessage ws message now_ms) o
  | EvClose ws =>
      set_sockets (base.delete ws) (exec (webSocketClose ws) o)
  | EvError ws => exec (webSocketError ws) o
  | EvAlarm now_ms net =>
      exec (alarm now_ms net)
        (set_storage (fun s => mkStorage (kv s) None) o)
  | EvEvict now_ms => constructor (storage o) (sockets o) (effects o) now_ms
  end.

(** The events of a run, delivered in order. *)
Definition deliver_all (evs : list Event) (o : MonitorDO) : MonitorDO :=
  fold_left (fun o ev => deliver ev o) evs o.

(** The states of an object created at [now_ms] on an empty storage. *)
Definition initial (now_ms : Z) : MonitorDO :=
  constructor (mkStorage ∅ None) ∅ [] now_ms.

Inductive reachable : MonitorDO -> Prop :=
| reachable_initial now_ms : reachable (initial now_ms)
| reachable_deliver o ev : reachable o -> reachable (deliver ev o).

End MonitorDO.

(* ===================================================================== *)
(** * A reference runtime *)
(* ===================================================================== *)

(** A small implementation of the runtime interface, on which the model
    runs on concrete inputs: JSON restricted to the snapshot objects
    [{"Host":{"Name":"..."},"TimeStamp":123}] and to [{}], a gzip container
    that stores its payload after the two magic bytes, and text codecs on
    the one-byte code units. *)
Module Reference.

Fixpoint strip_prefix (prefix s : jsstring) : option jsstring :=
  match prefix, s with
  | [], _ => Some s
  | p :: prefix', c :: s' =>
      if p =? c then strip_prefix prefix' s' else None
  | _ :: _, [] => None
  end.

Definition quote : Z := 34.

Definition parse (s : jsstring) : option MonitorData :=
  if bool_decide (s = js "{}") then Some (mkMonitorData None None [])
  else
    match strip_prefix (js "{" ++ [quote] ++ js "Host" ++ [quote]
                        ++ js ":{" ++ [quote] ++ js "Name" ++ [quote]
                        ++ js ":" ++ [quote]) s with
    | Some s1 =>
        let '(nm, s2) := span (fun c => negb (c =? quote)) s1 in
        match strip_prefix ([quote] ++ js "}," ++ [quote] ++ js "TimeStamp"
                            ++ [quote] ++ js ":") s2 with
        | Some s3 =>
            let '(ds, s4) := span is_digit s3 in
            match ds with
            | [] => None
            | _ :: _ =>
                if bool_decide (s4 = js "}") then
                  Some (mkMonitorData (Some (mkHost (Some nm)))
                          (Some (parseInt10 ds)) [])
                else None
            end
        | None => None
        end
    | None => None
    end.

(** The decimal digits of a natural number, most significant first. *)
Fixpoint digits_fuel (fuel : nat) (n : Z) (acc : jsstring) : jsstring :=
  match fuel with
  | O => acc
  | S fuel' =>
      let acc' := (48 + n mod 10) :: acc in
      if n <? 10 then acc' else digits_fuel fuel' (n / 10) acc'
  end.

Definition digits (n : Z) : jsstring :=
  digits_fuel (S (Z.to_nat (Z.log2 n))) n [].

Definition snapshot (nm : jsstring) (ts : Z) : jsstring :=
  js "{" ++ [quote] ++ js "Host" ++ [quote] ++ js ":{" ++ [quote]
  ++ js "Name" ++ [quote] ++ js ":" ++ [quote] ++ nm ++ [quote]
  ++ js "}," ++ [quote] ++ js "TimeStamp" ++ [quote] ++ js ":"
  ++ digits ts ++ js "}".

Definition stringify_one (m : MonitorData) : jsstring :=
  match MHost m, TimeStamp m with
  | Some h, Some ts => snapshot (default [] (Name h)) ts
  | _, _ => js "{}"
  end.

Fixpoint join (sep : jsstring) (l : list jsstring) : jsstring :=
  match l with
  | [] => []
  | [x] => x
  | x :: rest => x ++ sep ++ join sep rest
  end.

Definition stringify (l : list MonitorData) : jsstring :=
  js "[" ++ join (js ",") (stringify_one <$> l) ++ js "]".

Definition stringify_HostInfo (h : HostInfo) : jsstring :=
  js "{" ++ [quote] ++ js "name" ++ [quote] ++ js ":" ++ [quote]
  ++ name h ++ [quote] ++ js "}".

Definition gzip (payload : bytes) : bytes := x1f :: x8b :: payload.

Definition gunzip_stored (b : bytes) : option bytes :=
  match b with
  | x1f :: x8b :: payload => Some payload
  | _ => None
  end.

(** A small TextDecoder: a leading byte order mark EF BB BF is dropped, as
    [new TextDecoder().decode] does, and every byte is read as one code
    unit, which is what UTF-8 gives on ASCII. *)
Definition decode (b : bytes) : jsstring :=
  match b with
  | xef :: xbb :: xbf :: rest => latin1_string rest
  | _ => latin1_string b
  end.

#[export] Instance runtime : Runtime.
Proof.
  refine {|
    JSON_parse := parse;
    JSON_name_other := fun _ => false;
    JSON_stringify := stringify;
    JSON_stringify_HostInfo := stringify_HostInfo;
    gunzip := gunzip_stored;
    TextDecoder_decode := decode;
    TextEncoder_encode := latin1_bytes;
  |}.
  - intros b out. destruct b as [|b1 [|b2 rest]]; [done| |].
    + by destruct b1.
    + destruct b1; try done. destruct b2; try done. by exists rest.
  - reflexivity.
Defined.

Definition env : Env :=
  mkEnv (js "secret") (js "true") (js "123:abc") (js "42").

(** A network on which every request fails. *)
Definition offline_net : Network := fun _ => Rejects.

(** A run on the reference configuration. *)
Definition run (evs : list Event) (o : MonitorDO) : MonitorDO :=
  deliver_all env evs o.

(** An agent connects, authenticates and sends one binary frame. *)
Definition agent_frame (nm : jsstring) (ts : Z) : Message :=
  Binary (gzip (latin1_bytes (snapshot nm ts))).

End Reference.

(* ===================================================================== *)
(** * The vocabulary of the properties *)
(* ===================================================================== *)

(** The result of naturalCompare on two token arrays. *)
Definition lexcmp (ta tb : list Utils.token) : Z :=
  match Utils.compare_tokens ta tb with
  | Some r => r
  | None => Z.of_nat (length ta) - Z.of_nat (length tb)
  end.

(** The tokens that decide compareStrings: for a name of the expected
    shape its letters and its number, otherwise its runs. *)
Definition sort_key (s : jsstring) : list Utils.token :=
  match Utils.match_name s with
  | Some (letters, digits) => [Utils.TStr letters; Utils.TNum (Utils.suffix_number digits)]
  | None => Utils.tokenize s
  end.

(** The JSON text that handleAgentData extracts from a frame. *)
Definition frame_json `{Runtime} (message : Message) : option jsstring :=
  match message with
  | Text text => tryDecompressStringMessage text
  | Binary buffer => decompressGzip buffer
  end.

(** The identity and the JSON text of an accepted frame. *)
Definition decode `{Runtime} (message : Message)
  : option (jsstring * jsstring) :=
  match frame_json message with
  | Some jsonStr =>
      match JSON_parse jsonStr with
      | Some data =>
          match host_name data with
          | Some name => Some (name, jsonStr)
          | None => None
          end
      | None => None
      end
  | None => None
  end.

(** The store refuses a new identity. *)
Definition at_capacity (name : jsstring) (md : JsMap.t jsstring) : bool :=
  negb (JsMap.has name md)
  && (MONITOR_DATA_MAX_ENTRIES <=? JsMap.size md)%nat.

(** What the loop of restoreMonitorSnapshot does with one entry: the
    identity under which its value is loaded, or [None] when its key is
    scheduled for deletion. *)
Definition restore_keep `{Runtime} (now : Z) (value : jsstring)
  : option jsstring :=
  match JSON_parse value with
  | Some m => restorable now m
  | None => None
  end.

(** The store after the loop. *)
Definition restored_store `{Runtime} (now : Z)
    (entries : list (jsstring * jsstring)) (md : JsMap.t jsstring)
  : JsMap.t jsstring :=
  fold_left (fun md e =>
      match restore_keep now e.2 with
      | Some nm => JsMap.set nm e.2 md
      | None => md
      end) entries md.

(** The keys scheduled for deletion, in the order of the listing. *)
Definition stale_keys `{Runtime} (now : Z)
    (entries : list (jsstring * jsstring)) : list jsstring :=
  (List.filter (fun e =>
      match restore_keep now e.2 with Some _ => false | None => true end)
    entries).*1.

(** Every stored value parses, and the truthy [Host.Name] of what it
    parses to is the key it is stored under. *)
Definition names_match `{Runtime} (md : JsMap.t jsstring) : Prop :=
  forall k v, (k, v) ∈ md ->
    exists m, JSON_parse v = Some m /\ host_name m = Some k.

Definition store_ok `{Runtime} (md : JsMap.t jsstring) : Prop :=
  NoDup (JsMap.keys md)
  /\ (JsMap.size md <= MONITOR_DATA_MAX_ENTRIES)%nat
  /\ names_match md.

(** A cached payload is the serialization of the sorted snapshot list. *)
Definition cache_ok `{Runtime} (o : MonitorDO) : Prop :=
  forall p, cachedViewerPayload o = Some p ->
    p = JSON_stringify (sorted_entries (monitorData o)).*2.

(** Every persisted snapshot sits under the key of an identity of the
    store, which is the identity its value parses to. *)
Definition storage_ok `{Runtime} (o : MonitorDO) : Prop :=
  forall key v,
    kv (storage o) !! key = Some v ->
    starts_with (js "monitor:") key = true ->
    exists nm m, key = monitor_key nm /\ nm ∈ JsMap.keys (monitorData o)
      /\ JSON_parse v = Some m /\ host_name m = Some nm.

Definition Inv `{Runtime} (o : MonitorDO) : Prop :=
  store_ok (monitorData o) /\ cache_ok o /\ storage_ok o.

(** The identities are strings, as types.ts and the specification have
    them: no value in the store and no snapshot in the storage names its
    host by a value of another kind.  Then every key of the Map is a
    string, and the comparator of getAllMonitorData is only ever called
    on strings. *)
Definition string_names `{Runtime} (o : MonitorDO) : Prop :=
  (forall k v, (k, v) ∈ monitorData o -> JSON_name_other v = false)
  /\ (forall key v,
        kv (storage o) !! key = Some v ->
        starts_with (js "monitor:") key = true ->
        JSON_name_other v = false).

(** A frame whose JSON text names its host by a string, or not at all. *)
Definition string_named `{Runtime} (message : Message) : Prop :=
  forall jsonStr,
    frame_json message = Some jsonStr -> JSON_name_other jsonStr = false.

(** The condition under which alarm runs the liveness sweep. *)
Definition tg_enabled (env : Env) : bool :=
  bool_decide (ENABLE_TG env = js "true")
  && truthy (TG_CHAT_ID env)
  && negb (bool_decide (TG_CHAT_ID env = js "0")).

(** The first step of alarm: the sweep over the sorted snapshots. *)
Definition alarm_sweep `{Runtime} (env : Env) (now_ms : Z) (net : Network)
    (o : MonitorDO) : MonitorDO :=
  if tg_enabled env then
    let r :=
      Telegram.checkOfflineStatus net now_ms
        (sorted_entries (monitorData o)).*2 (offlineMap o)
        (TG_TOKEN env) (TG_CHAT_ID env) OFFLINE_THRESHOLD_SEC in
    add_effects (TelegramSend <$> r.2) (set_offlineMap (fun _ => r.1) o)
  else o.

(** The last step of alarm: the next alarm. *)
Definition alarm_reschedule (now_ms : Z) (o : MonitorDO) : MonitorDO :=
  if (0 <? length (sockets_with None o))%nat
     || (0 <? JsMap.size (monitorData o))%nat
  then set_storage (storage_setAlarm (now_ms + ALARM_INTERVAL_MS)) o
  else o.

(** ** A normal form of the comparator *)

(** compareStrings as a three-way comparison, over the helpers of utils.ts
    and the numbers that parseInt yields: the comparison by letters and
    number for two names of the letters-then-digits shape, the comparison
    run by run for any other pair.  The sign and order laws are proved on
    this form. *)
Module NameOrder.

Definition sign (c : comparison) : Z :=
  match c with Lt => -1 | Eq => 0 | Gt => 1 end.

Fixpoint lex (a b : jsstring) : comparison :=
  match a, b with
  | [], [] => Eq
  | [], _ :: _ => Lt
  | _ :: _, [] => Gt
  | x :: a', y :: b' =>
      match x ?= y with
      | Eq => lex a' b'
      | c => c
      end
  end.

Definition shape (s : jsstring) : option (jsstring * Z) :=
  let '(letters, digits) := span is_letter s in
  if truthy letters && forallb is_digit digits
  then Some (letters, match digits with [] => 0 | _ => parseInt10 digits end)
  else None.

Definition by_shape (x y : jsstring * Z) : comparison :=
  match lex x.1 y.1 with
  | Eq => x.2 ?= y.2
  | c => c
  end.

Inductive run :=
| Digits (value : Z)
| Other (text : jsstring).

Fixpoint runs_from (fuel : nat) (s : jsstring) : list run :=
  match fuel, s with
  | S fuel', c :: _ =>
      if is_digit c then
        let '(ds, rest) := span is_digit s in
        Digits (parseInt10 ds) :: runs_from fuel' rest
      else
        let '(text, rest) := span (fun c => negb (is_digit c)) s in
        Other text :: runs_from fuel' rest
  | _, _ => []
  end.

Definition runs_of (s : jsstring) : list run := runs_from (length s) s.

Definition compare_run (x y : run) : comparison :=
  match x, y with
  | Digits m, Digits n => m ?= n
  | Digits _, Other _ => Lt
  | Other _, Digits _ => Gt
  | Other u, Other v => lex u v
  end.

Fixpoint by_runs (ra rb : list run) : comparison :=
  match ra, rb with
  | [], [] => Eq
  | [], _ :: _ => Lt
  | _ :: _, [] => Gt
  | x :: ra', y :: rb' =>
      match compare_run x y with
      | Eq => by_runs ra' rb'
      | c => c
      end
  end.

Definition compare (a b : jsstring) : comparison :=
  let a' := Utils.strip_ws a in
  let b' := Utils.strip_ws b in
  match shape a', shape b' with
  | Some x, Some y => by_shape x y
  | _, _ => by_runs (runs_of a') (runs_of b')
  end.

End NameOrder.

(** ** The name order in the words of the specification *)

(** The comparator as the specification describes it, written without the
    helpers of utils.ts.  Whitespace is stripped first.  An identity of the
    shape letters-then-digits is split into its leading letters and the
    integer its trailing digits spell, 0 when there are none; two such
    identities are compared by their letter tokens, character code by
    character code, the shorter first on a tie up to the shorter length,
    and then by their integers.  Any other pair is compared run by run,
    the runs being the maximal runs of digits and of other characters:
    two digit runs as integers, two other runs as strings, and the shorter
    sequence first when all its runs match.  The specification does not
    say how a digit run compares with a run of other characters at the
    same place; the digit run is put first, as naturalCompare does. *)
Module SpecOrder.

Definition whitespace_characters : list Z :=
  [9; 10; 11; 12; 13; 32; 160; 5760; 8192; 8193; 8194; 8195; 8196; 8197;
   8198; 8199; 8200; 8201; 8202; 8232; 8233; 8239; 8287; 12288; 65279].

Definition one_of (l : list Z) (c : Z) : bool := existsb (Z.eqb c) l.

Definition letter : Z -> bool :=
  one_of (js "ABCDEFGHIJKLMNOPQRSTUVWXYZabcdefghijklmnopqrstuvwxyz").

Definition digit : Z -> bool := one_of (js "0123456789").

Definition stripped (s : jsstring) : jsstring :=
  List.filter (fun c => negb (one_of whitespace_characters c)) s.

(** The leading characters of a class, and what follows them. *)
Fixpoint leading (class : Z -> bool) (s : jsstring) : jsstring :=
  match s with
  | c :: rest => if class c then c :: leading class rest else []
  | [] => []
  end.

Fixpoint after (class : Z -> bool) (s : jsstring) : jsstring :=
  match s with
  | c :: rest => if class c then after class rest else s
  | [] => []
  end.

(** The place of a digit among the ten digits. *)
Fixpoint place (c : Z) (l : list Z) : Z :=
  match l with
  | d :: rest => if c =? d then 0 else 1 + place c rest
  | [] => 0
  end.

(** The integer that digits spell, read from the left. *)
Fixpoint integer_from (acc : Z) (ds : jsstring) : Z :=
  match ds with
  | c :: rest => integer_from (acc * 10 + place c (js "0123456789")) rest
  | [] => acc
  end.

Definition integer (ds : jsstring) : Z := integer_from 0 ds.

(** The letter token and the numeric token of an identity of the shape
    letters-then-digits. *)
Definition tokens (s : jsstring) : option (jsstring * Z) :=
  let letters := leading letter s in
  let digits := after letter s in
  match letters with
  | [] => None
  | _ :: _ => if forallb digit digits then Some (letters, integer digits)
              else None
  end.

(** Strings by character code, a proper prefix first. *)
Fixpoint by_code (a b : jsstring) : comparison :=
  match a, b with
  | [], [] => Eq
  | [], _ :: _ => Lt
  | _ :: _, [] => Gt
  | x :: a', y :: b' =>
      if x <? y then Lt else if y <? x then Gt else by_code a' b'
  end.

Inductive run :=
| Number (value : Z)
| Chars (text : jsstring).

Fixpoint runs_upto (n : nat) (s : jsstring) : list run :=
  match n, s with
  | S n', c :: _ =>
      if digit c
      then Number (integer (leading digit s)) :: runs_upto n' (after digit s)
      else
        let other := fun c => negb (digit c) in
        Chars (leading other s) :: runs_upto n' (after other s)
  | _, _ => []
  end.

Definition runs (s : jsstring) : list run := runs_upto (length s) s.

Fixpoint natural (ra rb : list run) : comparison :=
  match ra, rb with
  | [], [] => Eq
  | [], _ :: _ => Lt
  | _ :: _, [] => Gt
  | Number m :: ra', Number n :: rb' =>
      if m <? n then Lt else if n <? m then Gt else natural ra' rb'
  | Number _ :: _, Chars _ :: _ => Lt
  | Chars _ :: _, Number _ :: _ => Gt
  | Chars u :: ra', Chars v :: rb' =>
      match by_code u v with
      | Eq => natural ra' rb'
      | c => c
      end
  end.

Definition compare (a b : jsstring) : comparison :=
  let a' := stripped a in
  let b' := stripped b in
  match tokens a', tokens b' with
  | Some (letters1, n1), Some (letters2, n2) =>
      match by_code letters1 letters2 with
      | Eq => if n1 <? n2 then Lt else if n2 <? n1 then Gt else Eq
      | c => c
      end
  | _, _ => natural (runs a') (runs b')
  end.

(** An identity in which every number that the comparison reads, its
    numeric token and its digit runs, is below 2^53, where a double holds
    every integer. *)
Definition small_numbers (s : jsstring) : bool :=
  match tokens (stripped s) with
  | Some (_, n) => n <? 2 ^ 53
  | None => true
  end
  && forallb
       (fun r => match r with Number n => n <? 2 ^ 53 | Chars _ => true end)
       (runs (stripped s)).

End SpecOrder.

(** A token of naturalCompare as a run of the normal form. *)
Definition run_of_token (t : Utils.token) : NameOrder.run :=
  match t with
  | Utils.TNum n => NameOrder.Digits n
  | Utils.TStr s => NameOrder.Other s
  end.

(** ** The decoding ladder in the words of the specification *)

Definition parses `{Runtime} (s : jsstring) : bool :=
  match JSON_parse s with Some _ => true | None => false end.

(** Decompress, decode as text, and keep the text when it is JSON. *)
Definition gunzip_json `{Runtime} (b : bytes) : option jsstring :=
  match gunzip b with
  | Some out =>
      let text := TextDecoder_decode out in
      if parses text then Some text else None
  | None => None
  end.

(** (1) the text itself, when it is JSON. *)
Definition strategy_direct `{Runtime} (text : jsstring) : option jsstring :=
  if parses text then Some text else None.

(** (2) each code unit truncated to its low byte, decompressed. *)
Definition strategy_low_byte `{Runtime} (text : jsstring) : option jsstring :=
  gunzip_json (byte_of_Z <$> text).

(** (3) the text encoded as UTF-8, decompressed. *)
Definition strategy_utf8 `{Runtime} (text : jsstring) : option jsstring :=
  gunzip_json (TextEncoder_encode text).

Fixpoint first_success {A} (attempts : list (option A)) : option A :=
  match attempts with
  | [] => None
  | Some a :: _ => Some a
  | None :: rest => first_success rest
  end.

(** The frames of a list handled one after the other on one socket. *)
Definition ingest_all `{Runtime} (ws : nat) (frames : list Message)
    (o : MonitorDO) : MonitorDO :=
  fold_left (fun o frame => exec (handleAgentData ws frame) o) frames o.

(** The frames of the capacity example: snapshots of the hosts N0, N1, ... *)
Definition numbered_frames (n : nat) : list Message :=
  (fun i => Reference.agent_frame (js "N" ++ Reference.digits (Z.of_nat i)) 1000)
  <$> seq 0 n.

Definition numbered_decoded (n : nat) : list (jsstring * jsstring) :=
  (fun i =>
     (js "N" ++ Reference.digits (Z.of_nat i),
      Reference.snapshot (js "N" ++ Reference.digits (Z.of_nat i)) 1000))
  <$> seq 0 n.

(** The text that the first message of an agent is compared as. *)
Definition message_text `{Runtime} (message : Message) : jsstring :=
  match message with
  | Text s => s
  | Binary b => TextDecoder_decode b
  end.

(** The attachment says that the agent has authenticated. *)
Definition is_authed (sock : WebSocket) : bool :=
  authed (default (mkAttachment false) (ws_attachment sock)).

(** The response of a method, when it completes normally. *)
Definition response_status (c : Completion Response) : option Z :=
  match c with
  | Normal r => Some (status r)
  | Throw _ => None
  end.

(** How many times the snapshot list has been serialized. *)
Definition serializations (o : MonitorDO) : nat :=
  length (List.filter
            (fun e => match e with Stringified => true | _ => false end)
            (effects o)).

(** The payload that describes the store. *)
Definition payload_of `{Runtime} (md : JsMap.t jsstring) : jsstring :=
  JSON_stringify (sorted_entries md).*2.


(** ** The liveness sweep in the words of the specification *)

#[global] Instance TGRequest_eq_dec : EqDecision TGRequest.
Proof. solve_decision. Defined.

(** [m.TimeStamp < now - thresholdSec] with the threshold of alarm. *)
Definition is_stale (now : Z) (m : MonitorData) : bool :=
  match TimeStamp m with
  | Some ts => ts <? now - OFFLINE_THRESHOLD_SEC
  | None => false
  end.

Definition offline_request (token chatId name : jsstring) : TGRequest :=
  mkTGRequest token chatId (Telegram.offlineMessage name).

Definition online_request (token chatId name : jsstring) : TGRequest :=
  mkTGRequest token chatId (Telegram.onlineMessage name).

(** How many times a request occurs among those issued. *)
Definition occurrences (r : TGRequest) (sent : list TGRequest) : nat :=
  length (List.filter (fun x => bool_decide (x = r)) sent).

(** The notification that one snapshot calls for, given the flags before
    the sweep: offline when it is stale and not flagged, online when it is
    not stale and flagged, none otherwise. *)
Definition transition (token chatId : jsstring) (flags : gmap jsstring bool)
    (now : Z) (m : MonitorData) : list TGRequest :=
  match host_name m with
  | Some name =>
      if is_stale now m then
        if Telegram.flagged flags name then []
        else [offline_request token chatId name]
      else
        if Telegram.flagged flags name then [online_request token chatId name]
        else []
  | None => []
  end.

(** The notifications that a state has issued so far. *)
Definition notifications (o : MonitorDO) : list TGRequest :=
  omap (fun e => match e with TelegramSend r => Some r | _ => None end)
    (effects o).

(** ** Sockets, as the handlers leave them *)

Definition is_open (sock : WebSocket) : bool :=
  match ws_closed sock with None => true | Some _ => false end.

(** The socket once [text] has been sent on it. *)
Definition sent_to (text : jsstring) (sock : WebSocket) : WebSocket :=
  mkWebSocket (ws_tags sock) (ws_attachment sock) (ws_sent sock ++ [text])
    (ws_closed sock).

(** What [ws.send(text)] inside a try block makes of a socket: a closed
    socket throws and stays as it is. *)
Definition try_sent (text : jsstring) (sock : WebSocket) : WebSocket :=
  if is_open sock then sent_to text sock else sock.

(** What a broadcast of [text] makes of a socket. *)
Definition served (text : jsstring) (sock : WebSocket) : WebSocket :=
  if bool_decide (viewer ∈ ws_tags sock) then try_sent text sock else sock.

(** The payload that getViewerPayload returns in a state. *)
Definition current_payload `{Runtime} (o : MonitorDO) : jsstring :=
  match cachedViewerPayload o with
  | Some p => p
  | None => payload_of (monitorData o)
  end.

(** What the object may have done to a socket since it was accepted: an
    agent socket has been sent nothing, or the one acknowledgement, and
    then its attachment says authed; a viewer socket has no attachment and
    has been sent data messages only. *)
Definition socket_ok (sock : WebSocket) : Prop :=
  (ws_tags sock = [agent]
   /\ (ws_sent sock = []
       \/ (ws_sent sock = [js "auth success"]
           /\ ws_attachment sock = Some (mkAttachment true))))
  \/ (ws_tags sock = [viewer]
      /\ ws_attachment sock = None
      /\ Forall (fun text => starts_with (js "data: ") text = true)
           (ws_sent sock)).

Definition sockets_ok (o : MonitorDO) : Prop :=
  forall ws sock, sockets o !! ws = Some sock -> socket_ok sock.

(** ** The two tables of the storage *)

(** Every key of the storage is a snapshot key, or it is the key of a host
    info and holds the serialization of that host info. *)
Definition storage_tables_ok `{Runtime} (o : MonitorDO) : Prop :=
  forall key v, kv (storage o) !! key = Some v ->
    starts_with (js "monitor:") key = true
    \/ exists h, key = host_key (name h) /\ v = JSON_stringify_HostInfo h.

(** The request that the worker sends for an RPC. *)
Definition rpc_request (act : jsstring) (r : HostInfo) : Request :=
  mkRequest None (js "/rpc") (js "POST") (Some (mkRpcBody act r)).

(* ===================================================================== *)
(** * utils.ts: the remaining functions *)
(* ===================================================================== *)

Module UtilsMore.

(** [sortByName]: a member that is undefined or null is [None]; the
    array is copied and the copy is sorted. *)
Section sortByName.
Context {T : Type} (Name name : T -> option jsstring).

(** [a.Name ?? a.name ?? ""] *)
Definition name_of (a : T) : jsstring :=
  match Name a with
  | Some n => n
  | None =>
      match name a with
      | Some n => n
      | None => []
      end
  end.

Definition sortByName (items : list T) : list T :=
  Utils.Array_sort
    (fun a b =>
       let nameA := name_of a in
       let nameB := name_of b in
       Utils.compareStrings nameA nameB)
    items.

End sortByName.

(** [${n}] and [String(n)] for a number that is a non-negative integer
    below 10^21: its decimal digits. *)
Definition toString (n : Z) : jsstring := Reference.digits n.

(** [parts.join(" ")] *)
Definition join (sep : jsstring) (parts : list jsstring) : jsstring :=
  Reference.join sep parts.

(** [formatUptime], on a number of seconds that is an integer below 2^53
    (Uptime is an unsigned integer in the agent).  There
    [Math.floor(a / b)] and [a % b] on non-negative integers are the
    quotient and the remainder. *)
Definition formatUptime (seconds : Z) : jsstring :=
  let seconds := if seconds <? 0 then 0 else seconds in
  let days := seconds / 86400 in
  let seconds := seconds mod 86400 in
  let hours := seconds / 3600 in
  let seconds := seconds mod 3600 in
  let minutes := seconds / 60 in
  let secs := seconds mod 60 in
  let parts := [] in
  let parts := if days >? 0 then parts ++ [toString days ++ js "d"] else parts in
  let parts := if hours >? 0 then parts ++ [toString hours ++ js "h"] else parts in
  let parts :=
    if minutes >? 0 then parts ++ [toString minutes ++ js "m"] else parts in
  let parts := parts ++ [toString secs ++ js "s"] in
  join (js " ") parts.

(** [units] of formatSize. *)
Definition units : list jsstring :=
  [js "B"; js "KB"; js "MB"; js "GB"; js "TB"; js "PB"; js "EB"].

(** The integers that a double holds: 53 bits of mantissa, scaled by a
    power of two. *)
Definition double_integer (size : Z) : Prop :=
  exists m e : Z, 0 <= e /\ Z.abs m < 2 ^ 53 /\ size = m * 2 ^ e.

(** The loop of formatSize on an integer [size] that a double holds.
    Dividing a double by 1024 is exact, so after [unitIndex] rounds
    [value] is exactly [size / 1024^unitIndex], and [value >= 1024] says
    [size >= 1024^(unitIndex + 1)].  The loop stops at the last unit, so
    six rounds are all it can make. *)
Fixpoint scale (rounds : nat) (size : Z) (unitIndex : nat) : nat :=
  match rounds with
  | O => unitIndex
  | S rounds' =>
      if (1024 ^ (Z.of_nat unitIndex + 1) <=? size)
         && (unitIndex <? length units - 1)%nat
      then scale rounds' size (S unitIndex)
      else unitIndex
  end.

(** [x.toFixed(2)] for [x = num / den] with [0 <= num], [0 < den] and
    [x < 10^21]: the integer [n] with [n / 100] nearest to [x], the larger
    one on a tie, printed with two decimals. *)
Definition toFixed2 (num den : Z) : jsstring :=
  let n := (200 * num + den) / (2 * den) in
  toString (n / 100) ++ js "." ++ [48 + (n mod 100) / 10; 48 + n mod 10].

Definition formatSize (size : Z) : jsstring :=
  let size := if size <? 0 then 0 else size in
  let unitIndex := scale 6 size 0 in
  match unitIndex with
  | O => toString size ++ js " B"
  | S _ =>
      toFixed2 size (1024 ^ Z.of_nat unitIndex) ++ js " "
      ++ nth unitIndex units []
  end.

(** A literal of a pattern with the [i] flag: a code unit below 128
    matches in either case, and no other code unit matches an ASCII
    letter. *)
Definition lower_ascii (c : Z) : Z :=
  if (65 <=? c) && (c <=? 90) then c + 32 else c.

(** The rest of [s] after the literal [lit] (given in lower case). *)
Fixpoint match_literal (lit s : jsstring) : option jsstring :=
  match lit, s with
  | [], _ => Some s
  | l :: lit', c :: s' =>
      if lower_ascii c =? l then match_literal lit' s' else None
  | _ :: _, [] => None
  end.

(** A match of the pattern of parseCPU (digits, whitespace, Virtual,
    whitespace, Core, case ignored) at the start of [s]: its first
    group.  The classes of digits, of whitespace and of letters are
    disjoint, so each greedy run can only end where it ends. *)
Definition match_cores_at (s : jsstring) : option jsstring :=
  let '(digits, r1) := span is_digit s in
  match digits with
  | [] => None
  | _ :: _ =>
      let '(space1, r2) := span is_space r1 in
      match space1 with
      | [] => None
      | _ :: _ =>
          match match_literal (js "virtual") r2 with
          | None => None
          | Some r3 =>
              let '(space2, r4) := span is_space r3 in
              match space2 with
              | [] => None
              | _ :: _ =>
                  match match_literal (js "core") r4 with
                  | None => None
                  | Some _ => Some digits
                  end
              end
          end
      end
  end.

(** [cpu.match(re)]: the leftmost match. *)
Fixpoint match_cores (s : jsstring) : option jsstring :=
  match match_cores_at s with
  | Some digits => Some digits
  | None =>
      match s with
      | [] => None
      | _ :: rest => match_cores rest
      end
  end.

(** [parseCPU]; the parsed group is never NaN. *)
Definition parseCPU (cpu : jsstring) : Z :=
  match match_cores cpu with
  | Some digits => parseInt10 digits
  | None => 0
  end.

End UtilsMore.

(** ** Ties of the name order *)

(** Two elements tie under a comparator. *)
Definition ties {A} (cmp : A -> A -> Z) (x y : A) : bool :=
  (cmp x y <=? 0) && (cmp y x <=? 0).

(* ===================================================================== *)
(** * index.ts: the worker in front of the object *)
(* ===================================================================== *)

(** The worker keeps no state of its own: a request either is answered
    on the spot or goes to the one MonitorDO through [stub.fetch], which
    runs [fetch] of the object.  Request bodies are typed as in types.ts:
    the members of a body that is an object are strings and numbers. *)
Module Worker.

(** [interface Env]: the members the worker reads besides those of the
    object.  They are strings. *)
Record WEnv := mkWEnv {
  env : Env;
  HOOK_TOKEN : jsstring;
  UPDATE_URI : jsstring;
  WEB_URI : jsstring;
  HOOK_URI : jsstring;
}.

(** What [request.json()] gives: it rejects, or the value is [null], on
    which reading a member throws, or any other value, of which the
    handlers read [auth_secret] ([None] unless it is a string) and the
    members of the host info. *)
Inductive Body :=
| Unreadable
| JsonNull
| JsonValue (auth_secret : option jsstring) (fields : HostInfo).

(** An incoming request: method, [url.pathname], the Upgrade header,
    [url.searchParams.get("token")] and the body. *)
Record WRequest := mkWRequest {
  w_method : jsstring;
  w_pathname : jsstring;
  w_Upgrade : option jsstring;
  w_token : option jsstring;
  w_json : Body;
}.

(** The values that the worker serializes. *)
Inductive Data :=
| DString (s : jsstring)
| DMonitors (l : list MonitorData)
| DHosts (l : list jsstring)
| DEmptyArray
| DAbout.

Inductive WBody :=
| WNull
| WPlain (text : jsstring)
| WJson (data : Data)
| WForwarded (b : ResponseBody).

Record WResponse := mkWResponse {
  w_status : Z;
  w_body : WBody;
  w_headers : JsMap.t jsstring;
  w_webSocket : option nat;
}.

Definition CORS_HEADERS : JsMap.t jsstring :=
  [(js "Access-Control-Allow-Origin", js "*");
   (js "Access-Control-Allow-Methods", js "GET, POST, PUT, DELETE, OPTIONS");
   (js "Access-Control-Allow-Headers", js "Content-Type, Authorization");
   (js "Access-Control-Max-Age", js "86400")].

(** The header that a Response gets for a text body when none is
    given. *)
Definition text_plain : JsMap.t jsstring :=
  [(js "Content-Type", js "text/plain;charset=UTF-8")].

Definition application_json : JsMap.t jsstring :=
  [(js "Content-Type", js "application/json")].

(** [corsify]: a new Response with the body, the status and the headers
    of the given one, on which each CORS header is set. *)
Definition corsify (response : WResponse) : WResponse :=
  mkWResponse (w_status response) (w_body response)
    (fold_left (fun headers e => JsMap.set e.1 e.2 headers) CORS_HEADERS
       (w_headers response))
    None.

Definition handleOptions : WResponse :=
  mkWResponse 204 WNull CORS_HEADERS None.

Definition jsonResponse (data : Data) (status : Z) : WResponse :=
  corsify (mkWResponse status (WJson data) application_json None).

Section worker.
Context `{Runtime} (wenv : WEnv).

(** A response of the object, as the worker hands it on. *)
Definition forwarded (r : Response) : WResponse :=
  mkWResponse (status r) (WForwarded (body r))
    match body r with
    | NoBody => []
    | PlainText _ => text_plain
    | _ => application_json
    end
    (webSocket r).

(** [doRPC]: a POST to /rpc of the object with [{ action, ...payload }]. *)
Definition doRPC (action : jsstring) (payload : HostInfo) : M Response :=
  fetch (rpc_request action payload).

(** The payload of an RPC that carries no member: the object reads none. *)
Definition no_payload : HostInfo := mkHostInfo [] 0 [] [] [].

(** [doResponse.json()]: [success] and [data]; reading a body that is not
    JSON throws. *)
Definition response_json (r : Response) : option (bool * option Data) :=
  match body r with
  | Success_ok => Some (true, Some (DString (js "ok")))
  | Success_monitors l => Some (true, Some (DMonitors l))
  | Success_hosts l => Some (true, Some (DHosts l))
  | Failure _ => Some (false, None)
  | PlainText _ => None
  | NoBody => None
  end.

(** [upgradeHeader.toLowerCase() !== "websocket"], negated.  Lower-casing
    yields an ASCII letter from that letter, from its upper case and,
    for k, from the Kelvin sign U+212A, and from no other code unit. *)
Definition lower_unit (c : Z) : Z :=
  if (65 <=? c) && (c <=? 90) then c + 32
  else if c =? 8490 then 107
  else c.

Definition lower_is_websocket (h : jsstring) : bool :=
  bool_decide (lower_unit <$> h = js "websocket").

Local Open Scope do_scope.

(** The two upgrade handlers differ in the path of the object only. *)
Definition handleWebSocket (do_path : jsstring) (request : WRequest)
  : M WResponse :=
  match w_Upgrade request with
  | None => ret (jsonResponse (DString (js "Expected WebSocket upgrade")) 426)
  | Some upgradeHeader =>
      if negb (truthy upgradeHeader)
         || negb (lower_is_websocket upgradeHeader)
      then ret (jsonResponse (DString (js "Expected WebSocket upgrade")) 426)
      else
        r <- fetch (mkRequest (Some upgradeHeader) do_path (js "GET") None);;
        ret (forwarded r)
  end.

Definition handleAgentWebSocket : WRequest -> M WResponse :=
  handleWebSocket (js "/ws/agent").

Definition handleViewerWebSocket : WRequest -> M WResponse :=
  handleWebSocket (js "/ws/viewer").

Definition handleGetInfo : M WResponse :=
  doResponse <- doRPC (js "getInfo") no_payload;;
  result <- or_throw SyntaxError (response_json doResponse);;
  if negb result.1 then ret (jsonResponse (DString (js "[]")) 200)
  else ret (jsonResponse (default DEmptyArray result.2) 200).

Definition handleUpdateInfo (request : WRequest) : M WResponse :=
  match w_json request with
  | Unreadable => ret (jsonResponse (DString (js "bad request")) 400)
  | JsonNull => throw TypeError
  | JsonValue auth_secret b =>
      if negb (bool_decide (auth_secret = Some (AUTH_SECRET (env wenv))))
      then ret (jsonResponse (DString (js "auth failed")) 401)
      else
        doResponse <-
          doRPC (js "updateInfo")
            (mkHostInfo (name b) (due_time b) (buy_url b) (seller b)
               (price b));;
        result <- or_throw SyntaxError (response_json doResponse);;
        if negb result.1
        then ret (jsonResponse (DString (js "internal error")) 500)
        else ret (jsonResponse (DString (js "ok")) 200)
  end.

Definition handleHook (request : WRequest) : M WResponse :=
  if negb (bool_decide (w_token request = Some (HOOK_TOKEN wenv)))
  then ret (jsonResponse (DString (js "auth failed")) 401)
  else
    doResponse <- doRPC (js "fetchData") no_payload;;
    result <- or_throw SyntaxError (response_json doResponse);;
    if negb result.1 then ret (jsonResponse DEmptyArray 200)
    else ret (jsonResponse (default DEmptyArray result.2) 200).

Definition handleDeleteHost (request : WRequest) : M WResponse :=
  match w_json request with
  | Unreadable => ret (jsonResponse (DString (js "bad request")) 400)
  | JsonNull => throw TypeError
  | JsonValue auth_secret b =>
      if negb (bool_decide (auth_secret = Some (AUTH_SECRET (env wenv))))
      then ret (jsonResponse (DString (js "auth failed")) 401)
      else
        doResponse <-
          doRPC (js "deleteHost") (mkHostInfo (name b) 0 [] [] []);;
        result <- or_throw SyntaxError (response_json doResponse);;
        if negb result.1 then
          if status doResponse =? 404
          then ret (jsonResponse (DString (js "not found")) 404)
          else ret (jsonResponse (DString (js "internal error")) 500)
        else ret (jsonResponse (DString (js "ok")) 200)
  end.

(** [env.X || fallback] *)
Definition or_default (configured fallback : jsstring) : jsstring :=
  if truthy configured then configured else fallback.

(** The fetch handler of the worker. *)
Definition worker_fetch (request : WRequest) : M WResponse :=
  if bool_decide (w_method request = js "OPTIONS") then ret handleOptions
  else
    let path := w_pathname request in
    let updateUri := or_default (UPDATE_URI wenv) (js "/monitor") in
    let webUri := or_default (WEB_URI wenv) (js "/ws") in
    let hookUri := or_default (HOOK_URI wenv) (js "/hook") in
    let GET := bool_decide (w_method request = js "GET") in
    let POST := bool_decide (w_method request = js "POST") in
    try_catch
      (if GET && bool_decide (path = updateUri) then
         handleAgentWebSocket request
       else if GET && bool_decide (path = webUri) then
         handleViewerWebSocket request
       else if bool_decide (path = js "/info") then
         if GET then handleGetInfo
         else if POST then handleUpdateInfo request
         else ret (jsonResponse (DString (js "Method not allowed")) 405)
       else if GET && bool_decide (path = hookUri) then
         handleHook request
       else if POST && bool_decide (path = js "/delete") then
         handleDeleteHost request
       else if GET && bool_decide (path = js "/") then
         ret (jsonResponse DAbout 200)
       else
         ret (corsify (mkWResponse 404 (WPlain (js "Not Found")) text_plain
                         None)))
      (fun _ => ret (jsonResponse (DString (js "Internal Server Error")) 500)).

End worker.

End Worker.

(* ===================================================================== *)
(** * Properties *)
(* ===================================================================== *)

Example compare_HK1_HK2 : Utils.compareStrings (js "HK1") (js "HK2") = -1.
Proof. reflexivity. Qed.

Example compare_HK10_HK2 : Utils.compareStrings (js "HK10") (js "HK2") = 1.
Proof. reflexivity. Qed.

Example compare_HK10_US1 : Utils.compareStrings (js "HK10") (js "US1") = -1.
Proof. reflexivity. Qed.

Example compare_fallback :
  Utils.compareStrings (js "node-2") (js "node-10") = -1.
Proof. reflexivity. Qed.

Example compare_spaces : Utils.compareStrings (js "H K 1") (js "HK1") = 0.
Proof. reflexivity. Qed.

Example ref_parse_snapshot :
  Reference.parse (Reference.snapshot (js "HK1") 1700000000)
  = Some (mkMonitorData (Some (mkHost (Some (js "HK1")))) (Some 1700000000) []).
Proof. vm_compute. reflexivity. Qed.

(* ===================================================================== *)
(** ** The comparator *)
(* ===================================================================== *)

Section Comparator.
Import Utils.

Lemma str_lt_irrefl a : str_lt a a = false.
Proof. induction a as [|x a IH]; simpl; [done|]. by rewrite Z.ltb_irrefl. Qed.

Lemma str_lt_asym a b : str_lt a b = true -> str_lt b a = false.
Proof.
  revert b. induction a as [|x a IH]; intros [|y b]; simpl; try done.
  destruct (Z.ltb_spec x y), (Z.ltb_spec y x); try done; try lia.
  apply IH.
Qed.

Lemma str_lt_connex a b : str_lt a b = false -> str_lt b a = false -> a = b.
Proof.
  revert b. induction a as [|x a IH]; intros [|y b]; simpl; try done.
  destruct (Z.ltb_spec x y), (Z.ltb_spec y x); try done.
  intros. assert (x = y) by lia. subst. f_equal. by apply IH.
Qed.

Lemma str_lt_trans a b c :
  str_lt a b = true -> str_lt b c = true -> str_lt a c = true.
Proof.
  revert b c. induction a as [|x a IH]; intros [|y b] [|z c]; simpl; try done.
  destruct (Z.ltb_spec x y), (Z.ltb_spec y x), (Z.ltb_spec y z),
    (Z.ltb_spec z y), (Z.ltb_spec x z), (Z.ltb_spec z x);
    try done; try lia.
  apply IH.
Qed.

Lemma compare_letters_flip a b :
  compare_letters b a = Z.opp <$> compare_letters a b.
Proof.
  revert b. induction a as [|x a IH]; intros [|y b]; simpl; try done.
  rewrite !Z.gtb_ltb.
  destruct (Z.ltb_spec x y), (Z.ltb_spec y x); simpl; try lia; auto.
Qed.

Lemma compare_letters_refl a : compare_letters a a = None.
Proof.
  induction a as [|x a IH]; simpl; [done|].
  by rewrite Z.gtb_ltb, Z.ltb_irrefl.
Qed.

Lemma compare_tokens_flip ta tb :
  compare_tokens tb ta = Z.opp <$> compare_tokens ta tb.
Proof.
  revert tb. induction ta as [|a ta IH]; intros [|b tb]; simpl; try done.
  destruct a as [x|x], b as [y|y]; simpl; try done.
  - rewrite !Z.gtb_ltb.
    destruct (Z.ltb_spec x y), (Z.ltb_spec y x); simpl; try lia; auto.
  - destruct (str_lt x y) eqn:Hxy.
    + by rewrite (str_lt_asym _ _ Hxy).
    + destruct (str_lt y x); [done|]. apply IH.
Qed.

Lemma compare_tokens_refl ta : compare_tokens ta ta = None.
Proof.
  induction ta as [|[x|x] ta IH]; simpl; [done| |].
  - by rewrite Z.gtb_ltb, Z.ltb_irrefl.
  - by rewrite str_lt_irrefl.
Qed.

Lemma naturalCompare_flip a b : naturalCompare b a = - naturalCompare a b.
Proof.
  unfold naturalCompare. rewrite compare_tokens_flip.
  destruct (compare_tokens (tokenize a) (tokenize b)); simpl; lia.
Qed.

Lemma naturalCompare_refl a : naturalCompare a a = 0.
Proof. unfold naturalCompare. rewrite compare_tokens_refl. lia. Qed.

Lemma compareStrings_flip a b : compareStrings b a = - compareStrings a b.
Proof.
  unfold compareStrings.
  destruct (match_name (strip_ws a)) as [[l1 d1]|],
    (match_name (strip_ws b)) as [[l2 d2]|];
    try apply naturalCompare_flip.
  rewrite compare_letters_flip.
  destruct (compare_letters l1 l2); simpl; [done|].
  rewrite !Z.gtb_ltb.
  destruct (Nat.ltb_spec (length l1) (length l2)),
    (Nat.ltb_spec (length l2) (length l1)); try done; try lia.
  destruct (Z.ltb_spec (suffix_number d1) (suffix_number d2)),
    (Z.ltb_spec (suffix_number d2) (suffix_number d1)); try done; lia.
Qed.

Lemma compareStrings_stripped_refl a b :
  strip_ws a = strip_ws b -> compareStrings a b = 0.
Proof.
  intros E. unfold compareStrings. rewrite <- E.
  destruct (match_name (strip_ws a)) as [[l d]|];
    [|apply naturalCompare_refl].
  rewrite compare_letters_refl, Nat.ltb_irrefl, Z.gtb_ltb, Z.ltb_irrefl.
  done.
Qed.

End Comparator.

(** ** The comparator is a total preorder *)

Section ComparatorOrder.
Import Utils.

Lemma lexcmp_trans ta tb tc :
  lexcmp ta tb <= 0 -> lexcmp tb tc <= 0 -> lexcmp ta tc <= 0.
Proof.
  unfold lexcmp. revert tb tc.
  induction ta as [|a ta IH]; intros [|b tb] [|c tc]; simpl;
    try lia.
  intros H1 H2. specialize (IH tb tc).
  destruct a as [x|x], b as [y|y], c as [z|z]; simpl in *; try lia.
  - rewrite !Z.gtb_ltb in *.
    destruct (Z.ltb_spec x y), (Z.ltb_spec y x), (Z.ltb_spec y z),
      (Z.ltb_spec z y), (Z.ltb_spec x z), (Z.ltb_spec z x);
      try lia.
    destruct (compare_tokens ta tb), (compare_tokens tb tc),
      (compare_tokens ta tc); lia.
  - destruct (str_lt x y) eqn:Hxy.
    + destruct (str_lt y z) eqn:Hyz.
      * by rewrite (str_lt_trans _ _ _ Hxy Hyz).
      * destruct (str_lt z y) eqn:Hzy; [lia|].
        rewrite <- (str_lt_connex _ _ Hyz Hzy). by rewrite Hxy.
    + destruct (str_lt y x) eqn:Hyx; [lia|].
      rewrite (str_lt_connex _ _ Hxy Hyx).
      destruct (str_lt y z); [done|]. destruct (str_lt z y); [lia|].
      destruct (compare_tokens ta tb), (compare_tokens tb tc),
        (compare_tokens ta tc); lia.
Qed.

(** The letter loop and the length test of compareStrings are the
    comparison of the letter groups as strings. *)
Lemma compare_letters_str_lt l1 l2 :
  match compare_letters l1 l2 with
  | Some r => r = (if str_lt l1 l2 then -1 else 1)
              /\ str_lt l2 l1 = negb (str_lt l1 l2)
  | None =>
      str_lt l1 l2 = (length l1 <? length l2)%nat
      /\ str_lt l2 l1 = (length l2 <? length l1)%nat
  end.
Proof.
  revert l2. induction l1 as [|x l1 IH]; intros [|y l2]; simpl; try done.
  rewrite Z.gtb_ltb.
  destruct (Z.ltb_spec x y), (Z.ltb_spec y x); try done; try lia.
  apply IH.
Qed.

Lemma runs_spec s :
  concat (runs s).*2 = s
  /\ Forall (fun r => r.2 <> [] /\ Forall (fun c => is_digit c = r.1) r.2)
       (runs s).
Proof.
  induction s as [|c s [IH1 IH2]]; simpl; [done|].
  destruct (runs s) as [|[d run] more] eqn:E; simpl in *.
  - subst s. split; [done|]. repeat constructor; done.
  - destruct (Bool.eqb d (is_digit c)) eqn:Hd; simpl.
    + apply Bool.eqb_prop in Hd. split; [by rewrite IH1|].
      inversion IH2 as [|? ? [? ?] ?]; subst. constructor; [|done].
      simpl in *. split; [done|]. by constructor.
    + split; [by rewrite IH1|]. constructor; [|done].
      split; [done|]. by constructor.
Qed.

Lemma runs_uniform d c s :
  Forall (fun c => is_digit c = d) (c :: s) -> runs (c :: s) = [(d, c :: s)].
Proof.
  revert c. induction s as [|c' s IH]; intros c Hall.
  - inversion Hall; subst. done.
  - inversion Hall as [|? ? Hc Hs]; subst.
    change (runs (c :: c' :: s)) with
      (match runs (c' :: s) with
       | (d, run) :: more =>
           if Bool.eqb d (is_digit c) then (d, c :: run) :: more
           else (is_digit c, [c]) :: (d, run) :: more
       | [] => [(is_digit c, [c])]
       end).
    rewrite (IH c' Hs). inversion Hs; subst.
    by rewrite Bool.eqb_reflx.
Qed.

Lemma runs_two l c ds :
  l <> [] ->
  Forall (fun c => is_digit c = false) l ->
  Forall (fun c => is_digit c = true) (c :: ds) ->
  runs (l ++ c :: ds) = [(false, l); (true, c :: ds)].
Proof.
  intros Hne Hl Hd. induction l as [|x l IH]; [done|].
  inversion Hl as [|? ? Hx Hl']; subst.
  destruct l as [|x' l].
  - simpl app.
    change (runs (x :: c :: ds)) with
      (match runs (c :: ds) with
       | (d, run) :: more =>
           if Bool.eqb d (is_digit x) then (d, x :: run) :: more
           else (is_digit x, [x]) :: (d, run) :: more
       | [] => [(is_digit x, [x])]
       end).
    rewrite (runs_uniform true c ds Hd), Hx. done.
  - change (runs ((x :: x' :: l) ++ c :: ds)) with
      (match runs ((x' :: l) ++ c :: ds) with
       | (d, run) :: more =>
           if Bool.eqb d (is_digit x) then (d, x :: run) :: more
           else (is_digit x, [x]) :: (d, run) :: more
       | [] => [(is_digit x, [x])]
       end).
    rewrite IH by done. by rewrite Hx.
Qed.

Lemma letter_not_digit c : is_letter c = true -> is_digit c = false.
Proof. unfold is_letter, is_digit. lia. Qed.

Lemma span_spec p s :
  s = (span p s).1 ++ (span p s).2
  /\ Forall (fun c => p c = true) (span p s).1
  /\ match (span p s).2 with [] => True | c :: _ => p c = false end.
Proof.
  induction s as [|c s IH]; simpl; [done|].
  destruct (p c) eqn:Hp; simpl; [|done].
  destruct (span p s) as [run tl]; simpl in *.
  destruct IH as (-> & ? & ?). repeat split; [by constructor|done].
Qed.

Lemma span_app p l r :
  Forall (fun c => p c = true) l ->
  match r with [] => True | c :: _ => p c = false end ->
  span p (l ++ r) = (l, r).
Proof.
  intros Hl Hr. induction Hl as [|x l Hx Hl IH]; simpl.
  - destruct r as [|c r]; [done|]. simpl. by rewrite Hr.
  - by rewrite Hx, IH.
Qed.

(** What a match of the name pattern says about the string. *)
Lemma match_name_Some s letters digits :
  match_name s = Some (letters, digits) <->
  s = letters ++ digits /\ letters <> []
  /\ Forall (fun c => is_letter c = true) letters
  /\ Forall (fun c => is_digit c = true) digits.
Proof.
  unfold match_name. split.
  - pose proof (span_spec is_letter s) as (Hs & Hl & _).
    destruct (span is_letter s) as [l r]; simpl in *.
    destruct l as [|x l]; [done|].
    destruct (forallb is_digit r) eqn:Hr; [|done].
    intros [= <- <-]. repeat split; try done.
    apply Forall_forall. intros c Hc%list_elem_of_In.
    rewrite forallb_forall in Hr. by apply Hr.
  - intros (-> & Hne & Hl & Hd).
    rewrite (span_app is_letter letters digits Hl).
    + destruct letters; [done|].
      assert (forallb is_digit digits = true) as ->; [|done].
      apply forallb_forall. intros c Hc%list_elem_of_In.
      rewrite Forall_forall in Hd. by apply Hd.
    + destruct digits as [|c ds]; [done|].
      inversion Hd; subst. unfold is_letter, is_digit in *. lia.
Qed.

Lemma tokenize_matched s letters digits :
  match_name s = Some (letters, digits) ->
  tokenize s =
    match digits with
    | [] => [TStr letters]
    | _ :: _ => [TStr letters; TNum (parseInt10 digits)]
    end.
Proof.
  intros (-> & Hne & Hl & Hd)%match_name_Some.
  assert (Forall (fun c => is_digit c = false) letters) as Hl'.
  { eapply Forall_impl; [exact Hl|]. apply letter_not_digit. }
  unfold tokenize. destruct digits as [|c ds].
  - rewrite app_nil_r. destruct letters as [|x l]; [done|].
    by rewrite (runs_uniform false x l Hl').
  - by rewrite (runs_two letters c ds Hne Hl' Hd).
Qed.

Lemma parseInt10_nonneg_aux ds acc :
  Forall (fun c => is_digit c = true) ds -> 0 <= acc ->
  0 <= fold_left (fun acc c => 10 * acc + (c - 48)) ds acc.
Proof.
  intros Hd. revert acc. induction Hd as [|c ds Hc Hd IH]; intros acc Hacc;
    simpl; [done|].
  apply IH. unfold is_digit in Hc. lia.
Qed.

Lemma decimal_nonneg ds :
  Forall (fun c => is_digit c = true) ds -> 0 <= decimal ds.
Proof. intros. by apply parseInt10_nonneg_aux. Qed.

Lemma to_double_small n : n < 2 ^ 53 -> to_double n = n.
Proof.
  intros Hn. unfold to_double. by destruct (Z.ltb_spec n (2 ^ 53)); [|lia].
Qed.

Lemma to_double_nonneg n : 0 <= n -> 0 <= to_double n.
Proof.
  intros Hn. unfold to_double. destruct (Z.ltb_spec n (2 ^ 53)); [done|].
  cbv zeta. apply Z.min_glb; [|by apply Z.pow_nonneg].
  assert (53 <= Z.log2 n) by (apply Z.log2_le_pow2; lia).
  assert (0 < 2 ^ (Z.log2 n - 52)) by (apply Z.pow_pos_nonneg; lia).
  assert (0 <= n / 2 ^ (Z.log2 n - 52)) by (apply Z.div_pos; lia).
  destruct (_ || _); nia.
Qed.

Lemma parseInt10_nonneg ds :
  Forall (fun c => is_digit c = true) ds -> 0 <= parseInt10 ds.
Proof. intros. by apply to_double_nonneg, decimal_nonneg. Qed.

Lemma parseInt10_small ds : decimal ds < 2 ^ 53 -> parseInt10 ds = decimal ds.
Proof. apply to_double_small. Qed.

End ComparatorOrder.

Section ComparatorKey.
Import Utils.

Lemma lexcmp_flip ta tb : lexcmp tb ta = - lexcmp ta tb.
Proof.
  unfold lexcmp. rewrite compare_tokens_flip.
  destruct (compare_tokens ta tb); simpl; lia.
Qed.

Lemma token_of_run_TStr r l : token_of_run r = TStr l -> r = (false, l).
Proof. destruct r as [[] s]; unfold token_of_run; simpl; congruence. Qed.

Lemma token_of_run_TNum r n :
  token_of_run r = TNum n -> r.1 = true /\ n = parseInt10 r.2.
Proof. destruct r as [[] s]; unfold token_of_run; simpl; split; congruence. Qed.

Lemma tokenize_TNum_nonneg s n : TNum n ∈ tokenize s -> 0 <= n.
Proof.
  unfold tokenize. intros (r & Hr & Hin)%list_elem_of_fmap.
  symmetry in Hr. apply token_of_run_TNum in Hr as [Hd ->].
  pose proof (runs_spec s) as [_ Hall].
  rewrite Forall_forall in Hall. destruct (Hall r Hin) as [_ Hds].
  apply parseInt10_nonneg. by rewrite Hd in Hds.
Qed.

Lemma tokenize_unmatched s l :
  match_name s = None -> l <> [] ->
  Forall (fun c => is_letter c = true) l ->
  tokenize s <> [TStr l] /\ forall n, tokenize s <> [TStr l; TNum n].
Proof.
  intros Hnone Hne Hl. pose proof (runs_spec s) as [Hcat Hall].
  unfold tokenize. split.
  - intros E. destruct (runs s) as [|r [|? ?]]; try done.
    simpl in E. injection E as E. apply token_of_run_TStr in E as ->.
    simpl in Hcat. rewrite app_nil_r in Hcat. subst s.
    assert (match_name l = Some (l, [])) as E; [|congruence].
    apply match_name_Some. by rewrite app_nil_r.
  - intros n E. destruct (runs s) as [|r [|r' [|? ?]]]; try done.
    simpl in E. injection E as E1 E2.
    apply token_of_run_TStr in E1 as ->.
    apply token_of_run_TNum in E2 as [Hd _].
    destruct r' as [d ds]; simpl in *. subst d.
    rewrite app_nil_r in Hcat. subst s.
    assert (match_name (l ++ ds) = Some (l, ds)) as E; [|congruence].
    apply match_name_Some. repeat split; try done.
    inversion Hall as [|? ? _ Hall']; subst.
    inversion Hall' as [|? ? [_ Hds] _]; subst. done.
Qed.

(** One name of the expected shape against one that is not. *)
Lemma sort_key_mixed s1 s2 letters digits :
  match_name s1 = Some (letters, digits) ->
  match_name s2 = None ->
  Z.sgn (lexcmp (tokenize s1) (tokenize s2))
  = Z.sgn (lexcmp [TStr letters; TNum (suffix_number digits)] (tokenize s2)).
Proof.
  intros Hm Hnone. rewrite (tokenize_matched _ _ _ Hm).
  destruct digits as [|c ds]; [|done].
  apply match_name_Some in Hm as (_ & Hne & Hl & _).
  destruct (tokenize_unmatched s2 letters Hnone Hne Hl) as [H1 H2].
  pose proof (tokenize_TNum_nonneg s2) as Hpos.
  unfold lexcmp. destruct (tokenize s2) as [|t rest]; [done|].
  destruct t as [n|x]; simpl; [done|].
  destruct (str_lt letters x) eqn:Hlx; [done|].
  destruct (str_lt x letters) eqn:Hxl; [done|].
  assert (letters = x) as -> by by apply str_lt_connex.
  destruct rest as [|[n|y] rest]; simpl; [done| |lia].
  assert (0 <= n) by (apply Hpos; set_solver).
  rewrite Z.gtb_ltb.
  destruct (Z.ltb_spec 0 n); [lia|]. destruct (Z.ltb_spec n 0); [lia|].
  assert (n = 0) as -> by lia.
  destruct rest as [|t rest]; [by destruct (H2 0)|].
  simpl. lia.
Qed.

Lemma compareStrings_key a b :
  Z.sgn (compareStrings a b)
  = Z.sgn (lexcmp (sort_key (strip_ws a)) (sort_key (strip_ws b))).
Proof.
  unfold compareStrings, sort_key.
  destruct (match_name (strip_ws a)) as [[l1 d1]|] eqn:Ha,
    (match_name (strip_ws b)) as [[l2 d2]|] eqn:Hb.
  - unfold lexcmp. simpl.
    pose proof (compare_letters_str_lt l1 l2) as Hc.
    destruct (compare_letters l1 l2) as [r|].
    + destruct Hc as [-> ->]. by destruct (str_lt l1 l2).
    + destruct Hc as [-> ->].
      destruct (length l1 <? length l2)%nat; [done|].
      destruct (length l2 <? length l1)%nat; [done|].
      destruct (suffix_number d1 <? suffix_number d2); [done|].
      destruct (suffix_number d1 >? suffix_number d2); done.
  - by apply sort_key_mixed.
  - change (naturalCompare (strip_ws a) (strip_ws b))
      with (lexcmp (tokenize (strip_ws a)) (tokenize (strip_ws b))).
    rewrite (lexcmp_flip (tokenize (strip_ws b))), Z.sgn_opp.
    rewrite (sort_key_mixed _ _ _ _ Hb Ha).
    by rewrite <- Z.sgn_opp, <- lexcmp_flip.
  - done.
Qed.

Lemma compareStrings_trans a b c :
  compareStrings a b <= 0 -> compareStrings b c <= 0 ->
  compareStrings a c <= 0.
Proof.
  intros H1 H2.
  apply (proj2 (Z.sgn_nonpos _)) in H1, H2. apply (proj1 (Z.sgn_nonpos _)).
  rewrite compareStrings_key in *.
  apply (proj1 (Z.sgn_nonpos _)) in H1, H2. apply (proj2 (Z.sgn_nonpos _)).
  eapply lexcmp_trans; eauto.
Qed.

Lemma compareStrings_total a b :
  compareStrings a b <= 0 \/ compareStrings b a <= 0.
Proof. rewrite (compareStrings_flip a b). lia. Qed.

End ComparatorKey.

(** ** Array.prototype.sort *)

Section Sort.
Import Utils.
Context {A : Type} (cmp : A -> A -> Z).

Lemma sort_insert_Permutation x l : sort_insert cmp x l ≡ₚ x :: l.
Proof.
  induction l as [|y l IH]; simpl; [done|].
  destruct (cmp x y <=? 0); [done|].
  rewrite IH. apply Permutation_swap.
Qed.

Lemma Array_sort_Permutation l : Array_sort cmp l ≡ₚ l.
Proof.
  induction l as [|x l IH]; simpl; [done|].
  by rewrite sort_insert_Permutation, IH.
Qed.

Lemma Array_sort_length l : length (Array_sort cmp l) = length l.
Proof. by rewrite Array_sort_Permutation. Qed.

Context (cmp_total : forall x y, cmp x y <= 0 \/ cmp y x <= 0).
Context (cmp_trans : forall x y z, cmp x y <= 0 -> cmp y z <= 0 -> cmp x z <= 0).

Lemma sort_insert_StronglySorted x l :
  StronglySorted (fun a b => cmp a b <= 0) l ->
  StronglySorted (fun a b => cmp a b <= 0) (sort_insert cmp x l).
Proof.
  induction 1 as [|y l Hl IH Hy]; simpl.
  - repeat constructor.
  - destruct (Z.leb_spec (cmp x y) 0) as [Hxy|Hxy].
    + constructor; [by constructor|].
      constructor; [done|].
      eapply Forall_impl; [exact Hy|]. intros z Hyz. simpl in *. eauto.
    + constructor; [done|].
      rewrite sort_insert_Permutation. constructor; [|done].
      destruct (cmp_total x y); [lia|done].
Qed.

Lemma Array_sort_StronglySorted l :
  StronglySorted (fun a b => cmp a b <= 0) (Array_sort cmp l).
Proof.
  induction l as [|x l IH]; simpl; [constructor|].
  by apply sort_insert_StronglySorted.
Qed.

End Sort.

(** Sorting pairs by their first component sorts the first components. *)
Lemma Array_sort_fst {B} (cmp : jsstring -> jsstring -> Z)
    (l : list (jsstring * B)) :
  (Utils.Array_sort (fun a b => cmp a.1 b.1) l).*1
  = Utils.Array_sort cmp l.*1.
Proof.
  unfold Utils.Array_sort.
  induction l as [|x l IH]; csimpl; [done|]. rewrite <- IH.
  generalize (foldr (Utils.sort_insert (fun a b => cmp a.1 b.1)) [] l).
  clear IH. intros s. induction s as [|y s IH]; csimpl; [done|].
  destruct (cmp x.1 y.1 <=? 0); csimpl; [done|]. by rewrite IH.
Qed.

(* ===================================================================== *)
(** ** JavaScript Map *)
(* ===================================================================== *)

Section JsMapFacts.
Context {V : Type}.
Implicit Types (m : JsMap.t V) (k : jsstring) (v : V).

Lemma JsMap_get_None k m : JsMap.get k m = None <-> k ∉ JsMap.keys m.
Proof.
  unfold JsMap.keys. induction m as [|[k' v'] m IH]; csimpl.
  - split; [|done]. intros _ Hin. inversion Hin.
  - rewrite not_elem_of_cons. case_bool_decide; subst.
    + split; [done|]. by intros [? _].
    + rewrite IH. split; [by split|]. by intros [_ ?].
Qed.

Lemma JsMap_has_true k m : JsMap.has k m = true <-> k ∈ JsMap.keys m.
Proof.
  unfold JsMap.has. destruct (JsMap.get k m) eqn:E.
  - split; [|done]. intros _. destruct (decide (k ∈ JsMap.keys m)); [done|].
    apply JsMap_get_None in n. congruence.
  - apply JsMap_get_None in E. split; [done|]. intros. done.
Qed.

Lemma JsMap_has_false k m : JsMap.has k m = false <-> k ∉ JsMap.keys m.
Proof.
  rewrite <- JsMap_has_true. destruct (JsMap.has k m); split; done.
Qed.

Lemma JsMap_get_elem_of k v m : JsMap.get k m = Some v -> (k, v) ∈ m.
Proof.
  induction m as [|[k' v'] m IH]; simpl; [done|].
  case_bool_decide; subst.
  - intros [= ->]. left.
  - intros. right. auto.
Qed.

Lemma JsMap_elem_of_keys k v m : (k, v) ∈ m -> k ∈ JsMap.keys m.
Proof. intros Hin. apply list_elem_of_fmap. by exists (k, v). Qed.

Lemma JsMap_elem_of_get k v m :
  NoDup (JsMap.keys m) -> (k, v) ∈ m -> JsMap.get k m = Some v.
Proof.
  unfold JsMap.keys. induction m as [|[k' v'] m IH]; csimpl.
  - intros _ Hin. inversion Hin.
  - intros [Hk' Hnd]%NoDup_cons Hin. case_bool_decide; subst.
    + apply elem_of_cons in Hin as [[= <-]|Hin]; [done|].
      destruct Hk'. by apply (JsMap_elem_of_keys _ v).
    + apply elem_of_cons in Hin as [[= ? ?]|Hin]; [done|]. auto.
Qed.

Lemma JsMap_get_set k k' v m :
  JsMap.get k' (JsMap.set k v m)
  = if bool_decide (k = k') then Some v else JsMap.get k' m.
Proof.
  induction m as [|[k0 v0] m IH]; simpl.
  - by destruct (bool_decide (k = k')).
  - destruct (bool_decide (k0 = k)) eqn:E0; simpl.
    + apply bool_decide_eq_true in E0 as ->.
      by destruct (bool_decide (k = k')).
    + rewrite IH. apply bool_decide_eq_false in E0.
      repeat case_bool_decide; congruence.
Qed.

Lemma JsMap_keys_set k v m :
  JsMap.keys (JsMap.set k v m)
  = if JsMap.has k m then JsMap.keys m else JsMap.keys m ++ [k].
Proof.
  unfold JsMap.has, JsMap.keys.
  induction m as [|[k0 v0] m IH]; csimpl; [done|].
  case_bool_decide; csimpl; [by subst|].
  rewrite IH. by destruct (JsMap.get k m).
Qed.

Lemma JsMap_size_keys m : JsMap.size m = length (JsMap.keys m).
Proof. unfold JsMap.size, JsMap.keys. by rewrite length_fmap. Qed.

Lemma JsMap_size_set k v m :
  JsMap.size (JsMap.set k v m)
  = if JsMap.has k m then JsMap.size m else S (JsMap.size m).
Proof.
  rewrite !JsMap_size_keys, JsMap_keys_set.
  destruct (JsMap.has k m); [done|]. rewrite length_app. simpl. lia.
Qed.

Lemma JsMap_NoDup_set k v m :
  NoDup (JsMap.keys m) -> NoDup (JsMap.keys (JsMap.set k v m)).
Proof.
  intros Hnd. rewrite JsMap_keys_set.
  destruct (JsMap.has k m) eqn:E; [done|].
  apply JsMap_has_false in E. apply NoDup_app. split; [done|].
  split; [|apply NoDup_singleton].
  intros x Hx ->%list_elem_of_singleton. done.
Qed.

(** After a set, an entry is the new one or an old one under another
    key, as long as the keys were distinct. *)
Lemma JsMap_elem_of_set k v k' v' m :
  NoDup (JsMap.keys m) ->
  (k', v') ∈ JsMap.set k v m <->
  (k' = k /\ v' = v) \/ (k' <> k /\ (k', v') ∈ m).
Proof.
  intros Hnd. pose proof (JsMap_NoDup_set k v m Hnd) as Hnd'. split.
  - intros Hin. apply (JsMap_elem_of_get _ _ _ Hnd') in Hin.
    rewrite JsMap_get_set in Hin. case_bool_decide; subst.
    + left. split; congruence.
    + right. split; [done|]. by apply JsMap_get_elem_of.
  - intros Hor. apply JsMap_get_elem_of. rewrite JsMap_get_set.
    destruct Hor as [[-> ->]|[Hne Hin]].
    + by rewrite bool_decide_eq_true_2.
    + rewrite bool_decide_eq_false_2 by done. by apply JsMap_elem_of_get.
Qed.

Lemma JsMap_elem_of_delete k k' v' m :
  (k', v') ∈ JsMap.delete k m <-> k' <> k /\ (k', v') ∈ m.
Proof.
  unfold JsMap.delete. rewrite list_elem_of_In, filter_In, <- list_elem_of_In.
  simpl. rewrite negb_true_iff, bool_decide_eq_false. tauto.
Qed.

Lemma JsMap_keys_delete k m :
  JsMap.keys (JsMap.delete k m)
  = List.filter (fun k' => negb (bool_decide (k' = k))) (JsMap.keys m).
Proof.
  unfold JsMap.keys, JsMap.delete.
  induction m as [|[k0 v0] m IH]; csimpl; [done|].
  destruct (negb (bool_decide (k0 = k))); csimpl; by rewrite IH.
Qed.

Lemma NoDup_List_filter {A} (p : A -> bool) (l : list A) :
  NoDup l -> NoDup (List.filter p l).
Proof.
  induction 1 as [|x l Hx Hl IH]; simpl; [constructor|].
  destruct (p x); [|done]. constructor; [|done].
  rewrite list_elem_of_In, filter_In, <- list_elem_of_In. tauto.
Qed.

Lemma JsMap_NoDup_delete k m :
  NoDup (JsMap.keys m) -> NoDup (JsMap.keys (JsMap.delete k m)).
Proof. rewrite JsMap_keys_delete. apply NoDup_List_filter. Qed.

Lemma JsMap_size_delete k m :
  (JsMap.size (JsMap.delete k m) <= JsMap.size m)%nat.
Proof. apply filter_length_le. Qed.

Lemma JsMap_not_elem_of_keys_delete k m : k ∉ JsMap.keys (JsMap.delete k m).
Proof.
  rewrite JsMap_keys_delete, list_elem_of_In, filter_In.
  intros [_ Hk]. rewrite negb_true_iff, bool_decide_eq_false in Hk. done.
Qed.

Lemma JsMap_get_delete k k' m :
  JsMap.get k' (JsMap.delete k m)
  = if bool_decide (k = k') then None else JsMap.get k' m.
Proof.
  case_bool_decide; subst.
  - apply JsMap_get_None, JsMap_not_elem_of_keys_delete.
  - unfold JsMap.delete. induction m as [|[k0 v0] m IH]; simpl; [done|].
    destruct (bool_decide (k0 = k)) eqn:E0; simpl.
    + apply bool_decide_eq_true in E0 as ->.
      by rewrite bool_decide_eq_false_2.
    + by rewrite IH.
Qed.

End JsMapFacts.

(* ===================================================================== *)
(** ** The methods, one by one *)
(* ===================================================================== *)

Ltac mrun :=
  unfold or_throw, exec, completes;
  unfold bind, ret, read, update, try_catch, throw;
  cbv beta iota zeta.

(** Reduce the projections of an updated state, and nothing else. *)
Ltac fields :=
  cbn [fst snd monitorData offlineMap initialized cachedViewerPayload storage
       sockets effects kv scheduled set_monitorData set_offlineMap
       set_initialized set_cachedViewerPayload set_storage set_sockets
       add_effects storage_put storage_put_all storage_delete
       storage_delete_all storage_setAlarm] in *.

Lemma MonitorDO_eta o :
  mkMonitorDO (monitorData o) (offlineMap o) (initialized o)
    (cachedViewerPayload o) (storage o) (sockets o) (effects o) = o.
Proof. by destruct o. Qed.

Lemma set_sockets_id o : set_sockets (fun _ => sockets o) o = o.
Proof. apply MonitorDO_eta. Qed.

Section Methods.
Context `{Runtime} (env : Env).

Lemma getViewerPayload_eq o :
  getViewerPayload o =
    match cachedViewerPayload o with
    | Some p => (Normal p, o)
    | None =>
        let p := JSON_stringify (sorted_entries (monitorData o)).*2 in
        (Normal p,
         add_effects [Stringified] (set_cachedViewerPayload (Some p) o))
    end.
Proof. unfold getViewerPayload. mrun. by destruct (cachedViewerPayload o). Qed.

Lemma send_caught ws text o :
  exists socks,
    try_catch (ws_send ws text) (fun _ => ret tt) o
    = (Normal tt, set_sockets (fun _ => socks) o).
Proof.
  unfold try_catch, ws_send, ret.
  destruct (sockets o !! ws) as [sock|];
    [destruct (ws_closed sock)|]; eexists; simpl;
    try (by rewrite set_sockets_id); reflexivity.
Qed.

Lemma send_all_caught viewers text o :
  exists socks,
    for_each viewers
      (fun ws => try_catch (ws_send ws text) (fun _ => ret tt)) o
    = (Normal tt, set_sockets (fun _ => socks) o).
Proof.
  revert o. induction viewers as [|ws viewers IH]; intros o; simpl.
  - exists (sockets o). by rewrite set_sockets_id.
  - unfold bind. destruct (send_caught ws text o) as [s1 ->].
    destruct (IH (set_sockets (fun _ => s1) o)) as [s2 ->]. by exists s2.
Qed.

(** A broadcast completes; it changes the sockets, and it fills the
    cache when there is a viewer. *)
Lemma broadcastToViewers_unfold o :
  broadcastToViewers o =
    match sockets_with (Some viewer) o with
    | [] => (Normal tt, o)
    | viewers =>
        match getViewerPayload o with
        | (Normal p, o1) =>
            for_each viewers
              (fun ws =>
                 try_catch (ws_send ws (js "data: " ++ p))
                   (fun _ => ret tt)) o1
        | (Throw e, o1) => (Throw e, o1)
        end
    end.
Proof.
  unfold broadcastToViewers, getWebSockets, read, bind.
  by destruct (sockets_with (Some viewer) o).
Qed.

Lemma broadcastToViewers_eq o :
  exists socks,
    broadcastToViewers o = (Normal tt, set_sockets (fun _ => socks) o)
    \/ broadcastToViewers o
       = (Normal tt, set_sockets (fun _ => socks) (exec getViewerPayload o)).
Proof.
  rewrite broadcastToViewers_unfold.
  destruct (sockets_with (Some viewer) o) as [|v vs].
  { exists (sockets o). left. by rewrite set_sockets_id. }
  unfold exec. destruct (getViewerPayload o) as [[p|e] o1] eqn:E.
  - destruct (send_all_caught (v :: vs) (js "data: " ++ p) o1) as [s ->].
    exists s. by right.
  - rewrite getViewerPayload_eq in E.
    by destruct (cachedViewerPayload o).
Qed.

Lemma broadcastToViewers_no_viewer o :
  sockets_with (Some viewer) o = [] ->
  broadcastToViewers o = (Normal tt, o).
Proof. intros E. by rewrite broadcastToViewers_unfold, E. Qed.

Lemma handleAgentData_store_eq jsonStr o :
  handleAgentData_store jsonStr o =
    match JSON_parse jsonStr with
    | None => (Throw SyntaxError, o)
    | Some data =>
        match host_name data with
        | None => (Normal tt, o)
        | Some name =>
            if at_capacity name (monitorData o) then (Normal tt, o)
            else
              broadcastToViewers
                (set_cachedViewerPayload None
                   (set_monitorData (JsMap.set name jsonStr) o))
        end
    end.
Proof.
  unfold handleAgentData_store, at_capacity.
  destruct (JSON_parse jsonStr) as [data|]; mrun; [|done].
  destruct (host_name data) as [name|]; [|done].
  by destruct (negb (JsMap.has name (monitorData o))
               && (MONITOR_DATA_MAX_ENTRIES <=? JsMap.size (monitorData o))%nat).
Qed.

Lemma tryDecompressStringMessage_parses text jsonStr :
  tryDecompressStringMessage text = Some jsonStr ->
  is_Some (JSON_parse jsonStr).
Proof.
  unfold tryDecompressStringMessage, decompress_and_check.
  destruct (JSON_parse text) eqn:E1; [by intros [= <-]; rewrite E1|].
  destruct (decompressGzip (latin1_bytes text)) as [j2|] eqn:E2.
  - destruct (JSON_parse j2) eqn:P2; [by intros [= <-]; rewrite P2|].
    destruct (decompressGzip (TextEncoder_encode text)) as [j3|]; [|done].
    destruct (JSON_parse j3) eqn:P3; [|done]. by intros [= <-]; rewrite P3.
  - destruct (decompressGzip (TextEncoder_encode text)) as [j3|]; [|done].
    destruct (JSON_parse j3) eqn:P3; [|done]. by intros [= <-]; rewrite P3.
Qed.

(** handleAgentData in one equation: the frame is dropped, or the store
    takes the snapshot, the cache is cleared and the viewers are served. *)
Lemma handleAgentData_eq ws message o :
  handleAgentData ws message o =
    match decode message with
    | None => (Normal tt, o)
    | Some (name, jsonStr) =>
        if at_capacity name (monitorData o) then (Normal tt, o)
        else
          broadcastToViewers
            (set_cachedViewerPayload None
               (set_monitorData (JsMap.set name jsonStr) o))
    end.
Proof.
  unfold handleAgentData, decode, frame_json, try_catch.
  assert (forall jsonStr,
    match handleAgentData_store jsonStr o with
    | (Normal a, o') => (Normal a, o')
    | (Throw e, o') => ret tt o'
    end =
    match JSON_parse jsonStr with
    | Some data =>
        match host_name data with
        | Some name =>
            if at_capacity name (monitorData o) then (Normal tt, o)
            else
              broadcastToViewers
                (set_cachedViewerPayload None
                   (set_monitorData (JsMap.set name jsonStr) o))
        | None => (Normal tt, o)
        end
    | None => (Normal tt, o)
    end) as Hstore.
  { intros jsonStr. rewrite handleAgentData_store_eq.
    destruct (JSON_parse jsonStr) as [data|]; [|done].
    destruct (host_name data) as [name|]; [|done].
    destruct (at_capacity name (monitorData o)); [done|].
    destruct (broadcastToViewers_eq
      (set_cachedViewerPayload None
         (set_monitorData (JsMap.set name jsonStr) o))) as [s [-> | ->]];
      done. }
  destruct message as [text|buffer].
  - destruct (tryDecompressStringMessage text) as [jsonStr|]; [|done].
    rewrite Hstore. destruct (JSON_parse jsonStr) as [data|]; [|done].
    by destruct (host_name data).
  - unfold bind, or_throw.
    destruct (decompressGzip buffer) as [jsonStr|]; [|done].
    unfold ret at 1. rewrite Hstore.
    destruct (JSON_parse jsonStr) as [data|]; [|done].
    by destruct (host_name data).
Qed.

End Methods.

Section MethodsPersistence.
Context `{Runtime} (env : Env).

Lemma persistMonitorSnapshot_eq o :
  persistMonitorSnapshot o =
    (Normal tt,
     match snapshot_puts (monitorData o) with
     | [] => o
     | puts =>
         add_effects [StoragePut puts] (set_storage (storage_put_all puts) o)
     end).
Proof.
  unfold persistMonitorSnapshot. mrun.
  by destruct (snapshot_puts (monitorData o)).
Qed.

Lemma stale_keys_cons now key value entries :
  stale_keys now ((key, value) :: entries) =
    match restore_keep now value with
    | Some _ => stale_keys now entries
    | None => key :: stale_keys now entries
    end.
Proof.
  unfold stale_keys. simpl. by destruct (restore_keep now value).
Qed.

Lemma restored_store_cons now key value entries md :
  restored_store now ((key, value) :: entries) md =
    restored_store now entries
      match restore_keep now value with
      | Some nm => JsMap.set nm value md
      | None => md
      end.
Proof. done. Qed.

Lemma restore_loop_eq now entries keysToDelete o :
  restore_loop now entries keysToDelete o =
    (Normal (keysToDelete ++ stale_keys now entries),
     set_monitorData (restored_store now entries) o).
Proof.
  revert keysToDelete o.
  induction entries as [|[key value] entries IH]; intros kd o.
  - unfold stale_keys. simpl. mrun. rewrite app_nil_r.
    by rewrite <- (MonitorDO_eta o) at 1.
  - unfold set_monitorData at 1.
    rewrite stale_keys_cons, restored_store_cons. simpl restore_loop.
    unfold restore_keep.
    destruct (JSON_parse value) as [m|]; mrun.
    + destruct (restorable now m) as [nm|]; mrun.
      * rewrite IH. done.
      * rewrite IH. by rewrite <- app_assoc.
    + rewrite IH. by rewrite <- app_assoc.
Qed.

Lemma restore_entries_eq now_ms entries o :
  restore_entries now_ms entries o =
    (Normal tt,
     let o1 :=
       set_monitorData (restored_store (now_ms / 1000) entries) o in
     match stale_keys (now_ms / 1000) entries with
     | [] => o1
     | keys =>
         add_effects [StorageDelete keys]
           (set_storage (storage_delete_all keys) o1)
     end).
Proof.
  unfold restore_entries. unfold bind. rewrite restore_loop_eq.
  simpl. by destruct (stale_keys (now_ms / 1000) entries).
Qed.

Lemma restoreMonitorSnapshot_eq now_ms o :
  restoreMonitorSnapshot now_ms o
  = restore_entries now_ms (storage_list (js "monitor:") (storage o)) o.
Proof. done. Qed.

Lemma constructor_eq st socks log now_ms :
  constructor st socks log now_ms =
    set_initialized true
      (exec (restore_entries now_ms (storage_list (js "monitor:") st))
         (mkMonitorDO [] ∅ false None st socks log)).
Proof.
  unfold constructor, exec, bind. rewrite restoreMonitorSnapshot_eq.
  simpl storage. rewrite restore_entries_eq. done.
Qed.

Lemma rpcDeleteHost_eq r o :
  rpcDeleteHost r o =
    if JsMap.has (name r) (monitorData o) then
      (Normal (doJsonResponse Success_ok 200),
       add_effects [StorageDeleteOne (monitor_key (name r))]
         (set_storage (storage_delete (monitor_key (name r)))
            (set_cachedViewerPayload None
               (set_offlineMap (base.delete (name r))
                  (set_monitorData (JsMap.delete (name r)) o)))))
    else (Normal (doJsonResponse (Failure msg_not_found) 404), o).
Proof.
  unfold rpcDeleteHost. mrun.
  by destruct (JsMap.has (name r) (monitorData o)).
Qed.

Lemma ensureAlarm_eq now_ms o :
  ensureAlarm now_ms o =
    (Normal tt,
     match scheduled (storage o) with
     | None => set_storage (storage_setAlarm (now_ms + ALARM_INTERVAL_MS)) o
     | Some _ => o
     end).
Proof. unfold ensureAlarm. mrun. by destruct (scheduled (storage o)). Qed.

End MethodsPersistence.

(* ===================================================================== *)
(** ** The durable storage *)
(* ===================================================================== *)

Section StorageFacts.

Lemma starts_with_app prefix s : starts_with prefix (prefix ++ s) = true.
Proof. induction prefix as [|p prefix IH]; simpl; [done|]. by rewrite Z.eqb_refl. Qed.

Lemma starts_with_monitor_key nm :
  starts_with (js "monitor:") (monitor_key nm) = true.
Proof. apply starts_with_app. Qed.

Lemma starts_with_host_key nm :
  starts_with (js "monitor:") (host_key nm) = false.
Proof. done. Qed.

Lemma monitor_key_inj a b : monitor_key a = monitor_key b -> a = b.
Proof. unfold monitor_key. apply app_inv_head. Qed.

Lemma host_key_not_monitor_key a b : host_key a <> monitor_key b.
Proof. done. Qed.

Lemma elem_of_List_filter {A} (p : A -> bool) (l : list A) x :
  x ∈ List.filter p l <-> x ∈ l /\ p x = true.
Proof. by rewrite !list_elem_of_In, filter_In. Qed.

Lemma elem_of_storage_list prefix s key v :
  (key, v) ∈ storage_list prefix s
  <-> kv s !! key = Some v /\ starts_with prefix key = true.
Proof.
  unfold storage_list. rewrite Array_sort_Permutation, elem_of_List_filter.
  by rewrite elem_of_map_to_list.
Qed.

Lemma NoDup_fst_List_filter {A B} (p : A * B -> bool) (l : list (A * B)) :
  NoDup l.*1 -> NoDup (List.filter p l).*1.
Proof.
  induction l as [|x l IH]; csimpl; [done|].
  intros [Hx Hl]%NoDup_cons. destruct (p x); csimpl; [|auto].
  apply NoDup_cons. split; [|auto].
  intros (y & Hy & Hin)%list_elem_of_fmap.
  apply elem_of_List_filter in Hin as [Hin _].
  apply Hx, list_elem_of_fmap. eauto.
Qed.

Lemma NoDup_storage_list prefix s : NoDup (storage_list prefix s).*1.
Proof.
  unfold storage_list. rewrite Array_sort_Permutation.
  apply NoDup_fst_List_filter, NoDup_fst_map_to_list.
Qed.

Lemma lookup_delete_all (keys : list jsstring) (t : gmap jsstring jsstring) k :
  fold_left (fun t k => base.delete k t) keys t !! k
  = if bool_decide (k ∈ keys) then None else t !! k.
Proof.
  revert t. induction keys as [|k0 keys IH]; intros t; simpl; [done|].
  rewrite IH. destruct (decide (k = k0)) as [->|Hne].
  - rewrite lookup_delete_eq.
    rewrite (bool_decide_eq_true_2 (k0 ∈ k0 :: keys)) by left.
    by destruct (bool_decide (k0 ∈ keys)).
  - rewrite lookup_delete_ne by done.
    destruct (decide (k ∈ keys)).
    + rewrite !bool_decide_eq_true_2; [done|by right|done].
    + rewrite !bool_decide_eq_false_2; [done| |done].
      by intros [?|?]%elem_of_cons.
Qed.

Lemma lookup_storage_delete_all keys s k :
  kv (storage_delete_all keys s) !! k
  = if bool_decide (k ∈ keys) then None else kv s !! k.
Proof. apply lookup_delete_all. Qed.

Lemma lookup_put_all (entries : list (jsstring * jsstring))
    (t : gmap jsstring jsstring) k v :
  fold_left (fun t e => <[e.1 := e.2]> t) entries t !! k = Some v ->
  (k, v) ∈ entries \/ t !! k = Some v.
Proof.
  revert t. induction entries as [|[k0 v0] entries IH]; intros t; simpl;
    [by right|].
  intros [Hin|Hl]%IH; [left; by right|].
  destruct (decide (k0 = k)) as [->|Hne].
  - rewrite lookup_insert_eq in Hl. injection Hl as ->. left. left.
  - rewrite lookup_insert_ne in Hl by done. by right.
Qed.

Lemma JsMap_elem_of_set_weak {V} k (v : V) k' v' m :
  (k', v') ∈ JsMap.set k v m -> (k' = k /\ v' = v) \/ (k', v') ∈ m.
Proof.
  induction m as [|[k0 v0] m IH]; simpl.
  - intros [= -> ->]%list_elem_of_singleton. by left.
  - case_bool_decide; subst.
    + intros [[= -> ->]|Hin]%elem_of_cons; [by left|]. right. by right.
    + intros [[= -> ->]|Hin]%elem_of_cons.
      * right. apply list_elem_of_here.
      * destruct (IH Hin) as [?|?]; [by left|]. right. by right.
Qed.

Lemma elem_of_snapshot_puts_acc (md acc : JsMap.t jsstring) key v :
  (key, v) ∈ fold_left (fun puts e => JsMap.set (monitor_key e.1) e.2 puts)
               md acc ->
  (key, v) ∈ acc \/ exists nm, key = monitor_key nm /\ (nm, v) ∈ md.
Proof.
  revert acc. induction md as [|[k0 v0] md IH]; intros acc; simpl;
    [by left|].
  intros [Hin|(nm & -> & Hin)]%IH.
  - apply JsMap_elem_of_set_weak in Hin as [[-> ->]|Hin]; [|by left].
    right. exists k0. split; [done|]. left.
  - right. exists nm. split; [done|]. by right.
Qed.

Lemma elem_of_snapshot_puts (md : JsMap.t jsstring) key v :
  (key, v) ∈ snapshot_puts md ->
  exists nm, key = monitor_key nm /\ (nm, v) ∈ md.
Proof.
  intros [Hin|?]%elem_of_snapshot_puts_acc; [|done]. inversion Hin.
Qed.

End StorageFacts.

(* ===================================================================== *)
(** ** The invariant of the object *)
(* ===================================================================== *)

Section Invariant.
Context `{Runtime} (env : Env).

Lemma Inv_frame o o' :
  monitorData o' = monitorData o ->
  cachedViewerPayload o' = cachedViewerPayload o ->
  kv (storage o') = kv (storage o) ->
  Inv o -> Inv o'.
Proof.
  intros E1 E2 E3 (Hs & Hc & Hk). unfold Inv, cache_ok, storage_ok.
  rewrite E1, E2, E3. done.
Qed.

Lemma Inv_getViewerPayload o : Inv o -> Inv (exec getViewerPayload o).
Proof.
  intros (Hs & Hc & Hk). unfold exec. rewrite getViewerPayload_eq.
  destruct (cachedViewerPayload o) as [p|] eqn:E; [done|].
  split; [done|]. split; [|done]. by intros p [= <-].
Qed.

Lemma Inv_broadcast o : Inv o -> Inv (exec broadcastToViewers o).
Proof.
  intros Hinv. unfold exec.
  destruct (broadcastToViewers_eq o) as [s [-> | ->]]; simpl.
  - by apply (Inv_frame o).
  - by apply (Inv_frame (exec getViewerPayload o)), Inv_getViewerPayload.
Qed.

Lemma JsMap_keys_set_incl {V} k (v : V) m k' :
  k' ∈ JsMap.keys m -> k' ∈ JsMap.keys (JsMap.set k v m).
Proof.
  rewrite JsMap_keys_set. destruct (JsMap.has k m); [done|].
  intros. apply elem_of_app. by left.
Qed.

Lemma JsMap_keys_set_new {V} k (v : V) m :
  k ∈ JsMap.keys (JsMap.set k v m).
Proof.
  rewrite JsMap_keys_set. destruct (JsMap.has k m) eqn:E.
  - by apply JsMap_has_true.
  - apply elem_of_app. right. left.
Qed.

Lemma store_ok_set name jsonStr data md :
  JSON_parse jsonStr = Some data -> host_name data = Some name ->
  at_capacity name md = false ->
  store_ok md -> store_ok (JsMap.set name jsonStr md).
Proof.
  intros Hp Hn Hcap (Hnd & Hsz & Hm). split; [|split].
  - by apply JsMap_NoDup_set.
  - rewrite JsMap_size_set. unfold at_capacity in Hcap.
    destruct (JsMap.has name md); [done|]. cbn [negb andb] in Hcap.
    apply Nat.leb_gt in Hcap. lia.
  - intros k v [[-> ->]|[_ Hin]]%JsMap_elem_of_set; [eauto|auto|done].
Qed.

Lemma Inv_put name jsonStr data o :
  JSON_parse jsonStr = Some data -> host_name data = Some name ->
  at_capacity name (monitorData o) = false ->
  Inv o ->
  Inv (set_cachedViewerPayload None
         (set_monitorData (JsMap.set name jsonStr) o)).
Proof.
  intros Hp Hn Hcap (Hs & Hc & Hk). split; [|split].
  - by apply (store_ok_set name jsonStr data).
  - done.
  - intros key v Hl Hpre. destruct (Hk key v Hl Hpre) as (nm & m & ? & ? & ?).
    exists nm, m. split; [done|]. split; [|done].
    by apply JsMap_keys_set_incl.
Qed.

Lemma decode_Some message name jsonStr :
  decode message = Some (name, jsonStr) ->
  frame_json message = Some jsonStr
  /\ exists data, JSON_parse jsonStr = Some data /\ host_name data = Some name.
Proof.
  unfold decode. destruct (frame_json message) as [j|]; [|done].
  destruct (JSON_parse j) as [data|] eqn:Hp; [|done].
  destruct (host_name data) as [nm|] eqn:Hn; [|done].
  intros [= <- <-]. eauto.
Qed.

Lemma Inv_handleAgentData ws message o :
  Inv o -> Inv (exec (handleAgentData ws message) o).
Proof.
  intros Hinv. unfold exec. rewrite handleAgentData_eq.
  destruct (decode message) as [[name jsonStr]|] eqn:E; [|done].
  destruct (at_capacity name (monitorData o)) eqn:Hcap; [done|].
  apply decode_Some in E as (_ & data & Hp & Hn).
  apply Inv_broadcast. by apply (Inv_put name jsonStr data).
Qed.

Lemma Inv_rpcDeleteHost r o : Inv o -> Inv (exec (rpcDeleteHost r) o).
Proof.
  intros Hinv. unfold exec. rewrite rpcDeleteHost_eq.
  destruct (JsMap.has (name r) (monitorData o)); [|done].
  destruct Hinv as ((Hnd & Hsz & Hm) & Hc & Hk).
  split; [split; [|split]|split]; simpl.
  - by apply JsMap_NoDup_delete.
  - pose proof (JsMap_size_delete (name r) (monitorData o)). lia.
  - intros k v [_ Hin]%JsMap_elem_of_delete. auto.
  - done.
  - intros key v Hl Hpre. simpl in Hl.
    destruct (decide (key = monitor_key (name r))) as [->|Hne].
    { by rewrite lookup_delete_eq in Hl. }
    rewrite lookup_delete_ne in Hl by done.
    destruct (Hk key v Hl Hpre) as (nm & m & -> & Hin & ?).
    exists nm, m. split; [done|]. split; [|done]. simpl.
    rewrite JsMap_keys_delete. apply elem_of_List_filter. split; [done|].
    apply negb_true_iff, bool_decide_eq_false. congruence.
Qed.

Lemma Inv_persist o : Inv o -> Inv (exec persistMonitorSnapshot o).
Proof.
  intros Hinv. unfold exec. rewrite persistMonitorSnapshot_eq.
  simpl. destruct (snapshot_puts (monitorData o)) as [|e puts] eqn:E; [done|].
  destruct Hinv as (Hs & Hc & Hk). split; [exact Hs|]. split; [exact Hc|].
  intros key v Hl Hpre.
  cbn [kv storage add_effects set_storage storage_put_all] in Hl.
  apply lookup_put_all in Hl as [Hin|Hl]; [|by apply Hk].
  rewrite <- E in Hin.
  apply elem_of_snapshot_puts in Hin as (nm & -> & Hin).
  destruct Hs as (_ & _ & Hm). destruct (Hm nm v Hin) as (m & ? & ?).
  exists nm, m. split; [done|]. split; [|done].
  by apply (JsMap_elem_of_keys _ v).
Qed.

End Invariant.

Section InvariantRestore.
Context `{Runtime} (env : Env).

Lemma restorable_Some now m nm :
  restorable now m = Some nm <->
  host_name m = Some nm
  /\ exists ts, TimeStamp m = Some ts /\ now - SNAPSHOT_MAX_AGE_SEC < ts.
Proof.
  unfold restorable. destruct (host_name m) as [n|].
  2: { split; [done|]. by intros [? _]. }
  destruct (TimeStamp m) as [ts|].
  2: { split; [done|]. by intros (_ & ts' & ? & _). }
  rewrite Z.gtb_ltb.
  destruct (Z.ltb_spec (now - SNAPSHOT_MAX_AGE_SEC) ts).
  - split; [intros [= ->]; eauto|]. by intros [[= ->] _].
  - split; [done|]. intros (_ & ts' & [= <-] & ?). lia.
Qed.

Lemma restore_keep_Some now v nm :
  restore_keep now v = Some nm <->
  exists m, JSON_parse v = Some m /\ restorable now m = Some nm.
Proof.
  unfold restore_keep. destruct (JSON_parse v) as [m|].
  - split; [by eauto|]. by intros (m' & [= <-] & Hr).
  - split; [done|]. by intros (m' & ? & _).
Qed.

Lemma restored_store_app now l1 l2 md :
  restored_store now (l1 ++ l2) md
  = restored_store now l2 (restored_store now l1 md).
Proof. apply fold_left_app. Qed.

Lemma restored_NoDup now entries md :
  NoDup (JsMap.keys md) -> NoDup (JsMap.keys (restored_store now entries md)).
Proof.
  revert md. induction entries as [|[key v] entries IH]; intros md Hnd;
    [done|].
  rewrite restored_store_cons. apply IH.
  destruct (restore_keep now v); [by apply JsMap_NoDup_set|done].
Qed.

Lemma restored_elem_of now entries md k v :
  (k, v) ∈ restored_store now entries md ->
  (k, v) ∈ md
  \/ exists key, (key, v) ∈ entries /\ restore_keep now v = Some k.
Proof.
  revert md. induction entries as [|[key v0] entries IH]; intros md;
    [by left|].
  rewrite restored_store_cons.
  intros [Hin|(key' & Hin & Hk)]%IH.
  - destruct (restore_keep now v0) as [nm|] eqn:E; [|by left].
    apply JsMap_elem_of_set_weak in Hin as [[-> ->]|Hin]; [|by left].
    right. exists key. split; [left|done].
  - right. exists key'. split; [by right|done].
Qed.

Lemma restored_keys_incl now entries md k :
  k ∈ JsMap.keys md -> k ∈ JsMap.keys (restored_store now entries md).
Proof.
  revert md. induction entries as [|[key v] entries IH]; intros md Hin;
    [done|].
  rewrite restored_store_cons. apply IH.
  destruct (restore_keep now v); [by apply JsMap_keys_set_incl|done].
Qed.

Lemma restored_keys_new now entries md key v nm :
  (key, v) ∈ entries -> restore_keep now v = Some nm ->
  nm ∈ JsMap.keys (restored_store now entries md).
Proof.
  revert md. induction entries as [|[key0 v0] entries IH]; intros md Hin Hk.
  { inversion Hin. }
  rewrite restored_store_cons.
  apply elem_of_cons in Hin as [[= <- <-]|Hin]; [|by apply IH].
  rewrite Hk. apply restored_keys_incl, JsMap_keys_set_new.
Qed.

Lemma elem_of_stale_keys now entries key :
  key ∈ stale_keys now entries <->
  exists v, (key, v) ∈ entries /\ restore_keep now v = None.
Proof.
  unfold stale_keys. rewrite list_elem_of_fmap. split.
  - intros ([k v] & -> & [Hin Hk]%elem_of_List_filter). exists v.
    split; [done|]. simpl in Hk. by destruct (restore_keep now v).
  - intros (v & Hin & Hk). exists (key, v). split; [done|].
    apply elem_of_List_filter. split; [done|]. simpl. by rewrite Hk.
Qed.

(** The state after restoreMonitorSnapshot, field by field. *)
Lemma exec_restore_entries now_ms entries o :
  let o' := exec (restore_entries now_ms entries) o in
  monitorData o'
  = restored_store (now_ms / 1000) entries (monitorData o)
  /\ cachedViewerPayload o' = cachedViewerPayload o
  /\ offlineMap o' = offlineMap o
  /\ sockets o' = sockets o
  /\ scheduled (storage o') = scheduled (storage o)
  /\ (forall k, kv (storage o') !! k
        = if bool_decide (k ∈ stale_keys (now_ms / 1000) entries)
          then None else kv (storage o) !! k)
  /\ effects o'
     = effects o ++
       match stale_keys (now_ms / 1000) entries with
       | [] => []
       | keys => [StorageDelete keys]
       end.
Proof.
  unfold exec. rewrite restore_entries_eq. cbv zeta.
  destruct (stale_keys (now_ms / 1000) entries) as [|k0 keys] eqn:E; fields.
  - repeat split; try done. by rewrite app_nil_r.
  - repeat split; try done. intros k. apply lookup_delete_all.
Qed.

Lemma Inv_constructor o now_ms :
  Inv o -> Inv (constructor (storage o) (sockets o) (effects o) now_ms).
Proof.
  intros ((Hnd & Hsz & Hm) & Hc & Hk). rewrite constructor_eq.
  pose proof (exec_restore_entries now_ms
    (storage_list (js "monitor:") (storage o))
    (mkMonitorDO [] ∅ false None (storage o) (sockets o) (effects o)))
    as (Emd & Ec & _ & _ & _ & Ekv & _).
  simpl in Emd, Ec, Ekv.
  set (o' := exec _ _) in *.
  set (entries := storage_list (js "monitor:") (storage o)) in *.
  set (now := now_ms / 1000) in *.
  assert (forall key v nm,
    (key, v) ∈ entries -> restore_keep now v = Some nm ->
    key = monitor_key nm /\ nm ∈ JsMap.keys (monitorData o)) as Hentry.
  { intros key v nm [Hl Hpre]%elem_of_storage_list Hkeep.
    destruct (Hk key v Hl Hpre) as (nm' & m' & -> & Hin & Hp & Hn).
    apply restore_keep_Some in Hkeep as (m & Hp' & (Hn' & _)%restorable_Some).
    assert (nm = nm') as -> by congruence. done. }
  apply (Inv_frame o'); [done..|].
  split; [split; [|split]|split].
  - rewrite Emd. apply restored_NoDup. constructor.
  - rewrite JsMap_size_keys. etrans; [|exact Hsz].
    rewrite JsMap_size_keys. apply submseteq_length, NoDup_submseteq.
    { rewrite Emd. apply restored_NoDup. constructor. }
    intros k (e & -> & Hin)%list_elem_of_fmap. destruct e as [k v].
    rewrite Emd in Hin.
    apply restored_elem_of in Hin as [Hin|(key & Hin & Hkeep)];
      [inversion Hin|].
    by destruct (Hentry key v k Hin Hkeep).
  - intros k v Hin. rewrite Emd in Hin.
    apply restored_elem_of in Hin as [Hin|(key & Hin & Hkeep)];
      [inversion Hin|].
    apply restore_keep_Some in Hkeep as (m & Hp & (Hn & _)%restorable_Some).
    eauto.
  - intros p Hp. rewrite Ec in Hp. done.
  - intros key v Hl Hpre. rewrite Ekv in Hl.
    case_bool_decide as Hstale; [done|].
    assert ((key, v) ∈ entries) as Hin by by apply elem_of_storage_list.
    destruct (restore_keep now v) as [nm|] eqn:Hkeep.
    + destruct (Hentry key v nm Hin Hkeep) as [-> _].
      apply restore_keep_Some in Hkeep as Hkeep'.
      destruct Hkeep' as (m & Hp & (Hn & _)%restorable_Some).
      exists nm, m. split; [done|]. split; [|done].
      rewrite Emd. by apply (restored_keys_new _ _ _ (monitor_key nm) v).
    + destruct Hstale. apply elem_of_stale_keys. eauto.
Qed.

Lemma Inv_initial now_ms : Inv (initial now_ms).
Proof.
  unfold initial.
  apply (Inv_constructor (mkMonitorDO [] ∅ false None (mkStorage ∅ None) ∅ [])).
  split; [split; [|split]|split].
  - constructor.
  - unfold JsMap.size, MONITOR_DATA_MAX_ENTRIES. simpl. lia.
  - intros k v Hin. inversion Hin.
  - done.
  - intros key v Hl. simpl in Hl. by rewrite lookup_empty in Hl.
Qed.

End InvariantRestore.

Section InvariantEvents.
Context `{Runtime} (env : Env).

Lemma alarm_eq now_ms net o :
  alarm env now_ms net o =
    (Normal tt,
     alarm_reschedule now_ms
       (exec persistMonitorSnapshot (alarm_sweep env now_ms net o))).
Proof.
  unfold alarm, alarm_sweep, alarm_reschedule, exec. fold (tg_enabled env).
  unfold bind at 1 2.
  destruct (tg_enabled env).
  - unfold getAllMonitorData. mrun.
    destruct (Telegram.checkOfflineStatus _ _ _ _ _ _ _) as [flags reqs].
    cbn [fst snd]. rewrite !persistMonitorSnapshot_eq.
    unfold getWebSockets. mrun. cbn [fst snd].
    match goal with |- context [if ?c then _ else _] => by destruct c end.
  - mrun. rewrite !persistMonitorSnapshot_eq. unfold getWebSockets. mrun.
    cbn [fst snd].
    match goal with |- context [if ?c then _ else _] => by destruct c end.
Qed.

Lemma Inv_alarm now_ms net o : Inv o -> Inv (exec (alarm env now_ms net) o).
Proof.
  intros Hinv. unfold exec at 1. rewrite alarm_eq. cbn [snd].
  assert (Inv (alarm_sweep env now_ms net o)) as H1.
  { unfold alarm_sweep. destruct (tg_enabled env); [|done].
    by apply (Inv_frame o). }
  apply Inv_persist in H1. unfold alarm_reschedule.
  match goal with |- context [if ?c then _ else _] => destruct c end;
    [|done].
  by eapply Inv_frame; [..|exact H1].
Qed.

Lemma exec_ws_send ws text o :
  exists socks, exec (ws_send ws text) o = set_sockets (fun _ => socks) o.
Proof.
  unfold exec, ws_send.
  destruct (sockets o !! ws) as [sock|]; [destruct (ws_closed sock)|];
    eexists; simpl; try (by rewrite set_sockets_id); reflexivity.
Qed.

Lemma Inv_webSocketMessage ws message now_ms o :
  Inv o -> Inv (exec (webSocketMessage env ws message now_ms) o).
Proof.
  intros Hinv. unfold webSocketMessage, getTags, ws_deserializeAttachment.
  unfold exec. unfold bind at 1. unfold read at 1.
  case_bool_decide.
  - unfold bind at 1. unfold read at 1.
    destruct (authed _).
    + by apply Inv_handleAgentData.
    + destruct (negb _).
      * unfold ws_close.
        destruct (sockets o !! ws) as [sock|]; [destruct (ws_closed sock)|];
          simpl; first [done | by apply (Inv_frame o)].
      * unfold bind at 1. unfold ws_serializeAttachment, update.
        unfold bind at 1.
        match goal with |- context [ws_send ws ?t ?o1] =>
          assert (Inv o1) as Ho1 by (by apply (Inv_frame o));
          destruct (ws_send ws t o1) as [[[]|e] o2] eqn:E;
          pose proof (exec_ws_send ws t o1) as [s Hs];
          unfold exec in Hs; rewrite E in Hs; simpl in Hs; subst o2
        end.
        -- rewrite ensureAlarm_eq. cbn [snd].
           match goal with |- context [scheduled ?x] =>
             destruct (scheduled x) end;
             eapply Inv_frame; [..|exact Ho1]; done.
        -- by eapply Inv_frame; [..|exact Ho1].
  - case_bool_decide; [|done].
    unfold bind. rewrite getViewerPayload_eq.
    destruct (cachedViewerPayload o) as [p|] eqn:Ec.
    + destruct (send_caught ws (js "data: " ++ p) o) as [s ->].
      by apply (Inv_frame o).
    + cbv beta iota zeta.
      match goal with |- context [try_catch (ws_send ws ?t) _ ?o1] =>
        destruct (send_caught ws t o1) as [s ->];
        assert (Inv o1) as Ho1
      end.
      { pose proof (Inv_getViewerPayload o Hinv) as H2.
        unfold exec in H2. rewrite getViewerPayload_eq, Ec in H2. done. }
      by eapply Inv_frame; [..|exact Ho1].
Qed.

Lemma Inv_accept tags o :
  Inv o -> Inv (exec (acceptWebSocket tags) o).
Proof. intros. by apply (Inv_frame o). Qed.

Lemma Inv_rpcUpdateInfo r o : Inv o -> Inv (exec (rpcUpdateInfo r) o).
Proof.
  intros (Hs & Hc & Hk). split; [exact Hs|]. split; [exact Hc|].
  intros key v Hl Hpre. unfold rpcUpdateInfo, exec in Hl.
  cbn -[host_key] in Hl.
  destruct (decide (key = host_key (name r))) as [->|Hne].
  { by rewrite starts_with_host_key in Hpre. }
  rewrite lookup_insert_ne in Hl by done.
  destruct (Hk key v Hl Hpre) as (nm & m & ? & ? & ?). by exists nm, m.
Qed.

Lemma Inv_fetch request o : Inv o -> Inv (exec (fetch request) o).
Proof.
  intros Hinv. unfold fetch. case_bool_decide.
  - case_bool_decide; [by apply (Inv_frame o)|].
    case_bool_decide; [by apply (Inv_frame o)|done].
  - destruct (_ && _); [|done].
    unfold handleRPC, exec, try_catch, bind, or_throw.
    destruct (json request) as [b|]; [|done]. unfold ret at 1.
    case_bool_decide; [done|].
    case_bool_decide; [done|].
    case_bool_decide; [by apply Inv_rpcUpdateInfo|].
    case_bool_decide; [|done].
    pose proof (Inv_rpcDeleteHost (req b) o Hinv) as Hd.
    unfold exec in Hd. rewrite rpcDeleteHost_eq in *.
    by destruct (JsMap.has (name (req b)) (monitorData o)).
Qed.

Lemma Inv_deliver ev o : Inv o -> Inv (deliver env ev o).
Proof.
  intros Hinv. destruct ev as [request|ws message now_ms|ws|ws|now_ms net|now_ms];
    simpl.
  - by apply Inv_fetch.
  - by apply Inv_webSocketMessage.
  - by apply (Inv_frame o).
  - unfold webSocketError, exec.
    destruct (send_caught ws [] o) as [s _].
    unfold try_catch, ws_close.
    destruct (sockets o !! ws) as [sock|]; [destruct (ws_closed sock)|];
      simpl; first [done | by apply (Inv_frame o)].
  - apply Inv_alarm. by apply (Inv_frame o).
  - by apply Inv_constructor.
Qed.

(** Every state the object can be in satisfies the invariant. *)
Lemma reachable_Inv o : reachable env o -> Inv o.
Proof.
  induction 1 as [now_ms|o ev _ IH].
  - apply Inv_initial.
  - by apply Inv_deliver.
Qed.

Lemma reachable_deliver_all evs o :
  reachable env o -> reachable env (deliver_all env evs o).
Proof.
  revert o. induction evs as [|ev evs IH]; intros o Hr; [done|].
  apply IH. by constructor.
Qed.

End InvariantEvents.

(* ===================================================================== *)
(** ** The comparator and the name order of the specification *)
(* ===================================================================== *)

Section NameOrderFacts.
Import Utils.

Lemma lex_str_lt a b :
  NameOrder.lex a b =
    if str_lt a b then Lt else if str_lt b a then Gt else Eq.
Proof.
  revert b. induction a as [|x a IH]; intros [|y b]; simpl; try done.
  rewrite IH.
  destruct (Z.compare_spec x y), (Z.ltb_spec x y), (Z.ltb_spec y x);
    try done; lia.
Qed.

Lemma shape_match_name s :
  NameOrder.shape s =
    match match_name s with
    | Some (letters, digits) => Some (letters, suffix_number digits)
    | None => None
    end.
Proof.
  unfold NameOrder.shape, match_name.
  destruct (span is_letter s) as [[|x l] d]; simpl; [done|].
  by destruct (forallb is_digit d).
Qed.

Lemma runs_head_class c s :
  exists run more, runs (c :: s) = (is_digit c, run) :: more.
Proof.
  revert c. induction s as [|c' s IH]; intros c; [by eexists _, _|].
  destruct (IH c') as (run & more & E).
  change (runs (c :: c' :: s)) with
    (match runs (c' :: s) with
     | (d, run) :: more =>
         if Bool.eqb d (is_digit c) then (d, c :: run) :: more
         else (is_digit c, [c]) :: (d, run) :: more
     | [] => [(is_digit c, [c])]
     end).
  rewrite E. destruct (Bool.eqb (is_digit c') (is_digit c)) eqn:Hd.
  - apply Bool.eqb_prop in Hd. rewrite Hd. by eexists _, _.
  - by eexists _, _.
Qed.

(** A maximal run at the head of a string is the first run. *)
Lemma runs_app d l rest :
  l <> [] ->
  Forall (fun c => is_digit c = d) l ->
  match rest with [] => True | c :: _ => is_digit c = negb d end ->
  runs (l ++ rest) = (d, l) :: runs rest.
Proof.
  intros Hne Hl Hrest. induction l as [|x l IH]; [done|].
  inversion Hl as [|? ? Hx Hl']; subst.
  change (runs ((x :: l) ++ rest)) with
    (match runs (l ++ rest) with
     | (d, run) :: more =>
         if Bool.eqb d (is_digit x) then (d, x :: run) :: more
         else (is_digit x, [x]) :: (d, run) :: more
     | [] => [(is_digit x, [x])]
     end).
  destruct l as [|x' l].
  - simpl app. destruct rest as [|c rest]; [done|].
    destruct (runs_head_class c rest) as (run & more & E). rewrite E, Hrest.
    by destruct (is_digit x).
  - rewrite IH by done. by rewrite Bool.eqb_reflx.
Qed.

Lemma span_length p s : (length (span p s).2 <= length s)%nat.
Proof.
  induction s as [|c s IH]; simpl; [done|].
  destruct (p c); simpl; [|lia].
  destruct (span p s); simpl in *. lia.
Qed.

Lemma runs_from_tokenize fuel s :
  (length s <= fuel)%nat ->
  NameOrder.runs_from fuel s = run_of_token <$> tokenize s.
Proof.
  revert s. induction fuel as [|fuel IH]; intros s Hlen.
  { destruct s; [done|simpl in Hlen; lia]. }
  destruct s as [|c s]; [done|].
  cbn [NameOrder.runs_from].
  assert (forall d,
    is_digit c = d ->
    let '(run, rest) := span (fun x => Bool.eqb (is_digit x) d) (c :: s) in
    runs (c :: s) = (d, run) :: runs rest
    /\ (length rest <= fuel)%nat) as Hrun.
  { intros d Hd. cbn [span]. rewrite Hd, Bool.eqb_reflx.
    pose proof (span_spec (fun x => Bool.eqb (is_digit x) d) s)
      as (Hs & Hall & Hrest).
    destruct (span _ s) as [run' rest']. cbn [fst snd] in Hs, Hall, Hrest.
    split.
    - rewrite Hs at 1.
      apply (runs_app d (c :: run') rest'); [done| |].
      + constructor; [done|].
        eapply Forall_impl; [exact Hall|]. intros x Hx. simpl in Hx.
        by apply Bool.eqb_prop in Hx.
      + destruct rest' as [|x rest']; [done|].
        destruct (is_digit x), d; simpl in *; done.
    - rewrite Hs in Hlen. rewrite length_cons, length_app in Hlen. lia. }
  unfold tokenize.
  destruct (is_digit c) eqn:Hc.
  - specialize (Hrun true eq_refl).
    assert (span is_digit (c :: s)
            = span (fun x => Bool.eqb (is_digit x) true) (c :: s)) as ->.
    { generalize (c :: s). intros l. induction l as [|x l IHl]; simpl; [done|].
      rewrite IHl. by destruct (is_digit x). }
    destruct (span _ (c :: s)) as [run rest]. destruct Hrun as [-> Hlen'].
    csimpl. by rewrite IH.
  - specialize (Hrun false eq_refl).
    assert (span (fun x => negb (is_digit x)) (c :: s)
            = span (fun x => Bool.eqb (is_digit x) false) (c :: s)) as ->.
    { generalize (c :: s). intros l. induction l as [|x l IHl]; simpl; [done|].
      rewrite IHl. by destruct (is_digit x). }
    destruct (span _ (c :: s)) as [run rest]. destruct Hrun as [-> Hlen'].
    csimpl. by rewrite IH.
Qed.

Lemma runs_of_tokenize s : NameOrder.runs_of s = run_of_token <$> tokenize s.
Proof. by apply runs_from_tokenize. Qed.

Lemma by_runs_lexcmp ta tb :
  NameOrder.sign
    (NameOrder.by_runs (run_of_token <$> ta) (run_of_token <$> tb))
  = Z.sgn (lexcmp ta tb).
Proof.
  unfold lexcmp. revert tb.
  induction ta as [|a ta IH]; intros [|b tb]; csimpl; try done; try lia.
  destruct a as [x|x], b as [y|y]; simpl; try done.
  - rewrite Z.gtb_ltb.
    destruct (Z.compare_spec x y), (Z.ltb_spec x y), (Z.ltb_spec y x);
      try done; try lia.
    rewrite IH. destruct (compare_tokens ta tb); [done|].
    f_equal. lia.
  - rewrite lex_str_lt. destruct (str_lt x y); [done|].
    destruct (str_lt y x); [done|].
    rewrite IH. destruct (compare_tokens ta tb); [done|].
    f_equal. lia.
Qed.

(** compareStrings orders two names as the specification says. *)
Lemma compareStrings_NameOrder a b :
  Z.sgn (compareStrings a b) = NameOrder.sign (NameOrder.compare a b).
Proof.
  unfold compareStrings, NameOrder.compare. rewrite !shape_match_name.
  destruct (match_name (strip_ws a)) as [[l1 d1]|] eqn:Ha,
    (match_name (strip_ws b)) as [[l2 d2]|] eqn:Hb;
    try (rewrite !runs_of_tokenize, by_runs_lexcmp; reflexivity).
  unfold NameOrder.by_shape. simpl. rewrite lex_str_lt.
  pose proof (compare_letters_str_lt l1 l2) as Hc.
  destruct (compare_letters l1 l2) as [r|].
  - destruct Hc as [-> ->]. by destruct (str_lt l1 l2).
  - destruct Hc as [-> ->].
    destruct (length l1 <? length l2)%nat; [done|].
    destruct (length l2 <? length l1)%nat; [done|].
    rewrite Z.gtb_ltb.
    destruct (Z.compare_spec (suffix_number d1) (suffix_number d2)),
      (Z.ltb_spec (suffix_number d1) (suffix_number d2)),
      (Z.ltb_spec (suffix_number d2) (suffix_number d1)); try done; lia.
Qed.

End NameOrderFacts.

(** ** The comparator against the order of the specification *)

Section SpecOrderFacts.
Import Utils.

Lemma SpecOrder_letter c : SpecOrder.letter c = is_letter c.
Proof.
  apply Bool.eq_iff_eq_true. unfold SpecOrder.letter, SpecOrder.one_of.
  let l := eval vm_compute in
    (js "ABCDEFGHIJKLMNOPQRSTUVWXYZabcdefghijklmnopqrstuvwxyz") in
  change (js "ABCDEFGHIJKLMNOPQRSTUVWXYZabcdefghijklmnopqrstuvwxyz") with l.
  unfold is_letter. cbn [existsb].
  rewrite !orb_true_iff, !andb_true_iff, !Z.eqb_eq, !Z.leb_le. lia.
Qed.

Lemma SpecOrder_digit c : SpecOrder.digit c = is_digit c.
Proof.
  apply Bool.eq_iff_eq_true. unfold SpecOrder.digit, SpecOrder.one_of.
  let l := eval vm_compute in (js "0123456789") in
  change (js "0123456789") with l.
  unfold is_digit. cbn [existsb].
  rewrite !orb_true_iff, !andb_true_iff, !Z.eqb_eq, !Z.leb_le. lia.
Qed.

Lemma SpecOrder_whitespace c :
  SpecOrder.one_of SpecOrder.whitespace_characters c = is_space c.
Proof.
  apply Bool.eq_iff_eq_true.
  unfold SpecOrder.one_of, SpecOrder.whitespace_characters, is_space.
  cbn [existsb].
  rewrite !orb_true_iff, !andb_true_iff, !Z.eqb_eq, !Z.leb_le. lia.
Qed.

Lemma SpecOrder_stripped s : SpecOrder.stripped s = strip_ws s.
Proof.
  unfold SpecOrder.stripped, strip_ws.
  induction s as [|c s IH]; [done|]. cbn [List.filter].
  by rewrite SpecOrder_whitespace, IH.
Qed.

Lemma span_leading_after (p q : Z -> bool) s :
  (forall c, p c = q c) ->
  span q s = (SpecOrder.leading p s, SpecOrder.after p s).
Proof.
  intros Hpq. induction s as [|c s IH]; [done|].
  cbn [span SpecOrder.leading SpecOrder.after]. rewrite <- Hpq.
  destruct (p c); [|done]. by rewrite IH.
Qed.

Lemma SpecOrder_place c :
  is_digit c = true -> SpecOrder.place c (js "0123456789") = c - 48.
Proof.
  unfold is_digit. intros [H1 H2]%andb_true_iff.
  apply Z.leb_le in H1, H2.
  let l := eval vm_compute in (js "0123456789") in
  change (js "0123456789") with l.
  cbn [SpecOrder.place].
  repeat match goal with
         | |- context [c =? ?d] => destruct (Z.eqb_spec c d); [lia|]
         end.
  lia.
Qed.

Lemma SpecOrder_integer_from ds acc :
  Forall (fun c => is_digit c = true) ds ->
  SpecOrder.integer_from acc ds
  = fold_left (fun acc c => 10 * acc + (c - 48)) ds acc.
Proof.
  intros Hd. revert acc.
  induction Hd as [|c ds Hc Hd IH]; intros acc; [done|].
  cbn [SpecOrder.integer_from fold_left]. rewrite SpecOrder_place by done.
  rewrite IH. f_equal. lia.
Qed.

Lemma SpecOrder_integer ds :
  Forall (fun c => is_digit c = true) ds -> SpecOrder.integer ds = decimal ds.
Proof. apply SpecOrder_integer_from. Qed.

Lemma forallb_digit ds : forallb SpecOrder.digit ds = forallb is_digit ds.
Proof.
  induction ds as [|c ds IH]; [done|]. cbn [forallb].
  by rewrite SpecOrder_digit, IH.
Qed.

(** The round that parseInt makes on the numbers of the specification. *)
Lemma NameOrder_shape_tokens s :
  NameOrder.shape s
  = (fun x : jsstring * Z => (x.1, to_double x.2)) <$> SpecOrder.tokens s.
Proof.
  unfold NameOrder.shape, SpecOrder.tokens.
  rewrite (span_leading_after SpecOrder.letter is_letter s SpecOrder_letter).
  rewrite forallb_digit.
  destruct (SpecOrder.leading SpecOrder.letter s) as [|l ls]; [done|].
  cbn [truthy andb].
  destruct (forallb is_digit (SpecOrder.after SpecOrder.letter s)) eqn:Hd;
    [|done].
  cbn [fmap option_fmap option_map fst snd]. f_equal. f_equal.
  apply Is_true_true_2, forallb_True in Hd. rewrite SpecOrder_integer.
  - by destruct (SpecOrder.after SpecOrder.letter s).
  - eapply Forall_impl; [exact Hd|]. intros c Hc. by apply Is_true_true.
Qed.

Lemma SpecOrder_by_code a b : SpecOrder.by_code a b = NameOrder.lex a b.
Proof.
  revert b. induction a as [|x a IH]; intros [|y b]; try done.
  cbn [SpecOrder.by_code NameOrder.lex]. rewrite IH.
  by destruct (Z.compare_spec x y), (Z.ltb_spec x y), (Z.ltb_spec y x);
    try lia.
Qed.

Lemma leading_Forall (p : Z -> bool) s :
  Forall (fun c => p c = true) (SpecOrder.leading p s).
Proof.
  induction s as [|c s IH]; [by constructor|]. cbn [SpecOrder.leading].
  destruct (p c) eqn:Hc; by constructor.
Qed.

Local Abbreviation rounded :=
  (fun r => match r with
            | SpecOrder.Number n => NameOrder.Digits (to_double n)
            | SpecOrder.Chars t => NameOrder.Other t
            end).

Local Abbreviation small :=
  (fun r => match r with
            | SpecOrder.Number n => n <? 2 ^ 53
            | SpecOrder.Chars _ => true
            end).

Lemma NameOrder_runs_from fuel s :
  NameOrder.runs_from fuel s = rounded <$> SpecOrder.runs_upto fuel s.
Proof.
  revert s. induction fuel as [|fuel IH]; intros s; [done|].
  destruct s as [|c s]; [done|].
  cbn [NameOrder.runs_from SpecOrder.runs_upto]. rewrite SpecOrder_digit.
  destruct (is_digit c) eqn:Hc.
  - rewrite (span_leading_after SpecOrder.digit is_digit (c :: s)
               SpecOrder_digit).
    pose proof (leading_Forall SpecOrder.digit (c :: s)) as Hl.
    rewrite IH. cbn [fmap list_fmap]. f_equal. f_equal. unfold parseInt10.
    rewrite SpecOrder_integer; [done|].
    eapply Forall_impl; [exact Hl|].
    intros x Hx. by rewrite <- SpecOrder_digit.
  - rewrite (span_leading_after (fun c => negb (SpecOrder.digit c))
               (fun c => negb (is_digit c)) (c :: s)).
    + by rewrite IH.
    + intros x. by rewrite SpecOrder_digit.
Qed.

Lemma NameOrder_by_runs ra rb :
  forallb small ra = true -> forallb small rb = true ->
  NameOrder.by_runs (rounded <$> ra) (rounded <$> rb)
  = SpecOrder.natural ra rb.
Proof.
  revert rb. induction ra as [|x ra IH]; intros [|y rb] Ha Hb;
    try done; [by destruct x|].
  cbn [forallb] in Ha, Hb.
  apply andb_true_iff in Ha as [Hx Ha], Hb as [Hy Hb].
  csimpl. destruct x as [m|u], y as [n|v]; try done.
  - apply Z.ltb_lt in Hx, Hy.
    cbn [NameOrder.compare_run SpecOrder.natural].
    rewrite !to_double_small, IH by done.
    by destruct (Z.compare_spec m n), (Z.ltb_spec m n), (Z.ltb_spec n m);
      try lia.
  - cbn [NameOrder.compare_run SpecOrder.natural].
    by rewrite SpecOrder_by_code, IH.
Qed.

(** On identities whose numbers are below 2^53 the normal form of the
    comparator is the order of the specification. *)
Lemma NameOrder_SpecOrder a b :
  SpecOrder.small_numbers a = true -> SpecOrder.small_numbers b = true ->
  NameOrder.compare a b = SpecOrder.compare a b.
Proof.
  unfold SpecOrder.small_numbers, NameOrder.compare, SpecOrder.compare.
  rewrite !SpecOrder_stripped, !NameOrder_shape_tokens.
  intros [Ha Hra]%andb_true_iff [Hb Hrb]%andb_true_iff.
  assert (forall s, NameOrder.runs_of s = rounded <$> SpecOrder.runs s)
    as Hruns by (intros s; apply NameOrder_runs_from).
  destruct (SpecOrder.tokens (strip_ws a)) as [[l1 n1]|],
    (SpecOrder.tokens (strip_ws b)) as [[l2 n2]|];
    cbn [fmap option_fmap option_map fst snd];
    try (by rewrite !Hruns, NameOrder_by_runs).
  apply Z.ltb_lt in Ha, Hb.
  unfold NameOrder.by_shape. cbn [fst snd].
  rewrite !to_double_small, SpecOrder_by_code by done.
  by destruct (NameOrder.lex l1 l2), (Z.compare_spec n1 n2),
    (Z.ltb_spec n1 n2), (Z.ltb_spec n2 n1); try lia.
Qed.

(** compareStrings orders two such identities as the specification
    says. *)
Lemma compareStrings_SpecOrder a b :
  SpecOrder.small_numbers a = true -> SpecOrder.small_numbers b = true ->
  Z.sgn (compareStrings a b)
  = match SpecOrder.compare a b with Lt => -1 | Eq => 0 | Gt => 1 end.
Proof.
  intros Ha Hb. rewrite compareStrings_NameOrder, NameOrder_SpecOrder by done.
  by destruct (SpecOrder.compare a b).
Qed.

End SpecOrderFacts.

(* ===================================================================== *)
(** * C10: the comparator is reflexive and antisymmetric in sign *)
(* ===================================================================== *)

(** C10.  compareStrings returns 0 on two equal names; swapping its
    arguments negates the sign of its result; and two names that are the
    same once their whitespace characters are removed compare equal. *)
Theorem C10_compareStrings_sign_laws (a b : jsstring) :
  Utils.compareStrings a a = 0
  /\ Z.sgn (Utils.compareStrings a b) = - Z.sgn (Utils.compareStrings b a)
  /\ (Utils.strip_ws a = Utils.strip_ws b -> Utils.compareStrings a b = 0).
Proof.
  split; [by apply compareStrings_stripped_refl|]. split.
  - rewrite (compareStrings_flip b a). apply Z.sgn_opp.
  - apply compareStrings_stripped_refl.
Qed.

Lemma C10_witness :
  Utils.strip_ws (js "H K 1") = Utils.strip_ws (js " HK1 ")
  /\ Utils.compareStrings (js "H K 1") (js " HK1 ") = 0.
Proof.
  split; [reflexivity|].
  apply (C10_compareStrings_sign_laws (js "H K 1") (js " HK1 ")).
  reflexivity.
Defined.

(* ===================================================================== *)
(** * C3: all() returns the snapshots in the name order *)
(* ===================================================================== *)

Section SortedSnapshots.
Context `{Runtime}.

Lemma parsed_entries_names md :
  names_match md ->
  (parsed_entries md).*1 = JsMap.keys md
  /\ forall k m, (k, m) ∈ parsed_entries md -> host_name m = Some k.
Proof.
  unfold parsed_entries, JsMap.keys.
  induction md as [|[k v] md IH]; intros Hm; csimpl.
  { split; [done|]. intros k m Hin. inversion Hin. }
  destruct (Hm k v) as (m & Hp & Hn); [left|]. rewrite Hp. csimpl.
  destruct IH as [IH1 IH2].
  { intros k' v' Hin. apply Hm. by right. }
  split; [by rewrite IH1|].
  intros k' m' [[= -> ->]|Hin]%elem_of_cons; [done|]. by apply IH2.
Qed.

Lemma sorted_entries_Permutation md : sorted_entries md ≡ₚ parsed_entries md.
Proof. apply Array_sort_Permutation. Qed.

Lemma sorted_entries_StronglySorted md :
  StronglySorted (fun x y => Utils.compareStrings x.1 y.1 <= 0)
    (sorted_entries md).
Proof.
  apply (Array_sort_StronglySorted
           (fun a b : jsstring * MonitorData => Utils.compareStrings a.1 b.1)).
  - intros x y. apply compareStrings_total.
  - intros x y z. apply compareStrings_trans.
Qed.

Lemma sorted_entries_names md :
  names_match md ->
  (sorted_entries md).*1 = Utils.Array_sort Utils.compareStrings (JsMap.keys md)
  /\ host_name <$> (sorted_entries md).*2 = Some <$> (sorted_entries md).*1.
Proof.
  intros Hm. destruct (parsed_entries_names md Hm) as [Hk Hn]. split.
  - unfold sorted_entries. by rewrite Array_sort_fst, Hk.
  - assert (forall k m, (k, m) ∈ sorted_entries md -> host_name m = Some k)
      as Hs.
    { intros k m Hin. apply Hn. by rewrite <- sorted_entries_Permutation. }
    induction (sorted_entries md) as [|[k m] l IH]; csimpl; [done|].
    rewrite (Hs k m) by left. f_equal. apply IH.
    intros k' m' Hin. apply Hs. by right.
Qed.

Lemma getAllMonitorData_eq o :
  getAllMonitorData o = (Normal (sorted_entries (monitorData o)).*2, o).
Proof. done. Qed.

Lemma rpcFetchData_eq o :
  rpcFetchData o =
    (Normal (doJsonResponse
               (Success_monitors (sorted_entries (monitorData o)).*2) 200),
     o).
Proof. done. Qed.

End SortedSnapshots.

(** The four names of the example are in strictly increasing order. *)
Lemma example_names_sorted :
  StronglySorted (fun x y => Utils.compareStrings x y <= 0)
    [js "HK1"; js "HK2"; js "HK10"; js "US1"].
Proof.
  repeat (constructor; [|repeat (constructor; [by vm_compute|])]);
    repeat constructor.
Qed.

Lemma example_names_order (l : list jsstring) :
  l ≡ₚ [js "HK10"; js "HK2"; js "HK1"; js "US1"] ->
  Utils.Array_sort Utils.compareStrings l
  = [js "HK1"; js "HK2"; js "HK10"; js "US1"].
Proof.
  intros Hp.
  apply (StronglySorted_unique_strong (fun x y => Utils.compareStrings x y <= 0)).
  - intros x1 x2 Hx1 Hx2 H12 H21.
    rewrite Array_sort_Permutation, Hp in Hx1.
    repeat (apply elem_of_cons in Hx1 as [->|Hx1]);
      [| | | |by inversion Hx1];
      repeat (apply elem_of_cons in Hx2 as [->|Hx2]);
      try done; try (by inversion Hx2);
      by (vm_compute in H12; vm_compute in H21).
  - apply Array_sort_StronglySorted.
    + intros x y. apply compareStrings_total.
    + intros x y z. apply compareStrings_trans.
  - apply example_names_sorted.
  - rewrite Array_sort_Permutation, Hp.
    etrans; [apply perm_skip, perm_swap|].
    etrans; [apply perm_swap|]. apply perm_skip, perm_swap.
Qed.

(** C3 (amended).  In a store whose identities are strings,
    getAllMonitorData, which fetchData returns unchanged, yields the
    stored snapshots that parse, sorted by compareStrings on their keys.
    compareStrings orders two identities as the specification describes
    it (whitespace stripped, letters then integer for identities of that
    shape, run by run otherwise) whenever the numbers it reads from them
    are below 2^53: parseInt yields doubles, not integers.  A store whose
    keys are HK10, HK2, HK1 and US1, in any order, is returned in the order
    HK1, HK2, HK10, US1. *)
Theorem C3_all_in_name_order `{Runtime} (o : MonitorDO) :
  string_names o ->
  let md := monitorData o in
  getAllMonitorData o = (Normal (sorted_entries md).*2, o)
  /\ rpcFetchData o
     = (Normal (doJsonResponse (Success_monitors (sorted_entries md).*2) 200), o)
  /\ sorted_entries md ≡ₚ parsed_entries md
  /\ StronglySorted (fun x y => Utils.compareStrings x.1 y.1 <= 0)
       (sorted_entries md)
  /\ (names_match md -> (parsed_entries md).*1 = JsMap.keys md)
  /\ (forall a b,
        SpecOrder.small_numbers a = true ->
        SpecOrder.small_numbers b = true ->
        Z.sgn (Utils.compareStrings a b)
        = match SpecOrder.compare a b with Lt => -1 | Eq => 0 | Gt => 1 end)
  /\ (names_match md ->
      JsMap.keys md ≡ₚ [js "HK10"; js "HK2"; js "HK1"; js "US1"] ->
      host_name <$> (sorted_entries md).*2
      = [Some (js "HK1"); Some (js "HK2"); Some (js "HK10"); Some (js "US1")]).
Proof.
  intros _ md. split; [done|]. split; [done|].
  split; [apply sorted_entries_Permutation|].
  split; [apply sorted_entries_StronglySorted|].
  split; [intros Hm; by apply parsed_entries_names|].
  split; [apply compareStrings_SpecOrder|].
  intros Hm Hp. destruct (sorted_entries_names md Hm) as [E1 E2].
  by rewrite E2, E1, (example_names_order _ Hp).
Qed.

(** From here on the reference runtime is at hand to run the model. *)
#[local] Existing Instance Reference.runtime.

Lemma C3_witness :
  let o :=
    Reference.run
      [EvFetch (mkRequest (Some (js "websocket")) (js "/ws/agent") (js "GET") None);
       EvMessage 0 (Text (js "secret")) 1000000;
       EvMessage 0 (Reference.agent_frame (js "US1") 1000) 1000000;
       EvMessage 0 (Reference.agent_frame (js "HK10") 1000) 1000000;
       EvMessage 0 (Reference.agent_frame (js "HK1") 1000) 1000000;
       EvMessage 0 (Reference.agent_frame (js "HK2") 1000) 1000000]
      (initial 0) in
  JsMap.keys (monitorData o) = [js "US1"; js "HK10"; js "HK1"; js "HK2"]
  /\ host_name <$> (sorted_entries (monitorData o)).*2
     = [Some (js "HK1"); Some (js "HK2"); Some (js "HK10"); Some (js "US1")]
  /\ Z.sgn (Utils.compareStrings (js "HK 2") (js "HK10"))
     = match SpecOrder.compare (js "HK 2") (js "HK10") with
       | Lt => -1 | Eq => 0 | Gt => 1
       end.
Proof.
  intros o.
  assert (JsMap.keys (monitorData o)
          = [js "US1"; js "HK10"; js "HK1"; js "HK2"]) as Hkeys
    by (vm_compute; reflexivity).
  assert (Inv o) as (Hs & _).
  { apply (reachable_Inv Reference.env), reachable_deliver_all. constructor. }
  clearbody o.
  assert (string_names o) as Hstr by done.
  split; [exact Hkeys|]. split.
  - apply (C3_all_in_name_order o Hstr); [apply Hs|].
    rewrite Hkeys. apply (bool_decide_unpack _). vm_compute. exact I.
  - apply (C3_all_in_name_order o Hstr); by vm_compute.
Defined.

(** C3, the claim as stated, fails on long suffixes.  The suffixes of
    HK9007199254740993 and HK9007199254740992 are different integers, and
    the order of the specification puts the second identity first; parseInt
    reads both as 2^53, compareStrings returns 0, and the sort leaves the
    two in the order in which it finds them. *)
Lemma C3_suffixes_are_doubles :
  let a := js "HK9007199254740993" in
  let b := js "HK9007199254740992" in
  SpecOrder.compare a b = Gt
  /\ Utils.compareStrings a b = 0
  /\ Utils.Array_sort Utils.compareStrings [a; b] = [a; b].
Proof. vm_compute. repeat split; reflexivity. Qed.

(* ===================================================================== *)
(** * C2 and C9: the frame decoder *)
(* ===================================================================== *)

Lemma byte_of_Z_land c : byte_of_Z (Z.land c 255) = byte_of_Z c.
Proof.
  unfold byte_of_Z. change 255 with (Z.ones 8).
  rewrite Z.land_ones by lia. change (2 ^ 8) with 256.
  by rewrite Z.mod_mod.
Qed.

Lemma latin1_bytes_low_byte text : latin1_bytes text = byte_of_Z <$> text.
Proof.
  unfold latin1_bytes. induction text as [|c text IH]; csimpl; [done|].
  by rewrite byte_of_Z_land, IH.
Qed.

Lemma byte_of_to_Z b : byte_of_Z (byte_to_Z b) = b.
Proof. by destruct b. Qed.

Lemma latin1_bytes_string b : latin1_bytes (latin1_string b) = b.
Proof.
  rewrite latin1_bytes_low_byte. unfold latin1_string.
  induction b as [|x b IH]; csimpl; [done|].
  by rewrite byte_of_to_Z, IH.
Qed.

Section Decoder.
Context `{Runtime}.

Lemma decompress_and_check_gunzip_json b :
  decompress_and_check b = gunzip_json b.
Proof.
  unfold decompress_and_check, gunzip_json, decompressGzip, parses.
  destruct (gunzip b) as [out|]; csimpl; [|done].
  by destruct (JSON_parse (TextDecoder_decode out)).
Qed.

Lemma tryDecompressStringMessage_ladder text :
  tryDecompressStringMessage text =
    first_success
      [strategy_direct text; strategy_low_byte text; strategy_utf8 text].
Proof.
  unfold tryDecompressStringMessage, strategy_direct, strategy_low_byte,
    strategy_utf8, parses.
  rewrite !decompress_and_check_gunzip_json, latin1_bytes_low_byte.
  destruct (JSON_parse text); simpl; [done|].
  destruct (gunzip_json (byte_of_Z <$> text)); [done|].
  by destruct (gunzip_json (TextEncoder_encode text)).
Qed.

(** A gzip stream read as text is not JSON. *)
Lemma gzip_text_not_json gz out :
  gunzip gz = Some out -> JSON_parse (latin1_string gz) = None.
Proof.
  intros (rest & ->)%gunzip_magic. apply JSON_parse_control.
Qed.

Lemma frame_json_gzip gz plain J :
  gunzip gz = Some plain -> TextDecoder_decode plain = J ->
  is_Some (JSON_parse J) ->
  frame_json (Binary gz) = Some J
  /\ frame_json (Text (latin1_string gz)) = Some J.
Proof.
  intros Hgz HJ [m Hm]. simpl. unfold decompressGzip. rewrite Hgz. csimpl.
  split; [by rewrite HJ|].
  unfold tryDecompressStringMessage.
  rewrite (gzip_text_not_json gz plain Hgz), latin1_bytes_string.
  unfold decompress_and_check, decompressGzip.
  rewrite Hgz. csimpl. by rewrite HJ, Hm.
Qed.

Lemma handleAgentData_frame_json ws m1 m2 o :
  frame_json m1 = frame_json m2 ->
  handleAgentData ws m1 o = handleAgentData ws m2 o.
Proof. intros E. rewrite !handleAgentData_eq. unfold decode. by rewrite E. Qed.

Lemma webSocketMessage_authed env ws sock message now_ms o :
  sockets o !! ws = Some sock -> agent ∈ ws_tags sock ->
  ws_attachment sock = Some (mkAttachment true) ->
  webSocketMessage env ws message now_ms o = handleAgentData ws message o.
Proof.
  intros Hs Htag Hatt.
  unfold webSocketMessage, getTags, ws_deserializeAttachment.
  unfold bind at 1. unfold read at 1. rewrite Hs.
  rewrite bool_decide_eq_true_2 by done.
  unfold bind at 1. unfold read at 1. by rewrite Hs, Hatt.
Qed.

End Decoder.

(** C2.  A binary frame is decompressed and decoded as text, and that text
    is what handleAgentData parses.  A text frame goes through the three
    strategies in order: the text itself when it is JSON, its code units
    truncated to bytes and decompressed, its UTF-8 encoding decompressed;
    the first success is taken.  When all three fail the handler returns
    normally and changes nothing.  Hence for a JSON string J and a gzip
    stream gz of it, the binary frame gz and the text frame whose code
    units are the bytes of gz (all below 0x80 or not) yield the same text
    J and are handled alike. *)
Theorem C2_frame_decoding `{Runtime} (ws : nat) (o : MonitorDO) :
  (forall buffer,
     frame_json (Binary buffer) = TextDecoder_decode <$> gunzip buffer)
  /\ (forall text,
        frame_json (Text text) =
          first_success
            [strategy_direct text; strategy_low_byte text; strategy_utf8 text])
  /\ (forall message,
        handleAgentData ws message o =
          match frame_json message with
          | None => (Normal tt, o)
          | Some jsonStr =>
              match JSON_parse jsonStr with
              | None => (Normal tt, o)
              | Some data =>
                  match host_name data with
                  | None => (Normal tt, o)
                  | Some name =>
                      if at_capacity name (monitorData o) then (Normal tt, o)
                      else
                        broadcastToViewers
                          (set_cachedViewerPayload None
                             (set_monitorData (JsMap.set name jsonStr) o))
                  end
              end
          end)
  /\ (forall text,
        strategy_direct text = None -> strategy_low_byte text = None ->
        strategy_utf8 text = None ->
        handleAgentData ws (Text text) o = (Normal tt, o))
  /\ (forall J gz plain,
        gunzip gz = Some plain -> TextDecoder_decode plain = J ->
        is_Some (JSON_parse J) ->
        frame_json (Binary gz) = Some J
        /\ frame_json (Text (latin1_string gz)) = Some J
        /\ handleAgentData ws (Text (latin1_string gz)) o
           = handleAgentData ws (Binary gz) o).
Proof.
  split; [done|]. split; [intros; apply tryDecompressStringMessage_ladder|].
  split.
  { intros message. rewrite handleAgentData_eq. unfold decode.
    destruct (frame_json message) as [j|]; [|done].
    destruct (JSON_parse j) as [d|]; [|done]. by destruct (host_name d). }
  split.
  { intros text H1 H2 H3. rewrite handleAgentData_eq. unfold decode.
    simpl frame_json. rewrite tryDecompressStringMessage_ladder. simpl.
    by rewrite H1, H2, H3. }
  intros J gz plain Hgz HJ Hp.
  destruct (frame_json_gzip gz plain J Hgz HJ Hp) as [E1 E2].
  split; [done|]. split; [done|].
  apply handleAgentData_frame_json. by rewrite E1, E2.
Qed.

Lemma C2_witness :
  let J := Reference.snapshot (js "HK1") 1000 in
  let gz := Reference.gzip (latin1_bytes J) in
  let o := initial 0 in
  frame_json (Binary gz) = Some J
  /\ frame_json (Text (latin1_string gz)) = Some J
  /\ handleAgentData 0 (Text (latin1_string gz)) o
     = handleAgentData 0 (Binary gz) o
  /\ handleAgentData 0 (Text (js "not json")) o = (Normal tt, o).
Proof.
  intros J gz o.
  destruct (C2_frame_decoding 0 o) as (_ & _ & _ & Hfail & Hgz).
  destruct (Hgz J gz (latin1_bytes J)) as (E1 & E2 & E3).
  - reflexivity.
  - vm_compute. reflexivity.
  - vm_compute. eexists. reflexivity.
  - split; [exact E1|]. split; [exact E2|]. split; [exact E3|].
    apply Hfail; vm_compute; reflexivity.
Defined.

(** C9.  On an authenticated agent socket, a frame that cannot be decoded
    (no strategy succeeds, or the stream of a binary frame is corrupt), a
    frame whose text is not JSON, and a frame whose JSON has no truthy
    Host.Name are all dropped: the handler returns normally and the whole
    state is as before, so the store and the cache are unchanged, nothing
    is sent to any viewer, and the socket is neither closed nor written. *)
Theorem C9_dropped_frames_change_nothing `{Runtime} (env : Env)
    (ws : nat) (sock : WebSocket) (message : Message) (now_ms : Z)
    (o : MonitorDO) :
  sockets o !! ws = Some sock -> agent ∈ ws_tags sock ->
  ws_attachment sock = Some (mkAttachment true) ->
  frame_json message = None
  \/ (exists jsonStr,
        frame_json message = Some jsonStr /\ JSON_parse jsonStr = None)
  \/ (exists jsonStr data,
        frame_json message = Some jsonStr /\ JSON_parse jsonStr = Some data
        /\ host_name data = None) ->
  webSocketMessage env ws message now_ms o = (Normal tt, o)
  /\ handleAgentData ws message o = (Normal tt, o).
Proof.
  intros Hs Htag Hatt Hdrop.
  rewrite (webSocketMessage_authed env ws sock) by done.
  assert (decode message = None) as Hd.
  { unfold decode.
    destruct Hdrop as [->|[(j & -> & ->)|(j & d & -> & -> & ->)]]; done. }
  rewrite handleAgentData_eq, Hd. done.
Qed.

Lemma C9_witness :
  let o :=
    Reference.run
      [EvFetch (mkRequest (Some (js "websocket")) (js "/ws/agent") (js "GET") None);
       EvMessage 0 (Text (js "secret")) 1000000]
      (initial 0) in
  webSocketMessage Reference.env 0 (Text (js "{}")) 1001000 o = (Normal tt, o)
  /\ handleAgentData 0 (Text (js "{}")) o = (Normal tt, o).
Proof.
  intros o.
  apply (C9_dropped_frames_change_nothing Reference.env 0
           (mkWebSocket [agent] (Some (mkAttachment true))
              [js "auth success"] None)).
  - vm_compute. reflexivity.
  - left.
  - reflexivity.
  - right. right. exists (js "{}"), (mkMonitorData None None []).
    repeat split; vm_compute; reflexivity.
Defined.

(* ===================================================================== *)
(** * C1: the store is bounded and keyed by Host.Name *)
(* ===================================================================== *)

Section Capacity.
Context `{Runtime}.

Lemma monitorData_broadcast o :
  monitorData (exec broadcastToViewers o) = monitorData o.
Proof.
  unfold exec. destruct (broadcastToViewers_eq o) as [s [-> | ->]]; [done|].
  cbn [snd]. unfold exec. rewrite getViewerPayload_eq.
  by destruct (cachedViewerPayload o).
Qed.

(** The store after a frame that decodes. *)
Lemma monitorData_handleAgentData ws message name jsonStr o :
  decode message = Some (name, jsonStr) ->
  monitorData (exec (handleAgentData ws message) o) =
    if at_capacity name (monitorData o) then monitorData o
    else JsMap.set name jsonStr (monitorData o).
Proof.
  intros Hd. unfold exec. rewrite handleAgentData_eq, Hd.
  destruct (at_capacity name (monitorData o)); [done|].
  apply (monitorData_broadcast
           (set_cachedViewerPayload None
              (set_monitorData (JsMap.set name jsonStr) o))).
Qed.

Lemma ingest_all_size ws frames decoded o :
  decode <$> frames = Some <$> decoded ->
  NoDup decoded.*1 ->
  (forall nm, nm ∈ decoded.*1 -> nm ∉ JsMap.keys (monitorData o)) ->
  (JsMap.size (monitorData o) <= MONITOR_DATA_MAX_ENTRIES)%nat ->
  JsMap.size (monitorData (ingest_all ws frames o))
  = Nat.min (JsMap.size (monitorData o) + length frames)
      MONITOR_DATA_MAX_ENTRIES.
Proof.
  revert decoded o.
  induction frames as [|frame frames IH]; intros decoded o Hdec Hnd Hnew Hsz.
  { simpl. lia. }
  destruct decoded as [|[nm jsonStr] decoded]; [done|].
  csimpl in *. injection Hdec as Hd Hdec.
  apply NoDup_cons in Hnd as [Hnm Hnd].
  pose proof (monitorData_handleAgentData ws frame nm jsonStr o Hd) as Hmd.
  assert (JsMap.has nm (monitorData o) = false) as Hhas.
  { apply JsMap_has_false, Hnew. left. }
  unfold at_capacity in Hmd. rewrite Hhas in Hmd. cbn [negb andb] in Hmd.
  rewrite (IH decoded); [|done|done| |].
  - rewrite Hmd.
    destruct (Nat.leb_spec MONITOR_DATA_MAX_ENTRIES (JsMap.size (monitorData o))).
    + lia.
    + rewrite JsMap_size_set, Hhas. lia.
  - intros nm' Hin. rewrite Hmd.
    destruct (MONITOR_DATA_MAX_ENTRIES <=? JsMap.size (monitorData o))%nat.
    + apply Hnew. by right.
    + rewrite JsMap_keys_set, Hhas. intros [Hold| ->%list_elem_of_singleton]%elem_of_app.
      * by apply (Hnew nm'); [right|].
      * done.
  - rewrite Hmd.
    destruct (Nat.leb_spec MONITOR_DATA_MAX_ENTRIES (JsMap.size (monitorData o))).
    + done.
    + rewrite JsMap_size_set, Hhas. lia.
Qed.

End Capacity.

(** C1.  In every reachable state the store has at most 500 entries, its
    keys are distinct, and every stored value parses to a snapshot whose
    Host.Name is its key.  A frame that decodes to an identity that is not
    in a store of 500 entries is rejected: the handler returns normally and
    the whole state, sockets included, is as before.  A frame for an
    identity that is present replaces the value of that entry in place and
    leaves the other entries as they are.  Handling 501 frames of distinct
    identities on an empty store leaves exactly 500 entries. *)
Theorem C1_store_bounded_and_keyed `{Runtime} (env : Env) (ws : nat) :
  (forall o, reachable env o ->
     (JsMap.size (monitorData o) <= 500)%nat
     /\ NoDup (JsMap.keys (monitorData o))
     /\ forall k v, JsMap.get k (monitorData o) = Some v ->
          exists data, JSON_parse v = Some data /\ host_name data = Some k)
  /\ (forall o message name jsonStr,
        decode message = Some (name, jsonStr) ->
        JsMap.has name (monitorData o) = false ->
        JsMap.size (monitorData o) = 500%nat ->
        handleAgentData ws message o = (Normal tt, o))
  /\ (forall o message name jsonStr,
        decode message = Some (name, jsonStr) ->
        JsMap.has name (monitorData o) = true ->
        let o' := exec (handleAgentData ws message) o in
        monitorData o' = JsMap.set name jsonStr (monitorData o)
        /\ JsMap.get name (monitorData o') = Some jsonStr
        /\ JsMap.size (monitorData o') = JsMap.size (monitorData o)
        /\ JsMap.keys (monitorData o') = JsMap.keys (monitorData o)
        /\ forall k, k <> name ->
             JsMap.get k (monitorData o') = JsMap.get k (monitorData o))
  /\ (forall o frames decoded,
        monitorData o = [] ->
        length frames = 501%nat ->
        decode <$> frames = Some <$> decoded ->
        NoDup decoded.*1 ->
        JsMap.size (monitorData (ingest_all ws frames o)) = 500%nat).
Proof.
  split; [|split; [|split]].
  - intros o Hr. apply reachable_Inv in Hr as ((Hnd & Hsz & Hm) & _).
    split; [exact Hsz|]. split; [exact Hnd|].
    intros k v Hg. apply Hm. by apply JsMap_get_elem_of.
  - intros o message name jsonStr Hd Hhas Hsz.
    rewrite handleAgentData_eq, Hd. unfold at_capacity.
    by rewrite Hhas, Hsz.
  - intros o message name jsonStr Hd Hhas o'.
    pose proof (monitorData_handleAgentData ws message name jsonStr o Hd) as E.
    unfold at_capacity in E. rewrite Hhas in E. cbn [negb andb] in E.
    fold o' in E. rewrite E. split; [done|].
    split; [by rewrite JsMap_get_set, bool_decide_eq_true_2|].
    split; [by rewrite JsMap_size_set, Hhas|].
    split; [by rewrite JsMap_keys_set, Hhas|].
    intros k Hk. by rewrite JsMap_get_set, bool_decide_eq_false_2.
  - intros o frames decoded Hmd Hlen Hdec Hnd.
    rewrite (ingest_all_size ws frames decoded); [|done|done| |].
    + rewrite Hmd, Hlen. done.
    + intros nm _. rewrite Hmd. intros Hin. inversion Hin.
    + rewrite Hmd. unfold JsMap.size, MONITOR_DATA_MAX_ENTRIES. simpl. lia.
Qed.

Lemma C1_witness :
  let full := ingest_all 0 (numbered_frames 500) (initial 0) in
  (JsMap.size (monitorData full) = 500%nat
   /\ handleAgentData 0
        (Reference.agent_frame (js "HK1") 1000) full = (Normal tt, full))
  /\ JsMap.get (js "N7")
       (monitorData
          (exec (handleAgentData 0 (Reference.agent_frame (js "N7") 2000)) full))
     = Some (Reference.snapshot (js "N7") 2000)
  /\ JsMap.size
       (monitorData (ingest_all 0 (numbered_frames 501) (initial 0)))
     = 500%nat
  /\ (JsMap.size (monitorData (initial 0)) <= 500)%nat.
Proof.
  intros full.
  destruct (C1_store_bounded_and_keyed Reference.env 0)
    as (Hinv & Hfull & Hreplace & Hmany).
  assert (JsMap.size (monitorData full) = 500%nat) as Hsz
    by (vm_compute; reflexivity).
  assert (JsMap.has (js "HK1") (monitorData full) = false) as Hnew
    by (vm_compute; reflexivity).
  assert (JsMap.has (js "N7") (monitorData full) = true) as Hold
    by (vm_compute; reflexivity).
  clearbody full.
  split; [split; [exact Hsz|]|split; [|split]].
  - apply (Hfull full _ (js "HK1") (Reference.snapshot (js "HK1") 1000));
      [vm_compute; reflexivity|exact Hnew|exact Hsz].
  - apply (Hreplace full _ (js "N7") (Reference.snapshot (js "N7") 2000));
      [vm_compute; reflexivity|exact Hold].
  - apply (Hmany (initial 0) (numbered_frames 501) (numbered_decoded 501)).
    + reflexivity.
    + vm_compute; reflexivity.
    + vm_compute; reflexivity.
    + apply (bool_decide_unpack _). vm_compute. exact I.
  - apply (Hinv (initial 0)). constructor.
Defined.

(* ===================================================================== *)
(** * C4: the authentication of an agent *)
(* ===================================================================== *)

Section Authentication.
Context `{Runtime} (env : Env).

Lemma webSocketMessage_unauthenticated ws sock message now_ms o :
  sockets o !! ws = Some sock -> agent ∈ ws_tags sock ->
  is_authed sock = false ->
  webSocketMessage env ws message now_ms o =
    if bool_decide (message_text message = AUTH_SECRET env) then
      bind (ws_serializeAttachment ws (mkAttachment true))
        (fun _ => bind (ws_send ws (js "auth success"))
                    (fun _ => ensureAlarm now_ms)) o
    else ws_close ws 1008 (js "auth failed") o.
Proof.
  intros Hs Htag Hun.
  unfold webSocketMessage, getTags, ws_deserializeAttachment.
  unfold bind at 1. unfold read at 1. rewrite Hs.
  rewrite bool_decide_eq_true_2 by done.
  unfold bind at 1. unfold read at 1. rewrite Hs.
  unfold is_authed in Hun. rewrite Hun. fold (message_text message).
  by destruct (bool_decide (message_text message = AUTH_SECRET env)).
Qed.

Lemma auth_failure ws sock message now_ms o :
  sockets o !! ws = Some sock -> agent ∈ ws_tags sock ->
  is_authed sock = false -> ws_closed sock = None ->
  message_text message <> AUTH_SECRET env ->
  webSocketMessage env ws message now_ms o =
    (Normal tt,
     set_sockets
       <[ws := mkWebSocket (ws_tags sock) (ws_attachment sock) (ws_sent sock)
                 (Some (1008, js "auth failed"))]> o).
Proof.
  intros Hs Htag Hun Hopen Hne.
  rewrite (webSocketMessage_unauthenticated ws sock) by done.
  rewrite bool_decide_eq_false_2 by done.
  unfold ws_close. by rewrite Hs, Hopen.
Qed.

Lemma auth_success ws sock message now_ms o :
  sockets o !! ws = Some sock -> agent ∈ ws_tags sock ->
  is_authed sock = false -> ws_closed sock = None ->
  message_text message = AUTH_SECRET env ->
  webSocketMessage env ws message now_ms o =
    (Normal tt,
     let o1 :=
       set_sockets
         <[ws := mkWebSocket (ws_tags sock) (Some (mkAttachment true))
                   (ws_sent sock ++ [js "auth success"]) None]> o in
     match scheduled (storage o) with
     | None => set_storage (storage_setAlarm (now_ms + ALARM_INTERVAL_MS)) o1
     | Some _ => o1
     end).
Proof.
  intros Hs Htag Hun Hopen He.
  rewrite (webSocketMessage_unauthenticated ws sock) by done.
  rewrite bool_decide_eq_true_2 by done.
  unfold bind at 1. unfold ws_serializeAttachment, update.
  unfold bind at 1. unfold ws_send. cbn [sockets set_sockets].
  rewrite Hs, lookup_insert_eq. cbn [ws_closed ws_tags ws_attachment ws_sent].
  rewrite Hopen, ensureAlarm_eq. unfold set_sockets, set_storage.
  cbn [monitorData offlineMap initialized cachedViewerPayload storage sockets
       effects].
  rewrite Hs, insert_insert_eq. done.
Qed.

End Authentication.

(** C4 (amended).  The first message on an agent socket whose attachment
    does not say authed, while the socket is open, is compared as text
    with AUTH_SECRET: a text message as it is, a binary message after
    TextDecoder has decoded it.  When it differs, the
    socket is closed with code 1008 and nothing else changes: nothing is
    sent and the store is as before.  When it is equal, the attachment
    becomes authed, exactly one message, "auth success", is appended to
    what the socket has sent, an alarm is scheduled when none is, and the
    store is as before, so the secret is not handled as data.  The
    attachment outlives an eviction of the object, and a message on a
    socket whose attachment says authed goes to handleAgentData. *)
Theorem C4_agent_authentication `{Runtime} (env : Env) (ws : nat)
    (sock : WebSocket) (message : Message) (now_ms : Z) (o : MonitorDO) :
  sockets o !! ws = Some sock -> agent ∈ ws_tags sock ->
  is_authed sock = false -> ws_closed sock = None ->
  let result := webSocketMessage env ws message now_ms o in
  (message_text message <> AUTH_SECRET env ->
     result =
       (Normal tt,
        set_sockets
          <[ws := mkWebSocket (ws_tags sock) (ws_attachment sock)
                    (ws_sent sock) (Some (1008, js "auth failed"))]> o)
     /\ monitorData result.2 = monitorData o
     /\ storage result.2 = storage o)
  /\ (message_text message = AUTH_SECRET env ->
      let sock' :=
        mkWebSocket (ws_tags sock) (Some (mkAttachment true))
          (ws_sent sock ++ [js "auth success"]) None in
      result.1 = Normal tt
      /\ sockets result.2 = <[ws := sock']> (sockets o)
      /\ is_Some (scheduled (storage result.2))
      /\ kv (storage result.2) = kv (storage o)
      /\ monitorData result.2 = monitorData o
      /\ cachedViewerPayload result.2 = cachedViewerPayload o
      /\ (forall later,
            sockets (deliver env (EvEvict later) result.2) !! ws = Some sock')
      /\ (forall o' next later,
            sockets o' !! ws = Some sock' ->
            webSocketMessage env ws next later o'
            = handleAgentData ws next o')).
Proof.
  intros Hs Htag Hun Hopen result. split.
  - intros Hne. unfold result.
    rewrite (auth_failure env ws sock) by done. done.
  - intros He sock'. unfold result.
    rewrite (auth_success env ws sock) by done. cbn [fst snd].
    split; [done|].
    split; [by destruct (scheduled (storage o))|].
    split; [by destruct (scheduled (storage o)) eqn:E; cbn; rewrite ?E|].
    split; [by destruct (scheduled (storage o))|].
    split; [by destruct (scheduled (storage o))|].
    split; [by destruct (scheduled (storage o))|].
    split.
    + intros later. cbn [deliver]. rewrite constructor_eq.
      cbn [sockets set_initialized].
      match goal with |- context [exec (restore_entries ?n ?e) ?o0] =>
        pose proof (exec_restore_entries n e o0) as (_ & _ & _ & Es & _) end.
      rewrite Es. cbn [sockets].
      destruct (scheduled (storage o)); cbn [sockets set_storage set_sockets];
        apply lookup_insert_eq.
    + intros o' next later Hs'.
      by apply (webSocketMessage_authed env ws sock').
Qed.

Lemma C4_witness :
  let o :=
    Reference.run
      [EvFetch (mkRequest (Some (js "websocket")) (js "/ws/agent") (js "GET") None)]
      (initial 0) in
  let wrong := webSocketMessage Reference.env 0 (Text (js "guess")) 5000 o in
  let right := webSocketMessage Reference.env 0 (Text (js "secret")) 5000 o in
  (sockets wrong.2 !! 0%nat
   = Some (mkWebSocket [agent] (Some (mkAttachment false)) []
             (Some (1008, js "auth failed"))))
  /\ sockets right.2 !! 0%nat
     = Some (mkWebSocket [agent] (Some (mkAttachment true))
               [js "auth success"] None)
  /\ is_Some (scheduled (storage right.2)).
Proof.
  intros o wrong right.
  pose (sock := mkWebSocket [agent] (Some (mkAttachment false)) [] None).
  assert (sockets o !! 0%nat = Some sock) as Hs by (vm_compute; reflexivity).
  destruct (C4_agent_authentication Reference.env 0 sock
              (Text (js "guess")) 5000 o Hs) as [Hwrong _];
    [left|reflexivity|reflexivity|].
  destruct (C4_agent_authentication Reference.env 0 sock
              (Text (js "secret")) 5000 o Hs) as [_ Hright];
    [left|reflexivity|reflexivity|].
  destruct Hwrong as (Ew & _); [by vm_compute|].
  destruct Hright as (_ & Er & Ea & _); [by vm_compute|].
  split; [|split].
  - unfold wrong. rewrite Ew. cbn [snd sockets set_sockets].
    apply lookup_insert_eq.
  - unfold right. rewrite Er. apply lookup_insert_eq.
  - exact Ea.
Defined.

(** C4, the claim as stated, fails on a binary first message.  The bytes
    EF BB BF followed by the bytes of the secret are not the bytes of the
    secret, yet TextDecoder drops the mark, the decoded text is the
    secret, and the agent is authenticated instead of closed. *)
Lemma C4_compared_after_decoding :
  let o :=
    Reference.run
      [EvFetch (mkRequest (Some (js "websocket")) (js "/ws/agent") (js "GET")
                  None)]
      (initial 0) in
  let secret := TextEncoder_encode (AUTH_SECRET Reference.env) in
  let sent := xef :: xbb :: xbf :: secret in
  let o' := deliver Reference.env (EvMessage 0 (Binary sent) 5000) o in
  sent <> secret
  /\ sockets o !! 0%nat
     = Some (mkWebSocket [agent] (Some (mkAttachment false)) [] None)
  /\ sockets o' !! 0%nat
     = Some (mkWebSocket [agent] (Some (mkAttachment true))
               [js "auth success"] None).
Proof. vm_compute. split; [discriminate|]. split; reflexivity. Qed.

(* ===================================================================== *)
(** * C6: restoring the snapshots at construction *)
(* ===================================================================== *)

Section Restore.
Context `{Runtime}.

Lemma restore_keep_spec now v nm :
  restore_keep now v = Some nm <->
  exists m ts, JSON_parse v = Some m /\ host_name m = Some nm
    /\ TimeStamp m = Some ts /\ now - 300 < ts.
Proof.
  rewrite restore_keep_Some. split.
  - intros (m & Hp & (Hn & ts & Hts & Hlt)%restorable_Some). by exists m, ts.
  - intros (m & ts & Hp & Hn & Hts & Hlt). exists m. split; [done|].
    apply restorable_Some. split; [done|]. by exists ts.
Qed.

(** The fields of a freshly constructed object. *)
Lemma constructor_fields st socks log now_ms :
  let o := constructor st socks log now_ms in
  let entries := storage_list (js "monitor:") st in
  let now := now_ms / 1000 in
  monitorData o = restored_store now entries []
  /\ offlineMap o = ∅
  /\ cachedViewerPayload o = None
  /\ initialized o = true
  /\ sockets o = socks
  /\ scheduled (storage o) = scheduled st
  /\ (forall k, kv (storage o) !! k
        = if bool_decide (k ∈ stale_keys now entries) then None
          else kv st !! k)
  /\ effects o
     = log ++ match stale_keys now entries with
              | [] => []
              | keys => [StorageDelete keys]
              end.
Proof.
  intros o entries now. unfold o. rewrite constructor_eq.
  pose proof (exec_restore_entries now_ms entries
                (mkMonitorDO [] ∅ false None st socks log))
    as (E1 & E2 & E3 & E4 & E5 & E6 & E7).
  cbn [monitorData offlineMap initialized cachedViewerPayload storage sockets
       effects set_initialized] in *.
  done.
Qed.

Lemma restored_get_unique now entries nm v :
  (exists key, (key, v) ∈ entries) ->
  restore_keep now v = Some nm ->
  (forall key' v', (key', v') ∈ entries ->
     restore_keep now v' = Some nm -> v' = v) ->
  JsMap.get nm (restored_store now entries []) = Some v.
Proof.
  intros [key Hin] Hkeep Huniq.
  pose proof (restored_keys_new now entries [] key v nm Hin Hkeep) as Hk.
  destruct (JsMap.get nm (restored_store now entries [])) as [v'|] eqn:E.
  - apply JsMap_get_elem_of, restored_elem_of in E
      as [E|(key' & Hin' & Hkeep')]; [inversion E|].
    by rewrite (Huniq key' v' Hin' Hkeep').
  - by apply JsMap_get_None in E.
Qed.

End Restore.

(** C6.  The constructor, which runs before any event is delivered, lists
    the entries under "monitor:" and goes through them.  An entry whose
    value parses to a snapshot with a truthy Host.Name and a TimeStamp
    greater than now - 300 stays in the storage and its name becomes a key
    of the store, holding the value of that entry (of the last such entry,
    should two values carry the same name).  Every other entry (a value
    that does not parse, no name, or a TimeStamp of now - 300 or less) is
    not loaded, and its key is deleted.  The deletions are one batched
    storage.delete call, and there is no call when nothing is stale.  So
    a snapshot with TimeStamp = now - 400 is dropped and deleted and one
    with TimeStamp = now - 100 is loaded. *)
Theorem C6_restore_at_construction `{Runtime} (st : Storage)
    (socks : gmap nat WebSocket) (log : list Effect) (now_ms : Z) :
  let now := now_ms / 1000 in
  let entries := storage_list (js "monitor:") st in
  let o := constructor st socks log now_ms in
  initialized o = true
  /\ (forall key v,
        (key, v) ∈ entries
        <-> kv st !! key = Some v /\ starts_with (js "monitor:") key = true)
  /\ (forall v nm,
        restore_keep now v = Some nm
        <-> exists m ts, JSON_parse v = Some m /\ host_name m = Some nm
              /\ TimeStamp m = Some ts /\ now - 300 < ts)
  /\ (forall key v nm,
        (key, v) ∈ entries -> restore_keep now v = Some nm ->
        kv (storage o) !! key = Some v
        /\ nm ∈ JsMap.keys (monitorData o)
        /\ ((forall key' v', (key', v') ∈ entries ->
               restore_keep now v' = Some nm -> v' = v) ->
            JsMap.get nm (monitorData o) = Some v))
  /\ (forall key v,
        (key, v) ∈ entries -> restore_keep now v = None ->
        kv (storage o) !! key = None
        /\ key ∈ stale_keys now entries
        /\ forall k, JsMap.get k (monitorData o) <> Some v)
  /\ (forall k v, JsMap.get k (monitorData o) = Some v ->
        exists key, (key, v) ∈ entries /\ restore_keep now v = Some k)
  /\ effects o
     = log ++ match stale_keys now entries with
              | [] => []
              | keys => [StorageDelete keys]
              end
  /\ (forall key v m,
        (key, v) ∈ entries -> JSON_parse v = Some m ->
        TimeStamp m = Some (now - 400) ->
        kv (storage o) !! key = None
        /\ forall k, JsMap.get k (monitorData o) <> Some v)
  /\ (forall key v m nm,
        (key, v) ∈ entries -> JSON_parse v = Some m ->
        host_name m = Some nm -> TimeStamp m = Some (now - 100) ->
        kv (storage o) !! key = Some v /\ nm ∈ JsMap.keys (monitorData o)).
Proof.
  intros now entries o.
  pose proof (constructor_fields st socks log now_ms)
    as (Emd & _ & _ & Einit & _ & _ & Ekv & Eeff).
  fold o entries now in Emd, Einit, Ekv, Eeff.
  assert (forall key v nm,
    (key, v) ∈ entries -> restore_keep now v = Some nm ->
    kv (storage o) !! key = Some v
    /\ nm ∈ JsMap.keys (monitorData o)
    /\ ((forall key' v', (key', v') ∈ entries ->
           restore_keep now v' = Some nm -> v' = v) ->
        JsMap.get nm (monitorData o) = Some v)) as Hkept.
  { intros key v nm Hin Hkeep. split; [|split].
    - rewrite Ekv. case_bool_decide as Hstale.
      + apply elem_of_stale_keys in Hstale as (v' & Hin' & Hnone).
        apply elem_of_storage_list in Hin as [Hl _].
        apply elem_of_storage_list in Hin' as [Hl' _].
        assert (v' = v) as -> by congruence.
        congruence.
      + by apply elem_of_storage_list in Hin as [? _].
    - rewrite Emd. by apply (restored_keys_new _ _ _ key v).
    - intros Huniq. rewrite Emd. apply restored_get_unique; eauto. }
  assert (forall key v,
    (key, v) ∈ entries -> restore_keep now v = None ->
    kv (storage o) !! key = None
    /\ key ∈ stale_keys now entries
    /\ forall k, JsMap.get k (monitorData o) <> Some v) as Hdropped.
  { intros key v Hin Hnone.
    assert (key ∈ stale_keys now entries) as Hstale
      by (apply elem_of_stale_keys; eauto).
    split; [|split; [done|]].
    - by rewrite Ekv, bool_decide_eq_true_2.
    - intros k Hg. rewrite Emd in Hg.
      apply JsMap_get_elem_of, restored_elem_of in Hg
        as [Hg|(key' & _ & Hkeep)]; [inversion Hg|congruence]. }
  split; [done|]. split; [apply elem_of_storage_list|].
  split; [apply restore_keep_spec|]. split; [exact Hkept|].
  split; [exact Hdropped|]. split.
  { intros k v Hg. rewrite Emd in Hg.
    apply JsMap_get_elem_of, restored_elem_of in Hg as [Hg|?];
      [inversion Hg|done]. }
  split; [done|]. split.
  - intros key v m Hin Hp Hts.
    destruct (Hdropped key v Hin) as (? & _ & ?); [|done].
    destruct (restore_keep now v) as [nm|] eqn:E; [|done].
    apply restore_keep_spec in E as (m' & ts & Hp' & _ & Hts' & Hlt).
    assert (ts = now - 400) by congruence. lia.
  - intros key v m nm Hin Hp Hn Hts.
    destruct (Hkept key v nm Hin) as (? & ? & _); [|done].
    apply restore_keep_spec. exists m, (now - 100).
    repeat split; try done. lia.
Qed.

Lemma C6_witness :
  let st :=
    mkStorage
      (<[monitor_key (js "OLD") := Reference.snapshot (js "OLD") 600]>
         (<[monitor_key (js "NEW") := Reference.snapshot (js "NEW") 900]> ∅))
      None in
  let o := constructor st ∅ [] 1000000 in
  (kv (storage o) !! monitor_key (js "OLD") = None
   /\ forall k, JsMap.get k (monitorData o)
               <> Some (Reference.snapshot (js "OLD") 600))
  /\ kv (storage o) !! monitor_key (js "NEW")
     = Some (Reference.snapshot (js "NEW") 900)
  /\ js "NEW" ∈ JsMap.keys (monitorData o).
Proof.
  intros st o.
  destruct (C6_restore_at_construction st ∅ [] 1000000)
    as (_ & Hlist & _ & _ & _ & _ & _ & Hold & Hnew).
  split.
  - apply (Hold (monitor_key (js "OLD")) _
             (mkMonitorData (Some (mkHost (Some (js "OLD")))) (Some 600) [])).
    + apply Hlist. split; vm_compute; reflexivity.
    + vm_compute. reflexivity.
    + reflexivity.
  - apply (Hnew (monitor_key (js "NEW")) _
             (mkMonitorData (Some (mkHost (Some (js "NEW")))) (Some 900) [])).
    + apply Hlist. split; vm_compute; reflexivity.
    + vm_compute. reflexivity.
    + reflexivity.
    + reflexivity.
Defined.

(* ===================================================================== *)
(** * C7: deleting a host *)
(* ===================================================================== *)

Section Delete.
Context `{Runtime}.

Lemma elem_of_parsed_entries md k m :
  (k, m) ∈ parsed_entries md <-> exists v, (k, v) ∈ md /\ JSON_parse v = Some m.
Proof.
  unfold parsed_entries. rewrite list_elem_of_In, in_flat_map. split.
  - intros ([k' v] & Hin & Hm). exists v. simpl in Hm.
    destruct (JSON_parse v) as [m'|] eqn:E; [|done].
    destruct Hm as [[= -> ->]|[]]. split; [by apply list_elem_of_In|done].
  - intros (v & Hin & Hp). exists (k, v). split; [by apply list_elem_of_In|].
    simpl. rewrite Hp. by left.
Qed.

Lemma elem_of_sorted_entries md k m :
  (k, m) ∈ sorted_entries md <-> exists v, (k, v) ∈ md /\ JSON_parse v = Some m.
Proof. by rewrite sorted_entries_Permutation, elem_of_parsed_entries. Qed.

Lemma handleRPC_deleteHost r o :
  handleRPC (mkRequest None (js "/rpc") (js "POST")
               (Some (mkRpcBody (js "deleteHost") r))) o
  = rpcDeleteHost r o.
Proof.
  unfold handleRPC, try_catch, bind, or_throw. cbn [json action req].
  unfold ret at 1.
  rewrite !bool_decide_eq_false_2 by done.
  rewrite bool_decide_eq_true_2 by done.
  rewrite !rpcDeleteHost_eq. cbn [req].
  by destruct (JsMap.has (name r) (monitorData o)).
Qed.

End Delete.

(** C7.  deleteHost answers 404 exactly when the name is not a key of the
    store, and then the state is as before.  Otherwise it answers 200; the
    name is removed from the store and from the offline flags, the cached
    payload is cleared, the key monitor:<name> is deleted from the storage
    by one call, and every other key of the storage, the host:<...> keys
    among them, keeps its value.  The other entries of the store keep
    their values.  After that no entry of getAllMonitorData is keyed by the
    name, and the next persistMonitorSnapshot writes nothing under
    monitor:<name>. *)
Theorem C7_deleteHost `{Runtime} (r : HostInfo) (o : MonitorDO) :
  let result := rpcDeleteHost r o in
  handleRPC (mkRequest None (js "/rpc") (js "POST")
               (Some (mkRpcBody (js "deleteHost") r))) o = result
  /\ (response_status result.1 = Some 404
      <-> name r ∉ JsMap.keys (monitorData o))
  /\ (name r ∉ JsMap.keys (monitorData o) ->
      result = (Normal (doJsonResponse (Failure msg_not_found) 404), o))
  /\ (name r ∈ JsMap.keys (monitorData o) ->
      let o' := result.2 in
      result.1 = Normal (doJsonResponse Success_ok 200)
      /\ monitorData o' = JsMap.delete (name r) (monitorData o)
      /\ (name r ∉ JsMap.keys (monitorData o'))
      /\ (forall k, k <> name r ->
            JsMap.get k (monitorData o') = JsMap.get k (monitorData o))
      /\ offlineMap o' = base.delete (name r) (offlineMap o)
      /\ cachedViewerPayload o' = None
      /\ kv (storage o')
         = base.delete (monitor_key (name r)) (kv (storage o))
      /\ (forall nm, kv (storage o') !! host_key nm
                     = kv (storage o) !! host_key nm)
      /\ effects o' = effects o ++ [StorageDeleteOne (monitor_key (name r))]
      /\ sockets o' = sockets o
      /\ (forall k m, (k, m) ∈ sorted_entries (monitorData o') -> k <> name r)
      /\ (forall key v, (key, v) ∈ snapshot_puts (monitorData o') ->
            key <> monitor_key (name r))
      /\ kv (storage (exec persistMonitorSnapshot o'))
           !! monitor_key (name r) = None).
Proof.
  intros result. unfold result. rewrite handleRPC_deleteHost, rpcDeleteHost_eq.
  split; [done|].
  destruct (JsMap.has (name r) (monitorData o)) eqn:Hhas.
  - apply JsMap_has_true in Hhas. split; [split; [done|by intros []]|].
    split; [by intros []|]. intros _. cbn [fst snd]. fields.
    assert (forall key v,
      (key, v) ∈ snapshot_puts (JsMap.delete (name r) (monitorData o)) ->
      key <> monitor_key (name r)) as Hputs.
    { intros key v (nm & -> & [Hne _]%JsMap_elem_of_delete)%elem_of_snapshot_puts.
      by intros ?%monitor_key_inj. }
    split; [done|]. split; [done|].
    split; [apply JsMap_not_elem_of_keys_delete|].
    split.
    { intros k Hk. by rewrite JsMap_get_delete, bool_decide_eq_false_2. }
    split; [done|]. split; [done|]. split; [done|].
    split.
    { intros nm. apply lookup_delete_ne. apply not_eq_sym, host_key_not_monitor_key. }
    split; [done|]. split; [done|].
    split.
    { intros k m (v & [Hne _]%JsMap_elem_of_delete & _)%elem_of_sorted_entries.
      done. }
    split; [exact Hputs|].
    unfold exec. rewrite persistMonitorSnapshot_eq. cbn [snd]. fields.
    destruct (snapshot_puts (JsMap.delete (name r) (monitorData o)))
      as [|e puts] eqn:E; fields; [apply lookup_delete_eq|].
    destruct (fold_left _ (e :: puts) _ !! monitor_key (name r)) as [v|] eqn:El;
      [|done].
    apply lookup_put_all in El as [Hin|El].
    + by destruct (Hputs _ _ Hin).
    + by rewrite lookup_delete_eq in El.
  - apply JsMap_has_false in Hhas. split; [done|]. split; [done|].
    by intros ?.
Qed.

Lemma C7_witness :
  let o :=
    Reference.run
      [EvFetch (mkRequest (Some (js "websocket")) (js "/ws/agent") (js "GET") None);
       EvMessage 0 (Text (js "secret")) 1000000;
       EvMessage 0 (Reference.agent_frame (js "HK1") 1000) 1000000]
      (initial 0) in
  let ghost := mkHostInfo (js "ghost") 0 [] [] [] in
  let hk1 := mkHostInfo (js "HK1") 0 [] [] [] in
  rpcDeleteHost ghost (initial 0)
  = (Normal (doJsonResponse (Failure msg_not_found) 404), initial 0)
  /\ (rpcDeleteHost hk1 o).1 = Normal (doJsonResponse Success_ok 200)
  /\ js "HK1" ∉ JsMap.keys (monitorData (rpcDeleteHost hk1 o).2).
Proof.
  intros o ghost hk1.
  destruct (C7_deleteHost ghost (initial 0)) as (_ & _ & Hghost & _).
  destruct (C7_deleteHost hk1 o) as (_ & _ & _ & Hhk1).
  split.
  - apply Hghost. vm_compute. intros Hin. inversion Hin.
  - destruct Hhk1 as (E1 & _ & E2 & _); [|by split].
    assert (JsMap.keys (monitorData o) = [js "HK1"]) as ->
      by (vm_compute; reflexivity).
    left.
Defined.

(* ===================================================================== *)
(** * C8: the cached viewer payload *)
(* ===================================================================== *)

Section Cache.
Context `{Runtime} (env : Env).

Lemma serializations_add es o :
  serializations (add_effects es o)
  = (serializations o
     + length (List.filter
                 (fun e => match e with Stringified => true | _ => false end)
                 es))%nat.
Proof.
  unfold serializations. cbn [effects add_effects].
  by rewrite List.filter_app, length_app.
Qed.

Lemma requests_are_not_serializations (l : list TGRequest) :
  List.filter (fun e => match e with Stringified => true | _ => false end)
    (TelegramSend <$> l) = [].
Proof. induction l as [|x l IH]; csimpl; done. Qed.





Lemma alarm_keeps_cache now_ms net o :
  let o' := exec (alarm env now_ms net) o in
  cachedViewerPayload o' = cachedViewerPayload o
  /\ monitorData o' = monitorData o
  /\ serializations o' = serializations o.
Proof.
  unfold exec. rewrite alarm_eq. cbn [snd].
  assert (cachedViewerPayload (alarm_sweep env now_ms net o)
          = cachedViewerPayload o
          /\ monitorData (alarm_sweep env now_ms net o) = monitorData o
          /\ serializations (alarm_sweep env now_ms net o)
             = serializations o) as (E1 & E2 & E3).
  { unfold alarm_sweep. destruct (tg_enabled env); [|done].
    split; [done|]. split; [done|].
    rewrite serializations_add, requests_are_not_serializations.
    unfold serializations. cbn [effects set_offlineMap length]. lia. }
  unfold exec. rewrite persistMonitorSnapshot_eq. cbn [snd].
  set (o1 := alarm_sweep env now_ms net o) in *.
  assert (forall o2,
    cachedViewerPayload o2 = cachedViewerPayload o1 ->
    monitorData o2 = monitorData o1 ->
    serializations o2 = serializations o1 ->
    cachedViewerPayload (alarm_reschedule now_ms o2) = cachedViewerPayload o
    /\ monitorData (alarm_reschedule now_ms o2) = monitorData o
    /\ serializations (alarm_reschedule now_ms o2) = serializations o) as Hre.
  { intros o2 F1 F2 F3. unfold alarm_reschedule.
    match goal with |- context [if ?c then _ else _] => destruct c end;
      cbn [cachedViewerPayload monitorData set_storage];
      rewrite ?F1, ?F2, ?E1, ?E2; (split; [done|split; [done|]]);
      unfold serializations in *; cbn [effects set_storage]; congruence. }
  destruct (snapshot_puts (monitorData o1)); apply Hre; try done.
  rewrite serializations_add. simpl. unfold serializations. simpl. lia.
Qed.

End Cache.

Section CacheEvents.
Context `{Runtime} (env : Env).






End CacheEvents.




(* ===================================================================== *)
(** * The liveness sweep *)
(* ===================================================================== *)

Lemma offlineMessage_inj n n' :
  Telegram.offlineMessage n = Telegram.offlineMessage n' -> n = n'.
Proof.
  unfold Telegram.offlineMessage. intros Heq.
  apply app_inv_head in Heq. by apply app_inv_tail in Heq.
Qed.

Lemma onlineMessage_inj n n' :
  Telegram.onlineMessage n = Telegram.onlineMessage n' -> n = n'.
Proof.
  unfold Telegram.onlineMessage. intros Heq.
  apply app_inv_head in Heq. by apply app_inv_tail in Heq.
Qed.

Lemma offline_is_not_online n n' :
  Telegram.offlineMessage n <> Telegram.onlineMessage n'.
Proof. unfold Telegram.offlineMessage, Telegram.onlineMessage. by intros [=]. Qed.

Lemma occurrences_app r l l' :
  occurrences r (l ++ l') = (occurrences r l + occurrences r l')%nat.
Proof. unfold occurrences. by rewrite List.filter_app, length_app. Qed.

Lemma occurrences_same r : occurrences r [r] = 1%nat.
Proof. unfold occurrences. cbn [List.filter]. by rewrite bool_decide_true. Qed.

Lemma occurrences_other r r' : r' <> r -> occurrences r [r'] = 0%nat.
Proof.
  intros Hne. unfold occurrences. cbn [List.filter].
  by rewrite bool_decide_false.
Qed.

Section Sweep.
Variables (token chatId : jsstring).
Hypothesis configured : Telegram.not_configured token chatId = false.

Local Abbreviation step net now :=
  (Telegram.sweep_step net token chatId now OFFLINE_THRESHOLD_SEC).

Lemma sendTGMessage_requests net text :
  (Telegram.sendTGMessage net token chatId text).1
  = [mkTGRequest token chatId text].
Proof.
  unfold Telegram.sendTGMessage. rewrite configured. by destruct (net text).
Qed.

(** One iteration issues the notification of the snapshot's transition. *)
Lemma sweep_step_sent net now flags sent m :
  (step net now (flags, sent) m).2
  = sent ++ transition token chatId flags now m.
Proof.
  unfold Telegram.sweep_step, transition, is_stale.
  destruct (host_name m) as [name|]; [|by rewrite app_nil_r].
  destruct (match TimeStamp m with Some ts => _ | None => _ end),
    (Telegram.flagged flags name); cbn [negb snd];
    rewrite ?sendTGMessage_requests, ?app_nil_r; reflexivity.
Qed.

Lemma sweep_step_flags_other net now flags sent m name :
  host_name m <> Some name ->
  (step net now (flags, sent) m).1 !! name = flags !! name.
Proof.
  intros Hne. unfold Telegram.sweep_step.
  destruct (host_name m) as [name'|]; [|done].
  assert (name' <> name) by congruence.
  destruct (match TimeStamp m with Some ts => _ | None => _ end),
    (Telegram.flagged flags name'); cbn [negb fst]; try done.
  - by rewrite lookup_insert_ne.
  - by rewrite lookup_delete_ne.
Qed.

Lemma sweep_step_flags_self net now flags sent m name :
  host_name m = Some name ->
  Telegram.flagged (step net now (flags, sent) m).1 name = is_stale now m.
Proof.
  intros Hn. unfold Telegram.sweep_step, is_stale. rewrite Hn.
  destruct (match TimeStamp m with Some ts => _ | None => _ end),
    (Telegram.flagged flags name) eqn:Hf; cbn [negb fst]; try done.
  - unfold Telegram.flagged. by rewrite lookup_insert_eq.
  - unfold Telegram.flagged. by rewrite lookup_delete_eq.
Qed.

Lemma transition_ext flags flags' now m :
  (forall name, host_name m = Some name -> flags' !! name = flags !! name) ->
  transition token chatId flags' now m = transition token chatId flags now m.
Proof.
  intros Hext. unfold transition, Telegram.flagged.
  destruct (host_name m) as [name|]; [|done]. by rewrite Hext.
Qed.

Lemma named_elem_of m name (ms : list MonitorData) :
  m ∈ ms -> host_name m = Some name -> name ∈ omap host_name ms.
Proof. intros Hin Hn. apply list_elem_of_omap. eauto. Qed.

(** The loop over snapshots with pairwise different names: the requests are
    those of the transitions against the flags before the loop, a name of
    no snapshot keeps its flag, and the flag of a snapshot's name ends as
    the staleness of the snapshot. *)
Lemma sweep_fold net now ms : forall flags sent,
  NoDup (omap host_name ms) ->
  let r := fold_left (step net now) ms (flags, sent) in
  r.2 = sent ++ flat_map (transition token chatId flags now) ms
  /\ (forall name, name ∉ omap host_name ms -> r.1 !! name = flags !! name)
  /\ (forall m name, m ∈ ms -> host_name m = Some name ->
        Telegram.flagged r.1 name = is_stale now m).
Proof.
  induction ms as [|m ms IH]; intros flags sent Hnd; cbn [fold_left flat_map].
  { split; [by rewrite app_nil_r|]. split; [done|].
    intros m name Hin. inversion Hin. }
  pose proof (sweep_step_sent net now flags sent m) as Hsent.
  pose proof (sweep_step_flags_other net now flags sent m) as Hother.
  pose proof (sweep_step_flags_self net now flags sent m) as Hself.
  destruct (step net now (flags, sent) m) as [flags1 sent1].
  cbn [fst snd] in Hsent, Hother, Hself. subst sent1.
  assert (NoDup (omap host_name ms)
          /\ forall name, host_name m = Some name ->
               name ∉ omap host_name ms) as [Hnd' Hfresh].
  { csimpl in Hnd. destruct (host_name m) as [name|]; [|done].
    apply NoDup_cons in Hnd as [Hni Hnd]. split; [done|]. by intros ? [= <-]. }
  destruct (IH flags1 (sent ++ transition token chatId flags now m) Hnd')
    as (IH1 & IH2 & IH3).
  split; [|split].
  - rewrite IH1, <- app_assoc. do 2 f_equal.
    clear -Hother Hfresh. induction ms as [|m' ms IH]; [done|].
    cbn [flat_map]. f_equal.
    + apply transition_ext. intros name Hn. apply Hother. intros Hm.
      apply (Hfresh name Hm). csimpl. rewrite Hn. left.
    + apply IH. intros name Hm Hin. apply (Hfresh name Hm). csimpl.
      destruct (host_name m'); [by right|done].
  - intros name Hni. rewrite IH2.
    + apply Hother. intros Hm. apply Hni. csimpl. rewrite Hm. left.
    + intros Hin. apply Hni. csimpl. destruct (host_name m); [by right|done].
  - intros m' name [->|Hin]%elem_of_cons Hn.
    + unfold Telegram.flagged. rewrite IH2 by by apply Hfresh.
      by apply Hself.
    + by apply IH3.
Qed.

(** A loop in which no transition is due changes nothing. *)
Lemma sweep_quiet net now ms flags sent :
  (forall m, m ∈ ms -> transition token chatId flags now m = []) ->
  fold_left (step net now) ms (flags, sent) = (flags, sent).
Proof.
  induction ms as [|m ms IH]; intros Hq; cbn [fold_left]; [done|].
  assert (step net now (flags, sent) m = (flags, sent)) as ->.
  { specialize (Hq m (list_elem_of_here _ _)). revert Hq.
    unfold Telegram.sweep_step, transition, is_stale.
    destruct (host_name m) as [name|]; [|done].
    by destruct (match TimeStamp m with Some ts => _ | None => _ end),
      (Telegram.flagged flags name). }
  apply IH. intros m' Hin. apply Hq. by right.
Qed.

(** The outcome of the requests does not enter the result. *)
Lemma sweep_step_net net net' now acc m :
  step net now acc m = step net' now acc m.
Proof.
  unfold Telegram.sweep_step. destruct acc as [flags sent].
  destruct (host_name m) as [name|]; [|done].
  by rewrite !sendTGMessage_requests.
Qed.

Lemma sweep_fold_net net net' now ms : forall acc,
  fold_left (step net now) ms acc = fold_left (step net' now) ms acc.
Proof.
  induction ms as [|m ms IH]; intros acc; cbn [fold_left]; [done|].
  by rewrite IH, (sweep_step_net net net').
Qed.

Lemma checkOfflineStatus_eq net now_ms ms flags :
  Telegram.checkOfflineStatus net now_ms ms flags token chatId
    OFFLINE_THRESHOLD_SEC
  = fold_left (step net (now_ms / 1000)) ms (flags, []).
Proof. unfold Telegram.checkOfflineStatus. by rewrite configured. Qed.

End Sweep.

Section SweepCounts.
Variables (token chatId : jsstring).

Lemma transition_other flags now m name :
  host_name m <> Some name ->
  occurrences (offline_request token chatId name)
    (transition token chatId flags now m) = 0%nat
  /\ occurrences (online_request token chatId name)
       (transition token chatId flags now m) = 0%nat.
Proof.
  intros Hne. unfold transition.
  destruct (host_name m) as [name'|]; [|done].
  assert (name' <> name) as Hn by congruence.
  unfold offline_request, online_request.
  destruct (is_stale now m), (Telegram.flagged flags name'); try done;
    split; apply occurrences_other; intros Heq;
    apply (f_equal tg_text) in Heq; cbn [tg_text] in Heq;
    first [ by apply offlineMessage_inj in Heq
          | by apply onlineMessage_inj in Heq
          | by apply offline_is_not_online in Heq
          | by symmetry in Heq; apply offline_is_not_online in Heq ].
Qed.

Lemma transition_self flags now m name :
  host_name m = Some name ->
  occurrences (offline_request token chatId name)
    (transition token chatId flags now m)
  = (if is_stale now m && negb (Telegram.flagged flags name) then 1 else 0)%nat
  /\ occurrences (online_request token chatId name)
       (transition token chatId flags now m)
     = (if negb (is_stale now m) && Telegram.flagged flags name
        then 1 else 0)%nat.
Proof.
  intros Hn. unfold transition. rewrite Hn.
  unfold offline_request, online_request.
  destruct (is_stale now m), (Telegram.flagged flags name);
    cbn [andb negb]; split;
    first [ done | apply occurrences_same | apply occurrences_other ];
    intros Heq; apply (f_equal tg_text) in Heq; cbn [tg_text] in Heq;
    first [ by apply offline_is_not_online in Heq
          | by symmetry in Heq; apply offline_is_not_online in Heq ].
Qed.

(** Among snapshots with pairwise different names only the snapshot of a
    name issues the notifications about that name. *)
Lemma occurrences_transitions r flags now name ms : forall m,
  (forall m', host_name m' <> Some name ->
     occurrences r (transition token chatId flags now m') = 0%nat) ->
  NoDup (omap host_name ms) ->
  m ∈ ms -> host_name m = Some name ->
  occurrences r (flat_map (transition token chatId flags now) ms)
  = occurrences r (transition token chatId flags now m).
Proof.
  intros m Hother. induction ms as [|m0 ms IH]; intros Hnd Hin Hn.
  { inversion Hin. }
  cbn [flat_map]. rewrite occurrences_app.
  assert (forall l, name ∉ omap host_name l ->
    occurrences r (flat_map (transition token chatId flags now) l) = 0%nat)
    as Hnone.
  { induction l as [|m' l IHl]; intros Hni; [done|].
    cbn [flat_map]. rewrite occurrences_app, Hother, IHl; [done| |].
    - intros Hl. apply Hni. csimpl. destruct (host_name m'); [by right|done].
    - intros Hm'. apply Hni. csimpl. rewrite Hm'. left. }
  destruct (decide (host_name m0 = Some name)) as [Hm0|Hm0].
  - csimpl in Hnd. rewrite Hm0 in Hnd. apply NoDup_cons in Hnd as [Hni _].
    rewrite (Hnone ms Hni), Nat.add_0_r.
    apply elem_of_cons in Hin as [->|Hin]; [done|].
    destruct Hni. by apply (named_elem_of m).
  - rewrite (Hother m0 Hm0). cbn [Nat.add].
    apply elem_of_cons in Hin as [->|Hin]; [done|].
    apply IH; [|done..].
    csimpl in Hnd. destruct (host_name m0); [|done].
    by apply NoDup_cons in Hnd as [_ Hnd].
Qed.

End SweepCounts.

Lemma notifications_add es o :
  notifications (add_effects es o)
  = notifications o
    ++ omap (fun e => match e with TelegramSend r => Some r | _ => None end) es.
Proof. unfold notifications. cbn [effects add_effects]. apply omap_app. Qed.

Lemma notifications_requests (reqs : list TGRequest) :
  omap (fun e => match e with TelegramSend r => Some r | _ => None end)
    (TelegramSend <$> reqs) = reqs.
Proof. induction reqs as [|r reqs IH]; csimpl; [done|]. by rewrite IH. Qed.

Section SweepOfAlarm.
Context `{Runtime} (env : Env).

(** The snapshots that alarm hands to the sweep have pairwise different
    names in every reachable state. *)
Lemma sorted_entries_NoDup_names o :
  Inv o -> NoDup (omap host_name (sorted_entries (monitorData o)).*2).
Proof.
  intros ((Hnd & _ & Hm) & _). destruct (sorted_entries_names _ Hm) as [Hk Hn].
  assert (omap host_name (sorted_entries (monitorData o)).*2
          = (sorted_entries (monitorData o)).*1) as ->.
  { revert Hn. generalize ((sorted_entries (monitorData o)).*1).
    induction ((sorted_entries (monitorData o)).*2) as [|m l IH];
      intros [|k ks]; csimpl; intros [=]; [done|].
    match goal with Hm : host_name m = _ |- _ => rewrite Hm end.
    f_equal. by apply IH. }
  by rewrite Hk, Array_sort_Permutation.
Qed.

(** What an alarm event does to the members the sweep concerns. *)
Lemma deliver_alarm_sweep now_ms net o :
  tg_enabled env = true ->
  let swept :=
    Telegram.checkOfflineStatus net now_ms
      (sorted_entries (monitorData o)).*2 (offlineMap o)
      (TG_TOKEN env) (TG_CHAT_ID env) OFFLINE_THRESHOLD_SEC in
  let o' := deliver env (EvAlarm now_ms net) o in
  offlineMap o' = swept.1
  /\ notifications o' = notifications o ++ swept.2
  /\ monitorData o' = monitorData o.
Proof.
  intros Hen swept o'.
  assert (o' = deliver env (EvAlarm now_ms net) o) as Ho' by done.
  clearbody o'. revert Ho'. unfold deliver, exec. rewrite alarm_eq.
  cbn [snd]. unfold exec. rewrite persistMonitorSnapshot_eq. cbn [snd].
  unfold alarm_sweep. rewrite Hen. fields. fold swept.
  unfold alarm_reschedule. intros ->.
  repeat match goal with
  | |- context [match ?c with [] => _ | _ :: _ => _ end] => destruct c
  | |- context [if ?c then _ else _] => destruct c
  end; fields; unfold notifications; fields;
    rewrite ?omap_app, ?notifications_requests; csimpl;
    rewrite ?app_nil_r; done.
Qed.

End SweepOfAlarm.

(** C5 (amended).  The liveness sweep of an alarm, with a bot token and a
    chat id configured, over the snapshots of a reachable state and the
    offline flags held in memory.  For each snapshot with identity [name]:
    the flag of [name] ends as the staleness of the snapshot; exactly one
    offline notification about [name] is issued when the snapshot is stale
    and the flag was not set, and none otherwise; exactly one online
    notification when it is not stale and the flag was set, and none
    otherwise.  The requests issued are those of these transitions and no
    others, and neither they nor the flags depend on how any request ends.
    A sweep that runs on the flags the previous sweep left, over the same
    snapshots with the same staleness, issues no request and leaves the
    flags as they are; in particular the next alarm of the same instance
    adds no notification.  The flags are members of the instance only:
    nothing is claimed for a sweep that follows an eviction. *)
Theorem C5_sweep_debounce `{Runtime} (env : Env) (o : MonitorDO)
    (net : Network) (now_ms : Z) :
  reachable env o ->
  Telegram.not_configured (TG_TOKEN env) (TG_CHAT_ID env) = false ->
  let token := TG_TOKEN env in
  let chatId := TG_CHAT_ID env in
  let monitors := (sorted_entries (monitorData o)).*2 in
  let now := now_ms / 1000 in
  let swept :=
    Telegram.checkOfflineStatus net now_ms monitors (offlineMap o)
      token chatId OFFLINE_THRESHOLD_SEC in
  (forall m name, m ∈ monitors -> host_name m = Some name ->
     Telegram.flagged swept.1 name = is_stale now m
     /\ occurrences (offline_request token chatId name) swept.2
        = (if is_stale now m && negb (Telegram.flagged (offlineMap o) name)
           then 1 else 0)%nat
     /\ occurrences (online_request token chatId name) swept.2
        = (if negb (is_stale now m) && Telegram.flagged (offlineMap o) name
           then 1 else 0)%nat)
  /\ swept.2 = flat_map (transition token chatId (offlineMap o) now) monitors
  /\ (forall net',
        Telegram.checkOfflineStatus net' now_ms monitors (offlineMap o)
          token chatId OFFLINE_THRESHOLD_SEC = swept)
  /\ (forall net2 now_ms2,
        (forall m, m ∈ monitors ->
           is_stale (now_ms2 / 1000) m = is_stale now m) ->
        Telegram.checkOfflineStatus net2 now_ms2 monitors swept.1
          token chatId OFFLINE_THRESHOLD_SEC = (swept.1, []))
  /\ (tg_enabled env = true ->
      let o' := deliver env (EvAlarm now_ms net) o in
      offlineMap o' = swept.1
      /\ notifications o' = notifications o ++ swept.2
      /\ forall net2 now_ms2,
           (forall m, m ∈ monitors ->
              is_stale (now_ms2 / 1000) m = is_stale now m) ->
           notifications (deliver env (EvAlarm now_ms2 net2) o')
           = notifications o').
Proof.
  intros Hr Hcfg token chatId monitors now swept.
  pose proof (sorted_entries_NoDup_names o (reachable_Inv env o Hr)) as Hnd.
  fold monitors in Hnd.
  assert (swept = fold_left
            (Telegram.sweep_step net token chatId now OFFLINE_THRESHOLD_SEC)
            monitors (offlineMap o, [])) as Hsw
    by apply (checkOfflineStatus_eq token chatId Hcfg).
  destruct (sweep_fold token chatId Hcfg net now monitors (offlineMap o) []
              Hnd) as (Hsent & _ & Hflags).
  rewrite <- Hsw in Hsent, Hflags. cbn [app] in Hsent.
  assert (forall net2 now_ms2,
    (forall m, m ∈ monitors -> is_stale (now_ms2 / 1000) m = is_stale now m) ->
    Telegram.checkOfflineStatus net2 now_ms2 monitors swept.1
      token chatId OFFLINE_THRESHOLD_SEC = (swept.1, [])) as Hquiet.
  { intros net2 now_ms2 Hsame.
    rewrite (checkOfflineStatus_eq token chatId Hcfg).
    apply sweep_quiet. intros m Hin. unfold transition.
    destruct (host_name m) as [name|] eqn:Hn; [|done].
    rewrite (Hflags m name Hin Hn), (Hsame m Hin).
    by destruct (is_stale now m). }
  split; [|split; [|split; [|split]]].
  - intros m name Hin Hn. split; [by apply Hflags|]. rewrite Hsent.
    destruct (transition_self token chatId (offlineMap o) now m name Hn)
      as [Hoff Hon].
    rewrite <- Hoff, <- Hon.
    split; apply (occurrences_transitions token chatId _ _ _ name);
      try done; intros m' Hm'; by apply transition_other.
  - exact Hsent.
  - intros net'. rewrite Hsw, (checkOfflineStatus_eq token chatId Hcfg).
    apply (sweep_fold_net token chatId Hcfg).
  - exact Hquiet.
  - intros Hen o'.
    destruct (deliver_alarm_sweep env now_ms net o Hen) as (F1 & F2 & F3).
    fold monitors token chatId swept o' in F1, F2.
    split; [exact F1|]. split; [exact F2|].
    intros net2 now_ms2 Hsame.
    destruct (deliver_alarm_sweep env now_ms2 net2 o' Hen) as (_ & G2 & _).
    rewrite G2. fold o' in F3. rewrite F3, F1. fold monitors token chatId.
    rewrite (Hquiet net2 now_ms2 Hsame). apply app_nil_r.
Qed.

Lemma C5_witness :
  let o :=
    Reference.run
      [EvFetch (mkRequest (Some (js "websocket")) (js "/ws/agent") (js "GET") None);
       EvMessage 0 (Text (js "secret")) 900000;
       EvMessage 0 (Reference.agent_frame (js "HK1") 900) 900000]
      (initial 0) in
  let o1 := deliver Reference.env (EvAlarm 1000000 Reference.offline_net) o in
  let o2 := deliver Reference.env (EvAlarm 1020000 Reference.offline_net) o1 in
  notifications o1 = [offline_request (js "123:abc") (js "42") (js "HK1")]
  /\ notifications o2 = notifications o1.
Proof.
  intros o.
  assert (reachable Reference.env o) as Hr
    by (apply reachable_deliver_all; constructor).
  assert (Telegram.not_configured (TG_TOKEN Reference.env)
            (TG_CHAT_ID Reference.env) = false) as Hcfg
    by (vm_compute; reflexivity).
  assert (tg_enabled Reference.env = true) as Hen by (vm_compute; reflexivity).
  assert (notifications o = []) as Hno by (vm_compute; reflexivity).
  assert ((Telegram.checkOfflineStatus Reference.offline_net 1000000
             (sorted_entries (monitorData o)).*2 (offlineMap o)
             (TG_TOKEN Reference.env) (TG_CHAT_ID Reference.env)
             OFFLINE_THRESHOLD_SEC).2
          = [offline_request (js "123:abc") (js "42") (js "HK1")]) as Hsw
    by (vm_compute; reflexivity).
  assert (forallb (fun m =>
            bool_decide (is_stale (1020000 / 1000) m
                         = is_stale (1000000 / 1000) m))
            (sorted_entries (monitorData o)).*2 = true) as Hst
    by (vm_compute; reflexivity).
  clearbody o.
  destruct (C5_sweep_debounce Reference.env o Reference.offline_net 1000000
              Hr Hcfg) as (_ & _ & _ & _ & Hal).
  destruct (Hal Hen) as (_ & Hnot & Hnext).
  intros o1 o2. split.
  - unfold o1. by rewrite Hnot, Hno, Hsw.
  - apply Hnext. intros m Hin.
    rewrite forallb_forall in Hst. apply list_elem_of_In in Hin.
    specialize (Hst m Hin). by apply bool_decide_eq_true in Hst.
Defined.

(** C5, the claim as stated, fails across an eviction.  An agent reports
    HK1 once and falls silent.  The sweep of the first alarm flags HK1 and
    issues the offline notification.  The instance is then evicted; the
    next one is constructed with an empty offline map and restores the
    snapshot, which is stale for the sweep but not too old for the store.
    The sweep of the next alarm sees the same snapshot, stale as before,
    and issues the offline notification a second time. *)
Lemma C5_repeats_after_eviction :
  let o :=
    Reference.run
      [EvFetch (mkRequest (Some (js "websocket")) (js "/ws/agent") (js "GET") None);
       EvMessage 0 (Text (js "secret")) 900000;
       EvMessage 0 (Reference.agent_frame (js "HK1") 900) 900000]
      (initial 0) in
  let o1 := deliver Reference.env (EvAlarm 1000000 Reference.offline_net) o in
  let o2 := deliver Reference.env (EvEvict 1010000) o1 in
  let o3 := deliver Reference.env (EvAlarm 1020000 Reference.offline_net) o2 in
  let offline := offline_request (js "123:abc") (js "42") (js "HK1") in
  notifications o = []
  /\ notifications o1 = [offline]
  /\ Telegram.flagged (offlineMap o1) (js "HK1") = true
  /\ monitorData o2 = monitorData o1
  /\ Telegram.flagged (offlineMap o2) (js "HK1") = false
  /\ forallb (fun m =>
       is_stale (1000000 / 1000) m && is_stale (1020000 / 1000) m)
       (sorted_entries (monitorData o2)).*2 = true
  /\ notifications o2 = [offline]
  /\ notifications o3 = [offline; offline].
Proof. vm_compute. repeat split; reflexivity. Qed.

(* ===================================================================== *)
(** * Further properties: the sockets *)
(* ===================================================================== *)

Section Sockets.
Context `{Runtime}.

Lemma elem_of_sockets_with tag o ws :
  ws ∈ sockets_with tag o <->
  exists sock, sockets o !! ws = Some sock
    /\ match tag with Some t => t ∈ ws_tags sock | None => True end.
Proof.
  unfold sockets_with. rewrite elem_of_List_filter, list_elem_of_fmap.
  split.
  - intros [_ Hp]. destruct (sockets o !! ws) as [sock|]; [|by destruct tag].
    exists sock. split; [done|]. destruct tag; [|done].
    by apply bool_decide_eq_true in Hp.
  - intros (sock & Hs & Ht). split.
    + exists (ws, sock). split; [done|]. by apply elem_of_map_to_list.
    + rewrite Hs. destruct tag; [|done]. by apply bool_decide_eq_true.
Qed.

Lemma NoDup_sockets_with tag o : NoDup (sockets_with tag o).
Proof.
  unfold sockets_with.
  generalize (NoDup_fst_map_to_list (sockets o)).
  generalize ((map_to_list (sockets o)).*1). intros l Hnd.
  by apply NoDup_List_filter.
Qed.

(** One send inside a try block. *)
Lemma send_caught_sockets ws text o :
  exists socks,
    try_catch (ws_send ws text) (fun _ => ret tt) o
    = (Normal tt, set_sockets (fun _ => socks) o)
    /\ forall v, socks !! v =
         if bool_decide (v = ws) then try_sent text <$> sockets o !! v
         else sockets o !! v.
Proof.
  unfold try_catch, ws_send, ret, try_sent, is_open, sent_to.
  destruct (sockets o !! ws) as [sock|] eqn:Hs;
    [destruct (ws_closed sock) eqn:Hc|].
  - exists (sockets o). split; [by rewrite set_sockets_id|].
    intros v. case_bool_decide as Hv; [|done]. subst v.
    rewrite Hs. csimpl. by rewrite Hc.
  - eexists. split; [reflexivity|]. intros v. case_bool_decide as Hv.
    + subst v. rewrite lookup_insert_eq, Hs. csimpl. by rewrite Hc.
    + by rewrite lookup_insert_ne.
  - exists (sockets o). split; [by rewrite set_sockets_id|].
    intros v. case_bool_decide as Hv; [|done]. subst v. by rewrite Hs.
Qed.

(** The loop of a broadcast over distinct handles. *)
Lemma for_each_send_sockets text l : NoDup l -> forall o,
  exists socks,
    for_each l (fun ws => try_catch (ws_send ws text) (fun _ => ret tt)) o
    = (Normal tt, set_sockets (fun _ => socks) o)
    /\ forall v, socks !! v =
         if bool_decide (v ∈ l) then try_sent text <$> sockets o !! v
         else sockets o !! v.
Proof.
  induction 1 as [|ws l Hni Hnd IH]; intros o; cbn [for_each].
  { exists (sockets o). split; [by rewrite set_sockets_id|]. intros v.
    rewrite bool_decide_eq_false_2; [done|]. apply not_elem_of_nil. }
  unfold bind. destruct (send_caught_sockets ws text o) as (s1 & -> & H1).
  destruct (IH (set_sockets (fun _ => s1) o)) as (s2 & -> & H2).
  exists s2. split; [done|]. intros v. rewrite H2. cbn [sockets set_sockets].
  rewrite H1. destruct (decide (v = ws)) as [->|Hne].
  - rewrite (bool_decide_eq_false_2 (ws ∈ l)) by done.
    rewrite !bool_decide_eq_true_2; [done|left|done].
  - rewrite (bool_decide_eq_false_2 (v = ws)) by done.
    destruct (decide (v ∈ l)) as [Hin|Hout].
    + rewrite !bool_decide_eq_true_2; [done|by right|done].
    + rewrite !bool_decide_eq_false_2; [done| |done].
      by intros [?|?]%elem_of_cons.
Qed.

Lemma getViewerPayload_current o :
  (getViewerPayload o).1 = Normal (current_payload o)
  /\ sockets (getViewerPayload o).2 = sockets o.
Proof.
  rewrite getViewerPayload_eq. unfold current_payload, payload_of.
  by destruct (cachedViewerPayload o).
Qed.

(** A broadcast in one equation: the cache is filled when there is a
    viewer, and every socket is served. *)
Lemma broadcastToViewers_served o :
  exists socks,
    broadcastToViewers o =
      (Normal tt,
       set_sockets (fun _ => socks)
         match sockets_with (Some viewer) o with
         | [] => o
         | _ :: _ => exec getViewerPayload o
         end)
    /\ forall v, socks !! v
         = served (js "data: " ++ current_payload o) <$> sockets o !! v.
Proof.
  rewrite broadcastToViewers_unfold.
  pose proof (NoDup_sockets_with (Some viewer) o) as Hnd.
  pose proof (elem_of_sockets_with (Some viewer) o) as Hin.
  destruct (sockets_with (Some viewer) o) as [|w ws] eqn:Hv.
  - exists (sockets o). split; [by rewrite set_sockets_id|]. intros v.
    destruct (sockets o !! v) as [sock|] eqn:Hs; [|done]. cbn [fmap option_fmap option_map].
    unfold served. rewrite bool_decide_eq_false_2; [done|].
    intros Ht. apply (not_elem_of_nil v), Hin. eauto.
  - destruct (getViewerPayload_current o) as [Hp Hso]. unfold exec.
    destruct (getViewerPayload o) as [[p|e] o1]; [|done].
    cbn [fst snd] in Hp, Hso. injection Hp as ->.
    destruct (for_each_send_sockets (js "data: " ++ current_payload o)
                (w :: ws) Hnd o1) as (socks & -> & Hs).
    exists socks. split; [done|]. intros v. rewrite Hs, Hso.
    destruct (sockets o !! v) as [sock|] eqn:Hl.
    + cbn [fmap option_fmap option_map]. unfold served.
      destruct (decide (viewer ∈ ws_tags sock)) as [Ht|Ht].
      * rewrite !bool_decide_eq_true_2; [done..|]. apply Hin. eauto.
      * rewrite !bool_decide_eq_false_2; [done..|].
        intros (sock' & Hl' & Ht')%Hin. by simplify_eq.
    + by destruct (bool_decide _).
Qed.

End Sockets.

Section SocketMessages.
Context `{Runtime} (env : Env).

(** webSocketMessage in one equation, by the socket it arrives on. *)
Lemma webSocketMessage_eq ws message now_ms o :
  webSocketMessage env ws message now_ms o =
    match sockets o !! ws with
    | None => (Normal tt, o)
    | Some sock =>
        if bool_decide (agent ∈ ws_tags sock) then
          if is_authed sock then handleAgentData ws message o
          else if bool_decide (message_text message = AUTH_SECRET env) then
            if is_open sock then
              ensureAlarm now_ms
                (set_sockets
                   <[ws := mkWebSocket (ws_tags sock)
                             (Some (mkAttachment true))
                             (ws_sent sock ++ [js "auth success"]) None]> o)
            else
              (Throw SocketError,
               set_sockets
                 <[ws := mkWebSocket (ws_tags sock)
                           (Some (mkAttachment true)) (ws_sent sock)
                           (ws_closed sock)]> o)
          else
            if is_open sock then
              (Normal tt,
               set_sockets
                 <[ws := mkWebSocket (ws_tags sock) (ws_attachment sock)
                           (ws_sent sock) (Some (1008, js "auth failed"))]> o)
            else (Throw SocketError, o)
        else if bool_decide (viewer ∈ ws_tags sock) then
          (Normal tt,
           set_sockets
             <[ws := try_sent (js "data: " ++ current_payload o) sock]>
             (exec getViewerPayload o))
        else (Normal tt, o)
    end.
Proof.
  destruct (sockets o !! ws) as [sock|] eqn:Hs.
  2: { unfold webSocketMessage, getTags. unfold bind at 1. unfold read at 1.
       rewrite Hs. rewrite bool_decide_eq_false_2 by apply not_elem_of_nil.
       rewrite bool_decide_eq_false_2 by apply not_elem_of_nil. done. }
  case_bool_decide as Ha.
  - destruct (is_authed sock) eqn:Hau.
    { apply (webSocketMessage_authed env ws sock); [done..|].
      unfold is_authed in Hau. destruct (ws_attachment sock) as [[[]]|]; done. }
    rewrite (webSocketMessage_unauthenticated env ws sock) by done.
    unfold is_open. case_bool_decide as Hsec.
    + unfold bind at 1. unfold ws_serializeAttachment, update.
      unfold bind at 1. unfold ws_send. cbn [sockets set_sockets].
      rewrite Hs, lookup_insert_eq.
      cbn [ws_closed ws_tags ws_attachment ws_sent].
      destruct (ws_closed sock) as [c|] eqn:Hc; unfold set_sockets;
        cbn [monitorData offlineMap initialized cachedViewerPayload storage
             sockets effects];
        rewrite Hs, ?insert_insert_eq, ?Hc; done.
    + unfold ws_close. rewrite Hs. by destruct (ws_closed sock).
  - unfold webSocketMessage, getTags. unfold bind at 1. unfold read at 1.
    rewrite Hs. rewrite (bool_decide_eq_false_2 (agent ∈ _)) by done.
    case_bool_decide as Hv; [|done].
    unfold bind. destruct (getViewerPayload_current o) as [Hp Hso].
    unfold exec. destruct (getViewerPayload o) as [[p|e] o1]; [|done].
    cbn [fst snd] in Hp, Hso. injection Hp as ->.
    destruct (send_caught_sockets ws (js "data: " ++ current_payload o) o1)
      as (socks & -> & Hsocks).
    f_equal. unfold set_sockets. cbn [snd]. f_equal. apply map_eq. intros v.
    rewrite Hsocks, Hso. case_bool_decide as Hvw.
    + subst v. by rewrite Hs, lookup_insert_eq.
    + by rewrite lookup_insert_ne.
Qed.

Lemma socket_ok_served text sock :
  starts_with (js "data: ") text = true ->
  socket_ok sock -> socket_ok (served text sock).
Proof.
  intros Hpre Hok. unfold served, try_sent. case_bool_decide as Hv; [|done].
  destruct (is_open sock); [|done].
  destruct Hok as [(Ht & _)|(Ht & Ha & Hf)].
  - rewrite Ht in Hv. by apply list_elem_of_singleton in Hv.
  - right. split; [done|]. split; [done|]. cbn [sent_to ws_sent].
    apply Forall_app. split; [done|]. by constructor.
Qed.

Lemma sockets_ok_same o o' : sockets o' = sockets o -> sockets_ok o -> sockets_ok o'.
Proof. intros E Hok ws sock. rewrite E. apply Hok. Qed.

Lemma sockets_ok_insert ws sock (o o' : MonitorDO) :
  sockets o' = <[ws := sock]> (sockets o) ->
  socket_ok sock -> sockets_ok o -> sockets_ok o'.
Proof.
  intros E Hs Hok v sock'. rewrite E.
  destruct (decide (v = ws)) as [->|Hne].
  - rewrite lookup_insert_eq. by intros [= <-].
  - rewrite lookup_insert_ne by done. apply Hok.
Qed.

Lemma sockets_ok_broadcast o :
  sockets_ok o -> sockets_ok (exec broadcastToViewers o).
Proof.
  intros Hok. unfold exec.
  destruct (broadcastToViewers_served o) as (socks & -> & Hs).
  intros v sock'. cbn [snd sockets set_sockets]. rewrite Hs.
  destruct (sockets o !! v) as [sock|] eqn:Hl; [|done].
  intros Heq. cbn [fmap option_fmap option_map] in Heq.
  assert (sock' = served (js "data: " ++ current_payload o) sock) as ->
    by congruence.
  apply socket_ok_served; [|by apply (Hok v)].
  apply starts_with_app.
Qed.

Lemma sockets_handleAgentData_ok ws message o :
  sockets_ok o -> sockets_ok (exec (handleAgentData ws message) o).
Proof.
  intros Hok. unfold exec. rewrite handleAgentData_eq.
  destruct (decode message) as [[name jsonStr]|]; [|done].
  destruct (at_capacity name (monitorData o)); [done|].
  by apply sockets_ok_broadcast.
Qed.

Lemma sockets_ok_webSocketMessage ws message now_ms o :
  sockets_ok o -> sockets_ok (exec (webSocketMessage env ws message now_ms) o).
Proof.
  intros Hok. unfold exec. rewrite webSocketMessage_eq.
  destruct (sockets o !! ws) as [sock|] eqn:Hs; [|done].
  pose proof (Hok ws sock Hs) as Hsock.
  case_bool_decide as Ha.
  - assert (ws_tags sock = [agent]
            /\ (is_authed sock = false -> ws_sent sock = [])) as [Ht Hun].
    { destruct Hsock as [(Ht & Hsent)|(Ht & _)].
      - split; [done|]. destruct Hsent as [?|[_ Hat]]; [done|].
        unfold is_authed. by rewrite Hat.
      - rewrite Ht in Ha. by apply list_elem_of_singleton in Ha. }
    destruct (is_authed sock) eqn:Hau.
    { by apply sockets_handleAgentData_ok. }
    specialize (Hun eq_refl).
    case_bool_decide as Hsec; destruct (is_open sock).
    + rewrite ensureAlarm_eq. cbn [snd].
      eapply (sockets_ok_insert ws); [|shelve|exact Hok].
      by destruct (scheduled _).
      Unshelve. left. cbn [ws_tags ws_sent ws_attachment].
      split; [done|]. right. by rewrite Hun.
    + eapply (sockets_ok_insert ws); [done| |exact Hok].
      left. cbn [ws_tags ws_sent]. split; [done|]. by left.
    + eapply (sockets_ok_insert ws); [done| |exact Hok].
      left. cbn [ws_tags ws_sent]. split; [done|]. by left.
    + done.
  - case_bool_decide as Hv; [|done].
    eapply (sockets_ok_insert ws _ o).
    + cbn [snd sockets set_sockets]. unfold exec.
      by rewrite (proj2 (getViewerPayload_current o)).
    + pose proof (socket_ok_served (js "data: " ++ current_payload o) sock
                    (starts_with_app _ _) Hsock) as Hserved.
      unfold served in Hserved. by rewrite bool_decide_eq_true_2 in Hserved.
    + exact Hok.
Qed.

Lemma sockets_alarm now_ms net o :
  sockets (exec (alarm env now_ms net) o) = sockets o.
Proof.
  unfold exec. rewrite alarm_eq. cbn [snd]. unfold exec.
  rewrite persistMonitorSnapshot_eq. cbn [snd].
  unfold alarm_reschedule, alarm_sweep.
  repeat match goal with
  | |- context [match ?c with [] => _ | _ :: _ => _ end] => destruct c
  | |- context [if ?c then _ else _] => destruct c
  end; reflexivity.
Qed.

Lemma sockets_ok_fetch request o :
  sockets_ok o -> sockets_ok (exec (fetch request) o).
Proof.
  intros Hok. unfold fetch. case_bool_decide.
  - case_bool_decide.
    { eapply (sockets_ok_insert (fresh (dom (sockets o)))); [|shelve|exact Hok].
      unfold exec, handleAgentWebSocket, acceptWebSocket,
        ws_serializeAttachment. mrun. cbn [snd sockets set_sockets].
      rewrite lookup_insert_eq, insert_insert_eq. reflexivity.
      Unshelve. left. cbn [ws_tags ws_sent]. split; [done|]. by left. }
    case_bool_decide; [|done].
    eapply (sockets_ok_insert (fresh (dom (sockets o)))); [| |exact Hok].
    + unfold exec, handleViewerWebSocket, acceptWebSocket. mrun.
      cbn [snd sockets set_sockets]. reflexivity.
    + right. cbn [ws_tags ws_sent ws_attachment]. by repeat split.
  - destruct (_ && _); [|done].
    unfold handleRPC, exec, try_catch, bind, or_throw.
    destruct (json request) as [b|]; [|done]. unfold ret at 1.
    case_bool_decide; [done|].
    case_bool_decide; [done|].
    case_bool_decide; [done|].
    case_bool_decide; [|done].
    rewrite rpcDeleteHost_eq.
    by destruct (JsMap.has (name (req b)) (monitorData o)).
Qed.

Lemma sockets_ok_deliver ev o : sockets_ok o -> sockets_ok (deliver env ev o).
Proof.
  intros Hok.
  destruct ev as [request|ws message now_ms|ws|ws|now_ms net|now_ms];
    cbn [deliver].
  - by apply sockets_ok_fetch.
  - by apply sockets_ok_webSocketMessage.
  - intros v sock. cbn [sockets set_sockets exec webSocketClose ret snd].
    intros Hl. apply lookup_delete_Some in Hl as [_ Hl]. by apply (Hok v).
  - unfold webSocketError, exec, try_catch, ws_close.
    destruct (sockets o !! ws) as [sock|] eqn:Hs;
      [destruct (ws_closed sock)|]; cbn [fst snd ret]; try done.
    eapply (sockets_ok_insert ws); [done| |exact Hok].
    destruct (Hok ws sock Hs) as [?|?]; [by left|by right].
  - apply (sockets_ok_same o); [|done]. by rewrite sockets_alarm.
  - apply (sockets_ok_same o); [|done].
    by destruct (constructor_fields (storage o) (sockets o) (effects o) now_ms)
      as (_ & _ & _ & _ & -> & _).
Qed.

Lemma reachable_sockets_ok o : reachable env o -> sockets_ok o.
Proof.
  induction 1 as [now_ms|o ev _ IH].
  - intros ws sock Hl.
    destruct (constructor_fields (mkStorage ∅ None) ∅ [] now_ms)
      as (_ & _ & _ & _ & Hs & _).
    unfold initial in Hl. rewrite Hs in Hl. by rewrite lookup_empty in Hl.
  - by apply sockets_ok_deliver.
Qed.

End SocketMessages.

(** X1.  In every reachable state, an agent socket has been sent nothing
    at all, or exactly the one message "auth success", and in that case
    its attachment says authed; a viewer socket has no attachment and has
    only been sent messages that start with "data: ".  So the object never
    sends monitoring data to an agent, never acknowledges twice, and never
    marks a viewer as authenticated. *)
Theorem X1_socket_discipline `{Runtime} (env : Env) (o : MonitorDO)
    (ws : nat) (sock : WebSocket) :
  reachable env o -> sockets o !! ws = Some sock ->
  (ws_tags sock = [agent]
   /\ (ws_sent sock = []
       \/ (ws_sent sock = [js "auth success"]
           /\ ws_attachment sock = Some (mkAttachment true))))
  \/ (ws_tags sock = [viewer]
      /\ ws_attachment sock = None
      /\ Forall (fun text => starts_with (js "data: ") text = true)
           (ws_sent sock)).
Proof. intros Hr Hs. exact (reachable_sockets_ok env o Hr ws sock Hs). Qed.

Lemma X1_witness :
  let o :=
    Reference.run
      [EvFetch (mkRequest (Some (js "websocket")) (js "/ws/agent") (js "GET") None);
       EvFetch (mkRequest (Some (js "websocket")) (js "/ws/viewer") (js "GET") None);
       EvMessage 0 (Text (js "secret")) 1000000;
       EvMessage 0 (Reference.agent_frame (js "HK1") 1000) 1000000;
       EvMessage 1 (Text (js "anything")) 1000000]
      (initial 0) in
  let data := js "data: [" ++ Reference.snapshot (js "HK1") 1000 ++ js "]" in
  let viewer_sock := mkWebSocket [viewer] None [data; data] None in
  sockets o !! 1%nat = Some viewer_sock
  /\ socket_ok viewer_sock.
Proof.
  intros o data viewer_sock.
  assert (sockets o !! 1%nat = Some viewer_sock) as Hs
    by (vm_compute; reflexivity).
  assert (reachable Reference.env o) as Hr
    by (apply reachable_deliver_all; constructor).
  clearbody o. split; [exact Hs|].
  exact (X1_socket_discipline Reference.env o 1%nat viewer_sock Hr Hs).
Defined.

(** X2.  In a state whose identities are strings, whatever a viewer sends
    is answered with one message, "data: " followed by the current
    payload, when its socket is open, and with nothing when it is closed;
    the handler returns normally either way.
    The store, the storage and the offline flags are as before, so a
    viewer cannot write; the payload is serialized only when the cache
    was empty, and in a reachable state it is the serialization of the
    sorted snapshot list. *)
Theorem X2_viewer_request `{Runtime} (env : Env) (ws : nat)
    (sock : WebSocket) (message : Message) (now_ms : Z) (o : MonitorDO) :
  string_names o ->
  sockets o !! ws = Some sock ->
  agent ∉ ws_tags sock -> viewer ∈ ws_tags sock ->
  let result := webSocketMessage env ws message now_ms o in
  let text := js "data: " ++ current_payload o in
  result.1 = Normal tt
  /\ sockets result.2
     = <[ws := if is_open sock then sent_to text sock else sock]> (sockets o)
  /\ monitorData result.2 = monitorData o
  /\ storage result.2 = storage o
  /\ offlineMap result.2 = offlineMap o
  /\ cachedViewerPayload result.2 = Some (current_payload o)
  /\ serializations result.2
     = (serializations o
        + match cachedViewerPayload o with Some _ => 0 | None => 1 end)%nat
  /\ (reachable env o -> current_payload o = payload_of (monitorData o)).
Proof.
  intros _ Hs Ha Hv result text.
  assert (result = webSocketMessage env ws message now_ms o) as Hres by done.
  clearbody result. rewrite webSocketMessage_eq, Hs in Hres.
  rewrite (bool_decide_eq_false_2 (agent ∈ _)) in Hres by done.
  rewrite (bool_decide_eq_true_2 (viewer ∈ _)) in Hres by done.
  unfold exec in Hres. rewrite getViewerPayload_eq in Hres. subst result.
  unfold current_payload, payload_of, try_sent, serializations in *.
  split; [done|].
  destruct (cachedViewerPayload o) as [p|] eqn:Hc;
    cbn [fst snd sockets monitorData storage offlineMap cachedViewerPayload
         effects set_sockets set_cachedViewerPayload add_effects].
  - do 5 (split; [done|]). split; [by rewrite Nat.add_0_r|].
    intros Hr. destruct (reachable_Inv env o Hr) as (_ & Hcache & _).
    by apply Hcache.
  - do 5 (split; [done|]). split; [|done].
    rewrite List.filter_app, length_app. reflexivity.
Qed.

Lemma X2_witness :
  let o :=
    Reference.run
      [EvFetch (mkRequest (Some (js "websocket")) (js "/ws/viewer") (js "GET") None)]
      (initial 0) in
  let result := webSocketMessage Reference.env 0 (Text (js "hello")) 5000 o in
  result.1 = Normal tt
  /\ sockets result.2 !! 0%nat
     = Some (mkWebSocket [viewer] None [js "data: []"] None)
  /\ monitorData result.2 = monitorData o.
Proof.
  intros o result.
  assert (sockets o !! 0%nat = Some (mkWebSocket [viewer] None [] None)) as Hs
    by (vm_compute; reflexivity).
  assert (current_payload o = js "[]") as Hp by (vm_compute; reflexivity).
  clearbody o.
  assert (string_names o) as Hstr by done.
  destruct (X2_viewer_request Reference.env 0
              (mkWebSocket [viewer] None [] None) (Text (js "hello")) 5000 o
              Hstr Hs)
    as (H1 & H2 & H3 & _).
  - by intros ?%list_elem_of_singleton.
  - left.
  - split; [exact H1|]. split; [|exact H3].
    unfold result. rewrite H2, lookup_insert_eq, Hp. reflexivity.
Defined.

(** X3.  Where the identities are strings, in the store and in the frame,
    a frame that the store accepts is pushed to the viewers: every open
    socket tagged viewer is sent exactly one message, "data: "
    followed by the serialization of the sorted list of the new store;
    closed viewer sockets and agent sockets are left as they are, and a
    viewer socket that throws does not keep the others from being served.
    The list is serialized once when there is a viewer socket and not at
    all when there is none.  The handler returns normally. *)
Theorem X3_broadcast_delivery `{Runtime} (ws : nat) (message : Message)
    (name jsonStr : jsstring) (o : MonitorDO) :
  string_names o -> string_named message ->
  decode message = Some (name, jsonStr) ->
  at_capacity name (monitorData o) = false ->
  let result := handleAgentData ws message o in
  let text :=
    js "data: " ++ payload_of (JsMap.set name jsonStr (monitorData o)) in
  result.1 = Normal tt
  /\ (forall v,
        sockets result.2 !! v =
          (fun sock =>
             if bool_decide (viewer ∈ ws_tags sock) && is_open sock
             then sent_to text sock else sock) <$> sockets o !! v)
  /\ serializations result.2
     = (serializations o
        + match sockets_with (Some viewer) o with [] => 0 | _ :: _ => 1 end)%nat
  /\ storage result.2 = storage o
  /\ offlineMap result.2 = offlineMap o.
Proof.
  intros _ _ Hd Hcap result text.
  assert (result = handleAgentData ws message o) as Hres by done.
  clearbody result. rewrite handleAgentData_eq, Hd, Hcap in Hres.
  destruct (broadcastToViewers_served
              (set_cachedViewerPayload None
                 (set_monitorData (JsMap.set name jsonStr) o)))
    as (socks & Hb & Hsocks).
  rewrite Hb in Hres. subst result. cbn [fst snd]. split; [done|].
  split.
  { intros v. cbn [sockets set_sockets]. rewrite Hsocks.
    cbn [sockets set_cachedViewerPayload set_monitorData].
    destruct (sockets o !! v) as [sock|]; [|done].
    cbn [fmap option_fmap option_map]. f_equal.
    unfold served, try_sent, current_payload.
    cbn [cachedViewerPayload monitorData set_cachedViewerPayload
         set_monitorData].
    by destruct (bool_decide (viewer ∈ ws_tags sock)), (is_open sock). }
  change (sockets_with (Some viewer)
            (set_cachedViewerPayload None
               (set_monitorData (JsMap.set name jsonStr) o)))
    with (sockets_with (Some viewer) o).
  destruct (sockets_with (Some viewer) o) as [|w vs].
  { split; [|done]. unfold serializations. cbn [effects set_sockets
      set_cachedViewerPayload set_monitorData]. lia. }
  unfold exec. rewrite getViewerPayload_eq.
  cbn [cachedViewerPayload set_cachedViewerPayload snd].
  split; [|done]. unfold serializations.
  cbn [effects set_sockets set_cachedViewerPayload set_monitorData
       add_effects].
  rewrite List.filter_app, length_app. reflexivity.
Qed.

Lemma X3_witness :
  let o :=
    Reference.run
      [EvFetch (mkRequest (Some (js "websocket")) (js "/ws/agent") (js "GET") None);
       EvFetch (mkRequest (Some (js "websocket")) (js "/ws/viewer") (js "GET") None);
       EvFetch (mkRequest (Some (js "websocket")) (js "/ws/viewer") (js "GET") None);
       EvError 1;
       EvMessage 0 (Text (js "secret")) 1000000]
      (initial 0) in
  let result := handleAgentData 0 (Reference.agent_frame (js "HK1") 1000) o in
  let data := js "data: [" ++ Reference.snapshot (js "HK1") 1000 ++ js "]" in
  result.1 = Normal tt
  /\ sockets result.2 !! 1%nat
     = Some (mkWebSocket [viewer] None [] (Some (1011, js "internal error")))
  /\ sockets result.2 !! 2%nat = Some (mkWebSocket [viewer] None [data] None)
  /\ sockets result.2 !! 0%nat
     = Some (mkWebSocket [agent] (Some (mkAttachment true))
               [js "auth success"] None).
Proof.
  intros o result data.
  assert (sockets o !! 0%nat
          = Some (mkWebSocket [agent] (Some (mkAttachment true))
                    [js "auth success"] None)) as H0
    by (vm_compute; reflexivity).
  assert (sockets o !! 1%nat
          = Some (mkWebSocket [viewer] None []
                    (Some (1011, js "internal error")))) as H1
    by (vm_compute; reflexivity).
  assert (sockets o !! 2%nat = Some (mkWebSocket [viewer] None [] None)) as H2
    by (vm_compute; reflexivity).
  assert (at_capacity (js "HK1") (monitorData o) = false) as Hcap
    by (vm_compute; reflexivity).
  assert (js "data: "
            ++ payload_of (JsMap.set (js "HK1")
                             (Reference.snapshot (js "HK1") 1000)
                             (monitorData o)) = data) as Hp
    by (vm_compute; reflexivity).
  clearbody o.
  destruct (X3_broadcast_delivery 0 (Reference.agent_frame (js "HK1") 1000)
              (js "HK1") (Reference.snapshot (js "HK1") 1000) o)
    as (R1 & R2 & _); [done|done|vm_compute; reflexivity|exact Hcap|].
  split; [exact R1|]. unfold result. rewrite !R2, H0, H1, H2, Hp.
  repeat split.
Defined.

(** X4.  The store is written by three things only: a frame that decodes,
    arriving on a socket that is tagged agent and whose attachment says
    authed, which sets the entry of its Host.Name; the deleteHost call,
    which deletes an entry; and an eviction, after which the store is what
    the constructor restores.  No other event (a message of a viewer or of
    an agent that has not authenticated, any other request, a close, an
    error, an alarm) changes the store. *)
Theorem X4_store_writers `{Runtime} (env : Env) (ev : Event) (o : MonitorDO) :
  let o' := deliver env ev o in
  monitorData o' = monitorData o
  \/ (exists ws sock message now_ms name jsonStr,
        ev = EvMessage ws message now_ms
        /\ sockets o !! ws = Some sock
        /\ agent ∈ ws_tags sock
        /\ ws_attachment sock = Some (mkAttachment true)
        /\ decode message = Some (name, jsonStr)
        /\ monitorData o' = JsMap.set name jsonStr (monitorData o))
  \/ (exists request b,
        ev = EvFetch request
        /\ method request = js "POST" /\ pathname request = js "/rpc"
        /\ json request = Some b /\ action b = js "deleteHost"
        /\ monitorData o' = JsMap.delete (name (req b)) (monitorData o))
  \/ (exists now_ms, ev = EvEvict now_ms).
Proof.
  intros o'. assert (o' = deliver env ev o) as Ho' by done. clearbody o'.
  destruct ev as [request|ws message now_ms|ws|ws|now_ms net|now_ms];
    cbn [deliver] in Ho'.
  - unfold fetch in Ho'. case_bool_decide as Hup.
    { left. subst o'. case_bool_decide; [done|]. by case_bool_decide. }
    destruct (bool_decide (method request = js "POST")) eqn:Hm;
      [|left; by subst o'].
    destruct (bool_decide (pathname request = js "/rpc")) eqn:Hp;
      [|left; by subst o'].
    apply bool_decide_eq_true in Hm, Hp. cbn [andb] in Ho'.
    unfold handleRPC, exec, try_catch, bind, or_throw in Ho'.
    destruct (json request) as [b|] eqn:Hj; [|left; by subst o'].
    unfold ret at 1 in Ho'.
    case_bool_decide; [left; by subst o'|].
    case_bool_decide; [left; by subst o'|].
    case_bool_decide; [left; by subst o'|].
    case_bool_decide as Hact; [|left; by subst o'].
    rewrite rpcDeleteHost_eq in Ho'.
    destruct (JsMap.has (name (req b)) (monitorData o)); [|left; by subst o'].
    right. right. left. exists request, b. by subst o'.
  - unfold exec in Ho'. rewrite webSocketMessage_eq in Ho'.
    destruct (sockets o !! ws) as [sock|] eqn:Hs; [|left; by subst o'].
    case_bool_decide as Ha.
    + destruct (is_authed sock) eqn:Hau.
      * destruct (decode message) as [[name jsonStr]|] eqn:Hd.
        -- pose proof (monitorData_handleAgentData ws message name jsonStr o
                         Hd) as Hmd.
           unfold exec in Hmd. rewrite <- Ho' in Hmd.
           destruct (at_capacity name (monitorData o)); [by left|].
           right. left. exists ws, sock, message, now_ms, name, jsonStr.
           split; [done|]. split; [done|]. split; [done|]. split; [|done].
           unfold is_authed in Hau.
           by destruct (ws_attachment sock) as [[[]]|].
        -- left. subst o'. by rewrite handleAgentData_eq, Hd.
      * left. subst o'. case_bool_decide; destruct (is_open sock);
          rewrite ?ensureAlarm_eq; cbn [snd]; try done.
        by destruct (scheduled _).
    + left. subst o'. case_bool_decide; [|done]. cbn [snd monitorData set_sockets].
      unfold exec. rewrite getViewerPayload_eq.
      by destruct (cachedViewerPayload o).
  - left. by subst o'.
  - left. subst o'. unfold webSocketError, exec, try_catch, ws_close.
    destruct (sockets o !! ws) as [sock|]; [destruct (ws_closed sock)|]; done.
  - left. subst o'.
    by destruct (alarm_keeps_cache env now_ms net
                   (set_storage (fun s => mkStorage (kv s) None) o))
      as (_ & -> & _).
  - right. right. right. by exists now_ms.
Qed.

(* ===================================================================== *)
(** * Further properties: persistence *)
(* ===================================================================== *)

Lemma starts_with_inv prefix s :
  starts_with prefix s = true -> exists rest, s = prefix ++ rest.
Proof.
  revert s. induction prefix as [|p prefix IH]; intros s; cbn [starts_with].
  { intros _. by exists s. }
  destruct s as [|c s]; [done|].
  intros [Hc Hs]%andb_true_iff. apply Z.eqb_eq in Hc as ->.
  destruct (IH s Hs) as [rest ->]. by exists rest.
Qed.

Lemma monitor_prefix_inv key :
  starts_with (js "monitor:") key = true -> exists nm, key = monitor_key nm.
Proof. apply starts_with_inv. Qed.

Lemma lookup_put_all_get (entries : JsMap.t jsstring) :
  NoDup (JsMap.keys entries) ->
  forall (t : gmap jsstring jsstring) k,
    fold_left (fun t e => <[e.1 := e.2]> t) entries t !! k
    = match JsMap.get k entries with Some v => Some v | None => t !! k end.
Proof.
  unfold JsMap.keys.
  induction entries as [|[k0 v0] rest IH]; csimpl; intros Hnd t k; [done|].
  apply NoDup_cons in Hnd as [Hk0 Hnd]. rewrite (IH Hnd).
  case_bool_decide as Hk.
  - subst k0. apply JsMap_get_None in Hk0. rewrite Hk0.
    by rewrite lookup_insert_eq.
  - by rewrite lookup_insert_ne.
Qed.

Lemma NoDup_snapshot_puts_acc (md acc : JsMap.t jsstring) :
  NoDup (JsMap.keys acc) ->
  NoDup (JsMap.keys
           (fold_left (fun puts e => JsMap.set (monitor_key e.1) e.2 puts)
              md acc)).
Proof.
  revert acc. induction md as [|[k v] md IH]; intros acc Hnd; [done|].
  cbn [fold_left]. apply IH. by apply JsMap_NoDup_set.
Qed.

Lemma get_snapshot_puts_acc (md acc : JsMap.t jsstring) key :
  NoDup (JsMap.keys md) ->
  JsMap.get key
    (fold_left (fun puts e => JsMap.set (monitor_key e.1) e.2 puts) md acc)
  = match List.find (fun e => bool_decide (monitor_key e.1 = key)) md with
    | Some e => Some e.2
    | None => JsMap.get key acc
    end.
Proof.
  unfold JsMap.keys. revert acc.
  induction md as [|[k v] md IH]; intros acc Hnd; csimpl; [done|].
  apply NoDup_cons in Hnd as [Hk Hnd]. rewrite (IH _ Hnd).
  case_bool_decide as Hkey.
  - destruct (List.find _ md) as [[k' v']|] eqn:Hf.
    + apply find_some in Hf as [Hin Hk']. apply bool_decide_eq_true in Hk'.
      cbn [fst] in Hk'. rewrite <- Hkey in Hk'. apply monitor_key_inj in Hk'.
      subst k'. destruct Hk. apply list_elem_of_fmap. exists (k, v').
      split; [done|]. by apply list_elem_of_In.
    + rewrite JsMap_get_set. by rewrite bool_decide_eq_true_2.
  - destruct (List.find _ md); [done|].
    rewrite JsMap_get_set. by rewrite bool_decide_eq_false_2.
Qed.

Lemma find_monitor_key (md : JsMap.t jsstring) nm :
  match List.find (fun e => bool_decide (monitor_key e.1 = monitor_key nm)) md
  with Some e => Some e.2 | None => None end
  = JsMap.get nm md.
Proof.
  induction md as [|[k v] md IH]; csimpl; [done|].
  destruct (decide (k = nm)) as [->|Hne].
  - by rewrite !bool_decide_eq_true_2.
  - rewrite !bool_decide_eq_false_2; [done|done|].
    by intros ?%monitor_key_inj.
Qed.

Lemma find_not_monitor_key (md : JsMap.t jsstring) key :
  (forall nm, key <> monitor_key nm) ->
  List.find (fun e => bool_decide (monitor_key e.1 = key)) md = None.
Proof.
  intros Hkey. induction md as [|[k v] md IH]; csimpl; [done|].
  rewrite bool_decide_eq_false_2; [done|]. intros Heq. by apply (Hkey k).
Qed.

Section Persistence.
Context `{Runtime} (env : Env).

(** What persistMonitorSnapshot leaves in the storage. *)
Lemma persist_lookup o :
  NoDup (JsMap.keys (monitorData o)) ->
  let o' := exec persistMonitorSnapshot o in
  (forall nm, kv (storage o') !! monitor_key nm =
     match JsMap.get nm (monitorData o) with
     | Some v => Some v
     | None => kv (storage o) !! monitor_key nm
     end)
  /\ (forall key, (forall nm, key <> monitor_key nm) ->
        kv (storage o') !! key = kv (storage o) !! key).
Proof.
  intros Hnd o'.
  assert (forall key, kv (storage o') !! key =
            match JsMap.get key (snapshot_puts (monitorData o)) with
            | Some v => Some v
            | None => kv (storage o) !! key
            end) as Hkv.
  { intros key. unfold o', exec. rewrite persistMonitorSnapshot_eq. cbn [snd].
    pose proof (NoDup_snapshot_puts_acc (monitorData o) [] (NoDup_nil_2))
      as Hp. fold (snapshot_puts (monitorData o)) in Hp.
    destruct (snapshot_puts (monitorData o)) as [|e puts] eqn:Hs; [done|].
    cbn [storage kv set_storage add_effects storage_put_all].
    by rewrite (lookup_put_all_get _ Hp). }
  split.
  - intros nm. rewrite Hkv. unfold snapshot_puts.
    rewrite (get_snapshot_puts_acc _ _ _ Hnd). cbn [JsMap.get].
    rewrite <- (find_monitor_key (monitorData o) nm).
    by destruct (List.find _ _).
  - intros key Hkey. rewrite Hkv. unfold snapshot_puts.
    by rewrite (get_snapshot_puts_acc _ _ _ Hnd), find_not_monitor_key.
Qed.

(** In a state that satisfies the invariant the storage holds a snapshot
    only for an identity of the store. *)
Lemma storage_ok_absent o nm :
  Inv o -> nm ∉ JsMap.keys (monitorData o) ->
  kv (storage o) !! monitor_key nm = None.
Proof.
  intros (_ & _ & Hk) Hni.
  destruct (kv (storage o) !! monitor_key nm) as [v|] eqn:Hl; [|done].
  destruct (Hk _ v Hl (starts_with_monitor_key nm))
    as (nm' & m & Heq & Hin & _).
  apply monitor_key_inj in Heq. by subst.
Qed.

(** The fields of the state after an alarm event. *)
Lemma deliver_alarm_fields now_ms net o :
  let o' := deliver env (EvAlarm now_ms net) o in
  monitorData o' = monitorData o
  /\ sockets o' = sockets o
  /\ cachedViewerPayload o' = cachedViewerPayload o
  /\ (NoDup (JsMap.keys (monitorData o)) ->
      (forall nm, kv (storage o') !! monitor_key nm =
         match JsMap.get nm (monitorData o) with
         | Some v => Some v
         | None => kv (storage o) !! monitor_key nm
         end)
      /\ (forall key, (forall nm, key <> monitor_key nm) ->
            kv (storage o') !! key = kv (storage o) !! key))
  /\ scheduled (storage o')
     = if bool_decide (sockets o = ∅) && bool_decide (monitorData o = [])
       then None else Some (now_ms + ALARM_INTERVAL_MS).
Proof.
  intros o'.
  assert (o' = deliver env (EvAlarm now_ms net) o) as Ho' by done.
  clearbody o'. cbn [deliver] in Ho'.
  set (o0 := set_storage (fun s => mkStorage (kv s) None) o) in Ho'.
  unfold exec in Ho'. rewrite alarm_eq in Ho'. cbn [snd] in Ho'.
  set (o1 := alarm_sweep env now_ms net o0) in Ho'.
  assert (monitorData o1 = monitorData o /\ sockets o1 = sockets o
          /\ cachedViewerPayload o1 = cachedViewerPayload o
          /\ kv (storage o1) = kv (storage o)
          /\ scheduled (storage o1) = None) as (M1 & S1 & C1 & K1 & A1).
  { unfold o1, alarm_sweep. by destruct (tg_enabled env). }
  pose proof (persist_lookup o1) as P1. rewrite M1, K1 in P1.
  set (o2 := exec persistMonitorSnapshot o1) in *.
  assert (monitorData o2 = monitorData o /\ sockets o2 = sockets o
          /\ cachedViewerPayload o2 = cachedViewerPayload o
          /\ scheduled (storage o2) = None) as (M2 & S2 & C2 & A2).
  { unfold o2, exec. rewrite persistMonitorSnapshot_eq. cbn [snd].
    by destruct (snapshot_puts (monitorData o1)). }
  assert ((0 <? length (sockets_with None o2))%nat
          || (0 <? JsMap.size (monitorData o2))%nat
          = negb (bool_decide (sockets o = ∅)
                  && bool_decide (monitorData o = []))) as Hcond.
  { rewrite M2. unfold JsMap.size.
    assert ((0 <? length (sockets_with None o2))%nat
            = negb (bool_decide (sockets o = ∅))) as ->.
    { destruct (sockets_with None o2) as [|w l] eqn:Hw.
      - rewrite bool_decide_eq_true_2; [done|]. apply map_empty. intros i.
        destruct (sockets o !! i) as [sock|] eqn:Hl; [|done].
        assert (i ∈ sockets_with None o2) as Hin.
        { apply elem_of_sockets_with. exists sock. by rewrite S2. }
        rewrite Hw in Hin. by apply not_elem_of_nil in Hin.
      - rewrite bool_decide_eq_false_2; [done|]. intros He.
        assert (w ∈ sockets_with None o2) as Hin by (rewrite Hw; left).
        apply elem_of_sockets_with in Hin as (sock & Hl & _).
        rewrite S2, He in Hl. by rewrite lookup_empty in Hl. }
    destruct (monitorData o) as [|e md]; cbn [length];
      destruct (bool_decide (sockets o = ∅)); by case_bool_decide. }
  unfold alarm_reschedule in Ho'. rewrite Hcond in Ho'.
  destruct (bool_decide (sockets o = ∅) && bool_decide (monitorData o = []));
    cbn [negb] in Ho'; subst o'; done.
Qed.

End Persistence.

Section RoundTrip.
Context `{Runtime} (env : Env).

(** After an alarm the storage holds, under the snapshot prefix, the store
    and nothing else. *)
Lemma alarm_storage_is_store now_ms net o nm :
  Inv o ->
  kv (storage (deliver env (EvAlarm now_ms net) o)) !! monitor_key nm
  = JsMap.get nm (monitorData o).
Proof.
  intros Hinv. pose proof Hinv as ((Hnd & _) & _).
  destruct (deliver_alarm_fields env now_ms net o) as (_ & _ & _ & Hkv & _).
  destruct (Hkv Hnd) as [-> _].
  destruct (JsMap.get nm (monitorData o)) eqn:Hg; [done|].
  apply storage_ok_absent; [done|]. by apply JsMap_get_None.
Qed.

(** What an eviction restores was in the storage, under the key of its
    name, and is young enough. *)
Lemma evict_restored now_ms o nm v :
  Inv o ->
  JsMap.get nm (monitorData (deliver env (EvEvict now_ms) o)) = Some v ->
  nm ∈ JsMap.keys (monitorData o)
  /\ kv (storage o) !! monitor_key nm = Some v
  /\ restore_keep (now_ms / 1000) v = Some nm.
Proof.
  intros (_ & _ & Hk) Hg. cbn [deliver] in Hg.
  destruct (constructor_fields (storage o) (sockets o) (effects o) now_ms)
    as (Hmd & _).
  rewrite Hmd in Hg. apply JsMap_get_elem_of, restored_elem_of in Hg.
  destruct Hg as [Hg|(key & Hin & Hkeep)]; [inversion Hg|].
  apply elem_of_storage_list in Hin as [Hl Hpre].
  destruct (Hk key v Hl Hpre) as (nm' & m & -> & Hin & Hp & Hn).
  pose proof Hkeep as Hkeep'.
  apply restore_keep_Some in Hkeep' as (m' & Hp' & (Hn' & _)%restorable_Some).
  assert (nm = nm') as -> by congruence. done.
Qed.

End RoundTrip.

(** X5.  Where the identities are strings, an alarm writes the whole
    store to the storage: afterwards the value under monitor:<name> is the
    snapshot the store holds for that name, and there is no value for a name the store does not hold.  Keys
    outside the monitor: prefix, the host:<name> entries among them, keep
    their values; the store, the sockets and the cached payload are not
    touched. *)
Theorem X5_alarm_persists_store `{Runtime} (env : Env) (o : MonitorDO)
    (now_ms : Z) (net : Network) :
  reachable env o -> string_names o ->
  let o' := deliver env (EvAlarm now_ms net) o in
  (forall nm,
     kv (storage o') !! monitor_key nm = JsMap.get nm (monitorData o))
  /\ (forall key, starts_with (js "monitor:") key = false ->
        kv (storage o') !! key = kv (storage o) !! key)
  /\ monitorData o' = monitorData o
  /\ sockets o' = sockets o
  /\ cachedViewerPayload o' = cachedViewerPayload o.
Proof.
  intros Hr _ o'. pose proof (reachable_Inv env o Hr) as Hinv.
  pose proof Hinv as ((Hnd & _) & _).
  destruct (deliver_alarm_fields env now_ms net o)
    as (Hm & Hs & Hc & Hkv & _).
  destruct (Hkv Hnd) as [_ Hother].
  split; [intros nm; by apply alarm_storage_is_store|].
  split; [|done].
  intros key Hpre. apply Hother. intros nm ->.
  by rewrite starts_with_monitor_key in Hpre.
Qed.

Lemma X5_witness :
  let o :=
    Reference.run
      [EvFetch (mkRequest (Some (js "websocket")) (js "/ws/agent") (js "GET") None);
       EvMessage 0 (Text (js "secret")) 1000000;
       EvMessage 0 (Reference.agent_frame (js "HK1") 1000) 1000000;
       EvFetch (mkRequest None (js "/rpc") (js "POST")
                  (Some (mkRpcBody (js "updateInfo")
                           (mkHostInfo (js "HK1") 0 [] [] []))))]
      (initial 0) in
  let o' := deliver Reference.env (EvAlarm 1020000 Reference.offline_net) o in
  kv (storage o') !! monitor_key (js "HK1")
  = Some (Reference.snapshot (js "HK1") 1000)
  /\ kv (storage o') !! monitor_key (js "HK2") = None
  /\ kv (storage o') !! host_key (js "HK1")
     = Some (Reference.stringify_HostInfo (mkHostInfo (js "HK1") 0 [] [] [])).
Proof.
  intros o.
  assert (reachable Reference.env o) as Hr
    by (apply reachable_deliver_all; constructor).
  assert (JsMap.get (js "HK1") (monitorData o)
          = Some (Reference.snapshot (js "HK1") 1000)) as H1
    by (vm_compute; reflexivity).
  assert (JsMap.get (js "HK2") (monitorData o) = None) as H2
    by (vm_compute; reflexivity).
  assert (kv (storage o) !! host_key (js "HK1")
          = Some (Reference.stringify_HostInfo
                    (mkHostInfo (js "HK1") 0 [] [] []))) as H3
    by (vm_compute; reflexivity).
  clearbody o. intros o'.
  assert (string_names o) as Hstr by done.
  destruct (X5_alarm_persists_store Reference.env o 1020000
              Reference.offline_net Hr Hstr) as (Hkv & Hother & _).
  unfold o'. rewrite !Hkv, Hother, H1, H2, H3; [done|].
  apply starts_with_host_key.
Defined.

(** X6.  Where the identities are strings, the snapshots survive an
    eviction that follows an alarm, as long as they are young: after the
    alarm and the eviction the store holds,
    for each name, the snapshot it held before when that snapshot parses
    with a TimeStamp greater than now - 300 at the time of construction,
    and no entry for any other name.  The sockets outlive the eviction;
    the offline flags and the cached payload start empty. *)
Theorem X6_snapshot_round_trip `{Runtime} (env : Env) (o : MonitorDO)
    (alarm_ms : Z) (net : Network) (now_ms : Z) :
  reachable env o -> string_names o ->
  let o1 := deliver env (EvAlarm alarm_ms net) o in
  let o2 := deliver env (EvEvict now_ms) o1 in
  (forall nm,
     JsMap.get nm (monitorData o2) =
       match JsMap.get nm (monitorData o) with
       | Some v =>
           match restore_keep (now_ms / 1000) v with
           | Some _ => Some v
           | None => None
           end
       | None => None
       end)
  /\ sockets o2 = sockets o
  /\ offlineMap o2 = ∅
  /\ cachedViewerPayload o2 = None.
Proof.
  intros Hr _ o1 o2.
  pose proof (reachable_Inv env o Hr) as Hinv.
  assert (reachable env o1) as Hr1 by (by constructor).
  pose proof (reachable_Inv env o1 Hr1) as Hinv1.
  destruct (deliver_alarm_fields env alarm_ms net o) as (Hm1 & Hs1 & _).
  fold o1 in Hm1, Hs1.
  pose proof (fun nm => alarm_storage_is_store env alarm_ms net o nm Hinv)
    as Hkv. fold o1 in Hkv.
  destruct (constructor_fields (storage o1) (sockets o1) (effects o1) now_ms)
    as (Hmd & Hoff & Hc & _ & Hso & _).
  change (constructor (storage o1) (sockets o1) (effects o1) now_ms)
    with o2 in Hmd, Hoff, Hc, Hso.
  split; [|by rewrite Hso, Hs1].
  intros nm.
  assert (forall nm' v', JsMap.get nm' (monitorData o) = Some v' ->
            forall k, restore_keep (now_ms / 1000) v' = Some k -> k = nm')
    as Hname.
  { intros nm' v' Hg k Hkeep. destruct Hinv as ((_ & _ & Hnames) & _).
    destruct (Hnames nm' v' (JsMap_get_elem_of _ _ _ Hg)) as (m & Hp & Hn).
    apply restore_keep_Some in Hkeep as (m' & Hp' & (Hn' & _)%restorable_Some).
    congruence. }
  destruct (JsMap.get nm (monitorData o)) as [v|] eqn:Hg.
  - destruct (restore_keep (now_ms / 1000) v) as [k|] eqn:Hkeep.
    + assert (k = nm) as -> by by apply (Hname nm v).
      rewrite Hmd. apply restored_get_unique; [|done|].
      * exists (monitor_key nm). apply elem_of_storage_list.
        by rewrite Hkv, Hg, starts_with_monitor_key.
      * intros key' v' [Hl Hpre]%elem_of_storage_list Hkeep'.
        destruct (monitor_prefix_inv key' Hpre) as [nm' ->].
        rewrite Hkv in Hl.
        assert (nm = nm') as <- by by apply (Hname nm' v').
        congruence.
    + destruct (JsMap.get nm (monitorData o2)) as [v'|] eqn:Hg2; [|done].
      destruct (evict_restored env now_ms o1 nm v' Hinv1 Hg2)
        as (_ & Hl & Hkeep').
      rewrite Hkv, Hg in Hl. congruence.
  - destruct (JsMap.get nm (monitorData o2)) as [v'|] eqn:Hg2; [|done].
    destruct (evict_restored env now_ms o1 nm v' Hinv1 Hg2) as (_ & Hl & _).
    rewrite Hkv, Hg in Hl. done.
Qed.

Lemma X6_witness :
  let o :=
    Reference.run
      [EvFetch (mkRequest (Some (js "websocket")) (js "/ws/agent") (js "GET") None);
       EvMessage 0 (Text (js "secret")) 1000000;
       EvMessage 0 (Reference.agent_frame (js "OLD") 800) 1000000;
       EvMessage 0 (Reference.agent_frame (js "NEW") 1000) 1000000]
      (initial 0) in
  let o1 := deliver Reference.env (EvAlarm 1020000 Reference.offline_net) o in
  let o2 := deliver Reference.env (EvEvict 1200000) o1 in
  JsMap.get (js "NEW") (monitorData o2)
  = Some (Reference.snapshot (js "NEW") 1000)
  /\ JsMap.get (js "OLD") (monitorData o2) = None
  /\ sockets o2 = sockets o.
Proof.
  intros o.
  assert (reachable Reference.env o) as Hr
    by (apply reachable_deliver_all; constructor).
  assert (JsMap.get (js "NEW") (monitorData o)
          = Some (Reference.snapshot (js "NEW") 1000)) as H1
    by (vm_compute; reflexivity).
  assert (JsMap.get (js "OLD") (monitorData o)
          = Some (Reference.snapshot (js "OLD") 800)) as H2
    by (vm_compute; reflexivity).
  assert (restore_keep (1200000 / 1000) (Reference.snapshot (js "NEW") 1000)
          = Some (js "NEW")) as K1 by (vm_compute; reflexivity).
  assert (restore_keep (1200000 / 1000) (Reference.snapshot (js "OLD") 800)
          = None) as K2 by (vm_compute; reflexivity).
  clearbody o. intros o1 o2.
  assert (string_names o) as Hstr by done.
  destruct (X6_snapshot_round_trip Reference.env o 1020000
              Reference.offline_net 1200000 Hr Hstr) as (Hget & Hs & _).
  unfold o2, o1. rewrite !Hget, H1, H2, K1, K2. done.
Defined.

(** X7.  An eviction only forgets.  Whatever the store holds after the
    object has been constructed again was persisted before under the key
    of its name, belongs to a name the store held, and is younger than
    300 seconds; so a name that was not in the store, a deleted host for
    one, does not come back.  Keys outside the monitor: prefix are not
    touched. *)
Theorem X7_eviction_only_forgets `{Runtime} (env : Env) (o : MonitorDO)
    (now_ms : Z) :
  reachable env o ->
  let o' := deliver env (EvEvict now_ms) o in
  (forall nm v, JsMap.get nm (monitorData o') = Some v ->
     nm ∈ JsMap.keys (monitorData o)
     /\ kv (storage o) !! monitor_key nm = Some v
     /\ restore_keep (now_ms / 1000) v = Some nm)
  /\ (forall nm, nm ∉ JsMap.keys (monitorData o) ->
        nm ∉ JsMap.keys (monitorData o'))
  /\ (forall key, starts_with (js "monitor:") key = false ->
        kv (storage o') !! key = kv (storage o) !! key).
Proof.
  intros Hr o'. pose proof (reachable_Inv env o Hr) as Hinv.
  split; [intros nm v; by apply evict_restored|]. split.
  - intros nm Hni Hin. apply JsMap_has_true in Hin. unfold JsMap.has in Hin.
    destruct (JsMap.get nm (monitorData o')) as [v|] eqn:Hg; [|done].
    by destruct (evict_restored env now_ms o nm v Hinv Hg) as [? _].
  - intros key Hpre. unfold o'. cbn [deliver].
    destruct (constructor_fields (storage o) (sockets o) (effects o) now_ms)
      as (_ & _ & _ & _ & _ & _ & Hkv & _).
    rewrite Hkv. case_bool_decide as Hstale; [|done].
    apply elem_of_stale_keys in Hstale as (v & [_ Hp]%elem_of_storage_list & _).
    congruence.
Qed.

Lemma X7_witness :
  let o :=
    Reference.run
      [EvFetch (mkRequest (Some (js "websocket")) (js "/ws/agent") (js "GET") None);
       EvMessage 0 (Text (js "secret")) 1000000;
       EvMessage 0 (Reference.agent_frame (js "HK1") 1000) 1000000;
       EvAlarm 1020000 Reference.offline_net;
       EvFetch (mkRequest None (js "/rpc") (js "POST")
                  (Some (mkRpcBody (js "deleteHost")
                           (mkHostInfo (js "HK1") 0 [] [] []))))]
      (initial 0) in
  (js "HK1" ∉ JsMap.keys (monitorData o))
  /\ (js "HK1"
      ∉ JsMap.keys (monitorData (deliver Reference.env (EvEvict 1030000) o))).
Proof.
  intros o.
  assert (reachable Reference.env o) as Hr
    by (apply reachable_deliver_all; constructor).
  assert (js "HK1" ∉ JsMap.keys (monitorData o)) as Hni.
  { apply JsMap_has_false. vm_compute. reflexivity. }
  clearbody o. split; [exact Hni|].
  by apply (X7_eviction_only_forgets Reference.env o 1030000 Hr).
Defined.

(* ===================================================================== *)
(** * Further properties: the alarm and the notifications *)
(* ===================================================================== *)

Section Schedule.
Context `{Runtime} (env : Env).

(** A frame touches neither the storage nor the offline flags, and the
    only call it may add is one serialization. *)
Lemma handleAgentData_frame ws message o :
  let o' := exec (handleAgentData ws message) o in
  storage o' = storage o
  /\ offlineMap o' = offlineMap o
  /\ (effects o' = effects o \/ effects o' = effects o ++ [Stringified]).
Proof.
  intros o'. assert (o' = exec (handleAgentData ws message) o) as Ho' by done.
  clearbody o'. unfold exec in Ho'. rewrite handleAgentData_eq in Ho'.
  destruct (decode message) as [[name jsonStr]|]; [|subst o'; by auto].
  destruct (at_capacity name (monitorData o)); [subst o'; by auto|].
  destruct (broadcastToViewers_served
              (set_cachedViewerPayload None
                 (set_monitorData (JsMap.set name jsonStr) o)))
    as (socks & Hb & _).
  rewrite Hb in Ho'. cbn [snd] in Ho'. subst o'.
  destruct (sockets_with _ _); [by auto|].
  unfold exec. rewrite getViewerPayload_eq.
  cbn [cachedViewerPayload set_cachedViewerPayload snd]. by auto.
Qed.

(** What a message event may add to the calls made so far. *)
Lemma webSocketMessage_frame ws message now_ms o :
  let o' := exec (webSocketMessage env ws message now_ms) o in
  kv (storage o') = kv (storage o)
  /\ offlineMap o' = offlineMap o
  /\ (effects o' = effects o \/ effects o' = effects o ++ [Stringified]).
Proof.
  intros o'.
  assert (o' = exec (webSocketMessage env ws message now_ms) o) as Ho' by done.
  clearbody o'. unfold exec in Ho'. rewrite webSocketMessage_eq in Ho'.
  destruct (sockets o !! ws) as [sock|]; [|subst o'; by auto].
  case_bool_decide.
  - destruct (is_authed sock).
    { subst o'.
      destruct (handleAgentData_frame ws message o) as (E1 & E2 & E3).
      unfold exec in E1, E2, E3. by rewrite E1, E2. }
    case_bool_decide; destruct (is_open sock);
      rewrite ?ensureAlarm_eq in Ho'; cbn [snd] in Ho'; subst o';
      try (by auto).
    destruct (scheduled _); by auto.
  - case_bool_decide; [|subst o'; by auto]. cbn [snd] in Ho'. subst o'.
    unfold exec. rewrite getViewerPayload_eq.
    destruct (cachedViewerPayload o); by auto.
Qed.

Lemma fetch_frame request o :
  let o' := exec (fetch request) o in
  scheduled (storage o') = scheduled (storage o)
  /\ (effects o' = effects o
      \/ exists key, effects o' = effects o ++ [StorageDeleteOne key]).
Proof.
  intros o'. assert (o' = exec (fetch request) o) as Ho' by done.
  clearbody o'. unfold fetch in Ho'. case_bool_decide.
  { subst o'. case_bool_decide; [by auto|]. case_bool_decide; by auto. }
  destruct (_ && _); [|subst o'; by auto].
  unfold handleRPC, exec, try_catch, bind, or_throw in Ho'.
  destruct (json request) as [b|]; [|subst o'; by auto].
  unfold ret at 1 in Ho'.
  case_bool_decide; [subst o'; by auto|].
  case_bool_decide; [subst o'; by auto|].
  case_bool_decide; [subst o'; by auto|].
  case_bool_decide; [|subst o'; by auto].
  rewrite rpcDeleteHost_eq in Ho'.
  destruct (JsMap.has (name (req b)) (monitorData o)); subst o';
    [|by auto].
  split; [done|]. right. by eexists.
Qed.

End Schedule.

(** X8.  The alarm is moved by two events only.  An alarm event on a
    state whose identities are strings leaves the next alarm 20 seconds
    ahead when a socket is connected or the store is not empty, and leaves
    none otherwise.  The first message of
    an agent that carries the secret sets an alarm 20 seconds ahead when
    none is set; it never moves one that is set.  Every other event, and
    every other message, leaves the alarm as it is. *)
Theorem X8_alarm_schedule `{Runtime} (env : Env) (ev : Event)
    (o : MonitorDO) :
  let o' := deliver env ev o in
  match ev with
  | EvAlarm now_ms net =>
      string_names o ->
      scheduled (storage o')
      = if bool_decide (sockets o = ∅) && bool_decide (monitorData o = [])
        then None else Some (now_ms + 20000)
  | EvMessage ws message now_ms =>
      scheduled (storage o') = scheduled (storage o)
      \/ (scheduled (storage o) = None
          /\ scheduled (storage o') = Some (now_ms + 20000)
          /\ exists sock,
               sockets o !! ws = Some sock /\ agent ∈ ws_tags sock
               /\ is_authed sock = false /\ ws_closed sock = None
               /\ message_text message = AUTH_SECRET env)
  | _ => scheduled (storage o') = scheduled (storage o)
  end.
Proof.
  intros o'. assert (o' = deliver env ev o) as Ho' by done. clearbody o'.
  destruct ev as [request|ws message now_ms|ws|ws|now_ms net|now_ms].
  - subst o'. by destruct (fetch_frame request o) as [E _].
  - cbn [deliver] in Ho'. unfold exec in Ho'.
    rewrite webSocketMessage_eq in Ho'.
    destruct (sockets o !! ws) as [sock|] eqn:Hs; [|left; by subst o'].
    case_bool_decide as Ha.
    + destruct (is_authed sock) eqn:Hau.
      { left. subst o'.
        destruct (handleAgentData_frame ws message o) as (E1 & _).
        unfold exec in E1. by rewrite E1. }
      case_bool_decide as Hsec; unfold is_open in Ho';
        destruct (ws_closed sock) eqn:Hc; try (left; by subst o').
      rewrite ensureAlarm_eq in Ho'. cbn [snd] in Ho'.
      cbn [storage set_sockets] in Ho'.
      destruct (scheduled (storage o)) eqn:Hal; [left; by subst o'|].
      right. subst o'. split; [done|]. split; [done|]. by exists sock.
    + left. subst o'. case_bool_decide; [|done]. cbn [snd storage set_sockets].
      unfold exec. rewrite getViewerPayload_eq.
      by destruct (cachedViewerPayload o).
  - by subst o'.
  - subst o'. cbn [deliver]. unfold webSocketError, exec, try_catch, ws_close.
    destruct (sockets o !! ws) as [sock|]; [destruct (ws_closed sock)|]; done.
  - subst o'. intros _.
    by destruct (deliver_alarm_fields env now_ms net o) as (_ & _ & _ & _ & ->).
  - subst o'. cbn [deliver].
    by destruct (constructor_fields (storage o) (sockets o) (effects o) now_ms)
      as (_ & _ & _ & _ & _ & -> & _).
Qed.

Lemma X8_witness :
  let o :=
    Reference.run
      [EvFetch (mkRequest (Some (js "websocket")) (js "/ws/agent") (js "GET")
                  None);
       EvMessage 0 (Text (js "secret")) 1000000;
       EvClose 0]
      (initial 0) in
  scheduled (storage o) = Some 1020000
  /\ scheduled
       (storage (deliver Reference.env (EvAlarm 1020000 Reference.offline_net)
                   o)) = None.
Proof.
  intros o.
  assert (scheduled (storage o) = Some 1020000) as Hs
    by (vm_compute; reflexivity).
  assert (sockets o = ∅) as Hso by (vm_compute; reflexivity).
  assert (monitorData o = []) as Hmd by (vm_compute; reflexivity).
  clearbody o. split; [exact Hs|].
  rewrite (X8_alarm_schedule Reference.env
             (EvAlarm 1020000 Reference.offline_net) o) by done.
  by rewrite !bool_decide_eq_true_2.
Defined.

Lemma transition_requests token chatId flags now m r :
  r ∈ transition token chatId flags now m ->
  exists nm, host_name m = Some nm
    /\ (r = offline_request token chatId nm
        \/ r = online_request token chatId nm).
Proof.
  unfold transition. destruct (host_name m) as [nm|]; [|by intros ?%not_elem_of_nil].
  destruct (is_stale now m), (Telegram.flagged flags nm);
    try (by intros ?%not_elem_of_nil);
    intros ->%list_elem_of_singleton; exists nm; by auto.
Qed.

(** Every request of a sweep is the offline or the online notification of
    a snapshot of the list, whatever the list. *)
Lemma sweep_requests token chatId net now ms :
  Telegram.not_configured token chatId = false ->
  forall flags sent r,
    r ∈ (fold_left
           (Telegram.sweep_step net token chatId now OFFLINE_THRESHOLD_SEC)
           ms (flags, sent)).2 ->
    r ∈ sent
    \/ exists m nm, m ∈ ms /\ host_name m = Some nm
         /\ (r = offline_request token chatId nm
             \/ r = online_request token chatId nm).
Proof.
  intros Hcfg. induction ms as [|m ms IH]; intros flags sent r;
    cbn [fold_left]; [by left|].
  pose proof (sweep_step_sent token chatId Hcfg net now flags sent m) as Hs.
  destruct (Telegram.sweep_step _ _ _ _ _ _ m) as [flags1 sent1].
  cbn [snd] in Hs. subst sent1. intros Hin.
  apply IH in Hin as [Hin|(m' & nm & Hin & Hn & Hr)].
  - apply elem_of_app in Hin as [Hin|Hin]; [by left|]. right.
    apply transition_requests in Hin as (nm & Hn & Hr).
    exists m, nm. split; [left|done].
  - right. exists m', nm. split; [by right|done].
Qed.

Lemma notifications_same o o' :
  effects o' = effects o
  \/ effects o' = effects o ++ [Stringified]
  \/ (exists key, effects o' = effects o ++ [StorageDeleteOne key])
  \/ (exists keys, effects o' = effects o ++ [StorageDelete keys])
  \/ (exists puts, effects o' = effects o ++ [StoragePut puts]) ->
  notifications o' = notifications o.
Proof.
  unfold notifications.
  intros [->|[->|[[? ->]|[[? ->]|[? ->]]]]]; rewrite ?omap_app; csimpl;
    by rewrite ?app_nil_r.
Qed.

(** X9.  Telegram requests are issued by alarm events only, and only when
    ENABLE_TG is "true", the token is not empty and the chat id is neither
    empty nor "0".  Each request of an alarm goes to the configured token
    and chat id, and its text is the offline or the online message of the
    Host.Name of a snapshot in the store.  No frame, request, close, error
    or eviction sends anything. *)
Theorem X9_notifications_only_from_alarm `{Runtime} (env : Env) (ev : Event)
    (o : MonitorDO) :
  let o' := deliver env ev o in
  notifications o' = notifications o
  \/ exists now_ms net reqs,
       ev = EvAlarm now_ms net
       /\ ENABLE_TG env = js "true"
       /\ TG_TOKEN env <> [] /\ TG_CHAT_ID env <> [] /\ TG_CHAT_ID env <> js "0"
       /\ notifications o' = notifications o ++ reqs
       /\ forall r, r ∈ reqs ->
            tg_token r = TG_TOKEN env /\ tg_chat r = TG_CHAT_ID env
            /\ exists m nm,
                 m ∈ (sorted_entries (monitorData o)).*2
                 /\ host_name m = Some nm
                 /\ (tg_text r = Telegram.offlineMessage nm
                     \/ tg_text r = Telegram.onlineMessage nm).
Proof.
  intros o'. assert (o' = deliver env ev o) as Ho' by done. clearbody o'.
  destruct ev as [request|ws message now_ms|ws|ws|now_ms net|now_ms].
  - left. subst o'. apply notifications_same.
    destruct (fetch_frame request o) as [_ [?|?]]; by auto.
  - left. subst o'. apply notifications_same.
    destruct (webSocketMessage_frame env ws message now_ms o)
      as (_ & _ & [?|?]); by auto.
  - left. by subst o'.
  - left. subst o'. cbn [deliver]. unfold webSocketError, exec, try_catch, ws_close.
    destruct (sockets o !! ws) as [sock|]; [destruct (ws_closed sock)|]; done.
  - destruct (tg_enabled env) eqn:Hen.
    + destruct (Telegram.not_configured (TG_TOKEN env) (TG_CHAT_ID env))
        eqn:Hcfg.
      * left. destruct (deliver_alarm_sweep env now_ms net o Hen)
          as (_ & Hn & _). rewrite <- Ho' in Hn. rewrite Hn.
        unfold Telegram.checkOfflineStatus. rewrite Hcfg. apply app_nil_r.
      * right.
        destruct (deliver_alarm_sweep env now_ms net o Hen) as (_ & Hn & _).
        rewrite <- Ho' in Hn.
        exists now_ms, net. eexists. split; [done|].
        unfold tg_enabled in Hen. unfold Telegram.not_configured in Hcfg.
        apply andb_true_iff in Hen as [[He Ht]%andb_true_iff Hz].
        apply bool_decide_eq_true in He.
        apply negb_true_iff, bool_decide_eq_false in Hz.
        apply orb_false_iff in Hcfg as [[Htok _]%orb_false_iff _].
        apply negb_false_iff in Htok.
        split; [done|]. split; [by destruct (TG_TOKEN env)|].
        split; [by destruct (TG_CHAT_ID env)|]. split; [done|].
        split; [exact Hn|]. intros r Hr.
        unfold Telegram.checkOfflineStatus in Hr.
        assert (Telegram.not_configured (TG_TOKEN env) (TG_CHAT_ID env)
                = false) as Hcfg.
        { unfold Telegram.not_configured. rewrite Htok, Ht. cbn [negb orb].
          by apply bool_decide_eq_false. }
        rewrite Hcfg in Hr.
        apply (sweep_requests _ _ _ _ _ Hcfg) in Hr
          as [Hr|(m & nm & Hin & Hnm & [->| ->])];
          [by apply not_elem_of_nil in Hr| |];
          (split; [done|]; split; [done|]; exists m, nm; by auto).
    + left. subst o'. cbn [deliver]. unfold exec. rewrite alarm_eq. cbn [snd].
      unfold alarm_sweep. rewrite Hen. unfold exec.
      rewrite persistMonitorSnapshot_eq. cbn [snd]. unfold alarm_reschedule.
      apply notifications_same.
      repeat match goal with
      | |- context [match ?c with [] => _ | _ :: _ => _ end] => destruct c
      | |- context [if ?c then _ else _] => destruct c
      end; cbn [effects set_storage add_effects]; eauto 10.
  - left. subst o'. cbn [deliver]. apply notifications_same.
    destruct (constructor_fields (storage o) (sockets o) (effects o) now_ms)
      as (_ & _ & _ & _ & _ & _ & _ & ->).
    destruct (stale_keys _ _); [left; by rewrite app_nil_r|eauto 10].
Qed.

(* ===================================================================== *)
(** * Further properties: the requests *)
(* ===================================================================== *)

Section Tables.
Context `{Runtime} (env : Env).

Lemma HostInfo_eta r :
  mkHostInfo (name r) (due_time r) (buy_url r) (seller r) (price r) = r.
Proof. by destruct r. Qed.

Lemma rpcUpdateInfo_eq r o :
  rpcUpdateInfo r o =
    (Normal (doJsonResponse Success_ok 200),
     set_storage
       (storage_put (host_key (name r)) (JSON_stringify_HostInfo r)) o).
Proof. unfold rpcUpdateInfo. mrun. by rewrite HostInfo_eta. Qed.

Lemma fetch_rpc act r o :
  fetch (rpc_request act r) o =
    if bool_decide (act = js "fetchData") then rpcFetchData o
    else if bool_decide (act = js "getInfo") then rpcGetInfo o
    else if bool_decide (act = js "updateInfo") then rpcUpdateInfo r o
    else if bool_decide (act = js "deleteHost") then rpcDeleteHost r o
    else (Normal (doJsonResponse (Failure msg_unknown_action) 400), o).
Proof.
  unfold fetch, rpc_request. cbn [Upgrade method pathname json].
  rewrite bool_decide_eq_false_2 by done.
  rewrite !bool_decide_eq_true_2 by done. cbn [andb].
  unfold handleRPC, try_catch, bind, or_throw. cbn [json].
  unfold ret at 1. cbn [action req].
  case_bool_decide; [by rewrite rpcFetchData_eq|].
  case_bool_decide; [done|].
  case_bool_decide; [by rewrite rpcUpdateInfo_eq|].
  case_bool_decide; [|done].
  rewrite rpcDeleteHost_eq. by destruct (JsMap.has _ _).
Qed.

Lemma tables_ok_subset o o' :
  (forall key v, kv (storage o') !! key = Some v ->
     kv (storage o) !! key = Some v) ->
  storage_tables_ok o -> storage_tables_ok o'.
Proof. intros Hsub Hok key v Hl. apply Hok. by apply Hsub. Qed.

Lemma tables_ok_fetch request o :
  storage_tables_ok o -> storage_tables_ok (exec (fetch request) o).
Proof.
  intros Hok. unfold fetch. case_bool_decide.
  { case_bool_decide; [done|]. by case_bool_decide. }
  destruct (_ && _); [|done].
  unfold handleRPC, exec, try_catch, bind, or_throw.
  destruct (json request) as [b|]; [|done]. unfold ret at 1.
  case_bool_decide; [done|].
  case_bool_decide; [done|].
  case_bool_decide.
  { rewrite rpcUpdateInfo_eq. cbn [snd]. intros key v.
    cbn [storage kv set_storage storage_put].
    destruct (decide (key = host_key (name (req b)))) as [->|Hne].
    - rewrite lookup_insert_eq. intros [= <-]. right. by eexists.
    - rewrite lookup_insert_ne by done. apply Hok. }
  case_bool_decide; [|done].
  rewrite rpcDeleteHost_eq.
  destruct (JsMap.has (name (req b)) (monitorData o)); [|done].
  apply (tables_ok_subset o); [|done]. intros key v.
  cbn [snd storage kv set_storage storage_delete add_effects
       set_cachedViewerPayload set_offlineMap set_monitorData].
  by intros [_ ?]%lookup_delete_Some.
Qed.

Lemma tables_ok_deliver ev o :
  Inv o -> storage_tables_ok o -> storage_tables_ok (deliver env ev o).
Proof.
  intros Hinv Hok.
  destruct ev as [request|ws message now_ms|ws|ws|now_ms net|now_ms];
    cbn [deliver].
  - by apply tables_ok_fetch.
  - apply (tables_ok_subset o); [|done]. intros key v.
    by destruct (webSocketMessage_frame env ws message now_ms o) as (-> & _).
  - done.
  - apply (tables_ok_subset o); [|done]. intros key v.
    unfold webSocketError, exec, try_catch, ws_close.
    destruct (sockets o !! ws) as [sock|]; [destruct (ws_closed sock)|]; done.
  - intros key v Hl.
    destruct (starts_with (js "monitor:") key) eqn:Hpre; [by left|].
    pose proof Hinv as ((Hnd & _) & _).
    destruct (deliver_alarm_fields env now_ms net o) as (_ & _ & _ & Hkv & _).
    destruct (Hkv Hnd) as [_ Hother]. cbn [deliver] in Hother.
    rewrite Hother in Hl.
    + destruct (Hok key v Hl) as [Hp|?]; [congruence|by right].
    + intros nm ->. by rewrite starts_with_monitor_key in Hpre.
  - apply (tables_ok_subset o); [|done]. intros key v.
    destruct (constructor_fields (storage o) (sockets o) (effects o) now_ms)
      as (_ & _ & _ & _ & _ & _ & -> & _).
    by case_bool_decide.
Qed.

Lemma reachable_tables_ok o : reachable env o -> storage_tables_ok o.
Proof.
  induction 1 as [now_ms|o ev Hr IH].
  - intros key v.
    destruct (constructor_fields (mkStorage ∅ None) ∅ [] now_ms)
      as (_ & _ & _ & _ & _ & _ & Hkv & _).
    unfold initial. rewrite Hkv. case_bool_decide; [done|].
    cbn [kv]. by rewrite lookup_empty.
  - apply tables_ok_deliver; [by apply (reachable_Inv env)|done].
Qed.

End Tables.

(** X10.  The storage holds two tables that never mix.  In every
    reachable state a key of the storage is either monitor:<name> for a
    name of the store, with a value that parses to a snapshot of that
    name, or host:<name> with the serialization of a host info of that
    name.  updateInfo writes the entry host:<name> of its request,
    replacing an older one, answers 200, and touches neither another key
    nor the store, the sockets or the cached payload. *)
Theorem X10_storage_tables `{Runtime} (env : Env) (o : MonitorDO) :
  reachable env o ->
  (forall key v, kv (storage o) !! key = Some v ->
     (exists nm data,
        key = monitor_key nm /\ nm ∈ JsMap.keys (monitorData o)
        /\ JSON_parse v = Some data /\ host_name data = Some nm)
     \/ (exists h, key = host_key (name h) /\ v = JSON_stringify_HostInfo h))
  /\ (forall r,
        let result := fetch (rpc_request (js "updateInfo") r) o in
        result.1 = Normal (doJsonResponse Success_ok 200)
        /\ kv (storage result.2)
           = <[host_key (name r) := JSON_stringify_HostInfo r]>
               (kv (storage o))
        /\ scheduled (storage result.2) = scheduled (storage o)
        /\ monitorData result.2 = monitorData o
        /\ sockets result.2 = sockets o
        /\ cachedViewerPayload result.2 = cachedViewerPayload o
        /\ offlineMap result.2 = offlineMap o).
Proof.
  intros Hr. split.
  - intros key v Hl.
    destruct (reachable_tables_ok env o Hr key v Hl) as [Hpre|Hhost];
      [left|by right].
    destruct (reachable_Inv env o Hr) as (_ & _ & Hk).
    destruct (Hk key v Hl Hpre) as (nm & m & ? & ? & ? & ?). by exists nm, m.
  - intros r result.
    assert (result = fetch (rpc_request (js "updateInfo") r) o) as Hres by done.
    clearbody result. rewrite fetch_rpc in Hres.
    rewrite !bool_decide_eq_false_2 in Hres by done.
    rewrite bool_decide_eq_true_2 in Hres by done.
    rewrite rpcUpdateInfo_eq in Hres. by subst result.
Qed.

Lemma X10_witness :
  let o :=
    Reference.run
      [EvFetch (mkRequest (Some (js "websocket")) (js "/ws/agent") (js "GET") None);
       EvMessage 0 (Text (js "secret")) 1000000;
       EvMessage 0 (Reference.agent_frame (js "HK1") 1000) 1000000;
       EvAlarm 1020000 Reference.offline_net]
      (initial 0) in
  let r := mkHostInfo (js "HK1") 1767225600 (js "https://example.org")
             (js "seller") (js "9 USD") in
  let result := fetch (rpc_request (js "updateInfo") r) o in
  kv (storage result.2) !! host_key (js "HK1")
  = Some (Reference.stringify_HostInfo r)
  /\ kv (storage result.2) !! monitor_key (js "HK1")
     = Some (Reference.snapshot (js "HK1") 1000).
Proof.
  intros o r.
  assert (reachable Reference.env o) as Hr
    by (apply reachable_deliver_all; constructor).
  assert (kv (storage o) !! monitor_key (js "HK1")
          = Some (Reference.snapshot (js "HK1") 1000)) as Hk
    by (vm_compute; reflexivity).
  clearbody o. intros result.
  destruct (X10_storage_tables Reference.env o Hr) as [_ Hup].
  destruct (Hup r) as (_ & Hkv & _). fold result in Hkv. rewrite Hkv.
  split; [by rewrite lookup_insert_eq|].
  rewrite lookup_insert_ne; [exact Hk|]. apply host_key_not_monitor_key.
Defined.

Lemma fresh_socket (socks : gmap nat WebSocket) : socks !! fresh (dom socks) = None.
Proof. apply not_elem_of_dom, is_fresh. Qed.

(** X11.  On a state whose identities are strings, fetch never throws,
    and its answer is one of 101, 200, 400, 404 and 500.  It answers 101
    exactly for an Upgrade: websocket request on
    /ws/agent or /ws/viewer; the runtime then holds one more socket, open,
    with nothing sent, tagged by the path and, for an agent, with an
    attachment that says not authed, while the sockets it held, the store
    and the storage are as before.  It answers 500 exactly when the body
    of a POST /rpc cannot be read or is null.  Whenever the answer is 400,
    404 or 500 the state is unchanged. *)
Theorem X11_fetch_routing `{Runtime} (request : Request) (o : MonitorDO) :
  string_names o ->
  let result := fetch request o in
  exists response,
    result.1 = Normal response
    /\ status response ∈ [101; 200; 400; 404; 500]
    /\ (status response = 400 \/ status response = 404
        \/ status response = 500 -> result.2 = o)
    /\ (status response = 101 <->
        Upgrade request = Some (js "websocket")
        /\ (pathname request = js "/ws/agent"
            \/ pathname request = js "/ws/viewer"))
    /\ (status response = 500 <->
        Upgrade request <> Some (js "websocket")
        /\ method request = js "POST" /\ pathname request = js "/rpc"
        /\ json request = None)
    /\ (status response = 101 ->
        exists ws,
          webSocket response = Some ws
          /\ sockets o !! ws = None
          /\ sockets result.2
             = <[ws := if bool_decide (pathname request = js "/ws/agent")
                       then mkWebSocket [agent] (Some (mkAttachment false))
                              [] None
                       else mkWebSocket [viewer] None [] None]> (sockets o)
          /\ monitorData result.2 = monitorData o
          /\ storage result.2 = storage o).
Proof.
  intros _ result. assert (result = fetch request o) as Hres by done.
  clearbody result. unfold fetch in Hres.
  assert (forall x : Z, x ∈ [101; 200; 400; 404; 500] <->
            x = 101 \/ x = 200 \/ x = 400 \/ x = 404 \/ x = 500) as Hin.
  { intros x. rewrite !elem_of_cons, elem_of_nil. tauto. }
  case_bool_decide as Hup.
  - case_bool_decide as Hagent; [|case_bool_decide as Hviewer].
    + unfold handleAgentWebSocket, acceptWebSocket, ws_serializeAttachment
        in Hres. revert Hres. mrun. intros ->.
      eexists. split; [reflexivity|]. cbn [status webSocket fst snd].
      split; [apply Hin; tauto|]. split; [by intros [?|[?|?]]|].
      split; [split; [by auto|done]|].
      split; [split; [done|by intros [? _]]|].
      intros _. eexists. split; [done|]. split; [apply fresh_socket|].
      unfold set_sockets.
      cbn [monitorData offlineMap initialized cachedViewerPayload storage
           sockets effects].
      by rewrite lookup_insert_eq, insert_insert_eq.
    + unfold handleViewerWebSocket, acceptWebSocket in Hres. revert Hres.
      mrun. intros ->.
      eexists. split; [reflexivity|]. cbn [status webSocket fst snd].
      split; [apply Hin; tauto|]. split; [by intros [?|[?|?]]|].
      split; [split; [by auto|done]|].
      split; [split; [done|by intros [? _]]|].
      intros _. eexists. split; [done|]. split; [apply fresh_socket|].
      done.
    + subst result. eexists. split; [reflexivity|].
      cbn [status webSocket fst snd ret].
      split; [apply Hin; tauto|]. split; [done|].
      split; [split; [done|intros [_ [?|?]]; done]|].
      split; [split; [done|by intros [? _]]|]. done.
  - assert (forall st b, st <> 101 -> st <> 500 ->
              st = 200 \/ st = 400 \/ st = 404 ->
              forall o',
                (st = 400 \/ st = 404 -> o' = o) ->
                json request <> None \/ method request <> js "POST"
                \/ pathname request <> js "/rpc" ->
                result = (Normal (mkResponse st b None), o') ->
                exists response,
                  result.1 = Normal response
                  /\ status response ∈ [101; 200; 400; 404; 500]
                  /\ (status response = 400 \/ status response = 404
                      \/ status response = 500 -> result.2 = o)
                  /\ (status response = 101 <->
                      Upgrade request = Some (js "websocket")
                      /\ (pathname request = js "/ws/agent"
                          \/ pathname request = js "/ws/viewer"))
                  /\ (status response = 500 <->
                      Upgrade request <> Some (js "websocket")
                      /\ method request = js "POST"
                      /\ pathname request = js "/rpc"
                      /\ json request = None)
                  /\ (status response = 101 ->
                      exists ws,
                        webSocket response = Some ws
                        /\ sockets o !! ws = None
                        /\ sockets result.2
                           = <[ws := if bool_decide
                                          (pathname request = js "/ws/agent")
                                     then mkWebSocket [agent]
                                            (Some (mkAttachment false)) [] None
                                     else mkWebSocket [viewer] None [] None]>
                               (sockets o)
                        /\ monitorData result.2 = monitorData o
                        /\ storage result.2 = storage o)) as Hplain.
    { intros st b H101 H500 Hst o' Hsame Hnot ->.
      eexists. split; [reflexivity|]. cbn [status webSocket fst snd].
      split; [apply Hin; tauto|].
      split; [intros [?|[?|?]]; [by apply Hsame; left
                                |by apply Hsame; right|done]|].
      split; [split; [done|by intros [? _]]|].
      split; [|done]. split; [done|].
      intros (_ & ? & ? & ?). by destruct Hnot as [?|[?|?]]. }
    destruct (bool_decide (method request = js "POST")) eqn:Hm.
    2: { apply bool_decide_eq_false in Hm. cbn [andb] in Hres.
         apply (Hplain 404 (PlainText msg_not_found)) with (o' := o);
           [done|done|tauto|done|tauto|exact Hres]. }
    destruct (bool_decide (pathname request = js "/rpc")) eqn:Hp.
    2: { apply bool_decide_eq_false in Hp. cbn [andb] in Hres.
         apply (Hplain 404 (PlainText msg_not_found)) with (o' := o);
           [done|done|tauto|done|tauto|exact Hres]. }
    apply bool_decide_eq_true in Hm, Hp. cbn [andb] in Hres.
    unfold handleRPC, try_catch, bind, or_throw in Hres.
    destruct (json request) as [b|] eqn:Hj.
    2: { subst result. eexists. split; [reflexivity|].
         cbn [status webSocket fst snd ret].
         split; [apply Hin; tauto|]. split; [done|].
         split; [split; [done|by intros [? _]]|]. split; [|done].
         done. }
    assert (Some b <> None \/ method request <> js "POST"
            \/ pathname request <> js "/rpc") as Hsome
      by (by left).
    unfold ret at 1 in Hres. revert Hres.
    destruct (bool_decide (action b = js "fetchData")).
    { rewrite rpcFetchData_eq. intros Hres.
      eapply (Hplain 200); [done|done|tauto| |exact Hsome|exact Hres].
      by intros [?|?]. }
    destruct (bool_decide (action b = js "getInfo")).
    { intros Hres.
      eapply (Hplain 200); [done|done|tauto| |exact Hsome|exact Hres].
      by intros [?|?]. }
    destruct (bool_decide (action b = js "updateInfo")).
    { rewrite rpcUpdateInfo_eq. intros Hres.
      eapply (Hplain 200); [done|done|tauto| |exact Hsome|exact Hres].
      by intros [?|?]. }
    destruct (bool_decide (action b = js "deleteHost")).
    { rewrite rpcDeleteHost_eq.
      destruct (JsMap.has (name (req b)) (monitorData o)); intros Hres.
      - eapply (Hplain 200); [done|done|tauto| |exact Hsome|exact Hres].
        by intros [?|?].
      - apply (Hplain 404 (Failure msg_not_found)) with (o' := o);
          [done|done|tauto|done|exact Hsome|exact Hres]. }
    intros Hres.
    apply (Hplain 400 (Failure msg_unknown_action)) with (o' := o);
      [done|done|tauto|done|exact Hsome|exact Hres].
Qed.

Lemma X11_witness :
  let o :=
    Reference.run
      [EvFetch (mkRequest (Some (js "websocket")) (js "/ws/agent") (js "GET")
                  None);
       EvMessage 0 (Text (js "secret")) 1000000;
       EvMessage 0 (Reference.agent_frame (js "HK1") 1000) 1000000]
      (initial 0) in
  let unreadable := mkRequest None (js "/rpc") (js "POST") None in
  exists response,
    (fetch unreadable o).1 = Normal response
    /\ status response = 500
    /\ (fetch unreadable o).2 = o.
Proof.
  intros o unreadable. assert (string_names o) as Hstr by done.
  clearbody o.
  destruct (X11_fetch_routing unreadable o Hstr)
    as (response & Hr & _ & Hsame & _ & H500 & _).
  assert (status response = 500) as Hst by (by apply H500).
  exists response. split; [exact Hr|]. split; [exact Hst|].
  apply Hsame. by right; right.
Defined.

(* ===================================================================== *)
(** * Further properties: the name order and the sort *)
(* ===================================================================== *)

Section SortStable.
Import Utils.
Context {A : Type} (cmp : A -> A -> Z).
Context (cmp_total : forall x y, cmp x y <= 0 \/ cmp y x <= 0).
Context (cmp_trans : forall x y z, cmp x y <= 0 -> cmp y z <= 0 -> cmp x z <= 0).

Lemma Array_sort_sorted l :
  StronglySorted (fun a b => cmp a b <= 0) l -> Array_sort cmp l = l.
Proof.
  induction 1 as [|x l Hl IH Hx]; [done|].
  cbn [Array_sort foldr]. fold (Array_sort cmp l). rewrite IH.
  destruct l as [|y l]; [done|]. cbn [sort_insert].
  apply Forall_cons in Hx as [Hxy _].
  by destruct (Z.leb_spec (cmp x y) 0); [|lia].
Qed.

Lemma Array_sort_idempotent l :
  Array_sort cmp (Array_sort cmp l) = Array_sort cmp l.
Proof. by apply Array_sort_sorted, Array_sort_StronglySorted. Qed.

(** The elements of a class of mutually tied elements keep their order
    when [x] is inserted, and [x] goes in front of them. *)
Lemma filter_class_sort_insert (p : A -> bool) x l :
  (forall a b, p a = true -> p b = true -> cmp a b <= 0) ->
  List.filter p (sort_insert cmp x l) = List.filter p (x :: l).
Proof.
  intros Hp. induction l as [|y l IH]; [done|]. cbn [sort_insert].
  destruct (Z.leb_spec (cmp x y) 0) as [Hxy|Hxy]; [done|].
  cbn [List.filter] in *. rewrite IH.
  destruct (p x) eqn:Hx; [|done]. destruct (p y) eqn:Hy; [|done].
  pose proof (Hp x y Hx Hy). lia.
Qed.

Lemma filter_class_Array_sort (p : A -> bool) l :
  (forall a b, p a = true -> p b = true -> cmp a b <= 0) ->
  List.filter p (Array_sort cmp l) = List.filter p l.
Proof.
  intros Hp. induction l as [|x l IH]; [done|].
  cbn [Array_sort foldr]. fold (Array_sort cmp l).
  rewrite filter_class_sort_insert by done. cbn [List.filter]. by rewrite IH.
Qed.

End SortStable.

Section NameTies.
Import Utils.

Lemma compare_tokens_None_eq ta tb :
  compare_tokens ta tb = None -> length ta = length tb -> ta = tb.
Proof.
  revert tb. induction ta as [|a ta IH]; intros [|b tb]; try done.
  cbn [compare_tokens length]. intros Hc [= Hlen].
  destruct a as [x|x], b as [y|y]; try done.
  - destruct (Z.ltb_spec x y); [done|].
    rewrite Z.gtb_ltb in Hc. destruct (Z.ltb_spec y x); [done|].
    assert (x = y) as -> by lia. f_equal. by apply IH.
  - destruct (str_lt x y) eqn:Hxy; [done|].
    destruct (str_lt y x) eqn:Hyx; [done|].
    rewrite (str_lt_connex x y Hxy Hyx). f_equal. by apply IH.
Qed.

Lemma compare_tokens_Some ta tb r :
  compare_tokens ta tb = Some r -> r = -1 \/ r = 1.
Proof.
  revert tb. induction ta as [|a ta IH]; intros [|b tb]; try done.
  cbn [compare_tokens]. destruct a as [x|x], b as [y|y].
  - destruct (x <? y); [intros [= <-]; by left|].
    destruct (x >? y); [intros [= <-]; by right|]. apply IH.
  - intros [= <-]. by left.
  - intros [= <-]. by right.
  - destruct (str_lt x y); [intros [= <-]; by left|].
    destruct (str_lt y x); [intros [= <-]; by right|]. apply IH.
Qed.

Lemma lexcmp_eq_0 ta tb : lexcmp ta tb = 0 <-> ta = tb.
Proof.
  unfold lexcmp. split.
  - destruct (compare_tokens ta tb) as [r|] eqn:Hc.
    + intros ->. by apply compare_tokens_Some in Hc as [?|?].
    + intros Hlen. apply compare_tokens_None_eq; [done|lia].
  - intros ->. rewrite compare_tokens_refl. lia.
Qed.

(** Two names tie exactly when they have the same key. *)
Lemma compareStrings_eq_0 a b :
  compareStrings a b = 0 <-> sort_key (strip_ws a) = sort_key (strip_ws b).
Proof.
  rewrite <- lexcmp_eq_0.
  rewrite <- (Z.sgn_null_iff (compareStrings a b)).
  rewrite <- (Z.sgn_null_iff (lexcmp _ _)).
  by rewrite compareStrings_key.
Qed.

Lemma compareStrings_empty b : compareStrings [] b <= 0.
Proof.
  unfold compareStrings. cbn [strip_ws List.filter match_name span].
  unfold naturalCompare. cbn [tokenize runs fmap list_fmap compare_tokens length].
  lia.
Qed.

(** The names that tie with [z] are tied with each other. *)
Lemma ties_class z a b :
  ties compareStrings z a = true -> ties compareStrings z b = true ->
  compareStrings a b <= 0.
Proof.
  unfold ties. intros [_ Haz%Z.leb_le]%andb_true_iff
    [Hzb%Z.leb_le _]%andb_true_iff.
  by apply (compareStrings_trans a z b).
Qed.

End NameTies.

(** X12.  compareStrings is a consistent comparator, as Array.prototype.sort
    requires for a defined order: any two names are comparable, the order
    is transitive, and so is the tie.  Two names tie exactly when, after
    whitespace is removed, they have the same letters and the same number
    (an absent number counting as 0) or, outside the letters-then-digits
    shape, the same runs, a number being what parseInt reads from its
    digits: two digit runs that spell different integers tie when both
    round to the same double.  The empty name sorts before or with any
    other. *)
Theorem X12_compareStrings_consistent (a b c : jsstring) :
  (Utils.compareStrings a b <= 0 \/ Utils.compareStrings b a <= 0)
  /\ (Utils.compareStrings a b <= 0 -> Utils.compareStrings b c <= 0 ->
      Utils.compareStrings a c <= 0)
  /\ (Utils.compareStrings a b = 0 -> Utils.compareStrings b c = 0 ->
      Utils.compareStrings a c = 0)
  /\ (Utils.compareStrings a b = 0 <->
      sort_key (Utils.strip_ws a) = sort_key (Utils.strip_ws b))
  /\ Utils.compareStrings [] b <= 0.
Proof.
  split; [apply compareStrings_total|].
  split; [apply compareStrings_trans|].
  split; [|split; [apply compareStrings_eq_0|apply compareStrings_empty]].
  rewrite !compareStrings_eq_0. congruence.
Qed.

Lemma X12_witness :
  Utils.compareStrings (js "HK") (js "HK 0") = 0
  /\ Utils.compareStrings (js "HK 0") (js "HK00") = 0
  /\ Utils.compareStrings (js "HK") (js "HK00") = 0
  /\ Utils.compareStrings (js "HK2") (js "HK10") <= 0
  /\ Utils.compareStrings (js "HK10") (js "node-1") <= 0
  /\ Utils.compareStrings (js "HK2") (js "node-1") <= 0
  /\ Utils.compareStrings (js "HK9007199254740993")
       (js "HK9007199254740992") = 0.
Proof.
  assert (Utils.compareStrings (js "HK") (js "HK 0") = 0) as H1
    by reflexivity.
  assert (Utils.compareStrings (js "HK 0") (js "HK00") = 0) as H2
    by reflexivity.
  assert (Utils.compareStrings (js "HK2") (js "HK10") <= 0) as H3
    by (vm_compute; discriminate).
  assert (Utils.compareStrings (js "HK10") (js "node-1") <= 0) as H4
    by (vm_compute; discriminate).
  split; [exact H1|]. split; [exact H2|]. split.
  { by apply (X12_compareStrings_consistent (js "HK") (js "HK 0") (js "HK00")). }
  split; [exact H3|]. split; [exact H4|]. split.
  { by apply (X12_compareStrings_consistent (js "HK2") (js "HK10")
                (js "node-1")). }
  apply (X12_compareStrings_consistent (js "HK9007199254740993")
           (js "HK9007199254740992") []).
  by vm_compute.
Defined.

(** X13.  The order of getAllMonitorData is fixed by the store: snapshots
    whose names tie under compareStrings come out in the order of the Map,
    that is, in the order in which their names were first stored, and a
    store whose entries are already in name order is returned in the order
    of the Map. *)
Theorem X13_listing_keeps_ties `{Runtime} (o : MonitorDO) :
  let md := monitorData o in
  (forall z,
     List.filter (fun e => ties Utils.compareStrings z e.1) (sorted_entries md)
     = List.filter (fun e => ties Utils.compareStrings z e.1)
         (parsed_entries md))
  /\ (StronglySorted (fun x y => Utils.compareStrings x.1 y.1 <= 0)
        (parsed_entries md) ->
      (getAllMonitorData o).1 = Normal (parsed_entries md).*2).
Proof.
  intros md. split.
  - intros z. unfold sorted_entries. apply filter_class_Array_sort.
    intros a b. apply ties_class.
  - intros Hs. rewrite getAllMonitorData_eq. cbn [fst]. do 2 f_equal.
    by apply Array_sort_sorted.
Qed.

Lemma X13_witness :
  let o :=
    Reference.run
      [EvFetch (mkRequest (Some (js "websocket")) (js "/ws/agent") (js "GET") None);
       EvMessage 0 (Text (js "secret")) 1000000;
       EvMessage 0 (Reference.agent_frame (js "HK1") 1000) 1000000;
       EvMessage 0 (Reference.agent_frame (js "HK 01") 1000) 1000000;
       EvMessage 0 (Reference.agent_frame (js "HK2") 1000) 1000000;
       EvMessage 0 (Reference.agent_frame (js "HK1") 2000) 1000000]
      (initial 0) in
  host_name <$> (parsed_entries (monitorData o)).*2
  = [Some (js "HK1"); Some (js "HK 01"); Some (js "HK2")]
  /\ (getAllMonitorData o).1 = Normal (parsed_entries (monitorData o)).*2.
Proof.
  intros o.
  assert (host_name <$> (parsed_entries (monitorData o)).*2
          = [Some (js "HK1"); Some (js "HK 01"); Some (js "HK2")]) as Hn
    by (vm_compute; reflexivity).
  assert ((parsed_entries (monitorData o)).*1
          = [js "HK1"; js "HK 01"; js "HK2"]) as Hk
    by (vm_compute; reflexivity).
  clearbody o. split; [exact Hn|].
  apply (X13_listing_keeps_ties o).
  assert (forall l : list (jsstring * MonitorData),
            StronglySorted (fun x y => Utils.compareStrings x y <= 0) l.*1 ->
            StronglySorted (fun x y => Utils.compareStrings x.1 y.1 <= 0) l)
    as Hfst.
  { induction l as [|e l IH]; csimpl; [constructor|].
    intros [Hl He]%StronglySorted_inv. constructor; [by apply IH|].
    rewrite Forall_fmap in He. exact He. }
  apply Hfst. rewrite Hk.
  repeat (constructor; [|repeat (constructor; [by vm_compute|]); constructor]).
  constructor.
Defined.

(** X14.  sortByName returns the items of the array, each as often as it
    occurs, in ascending order of compareStrings on [Name ?? name ?? ""];
    items whose names tie keep their order, and sorting the result again
    changes nothing.  [Name] wins over [name], and an item with neither
    sorts before or with every other item. *)
Theorem X14_sortByName {T : Type} (Name name : T -> option jsstring)
    (items : list T) :
  let key := UtilsMore.name_of Name name in
  let sorted := UtilsMore.sortByName Name name items in
  sorted ≡ₚ items
  /\ StronglySorted
       (fun a b => Utils.compareStrings (key a) (key b) <= 0) sorted
  /\ (forall z,
        List.filter (fun a => ties Utils.compareStrings z (key a)) sorted
        = List.filter (fun a => ties Utils.compareStrings z (key a)) items)
  /\ UtilsMore.sortByName Name name sorted = sorted
  /\ (forall a n, Name a = Some n -> key a = n)
  /\ (forall a n, Name a = None -> name a = Some n -> key a = n)
  /\ (forall a b, Name a = None -> name a = None ->
        Utils.compareStrings (key a) (key b) <= 0).
Proof.
  intros key sorted.
  assert (forall x y : T,
            Utils.compareStrings (key x) (key y) <= 0
            \/ Utils.compareStrings (key y) (key x) <= 0) as Htotal
    by (intros; apply compareStrings_total).
  assert (forall x y z : T,
            Utils.compareStrings (key x) (key y) <= 0 ->
            Utils.compareStrings (key y) (key z) <= 0 ->
            Utils.compareStrings (key x) (key z) <= 0) as Htrans
    by (intros x y z; apply compareStrings_trans).
  split; [apply Array_sort_Permutation|].
  split; [by apply (Array_sort_StronglySorted _ Htotal Htrans)|].
  split.
  { intros z. unfold sorted, UtilsMore.sortByName. fold key.
    apply filter_class_Array_sort. intros a b. apply ties_class. }
  split; [by apply Array_sort_sorted, (Array_sort_StronglySorted _ Htotal Htrans)|].
  unfold key, UtilsMore.name_of.
  split; [by intros a n ->|]. split; [by intros a n -> ->|].
  intros a b -> ->. apply compareStrings_empty.
Qed.

Lemma X14_witness :
  let Name := fun a : option jsstring * option jsstring => a.1 in
  let name := fun a : option jsstring * option jsstring => a.2 in
  UtilsMore.sortByName Name name
    [(Some (js "US1"), None); (None, Some (js "HK10")); (None, None);
     (Some (js "HK2"), Some (js "ZZ9"))]
  = [(None, None); (Some (js "HK2"), Some (js "ZZ9"));
     (None, Some (js "HK10")); (Some (js "US1"), None)]
  /\ UtilsMore.name_of Name name (Some (js "HK2"), Some (js "ZZ9")) = js "HK2"
  /\ Utils.compareStrings (UtilsMore.name_of Name name (None, None))
       (UtilsMore.name_of Name name (Some (js "US1"), None)) <= 0.
Proof.
  intros Name name. split; [vm_compute; reflexivity|].
  destruct (X14_sortByName Name name []) as (_ & _ & _ & _ & H1 & _ & H3).
  split; [by apply H1|]. by apply H3.
Defined.

(* ===================================================================== *)
(** * Further properties: the formatting helpers of utils.ts *)
(* ===================================================================== *)

Section ParseCPU.
Import UtilsMore.

Lemma match_literal_app lit word rest :
  lower_ascii <$> word = lit -> match_literal lit (word ++ rest) = Some rest.
Proof.
  revert lit. induction word as [|c word IH]; intros lit; csimpl.
  { by intros <-. }
  intros <-. cbn [match_literal]. rewrite Z.eqb_refl. by apply IH.
Qed.

Lemma space_not_digit c : is_space c = true -> is_digit c = false.
Proof. unfold is_space, is_digit. lia. Qed.

Lemma lower_ascii_letter_not_space c l :
  lower_ascii c = l -> 97 <= l <= 122 -> is_space c = false.
Proof.
  unfold lower_ascii, is_space. intros <-.
  destruct ((65 <=? c) && (c <=? 90)) eqn:E; lia.
Qed.

Lemma match_cores_at_no_digit c s :
  is_digit c = false -> match_cores_at (c :: s) = None.
Proof. intros Hc. unfold match_cores_at. cbn [span]. by rewrite Hc. Qed.

Lemma match_cores_skip pre s :
  Forall (fun c => is_digit c = false) pre ->
  match_cores (pre ++ s) = match_cores s.
Proof.
  induction 1 as [|c pre Hc _ IH]; [done|].
  cbn [app match_cores]. by rewrite match_cores_at_no_digit.
Qed.

Lemma match_cores_at_digits s ds :
  match_cores_at s = Some ds ->
  ds <> [] /\ Forall (fun c => is_digit c = true) ds.
Proof.
  unfold match_cores_at. destruct (span_spec is_digit s) as (_ & Hd & _).
  destruct (span is_digit s) as [digits r1]. cbn [fst] in Hd.
  destruct digits as [|d digits]; [done|].
  destruct (span is_space r1) as [[|? ?] r2]; [done|].
  destruct (match_literal _ r2) as [r3|]; [|done].
  destruct (span is_space r3) as [[|? ?] r4]; [done|].
  destruct (match_literal _ r4); [|done]. by intros [= <-].
Qed.

Lemma match_cores_digits s ds :
  match_cores s = Some ds ->
  ds <> [] /\ Forall (fun c => is_digit c = true) ds.
Proof.
  induction s as [|c s IH]; cbn [match_cores].
  - destruct (match_cores_at []) eqn:E; [|done].
    intros [= <-]. by apply (match_cores_at_digits []).
  - destruct (match_cores_at (c :: s)) eqn:E; [|exact IH].
    intros [= <-]. by apply (match_cores_at_digits (c :: s)).
Qed.

Lemma match_cores_at_match digits space1 word1 space2 word2 post :
  digits <> [] -> Forall (fun c => is_digit c = true) digits ->
  space1 <> [] -> Forall (fun c => is_space c = true) space1 ->
  lower_ascii <$> word1 = js "virtual" ->
  space2 <> [] -> Forall (fun c => is_space c = true) space2 ->
  lower_ascii <$> word2 = js "core" ->
  match_cores_at (digits ++ space1 ++ word1 ++ space2 ++ word2 ++ post)
  = Some digits.
Proof.
  intros Hd Hds Hs1 Hsp1 Hw1 Hs2 Hsp2 Hw2. unfold match_cores_at.
  rewrite (span_app is_digit digits); [|done|].
  2: { destruct space1 as [|c ?]; [done|]. cbn [app].
       apply Forall_cons in Hsp1 as [Hc _]. by apply space_not_digit. }
  destruct digits as [|d digits']; [done|].
  rewrite (span_app is_space space1); [|done|].
  2: { destruct word1 as [|c ?]; [done|]. cbn [app].
       injection Hw1 as Hc _. by apply (lower_ascii_letter_not_space c 118). }
  destruct space1 as [|s1 space1']; [done|].
  rewrite (match_literal_app _ word1) by done.
  rewrite (span_app is_space space2); [|done|].
  2: { destruct word2 as [|c ?]; [done|]. cbn [app].
       injection Hw2 as Hc _. by apply (lower_ascii_letter_not_space c 99). }
  destruct space2 as [|s2 space2']; [done|].
  by rewrite (match_literal_app _ word2).
Qed.

End ParseCPU.

(** X15.  parseCPU returns the number in front of the first
    "<digits> Virtual Core" of the description, the two words in any
    mix of upper and lower case and each gap being one or more whitespace
    characters: when no digit precedes that place, the result is what
    parseInt reads from its digits, the nearest double to the integer they
    spell, and so that integer when it is below 2^53.  The result is never
    negative, and it is 0 for a description without a digit. *)
Theorem X15_parseCPU (cpu : jsstring) :
  0 <= UtilsMore.parseCPU cpu
  /\ (Forall (fun c => is_digit c = false) cpu -> UtilsMore.parseCPU cpu = 0)
  /\ (forall pre digits space1 word1 space2 word2 post,
        cpu = pre ++ digits ++ space1 ++ word1 ++ space2 ++ word2 ++ post ->
        Forall (fun c => is_digit c = false) pre ->
        digits <> [] -> Forall (fun c => is_digit c = true) digits ->
        space1 <> [] -> Forall (fun c => is_space c = true) space1 ->
        UtilsMore.lower_ascii <$> word1 = js "virtual" ->
        space2 <> [] -> Forall (fun c => is_space c = true) space2 ->
        UtilsMore.lower_ascii <$> word2 = js "core" ->
        UtilsMore.parseCPU cpu = to_double (decimal digits)
        /\ (decimal digits < 2 ^ 53 ->
            UtilsMore.parseCPU cpu = decimal digits)).
Proof.
  split; [|split].
  - unfold UtilsMore.parseCPU.
    destruct (UtilsMore.match_cores cpu) as [ds|] eqn:E; [|done].
    apply match_cores_digits in E as [_ Hd]. by apply parseInt10_nonneg.
  - intros Hno. unfold UtilsMore.parseCPU.
    pose proof (match_cores_skip cpu [] Hno) as Hs. rewrite app_nil_r in Hs.
    rewrite Hs. reflexivity.
  - intros pre digits space1 word1 space2 word2 post -> Hpre Hd Hds Hs1 Hsp1
      Hw1 Hs2 Hsp2 Hw2.
    unfold UtilsMore.parseCPU. rewrite match_cores_skip by done.
    assert (UtilsMore.match_cores
              (digits ++ space1 ++ word1 ++ space2 ++ word2 ++ post)
            = Some digits) as ->;
      [|split; [done|intros Hsmall; by apply parseInt10_small]].
    pose proof (match_cores_at_match digits space1 word1 space2 word2 post
                  Hd Hds Hs1 Hsp1 Hw1 Hs2 Hsp2 Hw2) as Hat.
    destruct (digits ++ space1 ++ word1 ++ space2 ++ word2 ++ post);
      cbn [UtilsMore.match_cores]; by rewrite Hat.
Qed.

Lemma X15_witness :
  UtilsMore.parseCPU (js "Intel(R) Xeon(R) CPU 4 Virtual Core") = 4
  /\ UtilsMore.parseCPU (js "unknown") = 0.
Proof.
  split.
  - eapply proj1.
    apply (X15_parseCPU (js "Intel(R) Xeon(R) CPU 4 Virtual Core"))
      with (pre := js "Intel(R) Xeon(R) CPU ") (digits := js "4")
           (space1 := js " ") (word1 := js "Virtual") (space2 := js " ")
           (word2 := js "Core") (post := []);
      first [ reflexivity | done
            | apply (bool_decide_unpack _); vm_compute; exact I
            | repeat constructor ].
  - apply (X15_parseCPU (js "unknown")). repeat constructor.
Defined.

Section Decimal.

Lemma digits_fuel_parse fuel : forall n acc,
  0 <= n < 2 ^ Z.of_nat fuel ->
  decimal (Reference.digits_fuel fuel n acc)
  = fold_left (fun a c => 10 * a + (c - 48)) acc n.
Proof.
  unfold decimal.
  induction fuel as [|fuel IH]; intros n acc Hn.
  - cbn [Reference.digits_fuel]. change (2 ^ Z.of_nat 0) with 1 in Hn.
    by assert (n = 0) as -> by lia.
  - cbn [Reference.digits_fuel].
    rewrite Nat2Z.inj_succ, Z.pow_succ_r in Hn by lia.
    destruct (Z.ltb_spec n 10) as [Hlt|Hge].
    + cbn [fold_left]. f_equal. rewrite Z.mod_small by lia. lia.
    + rewrite IH.
      * cbn [fold_left]. f_equal.
        pose proof (Z.div_mod n 10). lia.
      * split; [apply Z.div_pos; lia|].
        apply Z.div_lt_upper_bound; lia.
Qed.

(** The digits that are printed spell the number, and read back as it
    when it is below 2^53. *)
Lemma decimal_toString n : 0 <= n -> decimal (UtilsMore.toString n) = n.
Proof.
  intros Hn. unfold UtilsMore.toString, Reference.digits.
  rewrite digits_fuel_parse; [done|].
  split; [done|]. rewrite Nat2Z.inj_succ, Z2Nat.id by apply Z.log2_nonneg.
  destruct (decide (n = 0)) as [->|Hne]; [done|].
  apply Z.log2_spec. lia.
Qed.

Lemma parseInt10_toString n :
  0 <= n < 2 ^ 53 -> parseInt10 (UtilsMore.toString n) = n.
Proof.
  intros [Hn Hlt]. unfold parseInt10. rewrite decimal_toString by done.
  by apply to_double_small.
Qed.

End Decimal.

(** X16.  formatUptime prints the days, hours, minutes and seconds of a
    whole number of seconds below 2^53, joined by single spaces, leaving out each of
    days, hours and minutes that is zero and always printing the seconds.
    The four numbers recombine to the input, with hours below 24 and
    minutes and seconds below 60, and each is printed in digits that read
    back as the number.  A negative input is formatted as 0, that is as
    "0s". *)
Theorem X16_formatUptime (seconds : Z) :
  seconds < 2 ^ 53 ->
  let s := Z.max 0 seconds in
  let d := s / 86400 in
  let h := (s mod 86400) / 3600 in
  let m := (s mod 3600) / 60 in
  let sec := s mod 60 in
  let part := fun (x : Z) (unit : jsstring) =>
    if 0 <? x then [UtilsMore.toString x ++ unit] else [] in
  UtilsMore.formatUptime seconds
  = UtilsMore.join (js " ")
      (part d (js "d") ++ part h (js "h") ++ part m (js "m")
       ++ [UtilsMore.toString sec ++ js "s"])
  /\ s = d * 86400 + h * 3600 + m * 60 + sec
  /\ 0 <= d /\ 0 <= h < 24 /\ 0 <= m < 60 /\ 0 <= sec < 60
  /\ parseInt10 (UtilsMore.toString d) = d
  /\ parseInt10 (UtilsMore.toString h) = h
  /\ parseInt10 (UtilsMore.toString m) = m
  /\ parseInt10 (UtilsMore.toString sec) = sec
  /\ (seconds < 0 -> UtilsMore.formatUptime seconds = js "0s").
Proof.
  intros Hsafe s d h m sec part.
  assert (0 <= s) as Hs by lia.
  assert (s < 2 ^ 53) as Hs53 by (unfold s; lia).
  assert ((if seconds <? 0 then 0 else seconds) = s) as Hmax.
  { unfold s. destruct (Z.ltb_spec seconds 0); lia. }
  assert ((s mod 86400) mod 3600 = s mod 3600) as H1.
  { apply Z.mod_mod_divide. exists 24. reflexivity. }
  assert ((s mod 3600) mod 60 = s mod 60) as H2.
  { apply Z.mod_mod_divide. exists 60. reflexivity. }
  assert (0 <= d /\ 0 <= h < 24 /\ 0 <= m < 60 /\ 0 <= sec < 60
          /\ s = d * 86400 + h * 3600 + m * 60 + sec) as (Hd & Hh & Hm & Hsec & Hsum).
  { unfold d, h, m, sec.
    pose proof (Z.div_mod s 86400). pose proof (Z.mod_pos_bound s 86400).
    pose proof (Z.div_mod (s mod 86400) 3600).
    pose proof (Z.mod_pos_bound (s mod 86400) 3600).
    pose proof (Z.div_mod (s mod 3600) 60).
    pose proof (Z.mod_pos_bound (s mod 3600) 60).
    pose proof (Z.div_pos s 86400).
    pose proof (Z.div_pos (s mod 86400) 3600).
    pose proof (Z.div_pos (s mod 3600) 60).
    assert ((s mod 86400) / 3600 < 24)
      by (apply Z.div_lt_upper_bound; lia).
    assert ((s mod 3600) / 60 < 60)
      by (apply Z.div_lt_upper_bound; lia).
    rewrite H1 in *. rewrite H2 in *. lia. }
  split.
  { unfold UtilsMore.formatUptime. rewrite Hmax, H1, H2.
    fold d h m sec. unfold part. rewrite !Z.gtb_ltb.
    destruct (0 <? d), (0 <? h), (0 <? m); by rewrite <- ?app_assoc. }
  split; [exact Hsum|]. split; [exact Hd|]. split; [exact Hh|].
  split; [exact Hm|]. split; [exact Hsec|].
  assert (d < 2 ^ 53) by nia.
  assert (24 < 2 ^ 53 /\ 60 < 2 ^ 53) as [? ?] by done.
  split; [apply parseInt10_toString; lia|].
  split; [apply parseInt10_toString; lia|].
  split; [apply parseInt10_toString; lia|].
  split; [apply parseInt10_toString; lia|].
  intros Hneg. unfold UtilsMore.formatUptime.
  destruct (Z.ltb_spec seconds 0); [|lia]. reflexivity.
Qed.

Lemma X16_witness :
  UtilsMore.formatUptime 90061 = js "1d 1h 1m 1s"
  /\ UtilsMore.formatUptime (-7) = js "0s".
Proof.
  split.
  - destruct (X16_formatUptime 90061) as [-> _]; [done|]. reflexivity.
  - apply (X16_formatUptime (-7)); [done|]. lia.
Defined.

Section FormatSize.
Import UtilsMore.

(** Where the loop of formatSize stops. *)
Lemma scale_spec size :
  0 <= size ->
  let k := scale 6 size 0 in
  (k <= 6)%nat
  /\ (k = 0%nat <-> size < 1024)
  /\ (k <> 0%nat -> 1024 ^ Z.of_nat k <= size)
  /\ ((k < 6)%nat -> size < 1024 ^ (Z.of_nat k + 1)).
Proof.
  intros Hsize k. subst k. unfold scale.
  change (length units - 1)%nat with 6%nat.
  cbv [Z.pow Z.pow_pos Pos.iter Z.of_nat Pos.of_succ_nat Pos.succ Z.add
       Pos.add Pos.add_carry Z.mul Pos.mul Nat.ltb Nat.leb].
  rewrite !andb_true_r.
  destruct (Z.leb_spec 1024 size);
    [destruct (Z.leb_spec 1048576 size);
     [destruct (Z.leb_spec 1073741824 size);
      [destruct (Z.leb_spec 1099511627776 size);
       [destruct (Z.leb_spec 1125899906842624 size);
        [destruct (Z.leb_spec 1152921504606846976 size)|]|]|]|]|];
    repeat split; intros; try done; lia.
Qed.

End FormatSize.

(** X17.  formatSize of a whole number of bytes that a double holds, below
    10^21 EB.  Below 1024, a negative
    size counting as 0, it prints the number itself followed by " B".
    From 1024 on it picks the unit 1024^k, k from 1 (KB) to 6 (EB), the
    largest that does not exceed the size, and prints the size in that
    unit with two decimals: the printed hundredths n are the nearest to
    the exact quotient, within half a hundredth.  So n is at least 100,
    and at most 102400 below the last unit: a size just under the next
    unit is printed as 1024.00 of the smaller one. *)
Theorem X17_formatSize (size : Z) :
  UtilsMore.double_integer size ->
  size < 10 ^ 21 * 1024 ^ 6 ->
  (size < 1024 ->
   UtilsMore.formatSize size
   = UtilsMore.toString (Z.max 0 size) ++ js " B")
  /\ (1024 <= size ->
      exists (k : nat) (n : Z),
        (1 <= k <= 6)%nat
        /\ 1024 ^ Z.of_nat k <= size
        /\ ((k < 6)%nat -> size < 1024 ^ (Z.of_nat k + 1))
        /\ UtilsMore.formatSize size
           = UtilsMore.toString (n / 100) ++ js "."
             ++ [48 + (n mod 100) / 10; 48 + n mod 10] ++ js " "
             ++ nth k UtilsMore.units []
        /\ 2 * Z.abs (100 * size - n * 1024 ^ Z.of_nat k)
           <= 1024 ^ Z.of_nat k
        /\ 100 <= n
        /\ ((k < 6)%nat -> n <= 102400)).
Proof.
  intros _ _. split.
  - intros Hlt. unfold UtilsMore.formatSize.
    assert ((if size <? 0 then 0 else size) = Z.max 0 size) as ->.
    { destruct (Z.ltb_spec size 0); lia. }
    destruct (scale_spec (Z.max 0 size)) as (_ & [_ Hk] & _); [lia|].
    cbv zeta in Hk. by rewrite Hk by lia.
  - intros Hge. unfold UtilsMore.formatSize.
    destruct (Z.ltb_spec size 0); [lia|].
    destruct (scale_spec size) as (Hk6 & Hk0 & Hlow & Hhigh); [lia|].
    cbv zeta in *. set (k := UtilsMore.scale 6 size 0) in *.
    assert (k <> 0%nat) as Hne by (intros Hz; apply Hk0 in Hz; lia).
    specialize (Hlow Hne).
    set (d := 1024 ^ Z.of_nat k) in *.
    assert (0 < d) as Hd by (apply Z.pow_pos_nonneg; lia).
    exists k, ((200 * size + d) / (2 * d)).
    split; [lia|]. split; [exact Hlow|].
    assert ((k < 6)%nat -> size < 1024 * d) as Hhigh'.
    { intros Hk. specialize (Hhigh Hk).
      rewrite Z.pow_add_r in Hhigh by lia. fold d in Hhigh. lia. }
    split; [exact Hhigh|]. split.
    { destruct k as [|k']; [done|]. unfold UtilsMore.toFixed2.
      fold d. by rewrite <- !app_assoc. }
    pose proof (Z.div_mod (200 * size + d) (2 * d)) as Hdiv.
    pose proof (Z.mod_pos_bound (200 * size + d) (2 * d)) as Hmod.
    set (n := (200 * size + d) / (2 * d)) in *.
    split; [lia|]. split.
    + apply Z.div_le_lower_bound; lia.
    + intros Hk. specialize (Hhigh' Hk).
      assert (n < 102401) by (apply Z.div_lt_upper_bound; lia). lia.
Qed.

Lemma X17_witness :
  UtilsMore.formatSize 512 = js "512 B"
  /\ UtilsMore.formatSize (-3) = js "0 B"
  /\ exists (k : nat) (n : Z),
       UtilsMore.formatSize 1048575
       = UtilsMore.toString (n / 100) ++ js "."
         ++ [48 + (n mod 100) / 10; 48 + n mod 10] ++ js " "
         ++ nth k UtilsMore.units []
       /\ 2 * Z.abs (100 * 1048575 - n * 1024 ^ Z.of_nat k)
          <= 1024 ^ Z.of_nat k.
Proof.
  assert (forall m : Z, Z.abs m < 2 ^ 53 -> UtilsMore.double_integer m) as Hd.
  { intros m Hm. exists m, 0. split; [done|]. split; [done|].
    by rewrite Z.pow_0_r, Z.mul_1_r. }
  split; [|split].
  - pose proof (X17_formatSize 512 (Hd 512 eq_refl) eq_refl) as [H1 _].
    rewrite H1 by lia. reflexivity.
  - pose proof (X17_formatSize (-3) (Hd (-3) eq_refl) eq_refl) as [H1 _].
    rewrite H1 by lia. reflexivity.
  - pose proof (X17_formatSize 1048575 (Hd 1048575 eq_refl) eq_refl)
      as [_ Hbig].
    destruct Hbig as (k & n & _ & _ & _ & Hfmt & Hacc & _); [lia|].
    by exists k, n.
Defined.

(* --------------------------------------------------------------------- *)
(** ** The worker *)

Section WorkerHandlers.
Context `{Runtime} (wenv : Worker.WEnv).

Lemma Worker_handleGetInfo_eq o :
  Worker.handleGetInfo o =
    (Normal (Worker.jsonResponse
               (Worker.DHosts (storage_list (js "host:") (storage o)).*2) 200),
     o).
Proof.
  unfold Worker.handleGetInfo, Worker.doRPC, bind. rewrite fetch_rpc.
  rewrite bool_decide_eq_false_2 by done.
  rewrite bool_decide_eq_true_2 by done. done.
Qed.

Lemma Worker_handleHook_eq request o :
  Worker.handleHook wenv request o =
    if bool_decide (Worker.w_token request = Some (Worker.HOOK_TOKEN wenv))
    then (Normal (Worker.jsonResponse
                    (Worker.DMonitors (sorted_entries (monitorData o)).*2)
                    200), o)
    else (Normal (Worker.jsonResponse (Worker.DString (js "auth failed")) 401),
          o).
Proof.
  unfold Worker.handleHook. case_bool_decide; [|done]. cbn [negb].
  unfold Worker.doRPC, bind. rewrite fetch_rpc.
  rewrite bool_decide_eq_true_2 by done. by rewrite rpcFetchData_eq.
Qed.

Lemma Worker_handleUpdateInfo_eq request o :
  Worker.handleUpdateInfo wenv request o =
    match Worker.w_json request with
    | Worker.Unreadable =>
        (Normal (Worker.jsonResponse (Worker.DString (js "bad request")) 400),
         o)
    | Worker.JsonNull => (Throw TypeError, o)
    | Worker.JsonValue auth_secret b =>
        if bool_decide (auth_secret = Some (AUTH_SECRET (Worker.env wenv)))
        then
          (Normal (Worker.jsonResponse (Worker.DString (js "ok")) 200),
           set_storage
             (storage_put (host_key (name b)) (JSON_stringify_HostInfo b)) o)
        else
          (Normal (Worker.jsonResponse (Worker.DString (js "auth failed"))
                     401), o)
    end.
Proof.
  unfold Worker.handleUpdateInfo.
  destruct (Worker.w_json request) as [| |auth_secret b]; [done|done|].
  case_bool_decide; [|done]. cbn [negb].
  unfold Worker.doRPC, bind. rewrite fetch_rpc.
  rewrite !bool_decide_eq_false_2 by done.
  rewrite bool_decide_eq_true_2 by done.
  rewrite HostInfo_eta, rpcUpdateInfo_eq. done.
Qed.

Lemma Worker_handleDeleteHost_eq request o :
  Worker.handleDeleteHost wenv request o =
    match Worker.w_json request with
    | Worker.Unreadable =>
        (Normal (Worker.jsonResponse (Worker.DString (js "bad request")) 400),
         o)
    | Worker.JsonNull => (Throw TypeError, o)
    | Worker.JsonValue auth_secret b =>
        if bool_decide (auth_secret = Some (AUTH_SECRET (Worker.env wenv)))
        then
          if JsMap.has (name b) (monitorData o) then
            (Normal (Worker.jsonResponse (Worker.DString (js "ok")) 200),
             (rpcDeleteHost b o).2)
          else
            (Normal (Worker.jsonResponse (Worker.DString (js "not found"))
                       404), o)
        else
          (Normal (Worker.jsonResponse (Worker.DString (js "auth failed"))
                     401), o)
    end.
Proof.
  unfold Worker.handleDeleteHost.
  destruct (Worker.w_json request) as [| |auth_secret b]; [done|done|].
  case_bool_decide; [|done]. cbn [negb].
  unfold Worker.doRPC, bind. rewrite fetch_rpc.
  rewrite !bool_decide_eq_false_2 by done.
  rewrite bool_decide_eq_true_2 by done.
  rewrite !rpcDeleteHost_eq. cbn [name].
  by destruct (JsMap.has (name b) (monitorData o)).
Qed.

End WorkerHandlers.

Section WorkerUpgrade.
Context `{Runtime} (wenv : Worker.WEnv).

Lemma fetch_upgrade (is_agent : bool) o :
  fetch (mkRequest (Some (js "websocket"))
           (if is_agent then js "/ws/agent" else js "/ws/viewer") (js "GET")
           None) o =
    (Normal (mkResponse 101 NoBody (Some (fresh (dom (sockets o))))),
     set_sockets
       (insert (fresh (dom (sockets o)))
          (if is_agent
           then mkWebSocket [agent] (Some (mkAttachment false)) [] None
           else mkWebSocket [viewer] None [] None)) o).
Proof.
  unfold fetch. cbn [Upgrade pathname].
  rewrite bool_decide_eq_true_2 by done. destruct is_agent.
  - rewrite bool_decide_eq_true_2 by done.
    unfold handleAgentWebSocket, acceptWebSocket, ws_serializeAttachment.
    mrun. f_equal. unfold set_sockets.
    cbn [monitorData offlineMap initialized cachedViewerPayload storage
         sockets effects].
    by rewrite lookup_insert_eq, insert_insert_eq.
  - rewrite bool_decide_eq_false_2 by done.
    rewrite bool_decide_eq_true_2 by done.
    unfold handleViewerWebSocket, acceptWebSocket. by mrun.
Qed.

Lemma fetch_other_casing h path o :
  h <> js "websocket" ->
  fetch (mkRequest (Some h) path (js "GET") None) o =
    (Normal (mkResponse 404 (PlainText msg_not_found) None), o).
Proof.
  intros Hne. unfold fetch. cbn [Upgrade pathname method].
  rewrite bool_decide_eq_false_2 by congruence.
  by rewrite (bool_decide_eq_false_2 (js "GET" = js "POST")) by done.
Qed.

Lemma Worker_handleWebSocket_eq (is_agent : bool) request o :
  Worker.handleWebSocket
    (if is_agent then js "/ws/agent" else js "/ws/viewer") request o =
    match Worker.w_Upgrade request with
    | Some h =>
        if Worker.lower_is_websocket h then
          if bool_decide (h = js "websocket") then
            (Normal (Worker.forwarded
                       (mkResponse 101 NoBody
                          (Some (fresh (dom (sockets o)))))),
             set_sockets
               (insert (fresh (dom (sockets o)))
                  (if is_agent
                   then mkWebSocket [agent] (Some (mkAttachment false)) []
                          None
                   else mkWebSocket [viewer] None [] None)) o)
          else
            (Normal (Worker.forwarded
                       (mkResponse 404 (PlainText msg_not_found) None)), o)
        else
          (Normal (Worker.jsonResponse
                     (Worker.DString (js "Expected WebSocket upgrade")) 426),
           o)
    | None =>
        (Normal (Worker.jsonResponse
                   (Worker.DString (js "Expected WebSocket upgrade")) 426),
         o)
    end.
Proof.
  unfold Worker.handleWebSocket.
  destruct (Worker.w_Upgrade request) as [h|]; [|done].
  destruct (Worker.lower_is_websocket h) eqn:Hlow.
  - assert (truthy h = true) as ->.
    { destruct h; [by vm_compute in Hlow|done]. }
    cbn [negb orb]. unfold bind. case_bool_decide as Hh.
    + subst h. by rewrite fetch_upgrade.
    + by rewrite fetch_other_casing.
  - by rewrite orb_true_r.
Qed.

(** The four CORS headers after [corsify], and on the answer to OPTIONS. *)
Lemma cors_corsify response k v :
  (k, v) ∈ Worker.CORS_HEADERS ->
  JsMap.get k (Worker.w_headers (Worker.corsify response)) = Some v.
Proof.
  unfold Worker.corsify, Worker.CORS_HEADERS.
  cbn [Worker.w_headers fold_left fst snd].
  rewrite !elem_of_cons, elem_of_nil.
  intros [Heq|[Heq|[Heq|[Heq|[]]]]];
    apply (f_equal fst) in Heq as Hk; apply (f_equal snd) in Heq as Hv;
    cbn [fst snd] in Hk, Hv; subst k v; rewrite !JsMap_get_set;
    repeat (first [rewrite bool_decide_eq_true_2 by done
                  |rewrite bool_decide_eq_false_2 by done]); done.
Qed.

Lemma cors_handleOptions k v :
  (k, v) ∈ Worker.CORS_HEADERS ->
  JsMap.get k (Worker.w_headers Worker.handleOptions) = Some v.
Proof.
  unfold Worker.CORS_HEADERS. rewrite !elem_of_cons, elem_of_nil.
  intros [Heq|[Heq|[Heq|[Heq|[]]]]];
    apply (f_equal fst) in Heq as Hk; apply (f_equal snd) in Heq as Hv;
    cbn [fst snd] in Hk, Hv; subst k v; by vm_compute.
Qed.

End WorkerUpgrade.

Section WorkerRoutes.
Context `{Runtime} (wenv : Worker.WEnv).

Local Abbreviation updateUri :=
  (Worker.or_default (Worker.UPDATE_URI wenv) (js "/monitor")).
Local Abbreviation webUri :=
  (Worker.or_default (Worker.WEB_URI wenv) (js "/ws")).
Local Abbreviation hookUri :=
  (Worker.or_default (Worker.HOOK_URI wenv) (js "/hook")).
Local Abbreviation json_text s st :=
  (Worker.jsonResponse (Worker.DString (js s)) st).

(** The handler with every call to the object carried out. *)
Lemma worker_fetch_eq request o :
  Worker.worker_fetch wenv request o =
    let path := Worker.w_pathname request in
    let GET := bool_decide (Worker.w_method request = js "GET") in
    let POST := bool_decide (Worker.w_method request = js "POST") in
    let upgrade (is_agent : bool) :=
      match Worker.w_Upgrade request with
      | Some h =>
          if Worker.lower_is_websocket h then
            if bool_decide (h = js "websocket") then
              (Normal (Worker.forwarded
                         (mkResponse 101 NoBody
                            (Some (fresh (dom (sockets o)))))),
               set_sockets
                 (insert (fresh (dom (sockets o)))
                    (if is_agent
                     then mkWebSocket [agent] (Some (mkAttachment false)) []
                            None
                     else mkWebSocket [viewer] None [] None)) o)
            else
              (Normal (Worker.forwarded
                         (mkResponse 404 (PlainText msg_not_found) None)), o)
          else (Normal (json_text "Expected WebSocket upgrade" 426), o)
      | None => (Normal (json_text "Expected WebSocket upgrade" 426), o)
      end in
    let write (done : HostInfo -> Completion Worker.WResponse * MonitorDO) :=
      match Worker.w_json request with
      | Worker.Unreadable => (Normal (json_text "bad request" 400), o)
      | Worker.JsonNull => (Normal (json_text "Internal Server Error" 500), o)
      | Worker.JsonValue auth_secret b =>
          if bool_decide (auth_secret = Some (AUTH_SECRET (Worker.env wenv)))
          then done b
          else (Normal (json_text "auth failed" 401), o)
      end in
    if bool_decide (Worker.w_method request = js "OPTIONS")
    then (Normal Worker.handleOptions, o)
    else if GET && bool_decide (path = updateUri) then upgrade true
    else if GET && bool_decide (path = webUri) then upgrade false
    else if bool_decide (path = js "/info") then
      if GET then
        (Normal (Worker.jsonResponse
                   (Worker.DHosts (storage_list (js "host:") (storage o)).*2)
                   200), o)
      else if POST then
        write (fun b =>
          (Normal (json_text "ok" 200),
           set_storage
             (storage_put (host_key (name b)) (JSON_stringify_HostInfo b)) o))
      else (Normal (json_text "Method not allowed" 405), o)
    else if GET && bool_decide (path = hookUri) then
      if bool_decide (Worker.w_token request = Some (Worker.HOOK_TOKEN wenv))
      then (Normal (Worker.jsonResponse
                      (Worker.DMonitors (sorted_entries (monitorData o)).*2)
                      200), o)
      else (Normal (json_text "auth failed" 401), o)
    else if POST && bool_decide (path = js "/delete") then
      write (fun b =>
        if JsMap.has (name b) (monitorData o) then
          (Normal (json_text "ok" 200), (rpcDeleteHost b o).2)
        else (Normal (json_text "not found" 404), o))
    else if GET && bool_decide (path = js "/") then
      (Normal (Worker.jsonResponse Worker.DAbout 200), o)
    else
      (Normal (Worker.corsify
                 (Worker.mkWResponse 404 (Worker.WPlain (js "Not Found"))
                    Worker.text_plain None)), o).
Proof.
  cbv zeta. unfold Worker.worker_fetch.
  destruct (bool_decide (Worker.w_method request = js "OPTIONS")); [done|].
  unfold try_catch.
  unfold Worker.handleAgentWebSocket, Worker.handleViewerWebSocket.
  destruct (bool_decide (Worker.w_method request = js "GET"));
    destruct (bool_decide (Worker.w_method request = js "POST"));
    cbn [andb].
  all: repeat match goal with
       | |- context [bool_decide (Worker.w_pathname ?r = ?p)] =>
           destruct (bool_decide (Worker.w_pathname r = p))
       end.
  all: cbv beta.
  all: rewrite ?(Worker_handleWebSocket_eq true),
         ?(Worker_handleWebSocket_eq false), ?Worker_handleGetInfo_eq,
         ?Worker_handleUpdateInfo_eq, ?Worker_handleDeleteHost_eq,
         ?Worker_handleHook_eq.
  all: try done.
  all: try (destruct (Worker.w_Upgrade _) as [h|]; [|done];
            destruct (Worker.lower_is_websocket h); [|done];
            by destruct (bool_decide (h = js "websocket"))).
  all: try (destruct (Worker.w_json _) as [| |auth_secret b]; [done|done|];
            destruct (bool_decide (auth_secret = _)); [|done];
            try done; by destruct (JsMap.has _ _)).
  all: by destruct (bool_decide (Worker.w_token _ = _)).
Qed.

End WorkerRoutes.

Lemma lower_is_websocket_exact :
  Worker.lower_is_websocket (js "websocket") = true.
Proof. by vm_compute. Qed.

Lemma lower_is_websocket_exact_eq :
  Worker.lower_unit <$> js "websocket" = js "websocket".
Proof. by vm_compute. Qed.

(** X18.  The worker never throws, and its answer is one of 101, 200, 204,
    400, 401, 404, 405, 426 and 500.  It answers 204 exactly to OPTIONS;
    426 exactly to a GET of the agent or the viewer path whose Upgrade
    header is missing or is not websocket in some casing, and 101 exactly
    when that header is websocket in lower case; 405 exactly on /info for
    a method other than OPTIONS, GET and POST; on POST /info and POST
    /delete 400 exactly when the body cannot be read and 500 exactly when
    it is null; 401 exactly on those two for a body without the secret,
    and on a GET of the hook path that reaches the hook handler with
    another token than HOOK_TOKEN or none.  Every answer other than 101
    and 200 leaves the object as it was.  Every response that the worker
    builds itself carries the four CORS headers. *)
Theorem X18_worker_status_table `{Runtime} (wenv : Worker.WEnv)
    (request : Worker.WRequest) (o : MonitorDO) :
  let result := Worker.worker_fetch wenv request o in
  let method := Worker.w_method request in
  let path := Worker.w_pathname request in
  let updateUri :=
    Worker.or_default (Worker.UPDATE_URI wenv) (js "/monitor") in
  let webUri := Worker.or_default (Worker.WEB_URI wenv) (js "/ws") in
  let hookUri := Worker.or_default (Worker.HOOK_URI wenv) (js "/hook") in
  let upgrade := method = js "GET" /\ (path = updateUri \/ path = webUri) in
  let write :=
    method = js "POST" /\ (path = js "/info" \/ path = js "/delete") in
  exists response,
    result.1 = Normal response
    /\ Worker.w_status response
       ∈ [101; 200; 204; 400; 401; 404; 405; 426; 500]
    /\ (Worker.w_status response = 204 <-> method = js "OPTIONS")
    /\ (Worker.w_status response = 426 <->
        upgrade
        /\ forall h, Worker.w_Upgrade request = Some h ->
             Worker.lower_is_websocket h = false)
    /\ (Worker.w_status response = 101 <->
        upgrade /\ Worker.w_Upgrade request = Some (js "websocket"))
    /\ (Worker.w_status response = 405 <->
        path = js "/info" /\ method <> js "OPTIONS" /\ method <> js "GET"
        /\ method <> js "POST")
    /\ (Worker.w_status response = 400 <->
        write /\ Worker.w_json request = Worker.Unreadable)
    /\ (Worker.w_status response = 500 <->
        write /\ Worker.w_json request = Worker.JsonNull)
    /\ (Worker.w_status response = 401 <->
        (write
         /\ exists auth_secret b,
              Worker.w_json request = Worker.JsonValue auth_secret b
              /\ auth_secret <> Some (AUTH_SECRET (Worker.env wenv)))
        \/ (method = js "GET" /\ path = hookUri /\ path <> updateUri
            /\ path <> webUri /\ path <> js "/info"
            /\ Worker.w_token request <> Some (Worker.HOOK_TOKEN wenv)))
    /\ (Worker.w_status response <> 101 ->
        Worker.w_status response <> 200 -> result.2 = o)
    /\ ((forall b, Worker.w_body response <> Worker.WForwarded b) ->
        forall k v, (k, v) ∈ Worker.CORS_HEADERS ->
          JsMap.get k (Worker.w_headers response) = Some v).
Proof.
  intros result method path updateUri webUri hookUri upgrade write.
  assert (forall x : Z, x ∈ [101; 200; 204; 400; 401; 404; 405; 426; 500] <->
            x = 101 \/ x = 200 \/ x = 204 \/ x = 400 \/ x = 401 \/ x = 404
            \/ x = 405 \/ x = 426 \/ x = 500) as Hin.
  { intros x. rewrite !elem_of_cons, elem_of_nil. tauto. }
  pose proof lower_is_websocket_exact as Hexact.
  assert (js "GET" <> js "POST") as HGP by done.
  assert (js "GET" <> js "OPTIONS") as HGO by done.
  assert (js "POST" <> js "OPTIONS") as HPO by done.
  assert (js "/info" <> js "/delete") as Hid by done.
  subst result upgrade write. rewrite worker_fetch_eq. cbv zeta.
  fold method path updateUri webUri hookUri.
  assert (forall (response : Worker.WResponse) o',
    (Worker.w_status response = 101 \/ Worker.w_status response = 200
     \/ o' = o) ->
    Worker.w_status response
    ∈ [101; 200; 204; 400; 401; 404; 405; 426; 500] ->
    ((forall b, Worker.w_body response <> Worker.WForwarded b) ->
     forall k v, (k, v) ∈ Worker.CORS_HEADERS ->
       JsMap.get k (Worker.w_headers response) = Some v) ->
    forall P204 P426 P101 P405 P400 P500 P401 : Prop,
    (Worker.w_status response = 204 <-> P204) ->
    (Worker.w_status response = 426 <-> P426) ->
    (Worker.w_status response = 101 <-> P101) ->
    (Worker.w_status response = 405 <-> P405) ->
    (Worker.w_status response = 400 <-> P400) ->
    (Worker.w_status response = 500 <-> P500) ->
    (Worker.w_status response = 401 <-> P401) ->
    exists response',
      (Normal response, o').1 = Normal response'
      /\ Worker.w_status response'
         ∈ [101; 200; 204; 400; 401; 404; 405; 426; 500]
      /\ (Worker.w_status response' = 204 <-> P204)
      /\ (Worker.w_status response' = 426 <-> P426)
      /\ (Worker.w_status response' = 101 <-> P101)
      /\ (Worker.w_status response' = 405 <-> P405)
      /\ (Worker.w_status response' = 400 <-> P400)
      /\ (Worker.w_status response' = 500 <-> P500)
      /\ (Worker.w_status response' = 401 <-> P401)
      /\ (Worker.w_status response' <> 101 ->
          Worker.w_status response' <> 200 -> (Normal response, o').2 = o)
      /\ ((forall b, Worker.w_body response' <> Worker.WForwarded b) ->
          forall k v, (k, v) ∈ Worker.CORS_HEADERS ->
            JsMap.get k (Worker.w_headers response') = Some v)) as Hleaf.
  { intros response o' Hsame Hst Hcors **. exists response.
    cbn [fst snd]. repeat (split; [done|]). split; [|done].
    intros ? ?. by destruct Hsame as [?|[?|?]]. }
  assert (forall data st, forall k v, (k, v) ∈ Worker.CORS_HEADERS ->
            JsMap.get k (Worker.w_headers (Worker.jsonResponse data st))
            = Some v) as Hjson.
  { intros data st k v Hkv. by apply cors_corsify. }
  repeat match goal with
         | |- context [bool_decide ?P] =>
             let Hc := fresh "Hc" in
             destruct (decide P) as [Hc|Hc];
               [rewrite !(bool_decide_eq_true_2 _ Hc)
               |rewrite !(bool_decide_eq_false_2 _ Hc)];
               cbn [andb]
         end.
  all: try match goal with
           | |- context [match Worker.w_Upgrade ?r with _ => _ end] =>
               destruct (Worker.w_Upgrade r) as [h|] eqn:Hup;
                 [destruct (Worker.lower_is_websocket h) eqn:Hlow;
                  [destruct (decide (h = js "websocket")) as [Hh|Hh];
                     [rewrite (bool_decide_eq_true_2 _ Hh)
                     |rewrite (bool_decide_eq_false_2 _ Hh)]|]|]
           end.
  all: try match goal with
           | |- context [match Worker.w_json ?r with _ => _ end] =>
               destruct (Worker.w_json r) as [| |auth_secret b] eqn:Hjs
           end.
  all: repeat match goal with
         | |- context [bool_decide ?P] =>
             let Hc := fresh "Hc" in
             destruct (decide P) as [Hc|Hc];
               [rewrite !(bool_decide_eq_true_2 _ Hc)
               |rewrite !(bool_decide_eq_false_2 _ Hc)]
         end.
  all: try destruct (JsMap.has _ _).
  all: apply Hleaf;
    cbn [Worker.w_status Worker.w_body Worker.jsonResponse Worker.corsify
         Worker.handleOptions Worker.forwarded status body].
  all: try (first [by left | by right; left | by right; right]).
  all: try (by apply Hin; repeat (first [by left | right])).
  all: try (by intros _ k v ?; first [apply cors_corsify
                                     |apply cors_handleOptions]).
  all: try (by intros Hb; exfalso; eapply Hb).
  all: try (by intuition (try congruence)).
  all: try (by split; [done|]; intros [_ Hall];
            specialize (Hall _ eq_refl); congruence).
  all: try (by split; [done|];
            intros [[_ (s & b' & Heq & Hne)]|Hk];
              [congruence|intuition congruence]).
  all: by split; [|done]; intros _; left;
       (split; [intuition congruence|eauto]).
Qed.

(** X19.  What a request to the worker can change.  Either the object is
    as before; or the request is a POST of /info or /delete whose body
    carries AUTH_SECRET, and then /info has put the serialized host info
    under host:<name> and /delete has removed a name that was in the store
    from the store, the flags and the storage; or it is a GET of the agent
    or the viewer path with the header Upgrade: websocket, and then one
    socket was added while the store, the flags and the storage are as
    before. *)
Theorem X19_worker_writes_need_secret `{Runtime} (wenv : Worker.WEnv)
    (request : Worker.WRequest) (o : MonitorDO) :
  let o' := (Worker.worker_fetch wenv request o).2 in
  let path := Worker.w_pathname request in
  o' = o
  \/ (Worker.w_method request = js "POST"
      /\ exists b,
           Worker.w_json request
           = Worker.JsonValue (Some (AUTH_SECRET (Worker.env wenv))) b
           /\ ((path = js "/info"
                /\ o' = set_storage
                          (storage_put (host_key (name b))
                             (JSON_stringify_HostInfo b)) o)
               \/ (path = js "/delete"
                   /\ name b ∈ JsMap.keys (monitorData o)
                   /\ monitorData o' = JsMap.delete (name b) (monitorData o)
                   /\ offlineMap o' = base.delete (name b) (offlineMap o)
                   /\ kv (storage o')
                      = base.delete (monitor_key (name b)) (kv (storage o))
                   /\ sockets o' = sockets o)))
  \/ (Worker.w_method request = js "GET"
      /\ Worker.w_Upgrade request = Some (js "websocket")
      /\ (path = Worker.or_default (Worker.UPDATE_URI wenv) (js "/monitor")
          \/ path = Worker.or_default (Worker.WEB_URI wenv) (js "/ws"))
      /\ monitorData o' = monitorData o
      /\ offlineMap o' = offlineMap o
      /\ storage o' = storage o
      /\ exists ws sock,
           sockets o !! ws = None /\ sockets o' = <[ws := sock]> (sockets o)
           /\ ws_sent sock = [] /\ ws_closed sock = None).
Proof.
  intros o' path. subst o' path. rewrite worker_fetch_eq. cbv zeta.
  repeat match goal with
         | |- context [bool_decide ?P] =>
             let Hc := fresh "Hc" in
             destruct (decide P) as [Hc|Hc];
               [rewrite !(bool_decide_eq_true_2 _ Hc)
               |rewrite !(bool_decide_eq_false_2 _ Hc)];
               cbn [andb]
         end.
  all: try match goal with
           | |- context [match Worker.w_Upgrade ?r with _ => _ end] =>
               destruct (Worker.w_Upgrade r) as [h|] eqn:Hup;
                 [destruct (Worker.lower_is_websocket h) eqn:Hlow;
                  [destruct (decide (h = js "websocket")) as [Hh|Hh];
                     [rewrite (bool_decide_eq_true_2 _ Hh)
                     |rewrite (bool_decide_eq_false_2 _ Hh)]|]|]
           end.
  all: try match goal with
           | |- context [match Worker.w_json ?r with _ => _ end] =>
               destruct (Worker.w_json r) as [| |auth_secret b] eqn:Hjs
           end.
  all: repeat match goal with
         | |- context [bool_decide ?P] =>
             let Hc := fresh "Hc" in
             destruct (decide P) as [Hc|Hc];
               [rewrite !(bool_decide_eq_true_2 _ Hc)
               |rewrite !(bool_decide_eq_false_2 _ Hc)]
         end.
  all: try match goal with
           | |- context [JsMap.has ?k ?m] =>
               rewrite ?rpcDeleteHost_eq; destruct (JsMap.has k m) eqn:Hhas
           end.
  all: cbn [snd].
  all: try (by left).
  all: try (right; right; subst h; fields;
            repeat (split; [by auto|]);
            eexists _, _; split; [apply fresh_socket|];
            split; [reflexivity|]; by destruct_and?).
  all: right; left; split; [done|]; subst auth_secret; exists b;
       split; [done|].
  all: try (by left).
  all: right; split; [done|]. all: apply JsMap_has_true in Hhas.
  all: by fields.
Qed.

(** X20.  A GET of the agent path, or of the viewer path when it is not
    the agent path too.  With the header Upgrade: websocket the answer is
    the 101 of the object with a fresh socket, tagged agent and not authed
    or tagged viewer, and nothing else changes.  With websocket in another
    casing, which the worker lets through, the object does not take the
    request for an upgrade: the answer is its plain 404 and no socket is
    made.  With any other header, or none, the worker answers 426 itself
    and the object is as before. *)
Theorem X20_worker_upgrade_casing `{Runtime} (wenv : Worker.WEnv)
    (request : Worker.WRequest) (o : MonitorDO) (is_agent : bool) :
  let path := Worker.w_pathname request in
  let updateUri :=
    Worker.or_default (Worker.UPDATE_URI wenv) (js "/monitor") in
  let webUri := Worker.or_default (Worker.WEB_URI wenv) (js "/ws") in
  Worker.w_method request = js "GET" ->
  (if is_agent then path = updateUri
   else path = webUri /\ path <> updateUri) ->
  let result := Worker.worker_fetch wenv request o in
  (Worker.w_Upgrade request = Some (js "websocket") ->
   exists ws,
     result.1 = Normal (Worker.mkWResponse 101 (Worker.WForwarded NoBody) []
                          (Some ws))
     /\ sockets o !! ws = None
     /\ result.2
        = set_sockets
            (insert ws
               (if is_agent
                then mkWebSocket [agent] (Some (mkAttachment false)) [] None
                else mkWebSocket [viewer] None [] None)) o)
  /\ (forall h,
        Worker.w_Upgrade request = Some h ->
        h <> js "websocket" ->
        Worker.lower_unit <$> h = js "websocket" ->
        result
        = (Normal (Worker.mkWResponse 404
                     (Worker.WForwarded (PlainText msg_not_found))
                     Worker.text_plain None), o))
  /\ ((forall h, Worker.w_Upgrade request = Some h ->
         Worker.lower_unit <$> h <> js "websocket") ->
      result
      = (Normal (Worker.jsonResponse
                   (Worker.DString (js "Expected WebSocket upgrade")) 426),
         o)).
Proof.
  intros path updateUri webUri HGET Hpath result.
  assert (js "GET" <> js "OPTIONS") as HGO by done.
  assert (result =
    match Worker.w_Upgrade request with
    | Some h =>
        if Worker.lower_is_websocket h then
          if bool_decide (h = js "websocket") then
            (Normal (Worker.forwarded
                       (mkResponse 101 NoBody
                          (Some (fresh (dom (sockets o)))))),
             set_sockets
               (insert (fresh (dom (sockets o)))
                  (if is_agent
                   then mkWebSocket [agent] (Some (mkAttachment false)) []
                          None
                   else mkWebSocket [viewer] None [] None)) o)
          else
            (Normal (Worker.forwarded
                       (mkResponse 404 (PlainText msg_not_found) None)), o)
        else
          (Normal (Worker.jsonResponse
                     (Worker.DString (js "Expected WebSocket upgrade")) 426),
           o)
    | None =>
        (Normal (Worker.jsonResponse
                   (Worker.DString (js "Expected WebSocket upgrade")) 426),
         o)
    end) as Hres.
  { subst result. rewrite worker_fetch_eq. cbv zeta.
    fold path updateUri webUri.
    rewrite (bool_decide_eq_false_2 (Worker.w_method request = js "OPTIONS"))
      by congruence.
    rewrite !(bool_decide_eq_true_2 _ HGET). cbn [andb].
    destruct is_agent.
    - by rewrite (bool_decide_eq_true_2 _ Hpath).
    - destruct Hpath as [Hweb Hnot].
      rewrite (bool_decide_eq_false_2 _ Hnot).
      by rewrite (bool_decide_eq_true_2 _ Hweb). }
  clearbody result. subst result. unfold Worker.lower_is_websocket.
  split; [|split].
  - intros ->. rewrite (bool_decide_eq_true_2 _ lower_is_websocket_exact_eq).
    rewrite bool_decide_eq_true_2 by done.
    eexists. split; [reflexivity|]. split; [apply fresh_socket|done].
  - intros h -> Hne Hlow.
    rewrite (bool_decide_eq_true_2 _ Hlow).
    by rewrite (bool_decide_eq_false_2 _ Hne).
  - intros Hall. destruct (Worker.w_Upgrade request) as [h|]; [|done].
    by rewrite (bool_decide_eq_false_2 _ (Hall h eq_refl)).
Qed.

Lemma X20_witness :
  let wenv := Worker.mkWEnv Reference.env (js "hook-token") [] [] [] in
  let request :=
    Worker.mkWRequest (js "GET") (js "/monitor") (Some (js "WebSocket")) None
      Worker.Unreadable in
  Worker.worker_fetch wenv request (initial 0)
  = (Normal (Worker.mkWResponse 404
               (Worker.WForwarded (PlainText msg_not_found))
               Worker.text_plain None), initial 0).
Proof.
  intros wenv request.
  apply (proj1 (proj2 (X20_worker_upgrade_casing wenv request (initial 0)
                         true eq_refl eq_refl)))
    with (h := js "WebSocket"); [reflexivity|done|by vm_compute].
Defined.

(** X21.  The answers to requests that carry their credential.  A POST of
    /info whose body has AUTH_SECRET is answered 200 "ok" and the
    serialized host info is under host:<name>, the store untouched.  A
    POST of /delete with the secret is answered 200 "ok" when the name is
    in the store, and then neither the store nor the storage has it;
    otherwise 404 "not found", the object unchanged.  A GET of the hook
    path that is none of the agent path, the viewer path and /info, with
    the token HOOK_TOKEN, on a state whose identities are strings, is
    answered 200 with the snapshots of the store in name order, the object
    unchanged. *)
Theorem X21_worker_authorised_answers `{Runtime} (wenv : Worker.WEnv)
    (request : Worker.WRequest) (o : MonitorDO) :
  let path := Worker.w_pathname request in
  let result := Worker.worker_fetch wenv request o in
  (Worker.w_method request = js "POST" ->
   forall b,
     Worker.w_json request
     = Worker.JsonValue (Some (AUTH_SECRET (Worker.env wenv))) b ->
     (path = js "/info" ->
      result.1 = Normal (Worker.jsonResponse (Worker.DString (js "ok")) 200)
      /\ kv (storage result.2)
         = <[host_key (name b) := JSON_stringify_HostInfo b]>
             (kv (storage o))
      /\ monitorData result.2 = monitorData o)
     /\ (path = js "/delete" ->
         (name b ∈ JsMap.keys (monitorData o) ->
          result.1
          = Normal (Worker.jsonResponse (Worker.DString (js "ok")) 200)
          /\ (name b ∉ JsMap.keys (monitorData result.2))
          /\ kv (storage result.2) !! monitor_key (name b) = None)
         /\ (name b ∉ JsMap.keys (monitorData o) ->
             result
             = (Normal (Worker.jsonResponse
                          (Worker.DString (js "not found")) 404), o))))
  /\ (Worker.w_method request = js "GET" ->
      path = Worker.or_default (Worker.HOOK_URI wenv) (js "/hook") ->
      path <> Worker.or_default (Worker.UPDATE_URI wenv) (js "/monitor") ->
      path <> Worker.or_default (Worker.WEB_URI wenv) (js "/ws") ->
      path <> js "/info" ->
      Worker.w_token request = Some (Worker.HOOK_TOKEN wenv) ->
      string_names o ->
      result
      = (Normal (Worker.jsonResponse
                   (Worker.DMonitors (sorted_entries (monitorData o)).*2)
                   200), o)).
Proof.
  intros path result. subst result. rewrite worker_fetch_eq. cbv zeta.
  fold path.
  assert (js "POST" <> js "OPTIONS") as HPO by done.
  assert (js "POST" <> js "GET") as HPG by done.
  assert (js "GET" <> js "OPTIONS") as HGO by done.
  assert (js "/delete" <> js "/info") as Hdi by done.
  split.
  - intros HPOST b Hjs.
    rewrite (bool_decide_eq_false_2 (Worker.w_method request = js "OPTIONS"))
      by congruence.
    rewrite !(bool_decide_eq_false_2 (Worker.w_method request = js "GET"))
      by congruence.
    rewrite !(bool_decide_eq_true_2 _ HPOST). cbn [andb]. rewrite Hjs.
    rewrite !(bool_decide_eq_true_2 _
               (eq_refl (Some (AUTH_SECRET (Worker.env wenv))))).
    split.
    + intros Hinfo. rewrite (bool_decide_eq_true_2 _ Hinfo). by fields.
    + intros Hdel.
      rewrite (bool_decide_eq_false_2 (path = js "/info")) by congruence.
      rewrite (bool_decide_eq_true_2 _ Hdel). split.
      * intros Hin. rewrite rpcDeleteHost_eq.
        rewrite (proj2 (JsMap_has_true _ _) Hin). fields.
        split; [done|]. split; [apply JsMap_not_elem_of_keys_delete|].
        apply lookup_delete_eq.
      * intros Hnot. by rewrite (proj2 (JsMap_has_false _ _) Hnot).
  - intros HGET Hhook Hupd Hweb Hinfo Htok _.
    rewrite (bool_decide_eq_false_2 (Worker.w_method request = js "OPTIONS"))
      by congruence.
    rewrite !(bool_decide_eq_true_2 _ HGET). cbn [andb].
    rewrite (bool_decide_eq_false_2 _ Hupd), (bool_decide_eq_false_2 _ Hweb),
      (bool_decide_eq_false_2 _ Hinfo), (bool_decide_eq_true_2 _ Hhook).
    by rewrite (bool_decide_eq_true_2 _ Htok).
Qed.

Lemma X21_witness :
  let wenv := Worker.mkWEnv Reference.env (js "hook-token") [] [] [] in
  let o :=
    Reference.run
      [EvFetch (mkRequest (Some (js "websocket")) (js "/ws/agent") (js "GET")
                  None);
       EvMessage 0 (Text (js "secret")) 1000000;
       EvMessage 0 (Reference.agent_frame (js "HK1") 1000) 1000000]
      (initial 0) in
  let delete nm :=
    Worker.mkWRequest (js "POST") (js "/delete") None None
      (Worker.JsonValue (Some (js "secret")) (mkHostInfo nm 0 [] [] [])) in
  let hook :=
    Worker.mkWRequest (js "GET") (js "/hook") None (Some (js "hook-token"))
      Worker.Unreadable in
  (Worker.worker_fetch wenv (delete (js "HK1")) o).1
  = Normal (Worker.jsonResponse (Worker.DString (js "ok")) 200)
  /\ Worker.worker_fetch wenv (delete (js "HK2")) o
     = (Normal (Worker.jsonResponse (Worker.DString (js "not found")) 404), o)
  /\ Worker.worker_fetch wenv hook o
     = (Normal (Worker.jsonResponse
                  (Worker.DMonitors (sorted_entries (monitorData o)).*2) 200),
        o).
Proof.
  intros wenv o delete hook.
  assert (js "HK1" ∈ JsMap.keys (monitorData o)) as Hin
    by (vm_compute; apply list_elem_of_here).
  assert (js "HK2" ∉ JsMap.keys (monitorData o)) as Hnot.
  { intros Hel. vm_compute in Hel. apply list_elem_of_singleton in Hel.
    discriminate Hel. }
  clearbody o.
  split; [|split].
  - apply (proj1 (X21_worker_authorised_answers wenv (delete (js "HK1")) o)
             eq_refl _ eq_refl); [reflexivity|exact Hin].
  - apply (proj1 (X21_worker_authorised_answers wenv (delete (js "HK2")) o)
             eq_refl _ eq_refl); [reflexivity|exact Hnot].
  - by apply (proj2 (X21_worker_authorised_answers wenv hook o)).
Defined.
